(** * babylon-scriptorium: a shallow embedding of the decision core

    The development follows the layout of the TypeScript sources:

    - [JS]            the string primitives of the host language the code uses
                      ([trim], [toLowerCase], [includes], [split], ...);
    - [Regex]         the regular expressions of [tools/definitions.ts];
    - [TaskManager]   [orchestrator/TaskManager.ts];
    - [EventBus]      [events/EventBus.ts] over Node's [EventEmitter];
    - [Parsers]       [workflow/parsers.ts];
    - [Tools]         [tools/definitions.ts];
    - [AgentRuntime]  [agents/AgentRuntime.ts];
    - [WorkflowEngine] [workflow/WorkflowEngine.ts].

    Strings are sequences of code units below 256 (Stdlib [string]); numbers
    that are only stored and compared are exact rationals. *)

From Stdlib Require Import ZArith QArith Ascii String List Bool Lia.
From stdpp Require Import base option list gmap strings pretty.

Import ListNotations.
Local Open Scope string_scope.
Local Open Scope list_scope.

(** ** Outcomes of fallible code

    A JavaScript call either returns a value or throws; [Throw] carries the
    message of the exception. *)

Inductive outcome (A : Type) : Type :=
  | Ok (a : A)
  | Throw (msg : string).
Arguments Ok {A} a.
Arguments Throw {A} msg.

Definition is_ok {A} (o : outcome A) : bool :=
  match o with Ok _ => true | Throw _ => false end.

(** ** Shared enumerations of [types.ts] *)

Inductive AgentRole :=
  | analyzer | planner | executor | reviewer | coordinator | steward | oracle.

Inductive TaskStatus :=
  | ts_pending | ts_in_progress | ts_blocked | ts_review | ts_completed | ts_failed.

Inductive AgentResultStatus := ars_completed | ars_failed | ars_needs_review.

Inductive WorkflowStatus :=
  | ws_pending | ws_running | ws_completed | ws_failed | ws_paused | ws_needs_review.

Inductive ArtifactType :=
  | at_analysis | at_spec | at_decomposition | at_code_changes
  | at_review | at_coordination | at_management | at_oracle.

#[global] Instance AgentResultStatus_eq_dec : EqDecision AgentResultStatus.
Proof. solve_decision. Defined.
#[global] Instance WorkflowStatus_eq_dec : EqDecision WorkflowStatus.
Proof. solve_decision. Defined.
#[global] Instance AgentRole_eq_dec : EqDecision AgentRole.
Proof. solve_decision. Defined.

(** An [AgentResultStatus] is a [WorkflowStatus] (TypeScript's structural
    subtyping of the string-literal unions). *)
Definition to_workflow_status (s : AgentResultStatus) : WorkflowStatus :=
  match s with
  | ars_completed => ws_completed
  | ars_failed => ws_failed
  | ars_needs_review => ws_needs_review
  end.

(** ** String primitives of the host language

    Each function is the restriction to code units below 256 of the
    ECMAScript method of the same name. *)

Module JS.

(** [\s] and [String.prototype.trim]: TAB, LF, VT, FF, CR, SPACE, NBSP. *)
Definition isWhiteSpace (c : ascii) : bool :=
  let n := nat_of_ascii c in
  ((9 <=? n)%nat && (n <=? 13)%nat) || (n =? 32)%nat || (n =? 160)%nat.

(** [\w]: ASCII letters, digits and underscore. *)
Definition isWordChar (c : ascii) : bool :=
  let n := nat_of_ascii c in
  ((48 <=? n)%nat && (n <=? 57)%nat) || ((65 <=? n)%nat && (n <=? 90)%nat)
  || ((97 <=? n)%nat && (n <=? 122)%nat) || (n =? 95)%nat.

(** Line terminators, which [.] does not match. *)
Definition isLineTerminator (c : ascii) : bool :=
  let n := nat_of_ascii c in (n =? 10)%nat || (n =? 13)%nat.

Definition lowerChar (c : ascii) : ascii :=
  let n := nat_of_ascii c in
  if ((65 <=? n)%nat && (n <=? 90)%nat)
     || ((192 <=? n)%nat && (n <=? 222)%nat && negb (n =? 215)%nat)
  then ascii_of_nat (n + 32) else c.

Fixpoint toLowerCase (s : string) : string :=
  match s with
  | EmptyString => EmptyString
  | String c r => String (lowerChar c) (toLowerCase r)
  end.

Fixpoint trimStart (s : string) : string :=
  match s with
  | EmptyString => EmptyString
  | String c r => if isWhiteSpace c then trimStart r else s
  end.

Fixpoint trimEnd (s : string) : string :=
  match s with
  | EmptyString => EmptyString
  | String c r =>
      match trimEnd r with
      | EmptyString => if isWhiteSpace c then EmptyString else String c EmptyString
      | r' => String c r'
      end
  end.

Definition trim (s : string) : string := trimEnd (trimStart s).

(** [s.startsWith(p)] *)
Definition startsWith (s p : string) : bool := String.prefix p s.

(** [s.includes(sub)]: [sub] occurs somewhere in [s]. *)
Fixpoint includes (s sub : string) : bool :=
  String.prefix sub s ||
  match s with
  | EmptyString => false
  | String _ r => includes r sub
  end.

Definition endsWith (s p : string) : bool :=
  (String.length p <=? String.length s)%nat &&
  String.eqb (String.substring (String.length s - String.length p) (String.length p) s) p.

(** [s.slice(0, n)] *)
Definition sliceTo (n : nat) (s : string) : string := String.substring 0 n s.

(** [s.slice(n)] *)
Fixpoint sliceFrom (n : nat) (s : string) : string :=
  match n, s with
  | O, _ => s
  | S n', String _ r => sliceFrom n' r
  | S _, EmptyString => EmptyString
  end.

(** [s.slice(-n)] for [n > 0] *)
Definition sliceLast (n : nat) (s : string) : string :=
  sliceFrom (String.length s - n) s.

(** [parts.join(sep)] *)
Fixpoint join (sep : string) (parts : list string) : string :=
  match parts with
  | [] => EmptyString
  | [p] => p
  | p :: rest => p +:+ sep +:+ join sep rest
  end.

(** [s.split(/\s+/)]: [inws] records that the scan is inside a separator. *)
Fixpoint splitWs_go (inws : bool) (cur : string) (s : string) : list string :=
  match s with
  | EmptyString => [cur]
  | String c r =>
      if isWhiteSpace c
      then (if inws then splitWs_go true cur r else cur :: splitWs_go true EmptyString r)
      else splitWs_go false (cur +:+ String c EmptyString) r
  end.

Definition splitWs (s : string) : list string := splitWs_go false EmptyString s.

(** [s.replace(/\/$/, "")] *)
Fixpoint dropTrailingSlash (s : string) : string :=
  match s with
  | EmptyString => EmptyString
  | String c EmptyString => if Ascii.eqb c "/" then EmptyString else s
  | String c r => String c (dropTrailingSlash r)
  end.

(** [s.replace(/\\/g, "/")] *)
Fixpoint backslashesToSlashes (s : string) : string :=
  match s with
  | EmptyString => EmptyString
  | String c r =>
      String (if Ascii.eqb c "\" then "/"%char else c) (backslashesToSlashes r)
  end.

(** [s.replace(/^\.\//, "")] *)
Definition dropDotSlash (s : string) : string :=
  match s with
  | String "." (String "/" r) => r
  | _ => s
  end.

(** Truthiness of a string: the empty string is falsy. *)
Definition truthy (s : string) : bool := negb (String.eqb s EmptyString).

End JS.

(** The line feed. *)
Definition nl : string := String (ascii_of_nat 10) EmptyString.

(** ** JSON

    [JSON.parse] on the modelled alphabet. Numbers are kept as exact
    rationals; an escape [\uXXXX] above [ÿ] has no counterpart in the
    alphabet and is refused. Of an object with a repeated key the last
    member counts, as in ECMAScript. *)

Module Json.

#[warnings="-register-all"]
Inductive value :=
  | JNull
  | JBool (b : bool)
  | JNum (q : Q)
  | JStr (s : string)
  | JArr (items : list value)
  | JObj (members : list (string * value)).

Definition quote : ascii := ascii_of_nat 34.
Definition backslash : ascii := ascii_of_nat 92.

Definition isJsonWs (c : ascii) : bool :=
  let n := nat_of_ascii c in (n =? 32)%nat || (n =? 9)%nat || (n =? 10)%nat || (n =? 13)%nat.

Fixpoint skipWs (s : string) : string :=
  match s with
  | String c r => if isJsonWs c then skipWs r else s
  | EmptyString => EmptyString
  end.

Definition digitOf (c : ascii) : option Z :=
  let n := nat_of_ascii c in
  if ((48 <=? n)%nat && (n <=? 57)%nat) then Some (Z.of_nat (n - 48)) else None.

Definition hexOf (c : ascii) : option nat :=
  let n := nat_of_ascii c in
  if ((48 <=? n)%nat && (n <=? 57)%nat) then Some (n - 48)%nat
  else if ((65 <=? n)%nat && (n <=? 70)%nat) then Some (n - 55)%nat
  else if ((97 <=? n)%nat && (n <=? 102)%nat) then Some (n - 87)%nat
  else None.

(** A maximal run of digits: its value after [acc], its length, the rest. *)
Fixpoint digits (s : string) (acc : Z) (count : nat) : Z * nat * string :=
  match s with
  | String c r =>
      match digitOf c with
      | Some d => digits r (acc * 10 + d)%Z (S count)
      | None => (acc, count, s)
      end
  | EmptyString => (acc, count, s)
  end.

(** The characters of a string literal after its opening quote. *)
Fixpoint stringBody (s : string) (acc : string) : option (string * string) :=
  match s with
  | EmptyString => None
  | String c r =>
      if Ascii.eqb c quote then Some (acc, r)
      else if Ascii.eqb c backslash then
        match r with
        | String e r1 =>
            let simple (ch : nat) := stringBody r1 (acc +:+ String (ascii_of_nat ch) EmptyString) in
            if Ascii.eqb e quote then simple 34%nat
            else if Ascii.eqb e backslash then simple 92%nat
            else if Ascii.eqb e "/" then simple 47%nat
            else if Ascii.eqb e "b" then simple 8%nat
            else if Ascii.eqb e "f" then simple 12%nat
            else if Ascii.eqb e "n" then simple 10%nat
            else if Ascii.eqb e "r" then simple 13%nat
            else if Ascii.eqb e "t" then simple 9%nat
            else if Ascii.eqb e "u" then
              match r1 with
              | String h1 (String h2 (String h3 (String h4 r2))) =>
                  match hexOf h1, hexOf h2, hexOf h3, hexOf h4 with
                  | Some 0%nat, Some 0%nat, Some a, Some b =>
                      stringBody r2 (acc +:+ String (ascii_of_nat (16 * a + b)) EmptyString)
                  | _, _, _, _ => None
                  end
              | _ => None
              end
            else None
        | EmptyString => None
        end
      else if (nat_of_ascii c <? 32)%nat then None
      else stringBody r (acc +:+ String c EmptyString)
  end.

(** [m * 10^e] *)
Definition scale (m e : Z) : Q :=
  Qred (if (0 <=? e)%Z then Qmake (m * 10 ^ e) 1
        else Qmake m (Z.to_pos (10 ^ (- e)))).

(** The fraction part, if any: the digits after the point, their number. *)
Definition fraction (s : string) : option (Z * nat * string) :=
  match s with
  | String "." r =>
      match digits r 0%Z 0%nat with
      | (_, O, _) => None
      | (f, n, r') => Some (f, n, r')
      end
  | _ => Some (0%Z, 0%nat, s)
  end.

(** The exponent part, if any. *)
Definition exponent (s : string) : option (Z * string) :=
  match s with
  | String c r =>
      if Ascii.eqb c "e" || Ascii.eqb c "E" then
        let '(negative, r1) :=
          match r with
          | String "-" r1 => (true, r1)
          | String "+" r1 => (false, r1)
          | _ => (false, r)
          end in
        match digits r1 0%Z 0%nat with
        | (_, O, _) => None
        | (x, _, r2) => Some (if negative then (- x)%Z else x, r2)
        end
      else Some (0%Z, s)
  | EmptyString => Some (0%Z, s)
  end.

Definition number (s : string) : option (Q * string) :=
  let '(negative, s1) :=
    match s with String "-" r => (true, r) | _ => (false, s) end in
  match s1 with
  | String c r =>
      match digitOf c with
      | None => None
      | Some d =>
          let '(int, _, r1) :=
            if (d =? 0)%Z then (0%Z, 1%nat, r) else digits s1 0%Z 0%nat in
          match fraction r1 with
          | None => None
          | Some (f, n, r2) =>
              match exponent r2 with
              | None => None
              | Some (x, r3) =>
                  let mantissa := (int * 10 ^ Z.of_nat n + f)%Z in
                  let signed := if negative then (- mantissa)%Z else mantissa in
                  Some (scale signed (x - Z.of_nat n), r3)
              end
          end
      end
  | EmptyString => None
  end.

Fixpoint parseValue (fuel : nat) (s : string) : option (value * string) :=
  match fuel with
  | O => None
  | S fuel' =>
      match skipWs s with
      | String c r =>
          if Ascii.eqb c "{" then
            match skipWs r with
            | String "}" r1 => Some (JObj [], r1)
            | r1 => parseMembers fuel' r1 []
            end
          else if Ascii.eqb c "[" then
            match skipWs r with
            | String "]" r1 => Some (JArr [], r1)
            | r1 => parseElements fuel' r1 []
            end
          else if Ascii.eqb c quote then
            match stringBody r EmptyString with
            | Some (str, r1) => Some (JStr str, r1)
            | None => None
            end
          else if String.prefix "true" (String c r) then Some (JBool true, JS.sliceFrom 4 (String c r))
          else if String.prefix "false" (String c r) then Some (JBool false, JS.sliceFrom 5 (String c r))
          else if String.prefix "null" (String c r) then Some (JNull, JS.sliceFrom 4 (String c r))
          else
            match number (String c r) with
            | Some (q, r1) => Some (JNum q, r1)
            | None => None
            end
      | EmptyString => None
      end
  end
with parseMembers (fuel : nat) (s : string) (acc : list (string * value))
  : option (value * string) :=
  match fuel with
  | O => None
  | S fuel' =>
      match skipWs s with
      | String c r =>
          if Ascii.eqb c quote then
            match stringBody r EmptyString with
            | Some (key, r1) =>
                match skipWs r1 with
                | String ":" r2 =>
                    match parseValue fuel' r2 with
                    | Some (v, r3) =>
                        match skipWs r3 with
                        | String "," r4 => parseMembers fuel' r4 (acc ++ [(key, v)])
                        | String "}" r4 => Some (JObj (acc ++ [(key, v)]), r4)
                        | _ => None
                        end
                    | None => None
                    end
                | _ => None
                end
            | None => None
            end
          else None
      | EmptyString => None
      end
  end
with parseElements (fuel : nat) (s : string) (acc : list value) : option (value * string) :=
  match fuel with
  | O => None
  | S fuel' =>
      match parseValue fuel' s with
      | Some (v, r1) =>
          match skipWs r1 with
          | String "," r2 => parseElements fuel' r2 (acc ++ [v])
          | String "]" r2 => Some (JArr (acc ++ [v]), r2)
          | _ => None
          end
      | None => None
      end
  end.

(** [JSON.parse(text)]; it throws a [SyntaxError] on malformed text. Every
    recursive call consumes a character, so the length of the text bounds
    the depth. *)
Definition parse (text : string) : outcome value :=
  match parseValue (2 * String.length text + 2) text with
  | Some (v, rest) =>
      match skipWs rest with
      | EmptyString => Ok v
      | _ => Throw "SyntaxError"
      end
  | None => Throw "SyntaxError"
  end.

(** [parsed.key] for a parsed value: [Ok None] is [undefined]; reading a
    property of [null] throws a [TypeError]. *)
Fixpoint lookupLast (key : string) (members : list (string * value)) : option value :=
  match members with
  | [] => None
  | (k, v) :: rest =>
      match lookupLast key rest with
      | Some v' => Some v'
      | None => if String.eqb k key then Some v else None
      end
  end.

Definition prop (v : value) (key : string) : outcome (option value) :=
  match v with
  | JNull => Throw "TypeError"
  | JObj members => Ok (lookupLast key members)
  | _ => Ok None
  end.

(** Truthiness of a parsed value. *)
Definition truthy (v : value) : bool :=
  match v with
  | JNull => false
  | JBool b => b
  | JNum q => negb (Qeq_bool q 0)
  | JStr s => JS.truthy s
  | JArr _ | JObj _ => true
  end.

(** [v ?? d] where [None] is [undefined]. *)
Definition orElse (v : option value) (d : value) : value :=
  match v with
  | None | Some JNull => d
  | Some x => x
  end.

(** The own properties of a parsed object: a repeated key keeps the place of
    its first occurrence and the value of its last. *)
Fixpoint define (key : string) (v : value) (members : list (string * value))
  : list (string * value) :=
  match members with
  | [] => [(key, v)]
  | (k, old) :: rest =>
      if String.eqb k key then (k, v) :: rest else (k, old) :: define key v rest
  end.

Definition properties (members : list (string * value)) : list (string * value) :=
  fold_left (fun acc '(k, v) => define k v acc) members [].

(** An array index: the canonical decimal form of an integer below [2^32 - 1]. *)
Definition arrayIndex (key : string) : option N :=
  match key with
  | EmptyString => None
  | String c r =>
      let '(n, count, rest) := digits key 0%Z 0%nat in
      match rest with
      | EmptyString =>
          if (Ascii.eqb c "0" && negb (String.eqb r EmptyString)) then None
          else if (n <? 4294967295)%Z then Some (Z.to_N n) else None
      | _ => None
      end
  end.

Fixpoint insertIndexed (i : N) (entry : string * value) (sorted : list (N * (string * value)))
  : list (N * (string * value)) :=
  match sorted with
  | [] => [(i, entry)]
  | (j, e) :: rest =>
      if (i <? j)%N then (i, entry) :: sorted else (j, e) :: insertIndexed i entry rest
  end.

(** The order of [Object.keys]: the array indices in ascending order, then
    the other keys in the order of their creation. *)
Definition ownOrder (props : list (string * value)) : list (string * value) :=
  let indexed :=
    fold_left (fun acc '(k, v) =>
                 match arrayIndex k with
                 | Some i => insertIndexed i (k, v) acc
                 | None => acc
                 end) props [] in
  List.map snd indexed ++
  List.filter (fun '(k, _) => match arrayIndex k with Some _ => false | None => true end) props.

Definition indexed {A} (f : A -> value) (xs : list A) : list (string * value) :=
  List.map (fun '(i, x) => (pretty (N.of_nat i), f x)) (combine (seq 0 (List.length xs)) xs).

(** [Object.entries(v)]: it throws a [TypeError] on [null]; a string has its
    characters and an array its elements under their indices, a number and
    a boolean have no property. *)
Definition entries (v : value) : outcome (list (string * value)) :=
  match v with
  | JNull => Throw "Cannot convert undefined or null to object"
  | JBool _ | JNum _ => Ok []
  | JStr s => Ok (indexed (fun c => JStr (String c EmptyString)) (list_ascii_of_string s))
  | JArr items => Ok (indexed (fun x => x) items)
  | JObj members => Ok (ownOrder (properties members))
  end.

End Json.

(** [Artifact]; [art_metadata] is [None] when the object has no [metadata]. *)
Record Artifact := mkArtifact {
  art_type : ArtifactType;
  art_content : string;
  art_metadata : option (list (string * Json.value));
  art_createdAt : string;
}.

Record TokenUsage := mkTokenUsage {
  promptTokens : N;
  completionTokens : N;
  totalTokens : N;
}.

(** The messages exchanged with the model. [arguments] is the parsed JSON
    object of the call. *)
Record LLMToolCall := mkLLMToolCall {
  call_id : string;
  call_name : string;
  call_arguments : Json.value;
}.

Inductive MessageRole := role_system | role_user | role_assistant | role_tool.

Record LLMMessage := mkLLMMessage {
  msg_role : MessageRole;
  msg_content : string;
  msg_toolCalls : option (list LLMToolCall);
  msg_toolCallId : option string;
}.

Inductive StopReason := end_turn | tool_use | max_tokens.

Record LLMResponse := mkLLMResponse {
  resp_content : option string;
  resp_toolCalls : list LLMToolCall;
  resp_usage : TokenUsage;
  resp_stopReason : StopReason;
}.

Record AgentResult := mkAgentResult {
  ar_agentId : string;
  ar_role : AgentRole;
  ar_status : AgentResultStatus;
  ar_artifact : Artifact;
  ar_tokenUsage : TokenUsage;
  ar_conversationLog : list LLMMessage;
}.

(** ** [events/types.ts]

    The variants of [TaskBotEvent]. The [duration] fields, which are
    differences of wall-clock readings, and the cost tables of [cost:update]
    are left out. *)

Inductive TaskBotEvent :=
  | WorkflowStart (workflowName taskId taskDescription : string)
  | WorkflowComplete (taskId : string) (status : WorkflowStatus)
  | StepStart (stepId : string) (role : AgentRole) (taskId model provider : string)
              (subtaskId : option string)
  | StepComplete (stepId : string) (role : AgentRole) (status : AgentResultStatus)
                 (tokenUsage : TokenUsage) (taskId model provider : string)
                 (subtaskId : option string)
  | StepRetry (stepId : string) (attempt maxRetries : nat) (reason : string)
  | AgentSpawn (agentId : string) (role : AgentRole) (parentAgentId stepId : option string)
               (taskDescription : string)
  | AgentTurn (agentId : string) (turnNumber maxTurns : nat)
  | AgentToolCall (agentId toolName : string)
  | AgentContent (agentId content : string)
  | AgentToolResult (agentId toolName : string) (isError : bool)
  | AgentComplete (agentId : string) (status : AgentResultStatus) (summary : string)
  | TaskStatusChange (taskId : string) (from to : TaskStatus)
  | TaskSubtaskCreated (parentId childId description : string)
  | SubtaskStart (taskId subtaskId description : string) (index total : nat)
  | SubtaskComplete (subtaskId : string) (status : WorkflowStatus)
  | TokenUpdate (agentId : string) (usage cumulativeUsage : TokenUsage)
  | CostUpdate
  | CompositeCycleStart (cycle maxCycles : nat)
  | OracleInvoked (snapshotSummary : string)
  | OracleDecision (action : string)
  | OversightCheckIn (depth : nat) (subtaskIndex : option nat) (hasNudge : bool).

(** ** [events/EventBus.ts]

    [EventBus] wraps one Node [EventEmitter] and uses the single event name
    ["event"]. The emitter is modelled by its listener array. [emit] is
    [EventEmitter.prototype.emit]: it calls the listeners registered at the
    time of the call, synchronously and in registration order, and has no
    exception handler, so that an exception of a listener leaves [emit] at
    once and reaches the producer. *)

Module EventBus.
Section Bus.

(** The state the subscribers observe and change. *)
Context {W : Type}.

(** A subscriber: [h_id] stands for the identity of the JavaScript closure
    (what [off] compares), [h_call] for its body. *)
Record EventHandler := mkHandler {
  h_id : nat;
  h_call : TaskBotEvent -> W -> W * outcome unit;
}.

Record t := mk { emitter : list EventHandler }.

Definition new : t := {| emitter := [] |}.

Definition on (handler : EventHandler) (bus : t) : t :=
  {| emitter := emitter bus ++ [handler] |}.

(** [removeListener] removes the most recently added instance. The list is
    given most recent first. *)
Fixpoint removeFirst (i : nat) (hs : list EventHandler) : list EventHandler :=
  match hs with
  | [] => []
  | h :: r => if (h_id h =? i)%nat then r else h :: removeFirst i r
  end.

Definition off (handler : EventHandler) (bus : t) : t :=
  {| emitter := rev (removeFirst (h_id handler) (rev (emitter bus))) |}.

Definition removeAllListeners (bus : t) : t := {| emitter := [] |}.

(** The record of one [emit]: the listeners that were called, in call order,
    the state they left, and whether [emit] returned or threw. *)
Record Delivery := mkDelivery {
  called : list nat;
  world : W;
  result : outcome unit;
}.

Fixpoint callListeners (hs : list EventHandler) (event : TaskBotEvent) (w : W) : Delivery :=
  match hs with
  | [] => {| called := []; world := w; result := Ok tt |}
  | h :: r =>
      match h_call h event w with
      | (w', Ok _) =>
          let d := callListeners r event w' in
          {| called := h_id h :: called d; world := world d; result := result d |}
      | (w', Throw msg) => {| called := [h_id h]; world := w'; result := Throw msg |}
      end
  end.

Definition emit (event : TaskBotEvent) (bus : t) (w : W) : Delivery :=
  callListeners (emitter bus) event w.

End Bus.
Arguments EventHandler W : clear implicits.
Arguments t W : clear implicits.
Arguments Delivery W : clear implicits.
End EventBus.

(** ** [orchestrator/TaskManager.ts] *)

Module TaskManager.

Record TaskData := mkTaskData {
  id : string;
  parentId : option string;
  description : string;
  status : TaskStatus;
  complexity : option Q;
  assignedRole : option AgentRole;
  artifacts : list Artifact;
  subtaskIds : list string;
  createdAt : string;
  updatedAt : string;
}.

(** The manager owns the in-memory [tasks] map; [store] is the persisted
    image kept by [FileStore]: the files it wrote, by their paths. *)
Record t := mk {
  tasks : gmap string TaskData;
  store : gmap string TaskData;
}.

Definition empty : t := {| tasks := ∅; store := ∅ |}.

Definition get (i : string) (m : t) : option TaskData := tasks m !! i.

Section Store.

(** [FileStore.keyToPath]: [join(this.basePath, `${key}.json`)], which
    normalises the path, so that two keys can name the same file. *)
Variable keyToPath : string -> string.

(** [FileStore.write]: [io_ok = false] stands for a failing
    [writeFile]/[rename], which rethrows. *)
Definition persist (io_ok : bool) (task : TaskData) (m : t) : t * outcome unit :=
  if io_ok
  then ({| tasks := tasks m;
           store := <[ keyToPath ("tasks/" +:+ id task) := task ]> (store m) |}, Ok tt)
  else (m, Throw "write failed").

(** [uuid] is the value of [randomUUID()], [now] of [new Date().toISOString()]. *)
Definition create (uuid now : string) (io_ok : bool)
    (desc : string) (parent : option string) (m : t) : t * outcome TaskData :=
  let task := {| id := uuid; parentId := parent; description := desc;
                 status := ts_pending; complexity := None; assignedRole := None;
                 artifacts := []; subtaskIds := [];
                 createdAt := now; updatedAt := now |} in
  let m1 := {| tasks := <[ uuid := task ]> (tasks m); store := store m |} in
  match persist io_ok task m1 with
  | (m2, Ok _) => (m2, Ok task)
  | (m2, Throw e) => (m2, Throw e)
  end.

Definition setComplexity (i : string) (c : Q) (now : string) (io_ok : bool)
    (m : t) : t * outcome unit :=
  match tasks m !! i with
  | None => (m, Ok tt)
  | Some task =>
      let task' := {| id := id task; parentId := parentId task;
                      description := description task; status := status task;
                      complexity := Some c;
                      assignedRole := assignedRole task;
                      artifacts := artifacts task; subtaskIds := subtaskIds task;
                      createdAt := createdAt task; updatedAt := now |} in
      persist io_ok task' {| tasks := <[ i := task' ]> (tasks m); store := store m |}
  end.

Definition updateStatus (i : string) (s : TaskStatus) (now : string) (io_ok : bool)
    (m : t) : t * outcome (option TaskData) :=
  match tasks m !! i with
  | None => (m, Ok None)
  | Some task =>
      let task' := {| id := id task; parentId := parentId task;
                      description := description task; status := s;
                      complexity := complexity task;
                      assignedRole := assignedRole task;
                      artifacts := artifacts task; subtaskIds := subtaskIds task;
                      createdAt := createdAt task; updatedAt := now |} in
      match persist io_ok task' {| tasks := <[ i := task' ]> (tasks m); store := store m |} with
      | (m2, Ok _) => (m2, Ok (Some task'))
      | (m2, Throw e) => (m2, Throw e)
      end
  end.

End Store.

(** The complexity stored in memory for task [i]. *)
Definition stored_complexity (i : string) (m : t) : option Q :=
  match tasks m !! i with
  | Some task => complexity task
  | None => None
  end.

End TaskManager.


(** ** Regular expressions

    The fragment of ECMAScript regular expressions that the sources use:
    literals, classes, sequence, alternation, greedy repetition, the
    assertions [\b], [^] and [$], and the flags [i] and [m]. [RegExp.test]
    without the [g] flag asks whether the pattern matches at some position;
    for this fragment that does not depend on the order in which the
    backtracking matcher explores the alternatives. *)

Module Regex.

Inductive re :=
  | Eps
  | Chr (c : ascii)
  | Cls (p : ascii -> bool)
  | Seq (r1 r2 : re)
  | Alt (r1 r2 : re)
  | Star (r : re)
  | WordB
  | Bol
  | Eol.

Record Flags := mkFlags { ignoreCase : bool; multiline : bool }.

Definition noFlags : Flags := {| ignoreCase := false; multiline := false |}.

Definition Plus (r : re) : re := Seq r (Star r).
Definition Opt (r : re) : re := Alt r Eps.

(** The literal string [s]. *)
Fixpoint Lit (s : string) : re :=
  match s with
  | EmptyString => Eps
  | String c EmptyString => Chr c
  | String c r => Seq (Chr c) (Lit r)
  end.

Fixpoint Seqs (rs : list re) : re :=
  match rs with
  | [] => Eps
  | [r] => r
  | r :: rest => Seq r (Seqs rest)
  end.

Definition ws : re := Cls JS.isWhiteSpace.
Definition anyChar : re := Cls (fun c => negb (JS.isLineTerminator c)).

Definition isWordOpt (c : option ascii) : bool :=
  match c with Some c => JS.isWordChar c | None => false end.

Definition head (s : string) : option ascii :=
  match s with EmptyString => None | String c _ => Some c end.

Definition isLineTerminatorOpt (c : option ascii) : bool :=
  match c with Some c => JS.isLineTerminator c | None => false end.

Definition charMatches (f : Flags) (c d : ascii) : bool :=
  if ignoreCase f then Ascii.eqb (JS.lowerChar c) (JS.lowerChar d) else Ascii.eqb c d.

(** [matchK f r prev s k]: [r] matches a prefix of [s], the character before
    [s] being [prev], and [k] accepts what follows. *)
Fixpoint matchK (f : Flags) (r : re) (prev : option ascii) (s : string)
    (k : option ascii -> string -> bool) {struct r} : bool :=
  match r with
  | Eps => k prev s
  | Chr c =>
      match s with
      | String d rest => charMatches f c d && k (Some d) rest
      | EmptyString => false
      end
  | Cls p =>
      match s with
      | String d rest => p d && k (Some d) rest
      | EmptyString => false
      end
  | Seq r1 r2 => matchK f r1 prev s (fun prev' s' => matchK f r2 prev' s' k)
  | Alt r1 r2 => matchK f r1 prev s k || matchK f r2 prev s k
  | Star r1 =>
      (fix loop (fuel : nat) (prev : option ascii) (s : string) {struct fuel} : bool :=
         k prev s ||
         match fuel with
         | O => false
         | S fuel' =>
             matchK f r1 prev s
               (fun prev' s' =>
                  (String.length s' <? String.length s)%nat && loop fuel' prev' s')
         end) (String.length s) prev s
  | WordB => xorb (isWordOpt prev) (isWordOpt (head s)) && k prev s
  | Bol =>
      (match prev with None => true | Some c => multiline f && JS.isLineTerminator c end)
      && k prev s
  | Eol =>
      (match s with
       | EmptyString => true
       | String c _ => multiline f && JS.isLineTerminator c
       end) && k prev s
  end.

Fixpoint searchFrom (f : Flags) (r : re) (prev : option ascii) (s : string) : bool :=
  matchK f r prev s (fun _ _ => true) ||
  match s with
  | EmptyString => false
  | String c rest => searchFrom f r (Some c) rest
  end.

(** A regular expression literal: its source text, its flags and its syntax tree. *)
Record RegExp := mkRegExp { source : string; flags : Flags; tree : re }.

(** [pattern.test(s)] *)
Definition test (pattern : RegExp) (s : string) : bool :=
  searchFrom (flags pattern) (tree pattern) None s.

End Regex.

(** ** [node:path], POSIX flavour

    [resolve] and [relative] as the tools use them. [cwd] is the value of
    [process.cwd()], an absolute path. A resolved path is kept as its list of
    segments. *)

Module Path.

Fixpoint split_go (sep : ascii) (cur : string) (s : string) : list string :=
  match s with
  | EmptyString => [cur]
  | String c r =>
      if Ascii.eqb c sep then cur :: split_go sep EmptyString r
      else split_go sep (cur +:+ String c EmptyString) r
  end.

(** [p.split("/")] *)
Definition segments (p : string) : list string := split_go "/" EmptyString p.

Definition isAbsolute (p : string) : bool := JS.startsWith p "/".

(** Normalisation: empty and ["."] segments vanish, [".."] removes the
    segment before it and is dropped at the root. [stack] is reversed. *)
Fixpoint normalizeSegs (stack : list string) (segs : list string) : list string :=
  match segs with
  | [] => rev stack
  | seg :: rest =>
      if String.eqb seg "" || String.eqb seg "." then normalizeSegs stack rest
      else if String.eqb seg ".." then normalizeSegs (List.tl stack) rest
      else normalizeSegs (seg :: stack) rest
  end.

(** [resolve(...paths)]: the arguments are taken from the right until an
    absolute one is met; [acc] holds the segments of the arguments to its
    right. *)
Fixpoint resolve_go (cwd : string) (rpaths : list string) (acc : list string) : list string :=
  match rpaths with
  | [] => normalizeSegs [] (segments cwd ++ acc)
  | p :: rest =>
      if isAbsolute p then normalizeSegs [] (segments p ++ acc)
      else resolve_go cwd rest (segments p ++ acc)
  end.

Definition resolve (cwd : string) (paths : list string) : list string :=
  resolve_go cwd (rev paths) [].

Definition toString (segs : list string) : string := "/" +:+ JS.join "/" segs.

(** [relative(from, to)] on resolved paths. *)
Fixpoint relativeSegs (from to : list string) : list string :=
  match from, to with
  | f :: fr, t :: tr =>
      if String.eqb f t then relativeSegs fr tr
      else List.map (fun _ => "..") from ++ to
  | [], _ => to
  | _ :: _, [] => List.map (fun _ => "..") from
  end.

Definition relative (from to : list string) : string :=
  JS.join "/" (relativeSegs from to).

End Path.

(** ** [tools/definitions.ts] *)

Record ToolContext := mkToolContext {
  tc_taskId : string;
  tc_agentId : string;
  workingDirectory : string;
  fileScope : option (list string);
  aborted : bool;
}.

Record ToolExecutionResult := mkToolExecutionResult {
  content : string;
  isError : bool;
}.

Module Tools.

Import Regex.

Definition BLOCKED_COMMANDS : list RegExp :=
  [ mkRegExp "\brm\s+-rf\s+[/~]" noFlags
      (Seqs [WordB; Lit "rm"; Plus ws; Lit "-rf"; Plus ws;
             Cls (fun c => Ascii.eqb c "/" || Ascii.eqb c "~")]);
    mkRegExp "\bgit\s+push\s+--force" noFlags
      (Seqs [WordB; Lit "git"; Plus ws; Lit "push"; Plus ws; Lit "--force"]);
    mkRegExp "\bgit\s+push\s+-f\b" noFlags
      (Seqs [WordB; Lit "git"; Plus ws; Lit "push"; Plus ws; Lit "-f"; WordB]);
    mkRegExp "\bnpm\s+publish\b" noFlags
      (Seqs [WordB; Lit "npm"; Plus ws; Lit "publish"; WordB]);
    mkRegExp "\bnpx\s+.*publish" noFlags
      (Seqs [WordB; Lit "npx"; Plus ws; Star anyChar; Lit "publish"]);
    mkRegExp "\bsudo\s+rm\b" noFlags
      (Seqs [WordB; Lit "sudo"; Plus ws; Lit "rm"; WordB]);
    mkRegExp "\bmkfs\b" noFlags
      (Seqs [WordB; Lit "mkfs"; WordB]);
    mkRegExp "\bdd\s+if=" noFlags
      (Seqs [WordB; Lit "dd"; Plus ws; Lit "if="]);
    (* [|] splits the pattern in two alternatives; [()] is an empty group
       and the braces are literal characters *)
    mkRegExp "\b:(){ :|:& };:" noFlags
      (Alt (Seqs [WordB; Lit ":"; Eps; Lit "{ :"]) (Lit ":& };:")) ].

Fixpoint firstMatch (patterns : list RegExp) (command : string) : option RegExp :=
  match patterns with
  | [] => None
  | pattern :: rest => if test pattern command then Some pattern else firstMatch rest command
  end.

Definition isCommandBlocked (command : string) : option string :=
  match firstMatch BLOCKED_COMMANDS command with
  | Some pattern => Some ("Command blocked by safety policy: matches " +:+ source pattern)
  | None => None
  end.

Definition NON_TERMINATING_PATTERNS : list RegExp :=
  [ mkRegExp "\bnpm\s+run\s+dev\b" noFlags
      (Seqs [WordB; Lit "npm"; Plus ws; Lit "run"; Plus ws; Lit "dev"; WordB]);
    mkRegExp "\bnpm\s+start\b" noFlags (Seqs [WordB; Lit "npm"; Plus ws; Lit "start"; WordB]);
    mkRegExp "\byarn\s+dev\b" noFlags (Seqs [WordB; Lit "yarn"; Plus ws; Lit "dev"; WordB]);
    mkRegExp "\byarn\s+start\b" noFlags (Seqs [WordB; Lit "yarn"; Plus ws; Lit "start"; WordB]);
    mkRegExp "\bnext\s+dev\b" noFlags (Seqs [WordB; Lit "next"; Plus ws; Lit "dev"; WordB]);
    mkRegExp "\bvite\b" noFlags (Seqs [WordB; Lit "vite"; WordB]);
    mkRegExp "\bnpm\s+run\s+watch\b" noFlags
      (Seqs [WordB; Lit "npm"; Plus ws; Lit "run"; Plus ws; Lit "watch"; WordB]);
    mkRegExp "\byarn\s+watch\b" noFlags (Seqs [WordB; Lit "yarn"; Plus ws; Lit "watch"; WordB]);
    mkRegExp "\btsx\s+watch\b" noFlags (Seqs [WordB; Lit "tsx"; Plus ws; Lit "watch"; WordB]);
    mkRegExp "\bts-node-dev\b" noFlags (Seqs [WordB; Lit "ts-node-dev"; WordB]);
    mkRegExp "\bnodemon\b" noFlags (Seqs [WordB; Lit "nodemon"; WordB]);
    mkRegExp "\bhttp-server\b" noFlags (Seqs [WordB; Lit "http-server"; WordB]);
    mkRegExp "\bnpx\s+http-server\b" noFlags
      (Seqs [WordB; Lit "npx"; Plus ws; Lit "http-server"; WordB]) ].

Definition isCommandNonTerminating (command : string) : option string :=
  match firstMatch NON_TERMINATING_PATTERNS command with
  | Some _ =>
      Some "This command typically does not exit. Use a one-off command instead (e.g. npm run build, npm test)."
  | None => None
  end.

Definition MAX_TOOL_OUTPUT : N := 30000.
Definition RESTRICTED_DIR : string := ".babylon".

Definition isPathUnderRestricted (relativePath : string) : bool :=
  let normalized := JS.dropDotSlash (JS.backslashesToSlashes relativePath) in
  String.eqb normalized RESTRICTED_DIR || JS.startsWith normalized (RESTRICTED_DIR +:+ "/").

Definition truncateOutput (output : string) : string :=
  let len := N.of_nat (String.length output) in
  if (len <=? MAX_TOOL_OUTPUT)%N then output
  else
    let half := N.to_nat (MAX_TOOL_OUTPUT / 2)%N in
    let omitted := (len - MAX_TOOL_OUTPUT)%N in
    JS.sliceTo half output +:+ nl +:+ nl +:+ "[… truncated " +:+ pretty omitted
      +:+ " characters …]" +:+ nl +:+ nl +:+ JS.sliceLast half output.

(** *** The outside world of a tool call

    What [execa] and the [node:fs/promises] functions answer is given by the
    environment; the calls a tool makes are recorded in order. *)

Record ExecaResult := mkExecaResult {
  stdout : string;
  stderr : string;
  exitCode : option Z;
}.

Inductive IO :=
  | Execa (command cwd : string)
  | ReadFile (path : list string)
  | WriteFile (path : list string) (data : string)
  | Readdir (path : list string)
  | LogTool (format : string) (args : list string).

Record Env := mkEnv {
  cwd : string;
  execa : string -> string -> outcome ExecaResult;
  readFile : list string -> outcome string;
  writeFile : list string -> string -> outcome unit;
}.

Definition ioPaths (log : list IO) : list (list string) :=
  flat_map (fun io => match io with
                      | ReadFile p | WriteFile p _ | Readdir p => [p]
                      | Execa _ _ | LogTool _ _ => []
                      end) log.

Definition spawned (log : list IO) : list string :=
  flat_map (fun io => match io with Execa c _ => [c] | _ => [] end) log.

Definition exitCodeText (code : option Z) : string :=
  match code with Some z => pretty z | None => "undefined" end.

Definition promptPattern : RegExp :=
  mkRegExp "\(y/n\)|\(Y/n\)|Continue\?|proceed\?|\[y/N\]|>\s*$"
    {| ignoreCase := true; multiline := true |}
    (Alt (Lit "(y/n)") (Alt (Lit "(Y/n)") (Alt (Lit "Continue?") (Alt (Lit "proceed?")
       (Alt (Lit "[y/N]") (Seqs [Lit ">"; Star ws; Eol])))))).

Definition PROMPT_HINT : string :=
  nl +:+ nl +:+ "[Command was run with no stdin; it may have been waiting for input. Retry with piped input (e.g. yes | cmd or echo y | cmd) or use -y/--yes if available.]".

Definition CANCELLED : ToolExecutionResult :=
  {| content := "Command cancelled (aborted by user)."; isError := true |}.

Definition exitCodeIsZero (code : option Z) : bool :=
  match code with Some z => (z =? 0)%Z | None => false end.

(** [args.cwd ? resolve(context.workingDirectory, args.cwd) : context.workingDirectory] *)
Definition commandDir (env : Env) (cwdArg : option string) (context : ToolContext) : string :=
  match cwdArg with
  | Some c => if JS.truthy c
              then Path.toString (Path.resolve (cwd env) [workingDirectory context; c])
              else workingDirectory context
  | None => workingDirectory context
  end.

(** [`git ${operation} ${gitArgs}`.trim()] *)
Definition gitCommand (operation : string) (gitArgs : option string) : string :=
  JS.trim ("git " +:+ operation +:+ " " +:+ match gitArgs with Some a => a | None => "" end).

(** The exit code [execa] reported, if it reported a result. *)
Definition reportedExitCode (o : outcome ExecaResult) : option Z :=
  match o with Ok result => exitCode result | Throw _ => None end.

(** [runTerminalCommandTool.execute] *)
Definition runTerminalCommand (env : Env) (command : string) (cwdArg : option string)
    (context : ToolContext) : list IO * outcome ToolExecutionResult :=
  match isCommandBlocked command with
  | Some blocked => ([], Ok {| content := blocked; isError := true |})
  | None =>
      match isCommandNonTerminating command with
      | Some nonTerminating => ([], Ok {| content := nonTerminating; isError := true |})
      | None =>
          let dir := commandDir env cwdArg context in
          match execa env command dir with
          | Ok result =>
              let rawOut :=
                JS.join (nl +:+ nl)
                  (List.filter JS.truthy
                     [ if JS.truthy (stdout result) then "stdout:" +:+ nl +:+ stdout result else "";
                       if JS.truthy (stderr result) then "stderr:" +:+ nl +:+ stderr result else "";
                       "exit code: " +:+ exitCodeText (exitCode result) ]) in
              let hint := if test promptPattern rawOut then PROMPT_HINT else "" in
              ([Execa command dir],
               Ok {| content := truncateOutput (rawOut +:+ hint);
                     isError := negb (exitCodeIsZero (exitCode result)) |})
          | Throw msg =>
              ([Execa command dir],
               if aborted context then Ok CANCELLED
               else Throw ("Command failed: " +:+ msg))
          end
      end
  end.

(** [gitOperationsTool.execute] *)
Definition gitOperations (env : Env) (operation : string) (gitArgs : option string)
    (context : ToolContext) : list IO * outcome ToolExecutionResult :=
  let command := gitCommand operation gitArgs in
  match execa env command (workingDirectory context) with
  | Ok result =>
      let output :=
        JS.join nl
          (List.filter JS.truthy
             [ stdout result;
               if JS.truthy (stderr result) then "stderr: " +:+ stderr result else "" ]) in
      ([Execa command (workingDirectory context)],
       Ok {| content := truncateOutput (if JS.truthy output then output else "(no output)");
             isError := negb (exitCodeIsZero (exitCode result)) |})
  | Throw msg =>
      ([Execa command (workingDirectory context)],
       if aborted context then Ok CANCELLED
       else Throw ("Git operation failed: " +:+ msg))
  end.

(** *** File tools *)

Definition PATH_OUTSIDE : ToolExecutionResult :=
  {| content := "Path must stay under the working directory."; isError := true |}.

Definition PATH_RESTRICTED : ToolExecutionResult :=
  {| content := "Access to this path is not allowed."; isError := true |}.

(** [resolve(context.workingDirectory)] *)
Definition basePathOf (env : Env) (context : ToolContext) : list string :=
  Path.resolve (cwd env) [workingDirectory context].

(** [resolve(basePath, p)] *)
Definition resolveUnder (env : Env) (context : ToolContext) (p : string) : list string :=
  Path.resolve (cwd env) [Path.toString (basePathOf env context); p].

(** [relative(basePath, resolve(basePath, p))] *)
Definition relOf (env : Env) (context : ToolContext) (p : string) : string :=
  Path.relative (basePathOf env context) (resolveUnder env context p).

(** [content.split(/\r?\n/)] *)
Fixpoint splitLines_go (cur : string) (s : string) : list string :=
  match s with
  | EmptyString => [cur]
  | String c r =>
      if Ascii.eqb c (ascii_of_nat 10) then cur :: splitLines_go EmptyString r
      else
        match r with
        | String d r' =>
            if Ascii.eqb c (ascii_of_nat 13) && Ascii.eqb d (ascii_of_nat 10)
            then cur :: splitLines_go EmptyString r'
            else splitLines_go (cur +:+ String c EmptyString) r
        | EmptyString => [cur +:+ String c EmptyString]
        end
  end.

Definition splitLines (s : string) : list string := splitLines_go EmptyString s.

(** [readFileTool.execute] *)
Definition readFileTool (env : Env) (path : string) (startLine endLine : option Z)
    (context : ToolContext) : list IO * outcome ToolExecutionResult :=
  let filePath := resolveUnder env context path in
  let rel := relOf env context path in
  if JS.startsWith rel ".." then ([], Ok PATH_OUTSIDE)
  else if isPathUnderRestricted rel then ([], Ok PATH_RESTRICTED)
  else
    match readFile env filePath with
    | Ok text =>
        ([ReadFile filePath],
         Ok match startLine, endLine with
            | Some a, Some b =>
                if ((1 <=? a)%Z && (a <=? b)%Z)
                then
                  let lines := splitLines text in
                  let upto := Z.to_nat (Z.min b (Z.of_nat (List.length lines))) in
                  let first := Z.to_nat (a - 1) in
                  let slice := firstn (upto - first) (skipn first lines) in
                  {| content := truncateOutput ("[Lines " +:+ pretty a +:+ "-" +:+ pretty b
                                                +:+ "]" +:+ nl +:+ JS.join nl slice);
                     isError := false |}
                else {| content := truncateOutput text; isError := false |}
            | _, _ => {| content := truncateOutput text; isError := false |}
            end)
    | Throw msg => ([ReadFile filePath], Throw ("Failed to read file: " +:+ msg))
    end.

Definition READ_FILES_MAX : nat := 10.
Definition READ_FILES_PER_FILE : N := 8000.
Definition READ_FILES_TOTAL : N := 25000.

(** The [for] loop of [readFilesTool.execute]: [parts], [totalLen] and the
    calls made so far are carried along. *)
Fixpoint readFiles_loop (env : Env) (context : ToolContext) (paths : list string)
    (parts : list string) (totalLen : N) (log : list IO) : list string * N * list IO :=
  match paths with
  | [] => (parts, totalLen, log)
  | p :: rest =>
      if (READ_FILES_TOTAL <=? totalLen)%N then (parts, totalLen, log)
      else
        let filePath := resolveUnder env context p in
        let rel := relOf env context p in
        if JS.startsWith rel ".."
        then readFiles_loop env context rest
               (parts ++ ["--- " +:+ p +:+ " ---" +:+ nl +:+ "(path outside working directory)"])
               totalLen log
        else if isPathUnderRestricted rel
        then readFiles_loop env context rest
               (parts ++ ["--- " +:+ p +:+ " ---" +:+ nl +:+ "(path not accessible)"])
               totalLen log
        else
          match readFile env filePath with
          | Ok text =>
              let len := N.of_nat (String.length text) in
              let truncated :=
                if (len <=? READ_FILES_PER_FILE)%N then text
                else JS.sliceTo (N.to_nat READ_FILES_PER_FILE) text +:+ nl +:+ nl
                     +:+ "[… truncated " +:+ pretty (len - READ_FILES_PER_FILE)%N
                     +:+ " characters …]" in
              readFiles_loop env context rest
                (parts ++ ["--- " +:+ p +:+ " ---" +:+ nl +:+ truncated])
                (totalLen + N.of_nat (String.length truncated)
                 + N.of_nat (String.length p) + 10)%N
                (log ++ [ReadFile filePath])
          | Throw msg =>
              readFiles_loop env context rest
                (parts ++ ["--- " +:+ p +:+ " ---" +:+ nl +:+ "Error: " +:+ msg])
                totalLen (log ++ [ReadFile filePath])
          end
  end.

(** [readFilesTool.execute]; [rawPaths] are the strings of [args.paths]. *)
Definition readFilesTool (env : Env) (rawPaths : list string) (context : ToolContext)
  : list IO * outcome ToolExecutionResult :=
  let paths := firstn READ_FILES_MAX rawPaths in
  match paths with
  | [] => ([], Ok {| content := "paths must be a non-empty array of paths."; isError := true |})
  | _ =>
      let '(parts, totalLen, log) := readFiles_loop env context paths [] 0%N [] in
      let output := JS.join (nl +:+ nl) parts in
      (log, Ok {| content := if (READ_FILES_TOTAL <=? totalLen)%N
                             then truncateOutput output else output;
                  isError := false |})
  end.

(** The value of [totalLen] when the loop has gone through [paths]. *)
Definition totalLenAfter (env : Env) (context : ToolContext) (paths : list string) : N :=
  snd (fst (readFiles_loop env context paths [] 0%N [])).

(** [writeFileTool.execute] *)
Definition writeFileTool (env : Env) (path data : string) (context : ToolContext)
  : list IO * outcome ToolExecutionResult :=
  let filePath := resolveUnder env context path in
  let rel := relOf env context path in
  if JS.startsWith rel ".." then ([], Ok PATH_OUTSIDE)
  else if isPathUnderRestricted rel then ([], Ok PATH_RESTRICTED)
  else
    let warning :=
      match fileScope context with
      | Some (scope :: scopes) =>
          if existsb (fun sc => JS.startsWith path sc || String.eqb path sc) (scope :: scopes)
          then []
          else [LogTool "SCOPE WARNING: write to %s is outside assigned scope %o"
                        (path :: scope :: scopes)]
      | _ => []
      end in
    match writeFile env filePath data with
    | Ok _ =>
        (warning ++ [WriteFile filePath data],
         Ok {| content := "Successfully wrote to " +:+ path; isError := false |})
    | Throw msg =>
        (warning ++ [WriteFile filePath data], Throw ("Failed to write file: " +:+ msg))
    end.

Section DirectoryTools.

(** What [listDirectoryTool.execute] does once the path is accepted: the
    [readdir] walk of the directory up to [maxDepth] levels. *)
Variable listDirectoryBody : Env -> list string -> nat -> list IO * outcome ToolExecutionResult.

(** What [searchInFilesTool.execute] does once path and pattern are accepted:
    it collects the files under the search path and scans them for the pattern. *)
Variable searchBody :
  Env -> list string -> string -> option string -> option Z ->
  list IO * outcome ToolExecutionResult.

(** [listDirectoryTool.execute] *)
Definition listDirectoryTool (env : Env) (path : option string) (maxDepthArg : option Z)
    (context : ToolContext) : list IO * outcome ToolExecutionResult :=
  let p := match path with Some p => p | None => "." end in
  let dirPath := resolveUnder env context p in
  let rel := relOf env context p in
  if JS.startsWith rel ".."
  then ([], Ok {| content := "Path must stay under the working directory. Use '.' or a subpath (e.g. 'src'); do not use '..' or parent paths.";
                  isError := true |})
  else if isPathUnderRestricted rel then ([], Ok PATH_RESTRICTED)
  else
    let requested := match maxDepthArg with
                     | Some d => if (d =? 0)%Z then 1%Z else d
                     | None => 1%Z
                     end in
    let maxDepth := Z.to_nat (Z.min (Z.max 1 requested) 5) in
    listDirectoryBody env dirPath maxDepth.

(** [(args.path as string)?.trim() || "."] *)
Definition searchPathArg (path : option string) : string :=
  match path with
  | Some p => if JS.truthy (JS.trim p) then JS.trim p else "."
  | None => "."
  end.

(** [searchInFilesTool.execute] *)
Definition searchInFilesTool (env : Env) (pattern : string) (path glob : option string)
    (maxResults : option Z) (context : ToolContext)
  : list IO * outcome ToolExecutionResult :=
  let p := searchPathArg path in
  let searchPath := resolveUnder env context p in
  let relPath := relOf env context p in
  if JS.startsWith relPath ".." then ([], Ok PATH_OUTSIDE)
  else if isPathUnderRestricted relPath then ([], Ok PATH_RESTRICTED)
  else
    let patternStr := JS.trim pattern in
    if negb (JS.truthy patternStr)
    then ([], Ok {| content := "Pattern is required."; isError := true |})
    else searchBody env searchPath patternStr glob maxResults.

End DirectoryTools.

(** *** Path safety in the words of the specification

    The resolution of [p] escapes the root when the working directory is not
    a prefix of it; it is in the reserved directory when it is [.babylon]
    under the root or below that. *)
Definition escapesRoot (env : Env) (context : ToolContext) (p : string) : Prop :=
  ~ exists rest, resolveUnder env context p = basePathOf env context ++ rest.

Definition inReservedDir (env : Env) (context : ToolContext) (p : string) : Prop :=
  exists rest, resolveUnder env context p = basePathOf env context ++ RESTRICTED_DIR :: rest.

Definition unsafePath (env : Env) (context : ToolContext) (p : string) : Prop :=
  escapesRoot env context p \/ inReservedDir env context p.

End Tools.

(** ** [workflow/WorkflowEngine.ts]: the pure helpers of [runDecomposition] *)

Record SubtaskDef := mkSubtaskDef {
  sd_description : string;
  sd_fileScope : list string;
  sd_skipAnalysis : bool;
}.

(** The decomposition alternative of [PlannerOutput]. *)
Record Decomposition := mkDecomposition {
  subtasks : list SubtaskDef;
  parallel : bool;
  setupTask : option SubtaskDef;
  compositeAcceptanceCriteria : option (list string);
}.

(** ** [workflow/parsers.ts]

    The log lines the parsers write are left out; the parsers are otherwise
    pure. An output field holds whatever JSON value the payload gives it, as
    the unchecked casts of the source do. *)

Module Parsers.
Import Json.

Definition DEFAULT_COMPLEXITY : Q := 1 # 2.

Record AnalyzerOutput := mkAnalyzerOutput {
  complexity : Q;
  summary : value;
  affectedFiles : value;
  recommendedApproach : value;
}.

Definition complexityOf (raw : option value) : Q :=
  match raw with
  | Some (JNum q) => if Qle_bool 0 q && Qle_bool q 1 then q else DEFAULT_COMPLEXITY
  | Some (JStr s) =>
      if String.eqb s "simple" then 1 # 4
      else if String.eqb s "medium" then 1 # 2
      else if String.eqb s "complex" then 17 # 20
      else DEFAULT_COMPLEXITY
  | _ => DEFAULT_COMPLEXITY
  end.

Definition parseAnalyzerOutput (result : AgentResult) : AnalyzerOutput :=
  let content := art_content (ar_artifact result) in
  let fallback :=
    {| complexity := DEFAULT_COMPLEXITY; summary := JStr (JS.sliceTo 500 content);
       affectedFiles := JArr []; recommendedApproach := JStr EmptyString |} in
  match parse content with
  | Ok parsed =>
      match prop parsed "complexity", prop parsed "summary",
            prop parsed "affectedFiles", prop parsed "recommendedApproach" with
      | Ok raw, Ok sum, Ok files, Ok approach =>
          {| complexity := complexityOf raw;
             summary := orElse sum (JStr content);
             affectedFiles := orElse files (JArr []);
             recommendedApproach := orElse approach (JStr EmptyString) |}
      | _, _, _, _ => fallback
      end
  | Throw _ => fallback
  end.

(** The fallback of [parsePlannerOutput]. *)
Definition defaultSpec (content : string) : value :=
  JObj [ ("type", JStr "spec"); ("spec", JStr content); ("acceptanceCriteria", JArr []);
         ("expectedFiles", JArr []); ("fileScope", JArr []) ].

(** [parsePlannerOutput] returns the parsed object itself when its [type] is
    one of the two alternatives. *)
Definition parsePlannerOutput (result : AgentResult) : value :=
  let content := art_content (ar_artifact result) in
  match parse content with
  | Ok parsed =>
      match prop parsed "type" with
      | Ok (Some (JStr t)) =>
          if String.eqb t "decomposition" || String.eqb t "spec" then parsed
          else defaultSpec content
      | _ => defaultSpec content
      end
  | Throw _ => defaultSpec content
  end.

Definition FENCE : string := "```".

(** [s.replace(/^```(?:json)?\s*/i, "")] *)
Definition stripFenceStart (s : string) : string :=
  if JS.startsWith s FENCE then
    let rest := JS.sliceFrom 3 s in
    let rest' := if JS.startsWith (JS.toLowerCase rest) "json"
                 then JS.sliceFrom 4 rest else rest in
    JS.trimStart rest'
  else s.

(** [Some pre] when [s] is [pre] followed by [suffix]. *)
Fixpoint stripSuffix (suffix s : string) : option string :=
  if String.eqb s suffix then Some EmptyString
  else
    match s with
    | EmptyString => None
    | String c r =>
        match stripSuffix suffix r with
        | Some pre => Some (String c pre)
        | None => None
        end
    end.

(** [s.replace(/\s*```$/i, "")]: the leftmost match starts at the white space
    that precedes the closing fence. *)
Definition stripFenceEnd (s : string) : string :=
  match stripSuffix FENCE s with
  | Some pre => JS.trimEnd pre
  | None => s
  end.

(** [content.trim().replace(...).replace(...)] *)
Definition unfence (content : string) : string :=
  stripFenceEnd (stripFenceStart (JS.trim content)).

Inductive StewardActionType :=
  | retry_merge | retry_children | add_fix_task | re_decompose | escalate.

Record StewardAction := mkStewardAction {
  st_action : StewardActionType;
  taskIndices : option value;
  retryFocus : option value;
  fixDescription : option value;
}.

Definition stewardActionOf (a : string) : option StewardActionType :=
  if String.eqb a "retry_merge" then Some retry_merge
  else if String.eqb a "retry_children" then Some retry_children
  else if String.eqb a "add_fix_task" then Some add_fix_task
  else if String.eqb a "re_decompose" then Some re_decompose
  else if String.eqb a "escalate" then Some escalate
  else None.

(** The part of [parseStewardOutput] that follows the removal of the fence. *)
Definition stewardOfJson (json : string) : option StewardAction :=
  match parse json with
  | Ok (JObj members) =>
      match lookupLast "action" members with
      | Some (JStr a) =>
          match stewardActionOf a with
          | Some act =>
              Some {| st_action := act;
                      taskIndices := lookupLast "taskIndices" members;
                      retryFocus := lookupLast "retryFocus" members;
                      fixDescription := lookupLast "fixDescription" members |}
          | None => None
          end
      | _ => None
      end
  | _ => None
  end.

Definition parseStewardOutput (content : string) : option StewardAction :=
  stewardOfJson (unfence content).

Inductive OracleActionType := nudge_root_steward | retry_once | escalate_to_user.

Record OracleAction := mkOracleAction {
  or_action : OracleActionType;
  nudgeMessage : option value;
  or_retryFocus : option value;
}.

Definition oracleActionOf (a : string) : option OracleActionType :=
  if String.eqb a "nudge_root_steward" then Some nudge_root_steward
  else if String.eqb a "retry_once" then Some retry_once
  else if String.eqb a "escalate_to_user" then Some escalate_to_user
  else None.

Definition oracleOfJson (json : string) : option OracleAction :=
  match parse json with
  | Ok (JObj members) =>
      match lookupLast "action" members with
      | Some (JStr a) =>
          match oracleActionOf a with
          | Some act =>
              Some {| or_action := act;
                      nudgeMessage := lookupLast "nudgeMessage" members;
                      or_retryFocus := lookupLast "retryFocus" members |}
          | None => None
          end
      | _ => None
      end
  | _ => None
  end.

Definition parseOracleOutput (content : string) : option OracleAction :=
  oracleOfJson (unfence content).

(** *** Markdown code fences

    The payload [p] between an opening fence, with or without the [json]
    tag, and a closing fence, each on its own line. *)
Definition fenced (tag p : string) : string :=
  FENCE +:+ tag +:+ nl +:+ p +:+ nl +:+ FENCE.

(** [p] carries no fence of its own. *)
Definition unfencedPayload (p : string) : Prop :=
  JS.startsWith (JS.trim p) FENCE = false /\ stripSuffix FENCE (JS.trim p) = None.

(** The agent result whose artifact holds [content]. *)
Definition resultWith (content : string) : AgentResult :=
  {| ar_agentId := "test"; ar_role := analyzer; ar_status := ars_completed;
     ar_artifact := {| art_type := at_analysis; art_content := content;
                       art_metadata := None; art_createdAt := EmptyString |};
     ar_tokenUsage := mkTokenUsage 0 0 0; ar_conversationLog := [] |}.

End Parsers.

(** ** Effects of the engine and of the agent runtime

    A computation reads and writes the fields of its object (the state [S]),
    emits events on the bus and writes log lines (the outputs, in program
    order), and returns or throws. Emission is recorded as an output. [emit]
    is an emission whose subscribers return normally, as the ones the
    repository attaches do (renderers, cost tracker, oversight tracker);
    [emitTo] is an emission whose delivery may throw, which then leaves the
    caller as [EventBus.emit] has it. *)

Inductive Out :=
  | Emit (event : TaskBotEvent)
  | Log (namespace format : string) (args : list string).

Definition M (S A : Type) : Type := S -> list Out * S * outcome A.

Definition ret {S A} (a : A) : M S A := fun s => ([], s, Ok a).

Definition bind {S A B} (m : M S A) (f : A -> M S B) : M S B :=
  fun s =>
    match m s with
    | (o1, s1, Ok a) => let '(o2, s2, r) := f a s1 in (o1 ++ o2, s2, r)
    | (o1, s1, Throw e) => (o1, s1, Throw e)
    end.

Notation "'let!' x ':=' m 'in' k" := (bind m (fun x => k))
  (at level 10, x name, m at level 100, k at level 200, only parsing).
Notation "m '>>' k" := (bind m (fun _ => k))
  (at level 190, right associativity, only parsing).

Definition emit {S} (event : TaskBotEvent) : M S unit := fun s => ([Emit event], s, Ok tt).

(** [eventBus.emit(event)] when [delivery] is what the subscribers make of
    it ([EventBus.result]): the event is emitted, and an exception of a
    subscriber is thrown to the caller. *)
Definition emitTo {S} (delivery : outcome unit) (event : TaskBotEvent) : M S unit :=
  fun s => ([Emit event], s, delivery).
Definition log {S} (namespace format : string) (args : list string) : M S unit :=
  fun s => ([Log namespace format args], s, Ok tt).
Definition get {S} : M S S := fun s => ([], s, Ok s).
Definition modify {S} (f : S -> S) : M S unit := fun s => ([], f s, Ok tt).
Definition throw {S A} (msg : string) : M S A := fun s => ([], s, Throw msg).

(** The evaluation of an expression without effects, which may throw. *)
Definition evaluate {S A} (o : outcome A) : M S A := fun s => ([], s, o).

(** [for (const x of xs) { body(x) }] *)
Fixpoint forEach {S A} (body : A -> M S unit) (xs : list A) : M S unit :=
  match xs with
  | [] => ret tt
  | x :: rest => body x >> forEach body rest
  end.

(** [xs.map(f)] for an effectful [f], in index order. *)
Fixpoint mapM {S A B} (f : A -> M S B) (xs : list A) : M S (list B) :=
  match xs with
  | [] => ret []
  | x :: rest => let! y := f x in let! ys := mapM f rest in ret (y :: ys)
  end.

(** Every computation of the list runs, whatever the others do; the
    interleaving of concurrent promises is abstracted to index order. *)
Fixpoint settleAll {S A} (ms : list (M S A)) : M S (list (outcome A)) :=
  match ms with
  | [] => ret []
  | m :: rest =>
      fun s =>
        let '(o1, s1, r1) := m s in
        let '(o2, s2, rs) := settleAll rest s1 in
        (o1 ++ o2, s2, match rs with Ok l => Ok (r1 :: l) | Throw e => Throw e end)
  end.

Fixpoint collect {A} (rs : list (outcome A)) : outcome (list A) :=
  match rs with
  | [] => Ok []
  | Ok a :: rest => match collect rest with Ok l => Ok (a :: l) | Throw e => Throw e end
  | Throw e :: _ => Throw e
  end.

(** [await Promise.all(ms)]: rejects when one of the promises rejects. *)
Definition promiseAll {S A} (ms : list (M S A)) : M S (list A) :=
  let! rs := settleAll ms in
  match collect rs with
  | Ok l => ret l
  | Throw e => throw e
  end.

(** [try { m } catch (error) { handler(error) }] *)
Definition tryCatch {S A} (m : M S A) (handler : string -> M S A) : M S A :=
  fun s =>
    match m s with
    | (o1, s1, Ok a) => (o1, s1, Ok a)
    | (o1, s1, Throw e) => let '(o2, s2, r) := handler e s1 in (o1 ++ o2, s2, r)
    end.

(** [try { m } finally { fin }] *)
Definition finally {S A} (m : M S A) (fin : M S unit) : M S A :=
  fun s =>
    let '(o1, s1, r) := m s in
    let '(o2, s2, r2) := fin s1 in
    (o1 ++ o2, s2, match r2 with Ok _ => r | Throw e => Throw e end).

Definition outputs {S A} (x : list Out * S * outcome A) : list Out := fst (fst x).
Definition final {S A} (x : list Out * S * outcome A) : S := snd (fst x).
Definition returned {S A} (x : list Out * S * outcome A) : outcome A := snd x.

(** Total correctness of a computation: from every state that satisfies [P]
    it returns, with outputs, value and final state related by [Q]. *)
Definition triple {S A} (P : S -> Prop) (m : M S A) (Q : list Out -> A -> S -> Prop) : Prop :=
  forall s, P s -> exists outs s' a, m s = (outs, s', Ok a) /\ Q outs a s'.

(** A computation that returns from every state and keeps an observation
    [obs] of the state, hence every property of that observation. *)
Definition keeps {S A V} (obs : S -> V) (m : M S A) : Prop :=
  forall v, triple (fun s => obs s = v) m (fun _ _ s' => obs s' = v).

(** [x] with the outputs [pre] in front of its own. *)
Definition after {S A} (pre : list Out) (x : list Out * S * outcome A)
  : list Out * S * outcome A :=
  let '(o, s, r) := x in (pre ++ o, s, r).

(** The events among the outputs. *)
Definition emitted (outs : list Out) : list TaskBotEvent :=
  flat_map (fun o => match o with Emit e => [e] | Log _ _ _ => [] end) outs.

Definition isWorkflowEvent (event : TaskBotEvent) : bool :=
  match event with
  | WorkflowStart _ _ _ | WorkflowComplete _ _ => true
  | _ => false
  end.

(** The [workflow:start] and [workflow:complete] events among the outputs. *)
Definition workflowEvents (outs : list Out) : list TaskBotEvent :=
  List.filter isWorkflowEvent (emitted outs).

(** [core/stewardVoice.ts] *)
Definition STEWARD_VOICE_PREFIX : string :=
  "The Steward (voice of the scriptorium) reminds you: ".

Definition formatStewardVoice (nudge : string) : string :=
  if JS.truthy (JS.trim nudge) then STEWARD_VOICE_PREFIX +:+ JS.trim nudge else "".

Module WorkflowEngine.

(** [setupDesc.split(/\s+/).filter((w) => w.length > 2)] *)
Definition setupWords (setupDesc : string) : list string :=
  List.filter (fun w => (2 <? String.length w)%nat) (JS.splitWs setupDesc).

(** The predicate passed to [plan.subtasks.filter]: [true] keeps [s]. *)
Definition keepSubtask (setupDesc : string) (s : SubtaskDef) : bool :=
  let d := JS.toLowerCase (JS.trim (sd_description s)) in
  if String.eqb d setupDesc then false
  else
    let words := setupWords setupDesc in
    let sameMeaning :=
      (2 <=? List.length words)%nat && forallb (fun w => JS.includes d w) words in
    negb sameMeaning.

Definition filterDuplicateSetupSubtask (plan : Decomposition) : list SubtaskDef :=
  match setupTask plan with
  | None => subtasks plan
  | Some setup =>
      let setupDesc := JS.toLowerCase (JS.trim (sd_description setup)) in
      List.filter (keepSubtask setupDesc) (subtasks plan)
  end.

(** [(p) => p.replace(/\/$/, "") || "."] *)
Definition normalize (p : string) : string :=
  let q := JS.dropTrailingSlash p in
  if JS.truthy q then q else ".".

(** The test in the innermost loop of [haveOverlappingFileScopes]. *)
Definition pathsOverlap (pa pb : string) : bool :=
  String.eqb pa pb || JS.startsWith pa (pb +:+ "/") || JS.startsWith pb (pa +:+ "/").

(** One iteration of the [j] loop: the pair of scopes [a], [b]. *)
Definition scopesOverlap (a b : list string) : bool :=
  if ((List.length a =? 0)%nat || (List.length b =? 0)%nat) then true
  else existsb (fun pa => existsb (fun pb => pathsOverlap pa pb) b) a.

(** The [i] loop is the recursion on the list, the [j] loop the [existsb]
    over the subtasks after position [i]. *)
Fixpoint haveOverlappingFileScopes (sts : list SubtaskDef) : bool :=
  match sts with
  | [] => false
  | si :: rest =>
      let a := List.map normalize (sd_fileScope si) in
      existsb (fun sj => scopesOverlap a (List.map normalize (sd_fileScope sj))) rest
      || haveOverlappingFileScopes rest
  end.

(** The normalised description the filter compares:
    [description.trim().toLowerCase()]. *)
Definition normalizedDescription (s : SubtaskDef) : string :=
  JS.toLowerCase (JS.trim (sd_description s)).

(** What [keepSubtask] rejects, as a proposition: the normalised description
    equals the setup's, or the setup has at least two words longer than two
    characters and every one of them occurs in the description. *)
Definition duplicatesSetup (setupDesc : string) (s : SubtaskDef) : Prop :=
  normalizedDescription s = setupDesc \/
  ((2 <= List.length (setupWords setupDesc))%nat /\
   forall w, In w (setupWords setupDesc) -> JS.includes (normalizedDescription s) w = true).

(** The duplicate test in the words of the specification's testable property:
    equal normalised descriptions, or at least two of the setup's words longer
    than two characters occur in the description. *)
Definition claimedDuplicate (setupDesc : string) (s : SubtaskDef) : bool :=
  String.eqb (normalizedDescription s) setupDesc ||
  (2 <=? List.length
           (List.filter (fun w => JS.includes (normalizedDescription s) w)
                        (setupWords setupDesc)))%nat.

(** *** The engine object *)

Record WorkflowResult := mkWorkflowResult {
  wr_status : WorkflowStatus;
  wr_artifacts : list Artifact;
}.

Record RunTaskOptions := mkRunTaskOptions {
  rt_description : string;
  rt_depth : nat;
  rt_fileScope : option (list string);
  rt_skipAnalysis : bool;
  rt_parentContext : option string;
  rt_subtaskId : option string;
}.

(** [workflow/OrgChart.ts] *)
Record OrgChartNode := mkOrgChartNode {
  n_id : string;
  n_parentId : option string;
  n_childIds : list string;
  n_composite : bool;
  n_description : string;
  n_depth : nat;
  n_hasSteward : bool;
}.

Record OversightContext := mkOversightContext {
  oc_originalDescription : string;
  oc_depth : nat;
  oc_currentSubtaskIndex : nat;
  oc_subtaskDescriptions : list string;
}.

(** The fields of [WorkflowEngine] that [run] and [runDecomposition] touch.
    [oversightTracker] is [Some] while the tracker exists and is attached; it
    holds the tracker's [lastNudgeOutcome]. [uuidCount] counts the calls of
    [randomUUID]. *)
Record Engine := mkEngine {
  rootTaskId : option string;
  currentSubtaskId : option string;
  orgChart : gmap string OrgChartNode;
  oversightTracker : option (option (string * WorkflowStatus));
  compositeOversightContext : option OversightContext;
  oversightCycleCount : nat;
  lastAppliedNudge : option string;
  pendingOversightNudge : option string;
  uuidCount : nat;
}.

Definition newEngine : Engine :=
  {| rootTaskId := None; currentSubtaskId := None; orgChart := ∅;
     oversightTracker := None; compositeOversightContext := None;
     oversightCycleCount := 0; lastAppliedNudge := None;
     pendingOversightNudge := None; uuidCount := 0 |}.

Definition set_rootTaskId (v : option string) (e : Engine) : Engine :=
  {| rootTaskId := v; currentSubtaskId := currentSubtaskId e; orgChart := orgChart e;
     oversightTracker := oversightTracker e;
     compositeOversightContext := compositeOversightContext e;
     oversightCycleCount := oversightCycleCount e; lastAppliedNudge := lastAppliedNudge e;
     pendingOversightNudge := pendingOversightNudge e; uuidCount := uuidCount e |}.

Definition set_orgChart (v : gmap string OrgChartNode) (e : Engine) : Engine :=
  {| rootTaskId := rootTaskId e; currentSubtaskId := currentSubtaskId e; orgChart := v;
     oversightTracker := oversightTracker e;
     compositeOversightContext := compositeOversightContext e;
     oversightCycleCount := oversightCycleCount e; lastAppliedNudge := lastAppliedNudge e;
     pendingOversightNudge := pendingOversightNudge e; uuidCount := uuidCount e |}.

Definition set_oversightTracker (v : option (option (string * WorkflowStatus)))
    (e : Engine) : Engine :=
  {| rootTaskId := rootTaskId e; currentSubtaskId := currentSubtaskId e;
     orgChart := orgChart e; oversightTracker := v;
     compositeOversightContext := compositeOversightContext e;
     oversightCycleCount := oversightCycleCount e; lastAppliedNudge := lastAppliedNudge e;
     pendingOversightNudge := pendingOversightNudge e; uuidCount := uuidCount e |}.

Definition set_compositeOversightContext (v : option OversightContext) (e : Engine) : Engine :=
  {| rootTaskId := rootTaskId e; currentSubtaskId := currentSubtaskId e;
     orgChart := orgChart e; oversightTracker := oversightTracker e;
     compositeOversightContext := v;
     oversightCycleCount := oversightCycleCount e; lastAppliedNudge := lastAppliedNudge e;
     pendingOversightNudge := pendingOversightNudge e; uuidCount := uuidCount e |}.

Definition set_oversightCycleCount (v : nat) (e : Engine) : Engine :=
  {| rootTaskId := rootTaskId e; currentSubtaskId := currentSubtaskId e;
     orgChart := orgChart e; oversightTracker := oversightTracker e;
     compositeOversightContext := compositeOversightContext e;
     oversightCycleCount := v; lastAppliedNudge := lastAppliedNudge e;
     pendingOversightNudge := pendingOversightNudge e; uuidCount := uuidCount e |}.

Definition set_lastAppliedNudge (v : option string) (e : Engine) : Engine :=
  {| rootTaskId := rootTaskId e; currentSubtaskId := currentSubtaskId e;
     orgChart := orgChart e; oversightTracker := oversightTracker e;
     compositeOversightContext := compositeOversightContext e;
     oversightCycleCount := oversightCycleCount e; lastAppliedNudge := v;
     pendingOversightNudge := pendingOversightNudge e; uuidCount := uuidCount e |}.

Definition set_pendingOversightNudge (v : option string) (e : Engine) : Engine :=
  {| rootTaskId := rootTaskId e; currentSubtaskId := currentSubtaskId e;
     orgChart := orgChart e; oversightTracker := oversightTracker e;
     compositeOversightContext := compositeOversightContext e;
     oversightCycleCount := oversightCycleCount e; lastAppliedNudge := lastAppliedNudge e;
     pendingOversightNudge := v; uuidCount := uuidCount e |}.

Definition set_uuidCount (v : nat) (e : Engine) : Engine :=
  {| rootTaskId := rootTaskId e; currentSubtaskId := currentSubtaskId e;
     orgChart := orgChart e; oversightTracker := oversightTracker e;
     compositeOversightContext := compositeOversightContext e;
     oversightCycleCount := oversightCycleCount e; lastAppliedNudge := lastAppliedNudge e;
     pendingOversightNudge := pendingOversightNudge e; uuidCount := v |}.

(** [OrgChart.setRoot] on a fresh chart. *)
Definition orgChart_setRoot (taskId description : string) (isComposite : bool)
  : gmap string OrgChartNode :=
  {[ taskId := {| n_id := taskId; n_parentId := None; n_childIds := [];
                  n_composite := isComposite; n_description := description;
                  n_depth := 0; n_hasSteward := isComposite |} ]}.

(** [OrgChart.addChild] *)
Definition orgChart_addChild (childId parentId description : string) (depth : nat)
    (isComposite : bool) (nodes : gmap string OrgChartNode) : gmap string OrgChartNode :=
  let node := {| n_id := childId; n_parentId := Some parentId; n_childIds := [];
                 n_composite := isComposite; n_description := description;
                 n_depth := depth; n_hasSteward := isComposite |} in
  let nodes1 := <[ childId := node ]> nodes in
  match nodes1 !! parentId with
  | Some parent =>
      <[ parentId := {| n_id := n_id parent; n_parentId := n_parentId parent;
                        n_childIds := n_childIds parent ++ [childId];
                        n_composite := n_composite parent;
                        n_description := n_description parent;
                        n_depth := n_depth parent;
                        n_hasSteward := n_hasSteward parent |} ]> nodes1
  | None => nodes1
  end.

(** [rootNode.type = "composite"; rootNode.hasSteward = true] *)
Definition orgChart_markComposite (taskId : string) (nodes : gmap string OrgChartNode)
  : gmap string OrgChartNode :=
  match nodes !! taskId with
  | Some node =>
      <[ taskId := {| n_id := n_id node; n_parentId := n_parentId node;
                      n_childIds := n_childIds node; n_composite := true;
                      n_description := n_description node; n_depth := n_depth node;
                      n_hasSteward := true |} ]> nodes
  | None => nodes
  end.

Definition isFailed (s : WorkflowStatus) : bool :=
  match s with ws_failed => true | _ => false end.

Definition DOWNGRADE_LOG : Out :=
  Log "workflow" "Overlapping file scopes detected; running subtasks sequentially" [].

(** The options [run] passes to [runTask] and the engine it runs on. *)
Definition rootOptions (taskDescription : string) : RunTaskOptions :=
  {| rt_description := taskDescription; rt_depth := 0; rt_fileScope := None;
     rt_skipAnalysis := false; rt_parentContext := None; rt_subtaskId := None |}.

Definition engineAtStart (taskDescription taskId : string) (e : Engine) : Engine :=
  set_oversightTracker (Some None)
    (set_orgChart (orgChart_setRoot taskId taskDescription false)
       (set_rootTaskId (Some taskId) e)).

(** What the subscribers make of the three events of [run]: of the
    [workflow:start], of the [workflow:complete] that follows the return of
    [runTask], and of the one emitted in the [catch] block. *)
Record Deliveries := mkDeliveries {
  onStart : outcome unit;
  onComplete : outcome unit;
  onFailure : outcome unit;
}.

Section Engine.

(** The values [randomUUID()] returns, in call order. *)
Variable uuid : nat -> string.

(** The recursive call [this.runTask(options)] for the root task and for a
    child: any computation over the engine. *)
Variable runTask : RunTaskOptions -> M Engine WorkflowResult.

(** [this.maybeOversightCheckIn()] (it may run the steward and set
    [pendingOversightNudge]). *)
Variable maybeOversightCheckIn : M Engine unit.

(** The composite QA cycle that follows the subtasks in [runDecomposition]
    (coordinator, steward and oracle rounds): it receives the plan, the
    filtered subtasks, the task identity, the description, the depth, the
    artifacts so far and the subtask results. *)
Variable compositeQA :
  Decomposition -> list SubtaskDef -> string -> string -> nat ->
  list Artifact -> list WorkflowResult -> M Engine WorkflowResult.

Definition randomUUID : M Engine string :=
  fun e => ([], set_uuidCount (S (uuidCount e)) e, Ok (uuid (uuidCount e))).

(** [WorkflowEngine.run] *)
Definition run (subscribers : Deliveries) (taskDescription taskId : string)
  : M Engine WorkflowResult :=
  modify (fun e =>
    set_oversightTracker (Some None)
      (set_orgChart (orgChart_setRoot taskId taskDescription false)
         (set_rootTaskId (Some taskId) e))) >>
  emitTo (onStart subscribers) (WorkflowStart "babylon-cycle" taskId taskDescription) >>
  finally
    (tryCatch
       (let! result := runTask {| rt_description := taskDescription; rt_depth := 0;
                                  rt_fileScope := None; rt_skipAnalysis := false;
                                  rt_parentContext := None; rt_subtaskId := None |} in
        emitTo (onComplete subscribers) (WorkflowComplete taskId (wr_status result)) >>
        ret result)
       (fun error =>
          log "workflow" "Workflow failed with error: %s" [error] >>
          emitTo (onFailure subscribers) (WorkflowComplete taskId ws_failed) >>
          throw error))
    (modify (fun e =>
       set_rootTaskId None
         (set_compositeOversightContext None (set_oversightTracker None e)))).

(** The options of the [runTask] call for a child. *)
Definition childOptions (subtask : SubtaskDef) (depth : nat) (parentContext subtaskId : string)
  : RunTaskOptions :=
  {| rt_description := sd_description subtask; rt_depth := depth + 1;
     rt_fileScope := Some (sd_fileScope subtask);
     rt_skipAnalysis := sd_skipAnalysis subtask;
     rt_parentContext := Some parentContext; rt_subtaskId := Some subtaskId |}.

Definition failedResult (artifacts : list Artifact) : WorkflowResult :=
  {| wr_status := ws_failed; wr_artifacts := artifacts |}.

(** The setup block of [runDecomposition]: [Some result] when a setup task ran. *)
Definition runSetup (plan : Decomposition) (taskId originalDescription : string)
    (depth totalWithSetup : nat) : M Engine (option WorkflowResult) :=
  match setupTask plan with
  | None => ret None
  | Some setup =>
      log "workflow" "Running setup subtask before parallel work" [] >>
      let! setupSubtaskId := randomUUID in
      modify (fun e => set_orgChart
                (orgChart_addChild setupSubtaskId taskId (sd_description setup)
                                   (depth + 1) false (orgChart e)) e) >>
      emit (SubtaskStart taskId setupSubtaskId (sd_description setup) 0 totalWithSetup) >>
      let! setupResult :=
        runTask (childOptions setup depth ("Setup task for: " +:+ originalDescription)
                              setupSubtaskId) in
      emit (SubtaskComplete setupSubtaskId (wr_status setupResult)) >>
      ret (Some setupResult)
  end.

(** The parallel branch. *)
Definition runSubtasksParallel (taskId originalDescription : string)
    (depth offset totalWithSetup : nat) (sts : list SubtaskDef)
  : M Engine (list WorkflowResult) :=
  log "workflow" "The path forks — %d branches (parallel)" [pretty (List.length sts)] >>
  let! subtaskIds := mapM (fun _ => randomUUID) sts in
  forEach (fun '(i, (subtask, subtaskId)) =>
             modify (fun e => set_orgChart
                       (orgChart_addChild subtaskId taskId (sd_description subtask)
                                          (depth + 1) false (orgChart e)) e) >>
             emit (SubtaskStart taskId subtaskId (sd_description subtask)
                                (i + offset) totalWithSetup))
          (combine (seq 0 (List.length sts)) (combine sts subtaskIds)) >>
  let! subtaskResults :=
    promiseAll (List.map (fun '(subtask, subtaskId) =>
                            runTask (childOptions subtask depth
                                       ("Subtask of: " +:+ originalDescription) subtaskId))
                         (combine sts subtaskIds)) in
  forEach (fun '(subtaskId, result) => emit (SubtaskComplete subtaskId (wr_status result)))
          (combine subtaskIds subtaskResults) >>
  ret subtaskResults.

(** The body of the sequential [for] loop, from index [i] on; [subtaskResults]
    holds the results pushed so far. *)
Fixpoint runSubtasksFrom (taskId originalDescription : string)
    (depth offset totalWithSetup : nat) (i : nat) (remaining : list SubtaskDef)
    (subtaskResults : list WorkflowResult) : M Engine (list WorkflowResult) :=
  match remaining with
  | [] => ret subtaskResults
  | subtask :: rest =>
      let! subtaskId := randomUUID in
      modify (fun e =>
        match compositeOversightContext e with
        | Some ctx =>
            set_compositeOversightContext
              (Some {| oc_originalDescription := oc_originalDescription ctx;
                       oc_depth := oc_depth ctx; oc_currentSubtaskIndex := i;
                       oc_subtaskDescriptions := oc_subtaskDescriptions ctx |}) e
        | None => e
        end) >>
      maybeOversightCheckIn >>
      let! e1 := get in
      let base := "Subtask of: " +:+ originalDescription in
      let! parentContext :=
        match pendingOversightNudge e1 with
        | Some nudge =>
            if JS.truthy nudge
            then modify (fun e => set_pendingOversightNudge None
                                    (set_lastAppliedNudge (Some nudge) e)) >>
                 ret (base +:+ nl +:+ nl +:+ formatStewardVoice nudge)
            else ret base
        | None => ret base
        end in
      modify (fun e => set_orgChart
                (orgChart_addChild subtaskId taskId (sd_description subtask)
                                   (depth + 1) false (orgChart e)) e) >>
      emit (SubtaskStart taskId subtaskId (sd_description subtask)
                         (i + offset) totalWithSetup) >>
      let! result := runTask (childOptions subtask depth parentContext subtaskId) in
      let! e2 := get in
      match lastAppliedNudge e2, oversightTracker e2 with
      | Some nudge, Some _ =>
          if JS.truthy nudge
          then modify (fun e => set_lastAppliedNudge None
                                  (set_oversightTracker (Some (Some (nudge, wr_status result))) e))
          else ret tt
      | _, _ => ret tt
      end >>
      emit (SubtaskComplete subtaskId (wr_status result)) >>
      if isFailed (wr_status result)
      then ret (subtaskResults ++ [result])
      else runSubtasksFrom taskId originalDescription depth offset totalWithSetup
                           (S i) rest (subtaskResults ++ [result])
  end.

(** The sequential branch. *)
Definition runSubtasksSequential (taskId originalDescription : string)
    (depth offset totalWithSetup : nat) (sts : list SubtaskDef)
  : M Engine (list WorkflowResult) :=
  log "workflow" "The path forks — %d branches (sequential)" [pretty (List.length sts)] >>
  runSubtasksFrom taskId originalDescription depth offset totalWithSetup 0 sts [].

(** [plan.parallel && !this.haveOverlappingFileScopes(subtasks)] *)
Definition decideParallel (plan : Decomposition) : bool :=
  parallel plan && negb (haveOverlappingFileScopes (filterDuplicateSetupSubtask plan)).

Definition setupOffset (plan : Decomposition) : nat :=
  match setupTask plan with Some _ => 1 | None => 0 end.

(** [WorkflowEngine.runDecomposition] *)
Definition runDecomposition (plan : Decomposition) (originalDescription : string)
    (depth : nat) (existingArtifacts : list Artifact) : M Engine WorkflowResult :=
  let! e0 := get in
  let! taskId := match rootTaskId e0 with Some i => ret i | None => randomUUID end in
  (if (depth =? 0)%nat
   then modify (fun e => set_orgChart (orgChart_markComposite taskId (orgChart e)) e)
   else ret tt) >>
  let sts := filterDuplicateSetupSubtask plan in
  let par := decideParallel plan in
  (if (List.length sts <? List.length (subtasks plan))%nat
   then log "workflow" "Filtered %d duplicate setup subtask(s)"
            [pretty (List.length (subtasks plan) - List.length sts)]
   else ret tt) >>
  (if parallel plan && negb par
   then log "workflow" "Overlapping file scopes detected; running subtasks sequentially" []
   else ret tt) >>
  let totalWithSetup := setupOffset plan + List.length sts in
  modify (fun e =>
    set_oversightCycleCount 0
      (set_compositeOversightContext
         (Some {| oc_originalDescription := originalDescription; oc_depth := depth;
                  oc_currentSubtaskIndex := 0;
                  oc_subtaskDescriptions := List.map sd_description sts |}) e)) >>
  finally
    (let! setupResult := runSetup plan taskId originalDescription depth totalWithSetup in
     let artifacts1 :=
       existingArtifacts ++
       match setupResult with Some r => wr_artifacts r | None => [] end in
     if match setupResult with Some r => isFailed (wr_status r) | None => false end
     then ret (failedResult artifacts1)
     else
       let! subtaskResults :=
         if par
         then runSubtasksParallel taskId originalDescription depth (setupOffset plan)
                                  totalWithSetup sts
         else runSubtasksSequential taskId originalDescription depth (setupOffset plan)
                                    totalWithSetup sts in
       let artifacts2 := artifacts1 ++ flat_map wr_artifacts subtaskResults in
       if existsb (fun r => isFailed (wr_status r)) subtaskResults
       then ret (failedResult artifacts2)
       else compositeQA plan sts taskId originalDescription depth artifacts2 subtaskResults)
    (modify (set_compositeOversightContext None)).

End Engine.

(** *** The shape of a sequential run

    [SequentialTrace taskId total k tasks outs results]: [outs] is made, for
    the tasks of [tasks] in order, of the outputs that precede the task, its
    [subtask:start] (with position [k], [k+1], ... as index), the outputs of
    its run and the [subtask:complete] with the same [subtaskId]; the run of a
    task starts after the [subtask:complete] of the one before, and nothing
    follows the first task whose result is [failed]. [results] are the
    results of the tasks that ran. *)
Inductive SequentialTrace (taskId : string) (total : nat)
  : nat -> list SubtaskDef -> list Out -> list WorkflowResult -> Prop :=
  | trace_done k : SequentialTrace taskId total k [] [] []
  | trace_failed k subtask rest before subtaskId during result :
      isFailed (wr_status result) = true ->
      SequentialTrace taskId total k (subtask :: rest)
        (before ++
         [Emit (SubtaskStart taskId subtaskId (sd_description subtask) k total)] ++
         during ++ [Emit (SubtaskComplete subtaskId (wr_status result))])
        [result]
  | trace_next k subtask rest before subtaskId during result outs results :
      isFailed (wr_status result) = false ->
      SequentialTrace taskId total (S k) rest outs results ->
      SequentialTrace taskId total k (subtask :: rest)
        (before ++
         [Emit (SubtaskStart taskId subtaskId (sd_description subtask) k total)] ++
         during ++ [Emit (SubtaskComplete subtaskId (wr_status result))] ++ outs)
        (result :: results).

(** The setup task, when there is one, followed by the filtered subtasks. *)
Definition executionOrder (plan : Decomposition) : list SubtaskDef :=
  match setupTask plan with Some setup => [setup] | None => [] end
  ++ filterDuplicateSetupSubtask plan.

(** Two scope lists overlap, in the words of the specification: one of them
    is empty, or two of their normalised paths are equal or one is the other
    followed by ["/"] and more. *)
Definition scopeListsOverlap (a b : list string) : Prop :=
  a = [] \/ b = [] \/
  exists pa pb, In pa (List.map normalize a) /\ In pb (List.map normalize b) /\
    (pa = pb \/ JS.startsWith pa (pb +:+ "/") = true \/ JS.startsWith pb (pa +:+ "/") = true).

End WorkflowEngine.

(** ** [agents/AgentRuntime.ts] *)

Module AgentRuntime.

Definition MAX_CONSECUTIVE_DUPLICATES : nat := 3.
Definition LLM_MAX_RETRIES : nat := 3.
Definition LLM_RETRY_DELAYS : list nat := [1000; 2000; 4000]%nat.

(** The fields of the runtime. [chatCalls] and [toolRuns] count the calls of
    [provider.chat] and of [tool.execute] made so far, and [slept] lists the
    delays waited for; they are not fields of the source. *)
Record Agent := mkAgent {
  messages : list LLMMessage;
  cumulativeUsage : TokenUsage;
  recentToolCalls : list string;
  lastError : option string;
  chatCalls : nat;
  toolRuns : nat;
  slept : list nat;
}.

Definition set_messages (v : list LLMMessage) (a : Agent) : Agent :=
  {| messages := v; cumulativeUsage := cumulativeUsage a;
     recentToolCalls := recentToolCalls a; lastError := lastError a;
     chatCalls := chatCalls a; toolRuns := toolRuns a; slept := slept a |}.

Definition set_cumulativeUsage (v : TokenUsage) (a : Agent) : Agent :=
  {| messages := messages a; cumulativeUsage := v;
     recentToolCalls := recentToolCalls a; lastError := lastError a;
     chatCalls := chatCalls a; toolRuns := toolRuns a; slept := slept a |}.

Definition set_recentToolCalls (v : list string) (a : Agent) : Agent :=
  {| messages := messages a; cumulativeUsage := cumulativeUsage a;
     recentToolCalls := v; lastError := lastError a;
     chatCalls := chatCalls a; toolRuns := toolRuns a; slept := slept a |}.

Definition set_lastError (v : option string) (a : Agent) : Agent :=
  {| messages := messages a; cumulativeUsage := cumulativeUsage a;
     recentToolCalls := recentToolCalls a; lastError := v;
     chatCalls := chatCalls a; toolRuns := toolRuns a; slept := slept a |}.

Definition set_chatCalls (v : nat) (a : Agent) : Agent :=
  {| messages := messages a; cumulativeUsage := cumulativeUsage a;
     recentToolCalls := recentToolCalls a; lastError := lastError a;
     chatCalls := v; toolRuns := toolRuns a; slept := slept a |}.

Definition set_toolRuns (v : nat) (a : Agent) : Agent :=
  {| messages := messages a; cumulativeUsage := cumulativeUsage a;
     recentToolCalls := recentToolCalls a; lastError := lastError a;
     chatCalls := chatCalls a; toolRuns := v; slept := slept a |}.

Definition set_slept (v : list nat) (a : Agent) : Agent :=
  {| messages := messages a; cumulativeUsage := cumulativeUsage a;
     recentToolCalls := recentToolCalls a; lastError := lastError a;
     chatCalls := chatCalls a; toolRuns := toolRuns a; slept := v |}.

Definition systemMessage (text : string) : LLMMessage :=
  {| msg_role := role_system; msg_content := text; msg_toolCalls := None;
     msg_toolCallId := None |}.

Definition userMessage (text : string) : LLMMessage :=
  {| msg_role := role_user; msg_content := text; msg_toolCalls := None;
     msg_toolCallId := None |}.

Definition assistantMessage (text : string) (calls : option (list LLMToolCall)) : LLMMessage :=
  {| msg_role := role_assistant; msg_content := text; msg_toolCalls := calls;
     msg_toolCallId := None |}.

Definition toolMessage (text toolCallId : string) : LLMMessage :=
  {| msg_role := role_tool; msg_content := text; msg_toolCalls := None;
     msg_toolCallId := Some toolCallId |}.

(** The runtime after its constructor ran. *)
Definition construct (systemPrompt : string) (initialContext : option string) : Agent :=
  {| messages :=
       systemMessage systemPrompt ::
       match initialContext with
       | Some c => if JS.truthy c then [userMessage c] else []
       | None => []
       end;
     cumulativeUsage := mkTokenUsage 0 0 0;
     recentToolCalls := []; lastError := None;
     chatCalls := 0; toolRuns := 0; slept := [] |}.

Definition artifactTypeMap (role : AgentRole) : ArtifactType :=
  match role with
  | analyzer => at_analysis
  | planner => at_spec
  | executor => at_code_changes
  | reviewer => at_review
  | coordinator => at_coordination
  | steward => at_management
  | oracle => at_oracle
  end.

Definition FINAL_TURN : string :=
  "This is your FINAL turn. You MUST call complete_task now with your best result so far. Do not call any other tools.".

Definition STUCK : string :=
  "Agent appeared stuck in a loop — repeated the same tool call multiple times".

Definition INVALID_COMPLETION : string :=
  "Your complete_task call had an invalid format. Please call complete_task again with valid status (completed/failed/needs_review), summary, and content fields.".

Definition statusOf (v : option Json.value) : option AgentResultStatus :=
  match v with
  | Some (Json.JStr s) =>
      if String.eqb s "completed" then Some ars_completed
      else if String.eqb s "failed" then Some ars_failed
      else if String.eqb s "needs_review" then Some ars_needs_review
      else None
  | _ => None
  end.

Definition truthyOpt (v : option Json.value) : bool :=
  match v with Some x => Json.truthy x | None => false end.

Definition isRetryableError (message : string) : bool :=
  let msg := JS.toLowerCase message in
  JS.includes msg "429" || JS.includes msg "rate limit"
  || JS.includes msg "500" || JS.includes msg "502" || JS.includes msg "503"
  || JS.includes msg "timeout" || JS.includes msg "econnreset".

(** The tool-calling responses recorded in a conversation: the call lists of
    the assistant messages that carry tool calls, in order. *)
Definition toolTurns (log : list LLMMessage) : list (list LLMToolCall) :=
  flat_map (fun m => match msg_role m, msg_toolCalls m with
                     | role_assistant, Some calls => [calls]
                     | _, _ => []
                     end) log.

(** [sanitizeToolArgs] *)
Definition sanitizeToolArgs (args : Json.value) : outcome (list (string * Json.value)) :=
  match Json.entries args with
  | Throw e => Throw e
  | Ok members =>
      Ok (List.map (fun '(k, v) =>
                      (k, match v with
                          | Json.JStr text =>
                              if (400 <? String.length text)%nat
                              then Json.JStr (JS.sliceTo 400 text +:+ "…") else v
                          | _ => v
                          end)) members)
  end.

(** The tool call carries arguments: its [arguments] are not [null]. *)
Definition hasArguments (toolCall : LLMToolCall) : bool :=
  match call_arguments toolCall with
  | Json.JNull => false
  | _ => true
  end.

(** Every answer of the provider carries arguments in each of its tool calls. *)
Definition callsCarryArguments (chat : nat -> list LLMMessage -> outcome LLMResponse) : Prop :=
  forall n msgs response,
    chat n msgs = Ok response -> forallb hasArguments (resp_toolCalls response) = true.

(** The text is a JSON object whose [content] is an array. *)
Definition hasArrayContent (text : string) : bool :=
  match Json.parse text with
  | Ok (Json.JObj members) =>
      match Json.lookupLast "content" members with
      | Some (Json.JArr _) => true
      | _ => false
      end
  | _ => false
  end.

(** The texts with which [parseCompletion] returns a result in the source:
    a JSON object with one of the three statuses, a truthy [summary] and a
    [content] that is a non-empty string or an array. *)
Definition completes (text : string) : bool :=
  match Json.parse text with
  | Ok (Json.JObj members) =>
      match statusOf (Json.lookupLast "status" members),
            Json.lookupLast "content" members with
      | Some _, Some (Json.JStr taskContent) =>
          truthyOpt (Json.lookupLast "summary" members) && JS.truthy taskContent
      | Some _, Some (Json.JArr _) => truthyOpt (Json.lookupLast "summary" members)
      | _, _ => false
      end
  | _ => false
  end.

(** Two call lists name the same tools with the same arguments in the same
    order (the identifiers of the calls may differ). *)
Definition sameCalls (a b : list LLMToolCall) : Prop :=
  List.map (fun tc => (call_name tc, call_arguments tc)) a =
  List.map (fun tc => (call_name tc, call_arguments tc)) b.

Section Runtime.

(** The identity drawn by the constructor and the options it received. *)
Variable agentId : string.
Variable role : AgentRole.
Variable maxTurns : nat.
Variable maxContextTurns : option Z.
Variables (stepId parentAgentId : option string).

(** [new Date().toISOString()] *)
Variable now : string.

(** [JSON.stringify] *)
Variable stringify : Json.value -> string.

(** [abortSignal?.aborted] as read at the start of turn [t]. *)
Variable abortedAt : nat -> bool.

(** [provider.chat]: the answer to the [n]-th call, made with the given
    messages; [Throw] carries the message of the [Error] it threw. *)
Variable chat : nat -> list LLMMessage -> outcome LLMResponse.

(** [toolMap]: the names of the tools of the role, and what the [n]-th tool
    execution of the run, of the given call, returns or throws. *)
Variable known : string -> bool.
Variable execute : nat -> LLMToolCall -> outcome ToolExecutionResult.

Definition push (m : LLMMessage) : M Agent unit :=
  modify (fun a => set_messages (messages a ++ [m]) a).

Definition buildResult (status : AgentResultStatus) (summary : string)
    (text : option string) (metadata : list (string * Json.value))
    (handoffNotes reviewNotes : option Json.value) : M Agent AgentResult :=
  let! a := get in
  ret {| ar_agentId := agentId; ar_role := role; ar_status := status;
         ar_artifact :=
           {| art_type := artifactTypeMap role;
              art_content := match text with Some c => c | None => summary end;
              art_metadata :=
                Some (metadata ++
                      [ ("handoff_notes", Json.orElse handoffNotes (Json.JStr EmptyString));
                        ("review_notes", Json.orElse reviewNotes (Json.JStr EmptyString)) ]);
              art_createdAt := now |};
         ar_tokenUsage := cumulativeUsage a;
         ar_conversationLog := messages a |}.

Definition finish (status : AgentResultStatus) (summary : string) : M Agent AgentResult :=
  buildResult status summary None [] None None.

(** [getMessagesForLLM] *)
Definition getMessagesForLLM (a : Agent) : list LLMMessage :=
  match maxContextTurns with
  | None => messages a
  | Some n =>
      if (n <=? 0)%Z then messages a
      else
        let assistantIndices :=
          List.map fst
            (List.filter (fun '(_, m) => match msg_role m with role_assistant => true | _ => false end)
                         (combine (seq 0 (List.length (messages a))) (messages a))) in
        if (Z.of_nat (List.length assistantIndices) <=? n)%Z then messages a
        else
          let startIndex :=
            nth (List.length assistantIndices - Z.to_nat n) assistantIndices 0%nat in
          firstn 2 (messages a) ++ skipn startIndex (messages a)
  end.

(** [callLLMWithRetry]; [attempt] runs from 0 to [LLM_MAX_RETRIES]. *)
Fixpoint callLLM (attemptsLeft attempt : nat) : M Agent (option LLMResponse) :=
  match attemptsLeft with
  | O => ret None
  | S later =>
      let! a := get in
      modify (fun a => set_chatCalls (S (chatCalls a)) a) >>
      match chat (chatCalls a) (getMessagesForLLM a) with
      | Ok response => ret (Some response)
      | Throw errorMsg =>
          modify (set_lastError (Some errorMsg)) >>
          if negb (isRetryableError errorMsg) || (attempt =? LLM_MAX_RETRIES)%nat
          then
            log "llm" "LLM call failed (attempt %d/%d): %s"
                [pretty (attempt + 1)%nat; pretty (LLM_MAX_RETRIES + 1)%nat; errorMsg] >>
            log "console.error" "[babylon] LLM error: %s" [errorMsg] >>
            ret None
          else
            let delay := nth attempt LLM_RETRY_DELAYS 4000%nat in
            log "llm" "LLM call failed (attempt %d/%d), retrying in %dms: %s"
                [pretty (attempt + 1)%nat; pretty (LLM_MAX_RETRIES + 1)%nat;
                 pretty delay; errorMsg] >>
            modify (fun a => set_slept (slept a ++ [delay]) a) >>
            callLLM later (S attempt)
      end
  end.

Definition callLLMWithRetry : M Agent (option LLMResponse) :=
  callLLM (S LLM_MAX_RETRIES) 0.

Definition accumulateUsage (usage : TokenUsage) : M Agent unit :=
  modify (fun a =>
    set_cumulativeUsage
      {| promptTokens := (promptTokens (cumulativeUsage a) + promptTokens usage)%N;
         completionTokens :=
           (completionTokens (cumulativeUsage a) + completionTokens usage)%N;
         totalTokens := (totalTokens (cumulativeUsage a) + totalTokens usage)%N |} a) >>
  let! a := get in
  emit (TokenUpdate agentId usage (cumulativeUsage a)).

(** The key [isStuckLoop] builds for the calls of a turn. *)
Definition callsKey (calls : list LLMToolCall) : string :=
  JS.join "|" (List.map (fun tc => call_name tc +:+ ":" +:+ stringify (call_arguments tc)) calls).

Definition allEqualFirst (keys : list string) : bool :=
  match keys with
  | [] => true
  | k :: _ => forallb (fun x => String.eqb x k) keys
  end.

(** [isStuckLoop] *)
Definition isStuckLoop (currentCalls : list LLMToolCall) : M Agent bool :=
  let key := callsKey currentCalls in
  modify (fun a => set_recentToolCalls (recentToolCalls a ++ [key]) a) >>
  modify (fun a =>
    if (MAX_CONSECUTIVE_DUPLICATES <? List.length (recentToolCalls a))%nat
    then set_recentToolCalls (List.tl (recentToolCalls a)) a else a) >>
  let! a := get in
  if (List.length (recentToolCalls a) <? MAX_CONSECUTIVE_DUPLICATES)%nat then ret false
  else ret (allEqualFirst (recentToolCalls a)).

(** [parseCompletion]. The artifact content of the model is a string: a
    [content] that is not a string is refused, as the source refuses the
    numbers, objects and [true] (their [slice] throws inside the [try]). An
    array has a [slice], and the source completes with it and keeps the
    array as the content; the model has no artifact for it and refuses it
    as well, so that what is proved of a completion is proved for the texts
    without [hasArrayContent]. The summary is only tested:
    [content ?? summary] is the content here. A [metadata] that is not an
    object adds no member (the source spreads the characters of a string and
    the elements of an array under their indices). *)
Definition parseCompletion (text : string) : M Agent (option AgentResult) :=
  match Json.parse text with
  | Ok (Json.JObj members) =>
      match statusOf (Json.lookupLast "status" members),
            Json.lookupLast "content" members with
      | Some status, Some (Json.JStr taskContent) =>
          if truthyOpt (Json.lookupLast "summary" members) && JS.truthy taskContent
          then
            let! result :=
              buildResult status EmptyString (Some taskContent)
                match Json.lookupLast "metadata" members with
                | Some (Json.JObj meta) => meta
                | _ => []
                end
                (Json.lookupLast "handoff_notes" members)
                (Json.lookupLast "review_notes" members) in
            emit (AgentComplete agentId (ar_status result)
                    (JS.sliceTo 100 (art_content (ar_artifact result)))) >>
            ret (Some result)
          else ret None
      | _, _ => ret None
      end
  | _ => ret None
  end.

(** [executeToolCalls]. The [toolArgs] of the [agent:tool_call] event are
    computed before the event is emitted and outside the [try] block, so
    that a tool call without arguments makes [executeToolCalls] throw; the
    event of the model does not carry them. *)
Fixpoint executeToolCalls (toolCalls : list LLMToolCall) : M Agent (option AgentResult) :=
  match toolCalls with
  | [] => ret None
  | toolCall :: rest =>
      let! toolArgs := evaluate (sanitizeToolArgs (call_arguments toolCall)) in
      emit (AgentToolCall agentId (call_name toolCall)) >>
      if negb (known (call_name toolCall))
      then
        push (toolMessage ("Unknown tool: " +:+ call_name toolCall) (call_id toolCall)) >>
        emit (AgentToolResult agentId (call_name toolCall) true) >>
        executeToolCalls rest
      else
        let! a := get in
        modify (fun a => set_toolRuns (S (toolRuns a)) a) >>
        match execute (toolRuns a) toolCall with
        | Ok result =>
            push (toolMessage (content result) (call_id toolCall)) >>
            emit (AgentToolResult agentId (call_name toolCall) (isError result)) >>
            if String.eqb (call_name toolCall) "complete_task"
            then
              let! parsed := parseCompletion (content result) in
              match parsed with
              | Some completion => ret (Some completion)
              | None => push (userMessage INVALID_COMPLETION) >> executeToolCalls rest
              end
            else executeToolCalls rest
        | Throw msg =>
            push (toolMessage ("Tool execution error: " +:+ msg) (call_id toolCall)) >>
            emit (AgentToolResult agentId (call_name toolCall) true) >>
            executeToolCalls rest
        end
  end.

(** The [for] loop of [run]: [remaining] turns are left, [turn] is the
    current one. *)
Fixpoint turns (remaining turn : nat) : M Agent AgentResult :=
  match remaining with
  | O => finish ars_needs_review "Agent reached maximum turns without completing"
  | S later =>
      if abortedAt turn then finish ars_failed "Aborted by user"
      else
        emit (AgentTurn agentId turn maxTurns) >>
        (if (turn =? maxTurns)%nat then push (userMessage FINAL_TURN) else ret tt) >>
        let! response := callLLMWithRetry in
        match response with
        | None =>
            let! a := get in
            finish ars_failed
              ("LLM call failed after retries: " +:+
               match lastError a with Some e => e | None => "unknown error" end)
        | Some response =>
            accumulateUsage (resp_usage response) >>
            let text := match resp_content response with Some c => c | None => EmptyString end in
            (if JS.truthy (JS.trim text)
             then emit (AgentContent agentId
                          (if (2000 <? String.length text)%nat
                           then JS.sliceTo 2000 text +:+ nl +:+ "[… truncated]"
                           else text))
             else ret tt) >>
            (if JS.truthy text
             then push (assistantMessage text
                          match resp_toolCalls response with
                          | [] => None
                          | calls => Some calls
                          end)
             else
               match resp_toolCalls response with
               | [] => ret tt
               | calls => push (assistantMessage EmptyString (Some calls))
               end) >>
            match resp_toolCalls response with
            | [] => turns later (S turn)
            | calls =>
                let! stuck := isStuckLoop calls in
                if stuck
                then
                  log "agent" "Stuck loop detected for agent %s, breaking out" [agentId] >>
                  finish ars_needs_review STUCK
                else
                  let! completionResult := executeToolCalls calls in
                  match completionResult with
                  | Some result => ret result
                  | None => turns later (S turn)
                  end
            end
        end
  end.

(** [AgentRuntime.run] *)
Definition run : M Agent AgentResult :=
  let! a := get in
  emit (AgentSpawn agentId role parentAgentId stepId
          match List.find (fun m => match msg_role m with role_user => true | _ => false end)
                          (messages a) with
          | Some m => msg_content m
          | None => EmptyString
          end) >>
  turns maxTurns 1.

End Runtime.

(** The window [isStuckLoop] keeps once it recorded [key]. *)
Definition slide (window : list string) (key : string) : list string :=
  let w := window ++ [key] in
  if (MAX_CONSECUTIVE_DUPLICATES <? List.length w)%nat then List.tl w else w.

(** The window after the keys of successive tool-calling turns were recorded. *)
Definition windowOf (keys : list string) : list string := fold_left slide keys [].

(** The keys of the tool-calling turns of a conversation. *)
Definition keysOf (stringify : Json.value -> string) (log : list LLMMessage) : list string :=
  List.map (callsKey stringify) (toolTurns log).

(** No three consecutive keys are equal. *)
Definition noTriple (keys : list string) : Prop :=
  forall pre x post, keys <> pre ++ [x; x; x] ++ post.

(** The state between two turns of a run that has not detected a loop: the
    window holds the keys of the latest tool-calling turns, and no three
    consecutive tool-calling turns had the same key. *)
Definition undetected (stringify : Json.value -> string) (a : Agent) : Prop :=
  recentToolCalls a = windowOf (keysOf stringify (messages a)) /\
  noTriple (keysOf stringify (messages a)).

(** What the stuck-loop detection does not look at is left out of [view]. *)
Definition view (a : Agent) : list (list LLMToolCall) * list string :=
  (toolTurns (messages a), recentToolCalls a).

(** What a tool call leaves behind: the tool-calling turns and the window
    are untouched, and a completion carries the conversation as it stands. *)
Definition afterTools (v : list (list LLMToolCall) * list string)
    (r : option AgentResult) (s : Agent) : Prop :=
  view s = v /\ forall result, r = Some result -> toolTurns (ar_conversationLog result) = fst v.

(** The state once the answer of a tool-calling turn was recorded. *)
Definition recorded (stringify : Json.value -> string) (calls : list LLMToolCall)
    (s : Agent) : Prop :=
  exists before text,
    messages s = before ++ [assistantMessage text (Some calls)] /\
    recentToolCalls s = windowOf (keysOf stringify before) /\
    noTriple (keysOf stringify before).

(** The verdict on a run whose conversation shows the same calls on three
    consecutive tool-calling turns: it ended at the third of them. *)
Definition endsAtDetection (agentId : string) (outs : list Out) (result : AgentResult) : Prop :=
  forall pre c1 c2 c3 post,
    toolTurns (ar_conversationLog result) = pre ++ [c1; c2; c3] ++ post ->
    sameCalls c1 c2 -> sameCalls c2 c3 ->
    post = [] /\
    ar_status result = ars_needs_review /\
    JS.includes (art_content (ar_artifact result)) "stuck" = true /\
    (exists msgs text,
        ar_conversationLog result = msgs ++ [assistantMessage text (Some c3)]) /\
    (exists o, outs = o ++ [Log "agent" "Stuck loop detected for agent %s, breaking out"
                              [agentId]]).

(** The keys of the tool-calling answers among the first [n] answers of a
    provider whose answer to call [i] carries the calls [script i]. *)
Definition scriptKeys (stringify : Json.value -> string) (script : nat -> list LLMToolCall)
    (n : nat) : list string :=
  flat_map (fun i => match script i with
                     | [] => []
                     | calls => [callsKey stringify calls]
                     end) (seq 0 n).

(** The calls of the provider made so far and the window of [isStuckLoop]. *)
Definition progress (a : Agent) : nat * list string := (chatCalls a, recentToolCalls a).

(** A run that ended at the answer to one of the calls 0 to [last] of the
    provider, on the detection of a loop: the provider was not called again
    and the conversation ends with that answer. *)
Definition stuckEnding (agentId : string) (script : nat -> list LLMToolCall) (last : nat)
    (outs : list Out) (result : AgentResult) (final : Agent) : Prop :=
  ar_status result = ars_needs_review /\
  art_content (ar_artifact result) = STUCK /\
  (exists n msgs text calls,
      (n <= last)%nat /\
      chatCalls final = S n /\
      ar_conversationLog result = msgs ++ [assistantMessage text (Some calls)] /\
      sameCalls calls (script n)) /\
  (exists o, outs = o ++ [Log "agent" "Stuck loop detected for agent %s, breaking out"
                            [agentId]]).

End AgentRuntime.

(** ** [tools/definitions.ts], continued *)

Module ToolDefinitions.

(** The test [write_file] makes of the path against the assigned scope:
    [context.fileScope.some((scope) => relativePath.startsWith(scope) ||
    relativePath === scope)], and no test for an absent or empty scope. *)
Definition inScope (path : string) (context : ToolContext) : bool :=
  match fileScope context with
  | Some (scope :: scopes) =>
      existsb (fun sc => JS.startsWith path sc || String.eqb path sc) (scope :: scopes)
  | _ => true
  end.

End ToolDefinitions.

(** ** [agents/AgentRuntime.ts], continued: what is read off a conversation *)

Module Conversation.

(** The identifiers the tool messages of a conversation answer, in order. *)
Definition toolAnswers (log : list LLMMessage) : list string :=
  flat_map (fun m => match msg_role m, msg_toolCallId m with
                     | role_tool, Some i => [i]
                     | _, _ => []
                     end) log.

(** The [agent:turn] events among the outputs. *)
Definition turnEvents (outs : list Out) : list TaskBotEvent :=
  List.filter (fun e => match e with AgentTurn _ _ _ => true | _ => false end) (emitted outs).

(** The [agent:complete] events among the outputs. *)
Definition completeEvents (outs : list Out) : list TaskBotEvent :=
  List.filter (fun e => match e with AgentComplete _ _ _ => true | _ => false end)
              (emitted outs).

(** The usages reported by the [token:update] events among the outputs. *)
Definition reportedUsages (outs : list Out) : list TokenUsage :=
  flat_map (fun e => match e with TokenUpdate _ usage _ => [usage] | _ => [] end)
           (emitted outs).

Definition addUsage (a b : TokenUsage) : TokenUsage :=
  {| promptTokens := (promptTokens a + promptTokens b)%N;
     completionTokens := (completionTokens a + completionTokens b)%N;
     totalTokens := (totalTokens a + totalTokens b)%N |}.

Definition sumUsage (start : TokenUsage) (usages : list TokenUsage) : TokenUsage :=
  fold_left addUsage usages start.

(** What [executeToolCalls] leaves behind: the messages it added hold no
    answer of the model; when it returns no completion they answer every
    call once, in order, and the tools ran for the known names; when it
    returns one, the same holds of the calls up to the [complete_task] call
    that gave it, and the completion carries the conversation as it stands. *)
Definition answered (known : string -> bool) (calls : list LLMToolCall)
    (s s' : AgentRuntime.Agent) (r : option AgentResult) : Prop :=
  exists new,
    AgentRuntime.messages s' = AgentRuntime.messages s ++ new /\
    AgentRuntime.toolTurns new = [] /\
    match r with
    | None =>
        toolAnswers new = List.map call_id calls /\
        AgentRuntime.toolRuns s' = (AgentRuntime.toolRuns s + List.length (List.filter (fun c => known (call_name c)) calls))%nat
    | Some result =>
        exists before call rest,
          calls = before ++ call :: rest /\
          call_name call = "complete_task" /\
          toolAnswers new = List.map call_id (before ++ [call]) /\
          AgentRuntime.toolRuns s' = (AgentRuntime.toolRuns s + List.length
                           (List.filter (fun c => known (call_name c)) (before ++ [call])))%nat /\
          ar_conversationLog result = AgentRuntime.messages s'
    end.

End Conversation.

(** ** Effects, continued *)

(** A computation that returns from every state, with the state before, the
    outputs, the value and the state after related by [R]. *)
Definition effect {S A} (m : M S A) (R : S -> list Out -> A -> S -> Prop) : Prop :=
  forall s, exists outs s' a, m s = (outs, s', Ok a) /\ R s outs a s'.

Module RunSummary.
Import AgentRuntime Conversation.

(** A stretch of a run that ends no run: the [agent:turn] events it emits,
    no [agent:complete] event, the usage it adds, which is the usage it
    reports, and at most [calls] calls of the provider. *)
Definition Step (turnsEmitted : list TaskBotEvent) (calls : nat)
    (s : Agent) (outs : list Out) (s' : Agent) : Prop :=
  turnEvents outs = turnsEmitted /\
  completeEvents outs = [] /\
  cumulativeUsage s' = sumUsage (cumulativeUsage s) (reportedUsages outs) /\
  (chatCalls s' <= chatCalls s + calls)%nat.

(** A computation of the runtime that ends no run, reports what it adds to
    the usage and calls no provider. *)
Definition quiet {A} (m : M Agent A) : Prop :=
  effect m (fun s o _ s' => Step [] 0 s o s').

(** How a run ends: without an [agent:complete] event and with a status other
    than [completed], or with the [agent:complete] event of its result as the
    last output and the only such event. *)
Definition Ending (agentId : string) (outs : list Out) (result : AgentResult) : Prop :=
  (completeEvents outs = [] /\ ar_status result <> ars_completed) \/
  (exists o,
      outs = o ++ [Emit (AgentComplete agentId (ar_status result)
                           (JS.sliceTo 100 (art_content (ar_artifact result))))] /\
      completeEvents o = []).

(** The summary of the turns from [turn] on, with [remaining] turns left. *)
Definition Done (agentId : string) (maxTurns turn remaining : nat)
    (s : Agent) (outs : list Out) (result : AgentResult) (s' : Agent) : Prop :=
  exists k,
    (k <= remaining)%nat /\
    turnEvents outs = List.map (fun t => AgentTurn agentId t maxTurns) (seq turn k) /\
    (chatCalls s' <= chatCalls s + 4 * k)%nat /\
    cumulativeUsage s' = sumUsage (cumulativeUsage s) (reportedUsages outs) /\
    ar_tokenUsage result = cumulativeUsage s' /\
    Ending agentId outs result.

(** The summary of what follows a stretch of turn [turn] that emitted the
    [agent:turn] events [t] and made at most [c] calls: [k] further turns. *)
Definition Rest (agentId : string) (maxTurns turn later : nat)
    (t : list TaskBotEvent) (c : nat)
    (s : Agent) (outs : list Out) (result : AgentResult) (s' : Agent) : Prop :=
  exists k,
    (k <= later)%nat /\
    turnEvents outs = t ++ List.map (fun n => AgentTurn agentId n maxTurns) (seq (S turn) k) /\
    (chatCalls s' <= chatCalls s + c + 4 * k)%nat /\
    cumulativeUsage s' = sumUsage (cumulativeUsage s) (reportedUsages outs) /\
    ar_tokenUsage result = cumulativeUsage s' /\
    Ending agentId outs result.

(** What [executeToolCalls] adds to the summary. *)
Definition Tooled (agentId : string)
    (s : Agent) (outs : list Out) (r : option AgentResult) (s' : Agent) : Prop :=
  match r with
  | None => Step [] 0 s outs s'
  | Some result =>
      turnEvents outs = [] /\
      cumulativeUsage s' = sumUsage (cumulativeUsage s) (reportedUsages outs) /\
      (chatCalls s' <= chatCalls s)%nat /\
      ar_tokenUsage result = cumulativeUsage s' /\
      exists o,
        outs = o ++ [Emit (AgentComplete agentId (ar_status result)
                             (JS.sliceTo 100 (art_content (ar_artifact result))))] /\
        completeEvents o = []
  end.

End RunSummary.

(** ** [agents/AgentRuntime.ts], continued: the turns of a conversation *)

Module ContextWindow.

Definition isAssistant (m : LLMMessage) : bool :=
  match msg_role m with role_assistant => true | _ => false end.

(** The number of answers of the model in a conversation. *)
Definition assistantTurns (log : list LLMMessage) : nat :=
  List.length (List.filter isAssistant log).

(** The positions of the answers of the model in [l], counted from [k]. *)
Definition indicesFrom (k : nat) (l : list LLMMessage) : list nat :=
  List.map fst
    (List.filter (fun '(_, m) => match msg_role m with role_assistant => true | _ => false end)
                 (combine (seq k (List.length l)) l)).

End ContextWindow.

(** ** [workflow/OversightTracker.ts]

    The tracker listens on the bus and keeps, for every step that has
    started, the names of the tools its agents called. The [duration] of a
    [step:complete] event, which the variants of [TaskBotEvent] leave out, is
    read through [durationOf]. Thresholds are a count of calls and a number
    of seconds. *)

Module OversightTracker.

Record OversightSignals := mkSignals {
  repeatedSameTool : option string;
  longStepDurationMs : option Z;
  stepFailedOrNeedsReview : bool;
}.

Record OversightThresholds := mkThresholds {
  repeatedToolCount : nat;
  longStepSeconds : Q;
}.

Definition DEFAULT_THRESHOLDS : OversightThresholds :=
  {| repeatedToolCount := 3; longStepSeconds := 90 |}.

(** [{ ...DEFAULT_THRESHOLDS, ...thresholds }] *)
Definition mergeThresholds (count : option nat) (seconds : option Q) : OversightThresholds :=
  {| repeatedToolCount := match count with Some c => c | None => repeatedToolCount DEFAULT_THRESHOLDS end;
     longStepSeconds := match seconds with Some x => x | None => longStepSeconds DEFAULT_THRESHOLDS end |}.

Record StepData := mkStepData {
  toolCalls : list string;
  durationMs : option Z;
  status : option AgentResultStatus;
}.

Record t := mk {
  agentIdToStepId : gmap string string;
  stepData : gmap string StepData;
  lastSignals : OversightSignals;
  lastNudgeOutcome : option (string * string);
  thresholds : OversightThresholds;
  handler : option nat;
}.

Definition noSignals : OversightSignals :=
  {| repeatedSameTool := None; longStepDurationMs := None; stepFailedOrNeedsReview := false |}.

(** [new OversightTracker(eventBus, thresholds)] *)
Definition new (count : option nat) (seconds : option Q) : t :=
  {| agentIdToStepId := ∅; stepData := ∅; lastSignals := noSignals;
     lastNudgeOutcome := None; thresholds := mergeThresholds count seconds;
     handler := None |}.

Definition set_agentIdToStepId (v : gmap string string) (x : t) : t :=
  {| agentIdToStepId := v; stepData := stepData x; lastSignals := lastSignals x;
     lastNudgeOutcome := lastNudgeOutcome x; thresholds := thresholds x;
     handler := handler x |}.

Definition set_stepData (v : gmap string StepData) (x : t) : t :=
  {| agentIdToStepId := agentIdToStepId x; stepData := v; lastSignals := lastSignals x;
     lastNudgeOutcome := lastNudgeOutcome x; thresholds := thresholds x;
     handler := handler x |}.

Definition set_lastSignals (v : OversightSignals) (x : t) : t :=
  {| agentIdToStepId := agentIdToStepId x; stepData := stepData x; lastSignals := v;
     lastNudgeOutcome := lastNudgeOutcome x; thresholds := thresholds x;
     handler := handler x |}.

Definition set_lastNudgeOutcome (v : option (string * string)) (x : t) : t :=
  {| agentIdToStepId := agentIdToStepId x; stepData := stepData x;
     lastSignals := lastSignals x; lastNudgeOutcome := v; thresholds := thresholds x;
     handler := handler x |}.

Definition set_handler (v : option nat) (x : t) : t :=
  {| agentIdToStepId := agentIdToStepId x; stepData := stepData x;
     lastSignals := lastSignals x; lastNudgeOutcome := lastNudgeOutcome x;
     thresholds := thresholds x; handler := v |}.

(** [calls.slice(-count)]; [slice(-0)] is [slice(0)], the whole array. *)
Definition sliceLast (count : nat) (calls : list string) : list string :=
  match count with
  | O => calls
  | _ => skipn (List.length calls - count) calls
  end.

(** [new Set(last).size] *)
Definition setSize (last : list string) : nat :=
  List.length (nodup String.string_dec last).

Section Handler.

(** [seconds * 1000] as the number type computes it: the product of the two
    doubles, rounded. *)
Variable times1000 : Q -> Q.

(** [deriveSignals] *)
Definition deriveSignals (th : OversightThresholds) (data : StepData) : OversightSignals :=
  {| repeatedSameTool :=
       if (repeatedToolCount th <=? List.length (toolCalls data))%nat
       then
         let last := sliceLast (repeatedToolCount th) (toolCalls data) in
         if (List.length last =? repeatedToolCount th)%nat && (setSize last =? 1)%nat
         then Some (List.hd EmptyString last)
         else None
       else None;
     longStepDurationMs :=
       match durationMs data with
       | Some d =>
           if negb (Qle_bool (inject_Z d) (times1000 (longStepSeconds th))) then Some d else None
       | None => None
       end;
     stepFailedOrNeedsReview :=
       match status data with
       | Some ars_failed | Some ars_needs_review => true
       | _ => false
       end |}.

(** The [duration] field of a [step:complete] event. *)
Variable durationOf : TaskBotEvent -> Z.

(** [onEvent] *)
Definition onEvent (event : TaskBotEvent) (x : t) : t :=
  match event with
  | StepStart stepId _ _ _ _ _ =>
      set_stepData (<[ stepId := {| toolCalls := []; durationMs := None; status := None |} ]>
                      (stepData x)) x
  | AgentSpawn agentId _ _ (Some stepId) _ =>
      if JS.truthy stepId
      then set_agentIdToStepId (<[ agentId := stepId ]> (agentIdToStepId x)) x
      else x
  | AgentToolCall agentId toolName =>
      match agentIdToStepId x !! agentId with
      | Some stepId =>
          if JS.truthy stepId
          then match stepData x !! stepId with
               | Some data =>
                   set_stepData
                     (<[ stepId := {| toolCalls := toolCalls data ++ [toolName];
                                      durationMs := durationMs data;
                                      status := status data |} ]> (stepData x)) x
               | None => x
               end
          else x
      | None => x
      end
  | StepComplete stepId _ st _ _ _ _ _ =>
      let x1 :=
        match stepData x !! stepId with
        | Some data =>
            set_stepData (delete stepId (stepData x))
              (set_lastSignals
                 (deriveSignals (thresholds x)
                    {| toolCalls := toolCalls data;
                       durationMs := Some (durationOf event);
                       status := Some st |}) x)
        | None => x
        end in
      set_agentIdToStepId
        (filter (fun kv => snd kv <> stepId) (agentIdToStepId x1)) x1
  | _ => x
  end.

(** The events of a list, handled in order. *)
Definition onEvents (events : list TaskBotEvent) (x : t) : t :=
  fold_left (fun x event => onEvent event x) events x.

(** The closure [(event) => this.onEvent(event)] registered under the
    identity [hid]; the tracker is the state it changes. *)
Definition listener (hid : nat) : EventBus.EventHandler t :=
  {| EventBus.h_id := hid; EventBus.h_call := fun event x => (onEvent event x, Ok tt) |}.

(** [attach]; [hid] is the identity of the closure it creates. *)
Definition attach (hid : nat) (bus : EventBus.t t) (x : t) : EventBus.t t * t :=
  match handler x with
  | Some _ => (bus, x)
  | None => (EventBus.on (listener hid) bus, set_handler (Some hid) x)
  end.

(** [detach] *)
Definition detach (bus : EventBus.t t) (x : t) : EventBus.t t * t :=
  match handler x with
  | Some hid => (EventBus.off (listener hid) bus, set_handler None x)
  | None => (bus, set_handler None x)
  end.

End Handler.

Definition getSignals (x : t) : OversightSignals := lastSignals x.
Definition clearSignals (x : t) : t := set_lastSignals noSignals x.
Definition recordNudgeOutcome (nudge outcome : string) (x : t) : t :=
  set_lastNudgeOutcome (Some (nudge, outcome)) x.
Definition getLastNudgeOutcome (x : t) : option (string * string) := lastNudgeOutcome x.

(** The names of the tools agent [agentId] called, among the events. *)
Definition callsBy (agentId : string) (events : list TaskBotEvent) : list string :=
  flat_map (fun e => match e with
                     | AgentToolCall a name => if String.eqb a agentId then [name] else []
                     | _ => []
                     end) events.

(** An event that starts or completes no step [stepId] and spawns no agent
    [agentId] nor another agent into [stepId]. *)
Definition apartFrom (stepId agentId : string) (event : TaskBotEvent) : Prop :=
  match event with
  | StepStart s _ _ _ _ _ => s <> stepId
  | StepComplete s _ _ _ _ _ _ _ => s <> stepId
  | AgentSpawn a _ _ sid _ => a <> agentId /\ sid <> Some stepId
  | _ => True
  end.

(** What the tracker holds about step [stepId], run by agent [agentId] alone,
    while the step is under way. *)
Definition tracks (stepId agentId : string) (calls : list string) (x : t) : Prop :=
  stepData x !! stepId = Some {| toolCalls := calls; durationMs := None; status := None |} /\
  agentIdToStepId x !! agentId = Some stepId /\
  (forall a, agentIdToStepId x !! a = Some stepId -> a = agentId).

End OversightTracker.

(** ** [core/Config.ts] *)

Module Config.

Record ModelConfig := mkModelConfig {
  provider : string;
  model : string;
  temperature : Q;
  maxTokens : N;
}.

Definition DEFAULT_MODELS (role : AgentRole) : ModelConfig :=
  match role with
  | analyzer => {| provider := "anthropic"; model := "claude-haiku-3-20250514";
                   temperature := 3 # 10; maxTokens := 4096 |}
  | planner => {| provider := "anthropic"; model := "claude-sonnet-4-20250514";
                  temperature := 1 # 2; maxTokens := 8192 |}
  | executor => {| provider := "anthropic"; model := "claude-sonnet-4-20250514";
                   temperature := 1 # 5; maxTokens := 16384 |}
  | reviewer => {| provider := "openai"; model := "gpt-4o";
                   temperature := 1 # 10; maxTokens := 8192 |}
  | coordinator => {| provider := "anthropic"; model := "claude-sonnet-4-20250514";
                      temperature := 2 # 5; maxTokens := 8192 |}
  | steward => {| provider := "anthropic"; model := "claude-sonnet-4-20250514";
                  temperature := 1 # 5; maxTokens := 4096 |}
  | oracle => {| provider := "anthropic"; model := "claude-sonnet-4-20250514";
                 temperature := 1 # 10; maxTokens := 2048 |}
  end.

Definition DEFAULT_MAX_TURNS (role : AgentRole) : nat :=
  match role with
  | analyzer => 5 | planner => 8 | executor => 20 | reviewer => 8
  | coordinator => 10 | steward => 3 | oracle => 2
  end.

Definition getDefaultModel (role : AgentRole) (overrideProvider overrideModel : option string)
  : ModelConfig :=
  let base := DEFAULT_MODELS role in
  {| provider := match overrideProvider with Some p => p | None => provider base end;
     model := match overrideModel with Some m => m | None => model base end;
     temperature := temperature base; maxTokens := maxTokens base |}.

Definition getDefaultMaxTurns (role : AgentRole) : nat := DEFAULT_MAX_TURNS role.

(** The fields of [BabylonConfig] the engine reads when it runs agents. *)
Record BabylonConfig := mkBabylonConfig {
  workingDirectory : string;
  defaultProvider : option string;
  defaultModel : option string;
  maxRetries : option nat;
  maxDepth : option nat;
  useCli : option bool;
  simplePathMaxTurns : option nat;
  reviewerModel : option string;
  economyMode : option bool;
  complexityDirectThreshold : option Q;
  maxContextTurns : option Z;
  oversightProbability : option Q;
  maxOversightPerComposite : option nat;
}.

End Config.

(** ** [workflow/WorkflowEngine.ts], continued: running agents

    The engine of this part carries, beside the fields of [Engine], the
    counter of agent runs and the list of their results. The providers, the
    tools, the abort signal, the random numbers and the signals of the
    oversight tracker are the outside world: what they answer is given per
    agent run, the runs being numbered by [taskCounter]. *)

Module WorkflowSteps.
Import WorkflowEngine Config.

Record Workflow := mkWorkflow {
  engine : Engine;
  taskCounter : nat;
  allAgentResults : list AgentResult;
}.

Definition set_engine (v : Engine) (w : Workflow) : Workflow :=
  {| engine := v; taskCounter := taskCounter w; allAgentResults := allAgentResults w |}.

Definition set_taskCounter (v : nat) (w : Workflow) : Workflow :=
  {| engine := engine w; taskCounter := v; allAgentResults := allAgentResults w |}.

Definition set_allAgentResults (v : list AgentResult) (w : Workflow) : Workflow :=
  {| engine := engine w; taskCounter := taskCounter w; allAgentResults := v |}.

(** [`${role}`] *)
Definition roleName (role : AgentRole) : string :=
  match role with
  | analyzer => "analyzer" | planner => "planner" | executor => "executor"
  | reviewer => "reviewer" | coordinator => "coordinator" | steward => "steward"
  | oracle => "oracle"
  end.

(** [agentOptions] of [runAgent]; [None] is an absent field. *)
Record AgentOptions := mkAgentOptions {
  ao_maxTurns : option nat;
  ao_model : option string;
  ao_subtaskIdForEmit : option string;
}.

Definition noOptions : AgentOptions :=
  {| ao_maxTurns := None; ao_model := None; ao_subtaskIdForEmit := None |}.

(** The tools of a role: their names and what their executions return. *)
Record ToolSet := mkToolSet {
  ts_known : string -> bool;
  ts_execute : nat -> LLMToolCall -> outcome ToolExecutionResult;
}.

(** [this.providers[name]] *)
Fixpoint lookupProvider {P} (name : string) (providers : list (string * P)) : option P :=
  match providers with
  | [] => None
  | (k, p) :: rest => if String.eqb k name then Some p else lookupProvider name rest
  end.

(** Every answer of every provider carries arguments in each of its tool
    calls. *)
Definition providersCarryArguments
    (providers : list (string * (nat -> nat -> list LLMMessage -> outcome LLMResponse)))
  : Prop :=
  forall name chat k,
    In (name, chat) providers -> AgentRuntime.callsCarryArguments (chat k).

(** The options of [runExecuteReviewCycle]. *)
Record CycleOptions := mkCycleOptions {
  executorMaxTurns : option nat;
  executorContextPrefix : option string;
  reviewerMaxTurns : option nat;
  co_reviewerModel : option string;
  co_subtaskId : option string;
}.

(** [artifact.metadata?.[key]] *)
Definition metadataOf (result : AgentResult) (key : string) : option Json.value :=
  match art_metadata (ar_artifact result) with
  | Some members => Json.lookupLast key members
  | None => None
  end.

(** [`${status}`] *)
Definition statusText (s : WorkflowStatus) : string :=
  match s with
  | ws_pending => "pending" | ws_running => "running" | ws_completed => "completed"
  | ws_failed => "failed" | ws_paused => "paused" | ws_needs_review => "needs_review"
  end.

(** [s] between double quotes. *)
Definition inQuotes (s : string) : string :=
  String Json.quote EmptyString +:+ s +:+ String Json.quote EmptyString.

Definition workflowResult (status : WorkflowStatus) (artifacts : list Artifact) : WorkflowResult :=
  {| wr_status := status; wr_artifacts := artifacts |}.

Section Steps.

Variable config : BabylonConfig.

(** The values [randomUUID()] returns, in call order. *)
Variable uuid : nat -> string.

(** [new Date().toISOString()], [JSON.stringify] and the text a template
    string gives a value that is not a string. *)
Variable now : string.
Variable stringify : Json.value -> string.
Variable toText : Json.value -> string.

(** [this.providers], in the order of [Object.entries]; the [chat] of a
    provider answers the [n]-th call of agent run [k]. *)
Variable providers : list (string * (nat -> nat -> list LLMMessage -> outcome LLMResponse)).

(** [this.getTools(role, { useCli })], for agent run [k]. *)
Variable getTools : nat -> AgentRole -> bool -> ToolSet.

(** [getSystemPrompt(role)] *)
Variable getSystemPrompt : AgentRole -> string.

(** [abortSignal?.aborted] as agent run [k] reads it at the start of turn
    [t], and as the engine reads it after [k] agent runs. *)
Variable agentAborted : nat -> nat -> bool.
Variable engineAborted : nat -> bool.

(** What the oversight tracker holds after [k] agent runs: whether
    [getSignals()] has a key, and [JSON.stringify(signals)]. *)
Variable hasSignals : nat -> bool.
Variable signalsText : nat -> string.

(** [Math.random()], read after [k] agent runs. *)
Variable random : nat -> Q.

Definition getMaxRetries : nat := match maxRetries config with Some n => n | None => 2 end.

Definition nextUUID : M Workflow string :=
  fun w => ([], set_engine (set_uuidCount (S (uuidCount (engine w))) (engine w)) w,
            Ok (uuid (uuidCount (engine w)))).

(** A computation of an agent runtime, run from its first state inside the
    engine: its outputs are outputs of the engine. *)
Definition runRuntime {A} (m : M AgentRuntime.Agent A) (start : AgentRuntime.Agent)
  : M Workflow A :=
  fun w => let '(outs, _, r) := m start in (outs, w, r).

(** [`${text}`] for a value of a parsed output. *)
Definition textOf (v : Json.value) : string :=
  match v with Json.JStr s => s | _ => toText v end.

(** [runAgent] *)
Definition runAgent (role : AgentRole) (userMessage : string) (parentContext : option string)
    (fileScope : option (list string)) (depth : nat) (agentOptions : AgentOptions)
  : M Workflow AgentResult :=
  modify (fun w => set_taskCounter (S (taskCounter w)) w) >>
  let! w := get in
  let k := taskCounter w in
  let stepId := roleName role +:+ "-" +:+ pretty k in
  let effectiveSubtaskId :=
    match ao_subtaskIdForEmit agentOptions with
    | Some s => Some s
    | None => currentSubtaskId (engine w)
    end in
  let subtaskIdOfEvent :=
    match effectiveSubtaskId with
    | Some s => if JS.truthy s then Some s else None
    | None => None
    end in
  let base := getDefaultModel role (defaultProvider config) (defaultModel config) in
  let chosen :=
    match ao_model agentOptions with
    | Some m => if JS.truthy m
                then {| provider := provider base; model := m;
                        temperature := temperature base; maxTokens := maxTokens base |}
                else base
    | None => base
    end in
  let! selected :=
    match lookupProvider (provider chosen) providers with
    | Some p => ret (chosen, Some p)
    | None =>
        match providers with
        | (fallbackProviderName, fallbackProvider) :: _ =>
            let fallbackModel :=
              if String.eqb fallbackProviderName "openai"
              then "gpt-4o" else "claude-sonnet-4-20250514" in
            log "workflow" "Provider %s unavailable for %s, falling back to %s/%s"
                [fallbackProviderName; roleName role; fallbackProviderName; fallbackModel] >>
            ret ({| provider := fallbackProviderName; model := fallbackModel;
                    temperature := temperature chosen; maxTokens := maxTokens chosen |},
                 Some fallbackProvider)
        | [] => ret (chosen, None)
        end
    end in
  let '(modelConfig, found) := selected in
  let taskId := match rootTaskId (engine w) with Some i => i | None => stepId end in
  emit (StepStart stepId role taskId (model modelConfig) (provider modelConfig)
                  subtaskIdOfEvent) >>
  match found with
  | None =>
      let failResult :=
        {| ar_agentId := "none"; ar_role := role; ar_status := ars_failed;
           ar_artifact :=
             {| art_type := at_analysis;
                art_content := "No LLM provider available for " +:+ provider modelConfig;
                art_metadata := None; art_createdAt := now |};
           ar_tokenUsage := mkTokenUsage 0 0 0;
           ar_conversationLog := [] |} in
      emit (StepComplete stepId role ars_failed (ar_tokenUsage failResult) taskId
                         (model modelConfig) (provider modelConfig) subtaskIdOfEvent) >>
      ret failResult
  | Some chat =>
      let tools := getTools k role (match useCli config with Some b => b | None => true end) in
      let initialContext :=
        match parentContext with
        | Some pc => if JS.truthy pc then pc +:+ nl +:+ nl +:+ userMessage else userMessage
        | None => userMessage
        end in
      let! agentId := nextUUID in
      let! result :=
        runRuntime
          (AgentRuntime.run agentId role
             (match ao_maxTurns agentOptions with
              | Some n => n
              | None => getDefaultMaxTurns role
              end)
             (maxContextTurns config) (Some stepId) None now stringify
             (agentAborted k) (chat k) (ts_known tools) (ts_execute tools))
          (AgentRuntime.construct (getSystemPrompt role) (Some initialContext)) in
      modify (fun w => set_allAgentResults (allAgentResults w ++ [result]) w) >>
      emit (StepComplete stepId role (ar_status result) (ar_tokenUsage result) taskId
                         (model modelConfig) (provider modelConfig) subtaskIdOfEvent) >>
      ret result
  end.

(** The nudge read off the content of the steward:
    [typeof parsed.nudge === "string" && parsed.nudge.trim()]. *)
Definition nudgeOf (text : string) : option string :=
  match Json.parse text with
  | Ok parsed =>
      match Json.prop parsed "nudge" with
      | Ok (Some (Json.JStr s)) => if JS.truthy (JS.trim s) then Some (JS.trim s) else None
      | _ => None
      end
  | Throw _ => None
  end.

Definition NUDGE_REQUEST : string :=
  "Optionally provide a short nudge for the next step. Respond with JSON only: { " +:+
  inQuotes "nudge" +:+ ": " +:+ inQuotes "..." +:+ " } or {}.".

Definition RETRY_NUDGE_REQUEST : string :=
  "Provide a short nudge to get the Dreamer back on task. Respond with JSON only: { " +:+
  inQuotes "nudge" +:+ ": " +:+ inQuotes "..." +:+ " } or {}.".

(** [maybeOversightCheckIn] *)
Definition maybeOversightCheckIn (executorDepth : option nat) : M Workflow unit :=
  let! w := get in
  match oversightTracker (engine w) with
  | None => ret tt
  | Some lastOutcome =>
      let signalled := hasSignals (taskCounter w) in
      if negb signalled && match lastOutcome with Some _ => false | None => true end
      then ret tt
      else
        match compositeOversightContext (engine w) with
        | Some ctx =>
            let probability :=
              if signalled then 1%Q
              else match oversightProbability config with Some p => p | None => 1 # 4 end in
            if Qle_bool probability (random (taskCounter w)) then ret tt
            else
              let maxPer := match maxOversightPerComposite config with
                            | Some n => n | None => 2%nat end in
              if (maxPer <=? oversightCycleCount (engine w))%nat then ret tt
              else
                let nextDesc :=
                  nth (oc_currentSubtaskIndex ctx) (oc_subtaskDescriptions ctx) "next subtask" in
                let parts :=
                  [ "Oversight check-in for composite at depth " +:+ pretty (oc_depth ctx) +:+ ".";
                    "Original: " +:+ oc_originalDescription ctx;
                    "About to run subtask " +:+ pretty (oc_currentSubtaskIndex ctx + 1)%nat
                      +:+ "/" +:+ pretty (List.length (oc_subtaskDescriptions ctx))
                      +:+ ": " +:+ nextDesc ]
                  ++ (if signalled then ["Signals: " +:+ signalsText (taskCounter w)] else [])
                  ++ match lastOutcome with
                     | Some (nudge, outcome) =>
                         [ "Last nudge outcome: " +:+ inQuotes (JS.sliceTo 80 nudge +:+ "...")
                           +:+ " → " +:+ statusText outcome ]
                     | None => []
                     end
                  ++ [NUDGE_REQUEST] in
                let! stewardResult :=
                  runAgent steward (JS.join nl parts) None None (oc_depth ctx) noOptions in
                let nudge := nudgeOf (art_content (ar_artifact stewardResult)) in
                modify (fun w =>
                  set_engine
                    (set_oversightCycleCount (S (oversightCycleCount (engine w)))
                       (set_pendingOversightNudge nudge (engine w))) w) >>
                emit (OversightCheckIn (oc_depth ctx) (Some (oc_currentSubtaskIndex ctx))
                        match nudge with Some _ => true | None => false end)
        | None =>
            let depth := match executorDepth with Some d => d | None => 0%nat end in
            let parts :=
              [ "Oversight check-in for current task. The Dreamer (executor) is about to retry.";
                "Signals from last run: " +:+ signalsText (taskCounter w);
                RETRY_NUDGE_REQUEST ] in
            let! stewardResult :=
              runAgent steward (JS.join nl parts) None None depth noOptions in
            let nudge := nudgeOf (art_content (ar_artifact stewardResult)) in
            modify (fun w => set_engine (set_pendingOversightNudge nudge (engine w)) w) >>
            emit (OversightCheckIn depth None
                    match nudge with Some _ => true | None => false end)
        end
  end.

(** [(artifact.metadata?.[key] as string) ?? ""] *)
Definition notes (result : AgentResult) (key : string) : Json.value :=
  Json.orElse (metadataOf result key) (Json.JStr EmptyString).

(** [reviewNotes.slice(0, 100) || "Review failed"]: a string is cut, a number,
    a boolean and an object have no [slice] and the call throws; an array,
    which has a [slice] of its own, is carried as the text of its first 100
    elements. *)
Definition retryReason (reviewNotes : Json.value) : outcome string :=
  match reviewNotes with
  | Json.JStr s =>
      Ok (if JS.truthy (JS.sliceTo 100 s) then JS.sliceTo 100 s else "Review failed")
  | Json.JArr items => Ok (toText (Json.JArr (firstn 100 items)))
  | _ => Throw "TypeError: reviewNotes.slice is not a function"
  end.

Definition failedSoFar (artifacts : list Artifact) : WorkflowResult :=
  workflowResult ws_failed artifacts.

(** The [for] loop of [runExecuteReviewCycle]: [remaining] attempts are
    left, [attempt] is the current one. *)
Fixpoint cycleFrom (specContext originalDescription : string)
    (fileScope : option (list string)) (depth : nat) (options : CycleOptions)
    (remaining attempt : nat) (executorContext : string) (artifacts : list Artifact)
  : M Workflow WorkflowResult :=
  match remaining with
  | O => ret (failedSoFar artifacts)
  | S later =>
      let! w := get in
      if engineAborted (taskCounter w) then ret (failedSoFar artifacts)
      else
        let! executorResult :=
          runAgent executor executorContext None fileScope depth
            {| ao_maxTurns := executorMaxTurns options; ao_model := None;
               ao_subtaskIdForEmit := co_subtaskId options |} in
        let artifacts1 := artifacts ++ [ar_artifact executorResult] in
        match ar_status executorResult with
        | ars_failed => ret (failedSoFar artifacts1)
        | _ =>
            let handoff := notes executorResult "handoff_notes" in
            let reviewContext :=
              JS.join nl
                (List.filter JS.truthy
                   [ "Original task: " +:+ originalDescription;
                     nl +:+ "Spec/Context:" +:+ nl +:+ specContext;
                     nl +:+ "Executor summary: "
                        +:+ JS.sliceTo 500 (art_content (ar_artifact executorResult));
                     if Json.truthy handoff
                     then nl +:+ "Executor notes: " +:+ textOf handoff else EmptyString ]) in
            let effectiveReviewerModel :=
              match co_reviewerModel options with
              | Some m => Some m
              | None =>
                  match reviewerModel config with
                  | Some m => Some m
                  | None => match economyMode config with
                            | Some true => Some "gpt-4o-mini"
                            | _ => None
                            end
                  end
              end in
            let! reviewerResult :=
              runAgent reviewer reviewContext None fileScope depth
                {| ao_maxTurns := reviewerMaxTurns options; ao_model := effectiveReviewerModel;
                   ao_subtaskIdForEmit := co_subtaskId options |} in
            let artifacts2 := artifacts1 ++ [ar_artifact reviewerResult] in
            match ar_status reviewerResult with
            | ars_completed => ret (workflowResult ws_completed artifacts2)
            | _ =>
                let reviewNotes := notes reviewerResult "review_notes" in
                if (attempt <? getMaxRetries)%nat
                then
                  log "workflow" "The mirror reflects — revision needed (attempt %d/%d)"
                      [pretty (attempt + 1)%nat; pretty getMaxRetries] >>
                  let! reason :=
                    match retryReason reviewNotes with
                    | Ok r => ret r
                    | Throw e => throw e
                    end in
                  emit (StepRetry ("executor-retry-" +:+ pretty (attempt + 1)%nat)
                                  (attempt + 1) getMaxRetries reason) >>
                  maybeOversightCheckIn (Some depth) >>
                  let! w1 := get in
                  let revisionParts :=
                    [ specContext;
                      nl +:+ nl +:+ "--- REVISION REQUIRED ---";
                      "The Mirror (reviewer) found issues with your previous implementation:";
                      textOf reviewNotes;
                      nl +:+ "Fix ONLY the issues described above. Do not change anything else." ] in
                  let! nudged :=
                    match pendingOversightNudge (engine w1) with
                    | Some nudge =>
                        if JS.truthy nudge
                        then
                          modify (fun w => set_engine
                                    (set_pendingOversightNudge None (engine w)) w) >>
                          ret (revisionParts ++ [nl +:+ nl +:+ formatStewardVoice nudge])
                        else ret revisionParts
                    | None => ret revisionParts
                    end in
                  cycleFrom specContext originalDescription fileScope depth options
                            later (S attempt) (JS.join nl nudged) artifacts2
                else
                  cycleFrom specContext originalDescription fileScope depth options
                            later (S attempt) executorContext artifacts2
            end
        end
  end.

(** [runExecuteReviewCycle] *)
Definition runExecuteReviewCycle (specContext originalDescription : string)
    (fileScope : option (list string)) (depth : nat) (options : CycleOptions)
  : M Workflow WorkflowResult :=
  cycleFrom specContext originalDescription fileScope depth options
            (S getMaxRetries) 0
            (match executorContextPrefix options with Some p => p | None => EmptyString end
             +:+ specContext)
            [].

End Steps.

End WorkflowSteps.

(** ** Effects, continued: every outcome *)

(** What a computation does from every state, whether it returns or throws. *)
Definition always {S A} (m : M S A) (R : S -> list Out -> S -> outcome A -> Prop) : Prop :=
  forall s, R s (outputs (m s)) (final (m s)) (returned (m s)).

Module StepEvents.

(** An output of the runtime of agent [agentId]: a log line or one of the
    agent's own [agent:] and [token:] events. *)
Definition agentOut (agentId : string) (o : Out) : Prop :=
  match o with
  | Log _ _ _ => True
  | Emit (AgentSpawn a _ _ _ _) | Emit (AgentTurn a _ _) | Emit (AgentToolCall a _)
  | Emit (AgentContent a _) | Emit (AgentToolResult a _ _) | Emit (AgentComplete a _ _)
  | Emit (TokenUpdate a _ _) => a = agentId
  | Emit _ => False
  end.

(** A computation of the runtime that returns and whose outputs are outputs
    of agent [agentId]. *)
Definition speaks (agentId : string) {A} (m : M AgentRuntime.Agent A) : Prop :=
  effect m (fun _ o _ _ => Forall (agentOut agentId) o).

(** The [step:start] events of a role among the outputs, counted. *)
Definition stepStarts (role : AgentRole) (outs : list Out) : nat :=
  List.length
    (List.filter (fun e => match e with
                           | StepStart _ r _ _ _ _ => if decide (r = role) then true else false
                           | _ => false
                           end) (emitted outs)).

(** The [step:retry] events among the outputs. *)
Definition stepRetries (outs : list Out) : list TaskBotEvent :=
  List.filter (fun e => match e with StepRetry _ _ _ _ => true | _ => false end) (emitted outs).

(** The [step:start] and [step:complete] events among the outputs. *)
Definition stepEvents (outs : list Out) : list TaskBotEvent :=
  List.filter (fun e => match e with
                        | StepStart _ _ _ _ _ _ | StepComplete _ _ _ _ _ _ _ _ => true
                        | _ => false
                        end) (emitted outs).

End StepEvents.

(** ** What a cycle of executor and reviewer runs puts out *)

Module CycleSummary.
Import WorkflowEngine StepEvents.

Definition isFailed (s : AgentResultStatus) : bool :=
  match s with ars_failed => true | _ => false end.

Definition isCompleted (s : AgentResultStatus) : bool :=
  match s with ars_completed => true | _ => false end.

(** The outputs end with the [step:complete] of a reviewer that completed. *)
Definition endsApproved (outs : list Out) : Prop :=
  exists before stepId usage taskId model provider subtaskId,
    outs = before ++ [Emit (StepComplete stepId reviewer ars_completed usage taskId model
                                         provider subtaskId)].

(** The outputs of [remaining] attempts that start from [held] artifacts. *)
Definition bounded (remaining held : nat) (outs : list Out) (r : outcome WorkflowResult)
  : Prop :=
  (List.length (stepRetries outs) <= stepStarts reviewer outs)%nat /\
  (stepStarts reviewer outs <= stepStarts executor outs)%nat /\
  (stepStarts executor outs <= remaining)%nat /\
  (List.length (stepRetries outs) <= pred remaining)%nat /\
  (stepStarts steward outs <= List.length (stepRetries outs))%nat /\
  stepStarts analyzer outs = 0%nat /\ stepStarts planner outs = 0%nat /\
  stepStarts coordinator outs = 0%nat /\ stepStarts oracle outs = 0%nat /\
  match r with
  | Ok result =>
      (wr_status result = ws_completed \/ wr_status result = ws_failed) /\
      List.length (wr_artifacts result)
      = (held + stepStarts executor outs + stepStarts reviewer outs)%nat /\
      (wr_status result = ws_completed -> endsApproved outs)
  | Throw _ => True
  end.

End CycleSummary.

(** ** [workflow/WorkflowEngine.ts], continued: the steward and the oracle *)

Module Escalation.
Import WorkflowEngine Config WorkflowSteps.

(** [`${parsed.action}`] *)
Definition oracleActionText (a : Parsers.OracleActionType) : string :=
  match a with
  | Parsers.nudge_root_steward => "nudge_root_steward"
  | Parsers.retry_once => "retry_once"
  | Parsers.escalate_to_user => "escalate_to_user"
  end.

(** [`${coordinatorResult.status}`] *)
Definition resultStatusText (s : AgentResultStatus) : string :=
  statusText (to_workflow_status s).

(** [r.artifacts[r.artifacts.length - 1]] *)
Definition lastArtifact (r : WorkflowResult) : option Artifact :=
  List.last (List.map Some (wr_artifacts r)) None.

(** [{ action: "escalate" }] *)
Definition escalateAction : Parsers.StewardAction :=
  {| Parsers.st_action := Parsers.escalate; Parsers.taskIndices := None;
     Parsers.retryFocus := None; Parsers.fixDescription := None |}.

(** The [oracle:decision] events among the outputs. *)
Definition decisions (outs : list Out) : list TaskBotEvent :=
  List.filter (fun e => match e with OracleDecision _ => true | _ => false end) (emitted outs).

Section Escalation.

Variable config : BabylonConfig.
Variable uuid : nat -> string.
Variable now : string.
Variable stringify : Json.value -> string.
Variable providers : list (string * (nat -> nat -> list LLMMessage -> outcome LLMResponse)).
Variable getTools : nat -> AgentRole -> bool -> ToolSet.
Variable getSystemPrompt : AgentRole -> string.
Variable agentAborted : nat -> nat -> bool.

(** [runStewardAndParse] *)
Definition runStewardAndParse (originalDescription : string) (plan : Decomposition)
    (subtaskResults : list WorkflowResult) (coordinatorResult : AgentResult)
    (reviewNotes : string) (depth : nat) (oracleNudge : option string)
  : M Workflow (option Parsers.StewardAction) :=
  let summaries :=
    JS.join nl
      (imap (fun i r =>
               "Subtask " +:+ pretty (i + 1)%nat +:+ ": " +:+
               match lastArtifact r with
               | Some last => JS.sliceTo 150 (art_content last)
               | None => EmptyString
               end) subtaskResults) in
  let baseContext :=
    JS.join nl
      [ "Original task for this level: " +:+ originalDescription;
        nl +:+ "Subtasks (" +:+ pretty (List.length subtaskResults) +:+ "):";
        summaries;
        nl +:+ "Merge/QA result: " +:+ resultStatusText (ar_status coordinatorResult)
           +:+ ". Summary: " +:+ JS.sliceTo 300 (art_content (ar_artifact coordinatorResult));
        nl +:+ "Review notes: " +:+ reviewNotes;
        nl +:+ "Decide the next action and call complete_task with content = JSON: { action, ... }." ] in
  let context :=
    match oracleNudge with
    | Some nudge =>
        if JS.truthy nudge
        then "The Oracle says: " +:+ nudge +:+ nl +:+ nl +:+ baseContext
        else baseContext
    | None => baseContext
    end in
  let! stewardResult :=
    runAgent config uuid now stringify providers getTools getSystemPrompt agentAborted
             steward (JS.trim context) None None depth noOptions in
  match Parsers.parseStewardOutput (art_content (ar_artifact stewardResult)) with
  | Some parsed => ret (Some parsed)
  | None => ret (Some escalateAction)
  end.

(** [runOracle] *)
Definition runOracle (originalDescription : string) (plan : Decomposition)
    (subtaskResults : list WorkflowResult) (coordinatorResult : AgentResult)
    (reviewNotes : string)
  : M Workflow (option Parsers.OracleAction) :=
  let summaries :=
    JS.join "; "
      (imap (fun i r =>
               "Child " +:+ pretty (i + 1)%nat +:+ ": " +:+
               match lastArtifact r with
               | Some last => JS.sliceTo 80 (art_content last)
               | None => "done"
               end) subtaskResults) in
  let snapshot :=
    JS.join nl
      [ "Root task: " +:+ originalDescription;
        "Root steward situation: Merge/QA " +:+ resultStatusText (ar_status coordinatorResult)
          +:+ ".";
        "Review notes: " +:+ JS.sliceTo 500 reviewNotes;
        "Direct children (" +:+ pretty (List.length subtaskResults) +:+ "): " +:+ summaries;
        "The root steward is stuck. What do you do? Respond with JSON only." ] in
  emit (OracleInvoked (JS.sliceTo 200 snapshot)) >>
  let! oracleResult :=
    runAgent config uuid now stringify providers getTools getSystemPrompt agentAborted
             oracle snapshot None None 0 noOptions in
  match Parsers.parseOracleOutput (art_content (ar_artifact oracleResult)) with
  | Some parsed =>
      emit (OracleDecision (oracleActionText (Parsers.or_action parsed))) >>
      ret (Some parsed)
  | None => ret None
  end.

End Escalation.

End Escalation.

(** ** [orchestrator/TaskManager.ts], continued

    The remaining methods, and the calls of a manager as data: a program
    that awaits each call before it makes the next one is a list of calls. *)

Module TaskManagerCalls.
Import TaskManager.

Section Calls.

(** [FileStore.keyToPath] *)
Variable keyToPath : string -> string.

Definition assignRole (i : string) (r : AgentRole) (now : string) (io_ok : bool)
    (m : t) : t * outcome unit :=
  match tasks m !! i with
  | None => (m, Ok tt)
  | Some task =>
      let task' := {| id := id task; parentId := parentId task;
                      description := description task; status := status task;
                      complexity := complexity task;
                      assignedRole := Some r;
                      artifacts := artifacts task; subtaskIds := subtaskIds task;
                      createdAt := createdAt task; updatedAt := now |} in
      persist keyToPath io_ok task' {| tasks := <[ i := task' ]> (tasks m); store := store m |}
  end.

Definition addArtifact (i : string) (artifact : Artifact) (now : string) (io_ok : bool)
    (m : t) : t * outcome unit :=
  match tasks m !! i with
  | None => (m, Ok tt)
  | Some task =>
      let task' := {| id := id task; parentId := parentId task;
                      description := description task; status := status task;
                      complexity := complexity task;
                      assignedRole := assignedRole task;
                      artifacts := artifacts task ++ [artifact];
                      subtaskIds := subtaskIds task;
                      createdAt := createdAt task; updatedAt := now |} in
      persist keyToPath io_ok task' {| tasks := <[ i := task' ]> (tasks m); store := store m |}
  end.

Definition addSubtask (parent child : string) (now : string) (io_ok : bool)
    (m : t) : t * outcome unit :=
  match tasks m !! parent with
  | None => (m, Ok tt)
  | Some task =>
      let task' := {| id := id task; parentId := parentId task;
                      description := description task; status := status task;
                      complexity := complexity task;
                      assignedRole := assignedRole task;
                      artifacts := artifacts task;
                      subtaskIds := subtaskIds task ++ [child];
                      createdAt := createdAt task; updatedAt := now |} in
      persist keyToPath io_ok task' {| tasks := <[ parent := task' ]> (tasks m); store := store m |}
  end.

(** [load]; [FileStore.read] answers [null] for a file that does not exist
    and rethrows any other failure ([io_ok = false]). *)
Definition load (io_ok : bool) (i : string) (m : t) : t * outcome (option TaskData) :=
  match tasks m !! i with
  | Some existing => (m, Ok (Some existing))
  | None =>
      if io_ok
      then match store m !! keyToPath ("tasks/" +:+ i) with
           | Some loaded =>
               ({| tasks := <[ i := loaded ]> (tasks m); store := store m |}, Ok (Some loaded))
           | None => (m, Ok None)
           end
      else (m, Throw "read failed")
  end.

(** [new TaskManager(store)] over the store of [m]. *)
Definition reopen (m : t) : t := {| tasks := ∅; store := store m |}.

(** A call of a method that changes the manager, with the values
    [randomUUID()] and [new Date().toISOString()] give it. *)
Inductive Call :=
  | Create (uuid now description : string) (parent : option string)
  | UpdateStatus (i : string) (s : TaskStatus) (now : string)
  | SetComplexity (i : string) (c : Q) (now : string)
  | AssignRole (i : string) (r : AgentRole) (now : string)
  | AddArtifact (i : string) (artifact : Artifact) (now : string)
  | AddSubtask (parent child now : string)
  | Load (i : string).

Definition forget {A} (r : t * outcome A) : t * outcome unit :=
  (fst r, match snd r with Ok _ => Ok tt | Throw e => Throw e end).

Definition perform (io_ok : bool) (c : Call) (m : t) : t * outcome unit :=
  match c with
  | Create uuid now description parent => forget (create keyToPath uuid now io_ok description parent m)
  | UpdateStatus i s now => forget (updateStatus keyToPath i s now io_ok m)
  | SetComplexity i c now => setComplexity keyToPath i c now io_ok m
  | AssignRole i r now => assignRole i r now io_ok m
  | AddArtifact i artifact now => addArtifact i artifact now io_ok m
  | AddSubtask parent child now => addSubtask parent child now io_ok m
  | Load i => forget (load io_ok i m)
  end.

(** The calls made one after the other, each awaited, whether or not the
    one before threw. *)
Definition performAll (calls : list (Call * bool)) (m : t) : t :=
  fold_left (fun m '(c, io_ok) => fst (perform io_ok c m)) calls m.

(** The call reaches [persist]. *)
Definition writes (c : Call) (m : t) : Prop :=
  match c with
  | Create _ _ _ _ => True
  | UpdateStatus i _ _ | SetComplexity i _ _ | AssignRole i _ _ | AddArtifact i _ _
  | AddSubtask i _ _ => tasks m !! i <> None
  | Load _ => False
  end.

(** The ids a call names. *)
Definition idsOf (c : Call) : list string :=
  match c with
  | Create uuid _ _ _ => [uuid]
  | UpdateStatus i _ _ | SetComplexity i _ _ | AssignRole i _ _ | AddArtifact i _ _
  | AddSubtask i _ _ | Load i => [i]
  end.

(** No two of the ids are kept in the same file. *)
Definition apart (ids : list string) : Prop :=
  forall a b, In a ids -> In b ids ->
              keyToPath ("tasks/" +:+ a) = keyToPath ("tasks/" +:+ b) -> a = b.

(** Memory and store agree, over the ids of [ids]: every task in memory has
    the id it is kept under and is the one persisted for that id; every
    file holds a task under the path of its id. *)
Definition mirrored (ids : list string) (m : t) : Prop :=
  (forall i task, tasks m !! i = Some task ->
                  In i ids /\ id task = i /\
                  store m !! keyToPath ("tasks/" +:+ i) = Some task) /\
  (forall k task, store m !! k = Some task ->
                  In (id task) ids /\ k = keyToPath ("tasks/" +:+ id task)).

End Calls.

End TaskManagerCalls.

(** ** [llm/AnthropicProvider.ts]: the messages sent to the API *)

Module AnthropicProvider.

Inductive ContentBlock :=
  | TextBlock (text : string)
  | ToolUseBlock (id name : string) (input : Json.value)
  | ToolResultBlock (tool_use_id content : string).

(** [content] of a [MessageParam]: a string or an array of blocks. *)
Inductive Content :=
  | Text (text : string)
  | Blocks (blocks : list ContentBlock).

Inductive Role := user | assistant.

Record MessageParam := mkMessageParam {
  mp_role : Role;
  mp_content : Content;
}.

Record ConvertedMessages := mkConvertedMessages {
  system : string;
  anthropicMessages : list MessageParam;
}.

(** The branch of a [tool] message: the block joins the last message when
    that is a user message whose content is an array, and makes a new user
    message otherwise. *)
Fixpoint pushToolResult (messages : list MessageParam) (block : ContentBlock)
  : list MessageParam :=
  match messages with
  | [] => [ {| mp_role := user; mp_content := Blocks [block] |} ]
  | [lastMsg] =>
      match lastMsg with
      | {| mp_role := user; mp_content := Blocks blocks |} =>
          [ {| mp_role := user; mp_content := Blocks (blocks ++ [block]) |} ]
      | _ => [ lastMsg; {| mp_role := user; mp_content := Blocks [block] |} ]
      end
  | m :: rest => m :: pushToolResult rest block
  end.

(** The body of the [for] loop of [convertMessages]. *)
Definition convertMessage (acc : ConvertedMessages) (msg : LLMMessage) : ConvertedMessages :=
  match msg_role msg with
  | role_system =>
      {| system := system acc +:+ (if JS.truthy (system acc) then nl +:+ nl else EmptyString)
                   +:+ msg_content msg;
         anthropicMessages := anthropicMessages acc |}
  | role_user =>
      {| system := system acc;
         anthropicMessages :=
           anthropicMessages acc ++ [ {| mp_role := user; mp_content := Text (msg_content msg) |} ] |}
  | role_tool =>
      {| system := system acc;
         anthropicMessages :=
           pushToolResult (anthropicMessages acc)
             (ToolResultBlock match msg_toolCallId msg with Some i => i | None => EmptyString end
                              (msg_content msg)) |}
  | role_assistant =>
      let contentBlocks :=
        (if JS.truthy (msg_content msg) then [TextBlock (msg_content msg)] else [])
        ++ match msg_toolCalls msg with
           | Some calls =>
               List.map (fun tc => ToolUseBlock (call_id tc) (call_name tc) (call_arguments tc))
                        calls
           | None => []
           end in
      match contentBlocks with
      | [] => acc
      | _ => {| system := system acc;
                anthropicMessages :=
                  anthropicMessages acc
                  ++ [ {| mp_role := assistant; mp_content := Blocks contentBlocks |} ] |}
      end
  end.

(** [convertMessages] *)
Definition convertMessages (messages : list LLMMessage) : ConvertedMessages :=
  fold_left convertMessage messages {| system := EmptyString; anthropicMessages := [] |}.

(** *** What a converted conversation holds *)

Definition blocksOf (m : MessageParam) : list ContentBlock :=
  match mp_content m with Blocks blocks => blocks | Text _ => [] end.

(** The [tool_result] blocks, in order: the id and the content of each. *)
Definition toolResultsOf (messages : list MessageParam) : list (string * string) :=
  flat_map (fun m => flat_map (fun b => match b with
                                        | ToolResultBlock i c => [(i, c)]
                                        | _ => []
                                        end) (blocksOf m)) messages.

(** The [tool_use] blocks, in order, as the calls they stand for. *)
Definition toolUsesOf (messages : list MessageParam) : list LLMToolCall :=
  flat_map (fun m => flat_map (fun b => match b with
                                        | ToolUseBlock i n input =>
                                            [ {| call_id := i; call_name := n;
                                                 call_arguments := input |} ]
                                        | _ => []
                                        end) (blocksOf m)) messages.

(** The user messages whose content is a string. *)
Definition userTextsOf (messages : list MessageParam) : list string :=
  flat_map (fun m => match m with
                     | {| mp_role := user; mp_content := Text t |} => [t]
                     | _ => []
                     end) messages.

(** A user message made of blocks: the results of tools. *)
Definition isResults (m : MessageParam) : bool :=
  match m with
  | {| mp_role := user; mp_content := Blocks _ |} => true
  | _ => false
  end.

(** No two neighbours are both messages of tool results. *)
Fixpoint resultsApart (messages : list MessageParam) : bool :=
  match messages with
  | m1 :: (m2 :: _) as rest => negb (isResults m1 && isResults m2) && resultsApart rest
  | _ => true
  end.

Definition hasRole (r : MessageRole) (m : LLMMessage) : bool :=
  match msg_role m, r with
  | role_system, role_system | role_user, role_user | role_assistant, role_assistant
  | role_tool, role_tool => true
  | _, _ => false
  end.

End AnthropicProvider.

(** ** [workflow/OrgChart.ts]: the shape of a chart *)

Module OrgChartShape.
Import WorkflowEngine.

(** [OrgChart.getNode] *)
Definition getNode (i : string) (nodes : gmap string OrgChartNode) : option OrgChartNode :=
  nodes !! i.

(** Every node is kept under its id and lists each child once; every child
    a node lists is a node of the chart whose parent is that node. *)
Definition consistent (nodes : gmap string OrgChartNode) : Prop :=
  forall i node,
    nodes !! i = Some node ->
    n_id node = i /\
    NoDup (n_childIds node) /\
    forall c, c ∈ n_childIds node ->
              exists child, nodes !! c = Some child /\ n_parentId child = Some i.

End OrgChartShape.

(** ** [tools/definitions.ts], continued: the walk of [search_in_files]

    The directory under the search path is a finite tree. [readdir] names
    the entries of a directory; a name holds no separator and is neither [.]
    nor [..], so [resolve(dir, e.name)] adds one segment to [dir] and
    [relative(basePath, full)] is the segments below [basePath] joined by
    [/]. A directory that is not [readable] is one whose [readdir] throws. *)

Module FileWalk.

#[warnings="-register-all"]
Inductive Entry :=
  | File (name : string)
  | Dir (name : string) (readable : bool) (entries : list Entry).

Definition SKIP_DIRS : list string :=
  ["node_modules"; ".git"; ".next"; "dist"; "build"; Tools.RESTRICTED_DIR].

(** [SKIP_DIRS.has(name)] *)
Definition isSkipped (name : string) : bool := existsb (String.eqb name) SKIP_DIRS.

(** The [for] loop of [collectFiles] over the entries of a directory;
    [visit] is its body. *)
Definition forEntries (visit : Entry -> list string -> outcome (list string)) (maxFiles : nat)
  : list Entry -> list string -> outcome (list string) :=
  fix go (entries : list Entry) (results : list string) : outcome (list string) :=
    match entries with
    | [] => Ok results
    | e :: rest =>
        if (maxFiles <=? List.length results)%nat then Ok results
        else match visit e results with
             | Ok results' => go rest results'
             | Throw msg => Throw msg
             end
    end.

Section Walk.

(** [re.test] for the pattern made of [glob], when a glob is given; [Throw]
    when [new RegExp] refuses the pattern. *)
Variable glob : option (string -> outcome bool).

Variable maxFiles : nat.

(** The body of the loop for the entry [e] of the directory at [relDir]
    below [basePath]; for a directory, the recursive call of
    [collectFiles]. *)
Fixpoint visit (relDir : list string) (e : Entry) (results : list string)
  : outcome (list string) :=
  match e with
  | Dir name readable entries =>
      let rel := JS.join "/" (relDir ++ [name]) in
      if isSkipped name then Ok results
      else if JS.startsWith rel ".." then Ok results
      else if (maxFiles <=? List.length results)%nat then Ok results
      else if negb readable then Ok results
      else forEntries (visit (relDir ++ [name])) maxFiles entries results
  | File name =>
      let rel := JS.join "/" (relDir ++ [name]) in
      match glob with
      | Some test =>
          match test name with
          | Ok true => Ok (results ++ [rel])
          | Ok false => Ok results
          | Throw msg => Throw msg
          end
      | None => Ok (results ++ [rel])
      end
  end.

(** [collectFiles(searchPath, searchPath, glob, maxFiles, results)] on the
    directory with the given entries. *)
Definition collectFiles (readable : bool) (entries : list Entry) (results : list string)
  : outcome (list string) :=
  if (maxFiles <=? List.length results)%nat then Ok results
  else if negb readable then Ok results
  else forEntries (visit []) maxFiles entries results.

(** *** The files of a tree

    The files a walk without a limit would collect, as paths below the
    search path, in the order of [readdir]. *)
Definition accepts (name : string) : bool :=
  match glob with
  | Some test => match test name with Ok b => b | Throw _ => false end
  | None => true
  end.

Fixpoint pathsOf (relDir : list string) (e : Entry) : list (list string) :=
  match e with
  | Dir name readable entries =>
      if isSkipped name || JS.startsWith (JS.join "/" (relDir ++ [name])) ".."
         || negb readable
      then []
      else flat_map (pathsOf (relDir ++ [name])) entries
  | File name => if accepts name then [relDir ++ [name]] else []
  end.

End Walk.

(** A size for the induction on trees. *)
Fixpoint size (e : Entry) : nat :=
  match e with
  | File _ => 1
  | Dir _ _ entries => S (list_sum (List.map size entries))
  end.

End FileWalk.

(** ** [tools/definitions.ts], continued: the tree of [list_directory] *)

Module DirectoryListing.

(** An entry of [readdir(dir, { withFileTypes: true })]. *)
Record Dirent := mkDirent {
  d_name : string;
  d_isDirectory : bool;
}.

Definition LIST_TREE_MAX_ENTRIES : nat := 400.
Definition LIST_TREE_MAX_OUTPUT : N := 12000.

(** [lines] and [totalLen.value]. *)
Record Listing := mkListing {
  lines : list string;
  totalLen : N;
}.

Definition full (l : Listing) : bool :=
  (LIST_TREE_MAX_ENTRIES <=? List.length (lines l))%nat
  || (LIST_TREE_MAX_OUTPUT <=? totalLen l)%N.

(** [`${prefix}${e.isDirectory() ? "d" : "f"} ${e.name}`] *)
Definition lineOf (prefix : string) (e : Dirent) : string :=
  prefix +:+ (if d_isDirectory e then "d" else "f") +:+ " " +:+ d_name e.

Section Listing.

(** [readdir] of the directory at the given segments below [basePath]
    (the names [readdir] gives hold no separator, so [resolve(dir, e.name)]
    adds a segment and [relative(basePath, full)] joins the segments below
    [basePath]); [sorted] is the order [entries.sort] leaves: directories
    first, then by [localeCompare] of the names. *)
Variable readdir : list string -> outcome (list Dirent).
Variable sorted : list Dirent -> list Dirent.

(** The [for] loop over the sorted entries; [enter] is the recursive call
    for a directory, present when [currentDepth < maxDepth]. *)
Fixpoint forEntries (enter : option (list string -> string -> Listing -> Listing))
    (relDir : list string) (prefix : string) (entries : list Dirent) (l : Listing)
  : Listing :=
  match entries with
  | [] => l
  | e :: rest =>
      if full l then l
      else if FileWalk.isSkipped (d_name e) then forEntries enter relDir prefix rest l
      else
        let line := lineOf prefix e in
        let l1 := {| lines := lines l ++ [line];
                     totalLen := (totalLen l + N.of_nat (String.length line) + 1)%N |} in
        match enter with
        | Some recurse =>
            if d_isDirectory e
            then
              if JS.startsWith (JS.join "/" (relDir ++ [d_name e])) ".."
              then forEntries enter relDir prefix rest l1
              else forEntries enter relDir prefix rest
                     (recurse (relDir ++ [d_name e]) (prefix +:+ "  ") l1)
            else forEntries enter relDir prefix rest l1
        | None => forEntries enter relDir prefix rest l1
        end
  end.

(** The body of [listDirectoryRecursive] for a directory at which
    [maxDepth - currentDepth] is [deeper]. *)
Fixpoint walk (deeper : nat) (relDir : list string) (prefix : string) (l : Listing)
  : Listing :=
  if full l then l
  else
    match readdir relDir with
    | Throw _ => l
    | Ok entries =>
        forEntries match deeper with
                   | O => None
                   | S d => Some (walk d)
                   end relDir prefix (sorted entries) l
    end.

(** [listDirectoryRecursive(dir, basePath, currentDepth, maxDepth, prefix,
    lines, totalLen)] *)
Definition listDirectoryRecursive (relDir : list string) (currentDepth maxDepth : nat)
    (prefix : string) (l : Listing) : Listing :=
  walk (maxDepth - currentDepth) relDir prefix l.

End Listing.

(** [depth] times the two spaces the prefix grows by at each level. *)
Fixpoint indent (depth : nat) : string :=
  match depth with
  | O => EmptyString
  | S d => indent d +:+ "  "
  end.

(** A line of the listing at a depth of at most [maxDepth], for an entry
    whose name is not in [SKIP_DIRS]. *)
Definition listed (maxDepth : nat) (line : string) : Prop :=
  exists depth e,
    line = lineOf (indent depth) e /\ (depth <= maxDepth)%nat /\
    FileWalk.isSkipped (d_name e) = false.

(** The listing holds at most 400 lines, each one listed at a depth up to
    [top]. *)
Definition within (top : nat) (l : Listing) : Prop :=
  (List.length (lines l) <= LIST_TREE_MAX_ENTRIES)%nat /\ Forall (listed top) (lines l).

End DirectoryListing.

(* ===================================================================== *)
(** * Concrete inputs used by the examples, witnesses and counterexamples *)
(* ===================================================================== *)

(** The files of a store under [/work/.babylon]. *)
Definition store_path (key : string) : string := "/work/.babylon/" +:+ key +:+ ".json".

(** A manager holding one task, [t1], created without a complexity. *)
Definition one_task : TaskManager.t :=
  fst (TaskManager.create store_path "t1" "2026-01-01T00:00:00.000Z" true
         "Add a comment to the README" None TaskManager.empty).

(** A plan whose setup task is "Install project dependencies" and whose first
    subtask shares two of its three words. *)
Definition setup_install : SubtaskDef :=
  {| sd_description := "Install project dependencies"; sd_fileScope := ["package.json"];
     sd_skipAnalysis := true |}.

Definition subtask_api_deps : SubtaskDef :=
  {| sd_description := "Install dependencies for the api"; sd_fileScope := ["api/"];
     sd_skipAnalysis := false |}.

Definition subtask_build_ui : SubtaskDef :=
  {| sd_description := "Build the UI"; sd_fileScope := ["ui/"]; sd_skipAnalysis := false |}.

Definition subtask_setup_again : SubtaskDef :=
  {| sd_description := "  INSTALL project dependencies "; sd_fileScope := [];
     sd_skipAnalysis := true |}.

Definition plan_with_setup : Decomposition :=
  {| subtasks := [subtask_setup_again; subtask_api_deps; subtask_build_ui];
     parallel := true;
     setupTask := Some setup_install;
     compositeAcceptanceCriteria := None |}.

(** Two subscribers over a log of received events: the first throws on every
    event, the second records it. *)
Definition throwing_subscriber : EventBus.EventHandler (list TaskBotEvent) :=
  {| EventBus.h_id := 1; EventBus.h_call := fun _ w => (w, Throw "renderer failed") |}.

Definition recording_subscriber : EventBus.EventHandler (list TaskBotEvent) :=
  {| EventBus.h_id := 2; EventBus.h_call := fun e w => (w ++ [e], Ok tt) |}.

Definition counting_subscriber : EventBus.EventHandler (list TaskBotEvent) :=
  {| EventBus.h_id := 3; EventBus.h_call := fun e w => (e :: w, Ok tt) |}.

Definition bus_throw_then_record : EventBus.t (list TaskBotEvent) :=
  EventBus.on recording_subscriber (EventBus.on throwing_subscriber EventBus.new).

Definition bus_two_recorders : EventBus.t (list TaskBotEvent) :=
  EventBus.on counting_subscriber (EventBus.on recording_subscriber EventBus.new).

Definition event_start : TaskBotEvent :=
  WorkflowStart "babylon-cycle" "task-1" "Add a comment to the README".

(** A root task whose analyzer step fails: the steps are announced on the bus
    and the result is [failed]. *)
Definition runTask_failing_analyzer
  : WorkflowEngine.RunTaskOptions -> M WorkflowEngine.Engine WorkflowEngine.WorkflowResult :=
  fun opts =>
    emit (StepStart "analyzer-1" analyzer "task-1" "gpt-4o" "openai" None) >>
    emit (StepComplete "analyzer-1" analyzer ars_failed (mkTokenUsage 0 0 0)
                       "task-1" "gpt-4o" "openai" None) >>
    ret {| WorkflowEngine.wr_status := ws_failed; WorkflowEngine.wr_artifacts := [] |}.

(** A root task that throws after its first step was announced. *)
Definition runTask_throwing
  : WorkflowEngine.RunTaskOptions -> M WorkflowEngine.Engine WorkflowEngine.WorkflowResult :=
  fun opts =>
    emit (StepStart "analyzer-1" analyzer "task-1" "gpt-4o" "openai" None) >>
    throw "Unknown role".

(** Scenario C of the specification: two subtasks that both claim [src/], in
    a plan marked parallel. *)
Definition subtask_a : SubtaskDef :=
  {| sd_description := "Add the parser"; sd_fileScope := ["src/"]; sd_skipAnalysis := true |}.

Definition subtask_b : SubtaskDef :=
  {| sd_description := "Add the printer"; sd_fileScope := ["src/"]; sd_skipAnalysis := true |}.

Definition plan_overlapping : Decomposition :=
  {| subtasks := [subtask_a; subtask_b]; parallel := true; setupTask := None;
     compositeAcceptanceCriteria := None |}.

Definition uuid_stream (n : nat) : string := "uuid-" +:+ pretty n.

(** Children that all complete, and children of which the parser subtask fails. *)
Definition runTask_completing
  : WorkflowEngine.RunTaskOptions -> M WorkflowEngine.Engine WorkflowEngine.WorkflowResult :=
  fun opts => ret {| WorkflowEngine.wr_status := ws_completed;
                     WorkflowEngine.wr_artifacts := [] |}.

Definition runTask_parser_fails
  : WorkflowEngine.RunTaskOptions -> M WorkflowEngine.Engine WorkflowEngine.WorkflowResult :=
  fun opts =>
    ret {| WorkflowEngine.wr_status :=
             if String.eqb (WorkflowEngine.rt_description opts) "Add the parser"
             then ws_failed else ws_completed;
           WorkflowEngine.wr_artifacts := [] |}.

Definition no_check_in : M WorkflowEngine.Engine unit := ret tt.

(** A composite QA cycle in which the coordinator completes at once. *)
Definition qa_completes
  : Decomposition -> list SubtaskDef -> string -> string -> nat ->
    list Artifact -> list WorkflowEngine.WorkflowResult ->
    M WorkflowEngine.Engine WorkflowEngine.WorkflowResult :=
  fun _ _ _ _ _ artifacts _ =>
    ret {| WorkflowEngine.wr_status := ws_completed;
           WorkflowEngine.wr_artifacts := artifacts |}.

Definition engine_with_root : WorkflowEngine.Engine :=
  WorkflowEngine.engineAtStart "Build the tool" "task-1" WorkflowEngine.newEngine.

(** A working directory [/work] in which every command exits with code 0 and
    every file reads as ["data"]. *)
Definition env_work : Tools.Env :=
  {| Tools.cwd := "/";
     Tools.execa := fun _ _ => Ok {| Tools.stdout := "ok"; Tools.stderr := "";
                                     Tools.exitCode := Some 0%Z |};
     Tools.readFile := fun _ => Ok "data";
     Tools.writeFile := fun _ _ => Ok tt |}.

(** The same directory, with commands that exit with code 1. *)
Definition env_failing : Tools.Env :=
  {| Tools.cwd := "/";
     Tools.execa := fun _ _ => Ok {| Tools.stdout := ""; Tools.stderr := "boom";
                                     Tools.exitCode := Some 1%Z |};
     Tools.readFile := fun _ => Ok "data";
     Tools.writeFile := fun _ _ => Ok tt |}.

Definition context_work : ToolContext :=
  {| tc_taskId := "task-1"; tc_agentId := ""; workingDirectory := "/work";
     fileScope := None; aborted := false |}.

(** The explicit cases of the blocklist. *)
Definition explicit_blocked_commands : list string :=
  [ "rm -rf /"; "rm -rf ~"; "git push --force"; "git push -f"; "npm publish";
    "npx some-package publish"; "sudo rm"; "mkfs"; "dd if="; ":(){ :|:& };:" ].

(** Bodies for the directory tools that list one entry and find one match. *)
Definition listing_body
  : Tools.Env -> list string -> nat -> list Tools.IO * outcome ToolExecutionResult :=
  fun _ dirPath _ =>
    ([Tools.Readdir dirPath], Ok {| content := "f README.md"; isError := false |}).

Definition search_body
  : Tools.Env -> list string -> string -> option string -> option Z ->
    list Tools.IO * outcome ToolExecutionResult :=
  fun _ searchPath _ _ _ =>
    ([Tools.Readdir searchPath], Ok {| content := "README.md:1:hello"; isError := false |}).

(** JSON payloads. [quoted s] is [s] between double quotes. *)
Definition quoted (s : string) : string :=
  String Json.quote EmptyString +:+ s +:+ String Json.quote EmptyString.

(** The analysis of scenario A. *)
Definition analysis_payload : string :=
  "{" +:+ quoted "complexity" +:+ ":0.2," +:+ quoted "summary" +:+ ":"
  +:+ quoted "Small task" +:+ "," +:+ quoted "affectedFiles" +:+ ":[],"
  +:+ quoted "recommendedApproach" +:+ ":" +:+ quoted "Direct implementation" +:+ "}".

Definition decomposition_payload : string :=
  "{" +:+ quoted "type" +:+ ":" +:+ quoted "decomposition" +:+ ","
  +:+ quoted "subtasks" +:+ ":[]," +:+ quoted "parallel" +:+ ":false}".

Definition escalate_payload : string :=
  "{" +:+ quoted "action" +:+ ":" +:+ quoted "escalate" +:+ "}".

Definition retry_once_payload : string :=
  "{" +:+ quoted "action" +:+ ":" +:+ quoted "retry_once" +:+ "}".

(** Scenario F: a model that asks for the same file on every turn. *)
Definition read_call : LLMToolCall :=
  {| call_id := "call-1"; call_name := "read_file";
     call_arguments := Json.JObj [("path", Json.JStr "a.ts")] |}.

Definition no_usage : TokenUsage := mkTokenUsage 0 0 0.

Definition looping_chat : nat -> list LLMMessage -> outcome LLMResponse :=
  fun _ _ => Ok {| resp_content := None; resp_toolCalls := [read_call];
                   resp_usage := no_usage; resp_stopReason := tool_use |}.

(** [JSON.stringify] on the argument objects of the scenarios, which have
    string members only. *)
Definition stringify_members (v : Json.value) : string :=
  match v with
  | Json.JObj members =>
      "{" +:+ JS.join ","
                (List.map (fun '(k, x) =>
                             quoted k +:+ ":" +:+
                             match x with Json.JStr t => quoted t | _ => "null" end)
                          members) +:+ "}"
  | _ => "null"
  end.

(** Tools that answer every call with the same text. *)
Definition file_tools : nat -> LLMToolCall -> outcome ToolExecutionResult :=
  fun _ _ => Ok {| content := "data"; isError := false |}.

Definition role_tools (name : string) : bool :=
  String.eqb name "read_file" || String.eqb name "run_terminal_command"
  || String.eqb name "git_operations" || String.eqb name "complete_task".

(** The completion of a task, as [complete_task] returns it. *)
Definition completion_payload : string :=
  "{" +:+ quoted "status" +:+ ":" +:+ quoted "completed" +:+ ","
      +:+ quoted "summary" +:+ ":" +:+ quoted "done" +:+ ","
      +:+ quoted "content" +:+ ":" +:+ quoted "tests were run" +:+ "}".

(** The tools of the role over an environment: commands go to
    [run_terminal_command], [complete_task] returns the completion. *)
Definition tools_over (env : Tools.Env) (context : ToolContext)
  : nat -> LLMToolCall -> outcome ToolExecutionResult :=
  fun _ toolCall =>
    if String.eqb (call_name toolCall) "run_terminal_command"
    then match Json.prop (call_arguments toolCall) "command" with
         | Ok (Some (Json.JStr command)) =>
             snd (Tools.runTerminalCommand env command None context)
         | _ => Throw "command must be a string"
         end
    else if String.eqb (call_name toolCall) "complete_task"
    then Ok {| content := completion_payload; isError := false |}
    else Ok {| content := "data"; isError := false |}.

Definition test_call : LLMToolCall :=
  {| call_id := "call-1"; call_name := "run_terminal_command";
     call_arguments := Json.JObj [("command", Json.JStr "npm test")] |}.

Definition complete_call : LLMToolCall :=
  {| call_id := "call-2"; call_name := "complete_task"; call_arguments := Json.JObj [] |}.

(** A model that runs the tests on its first turn and completes on the
    second. *)
Definition test_then_complete : nat -> list LLMMessage -> outcome LLMResponse :=
  fun n _ =>
    Ok {| resp_content := None;
          resp_toolCalls := match n with O => [test_call] | _ => [complete_call] end;
          resp_usage := no_usage; resp_stopReason := tool_use |}.

(** A model that only ever answers with text. *)
Definition text_only_chat : nat -> list LLMMessage -> outcome LLMResponse :=
  fun _ _ => Ok {| resp_content := Some "thinking"; resp_toolCalls := [];
                   resp_usage := mkTokenUsage 10 5 15; resp_stopReason := end_turn |}.

(** A conversation with three answers of the model. *)
Definition long_conversation : AgentRuntime.Agent :=
  AgentRuntime.set_messages
    [ AgentRuntime.systemMessage "system"; AgentRuntime.userMessage "task";
      AgentRuntime.assistantMessage "first" (Some [read_call]);
      AgentRuntime.toolMessage "data" "call-1";
      AgentRuntime.assistantMessage "second" None;
      AgentRuntime.assistantMessage "third" None ]
    (AgentRuntime.construct "system" (Some "task")).

(** A step whose last three tool calls are the same, that took two minutes
    and needs review. *)
Definition repeating_step : OversightTracker.StepData :=
  {| OversightTracker.toolCalls := ["read_file"; "write_file"; "write_file"; "write_file"];
     OversightTracker.durationMs := Some 120000%Z;
     OversightTracker.status := Some ars_needs_review |}.

(** The events of agent [agent-1], with those of another step and its agent
    between them. *)
Definition interleaved_events : list TaskBotEvent :=
  [ AgentTurn "agent-1" 1 10;
    AgentToolCall "agent-1" "write_file";
    StepStart "reviewer-2" reviewer "task-1" "gpt-4o" "openai" None;
    AgentSpawn "agent-2" reviewer None (Some "reviewer-2") "review";
    AgentToolCall "agent-1" "write_file";
    AgentToolCall "agent-2" "read_file";
    AgentToolResult "agent-1" "write_file" false;
    AgentToolCall "agent-1" "write_file";
    StepComplete "reviewer-2" reviewer ars_completed no_usage "task-1" "gpt-4o" "openai" None ].

(** An engine configuration with every optional field absent, one provider
    whose model only answers with text, and the tools of a role. *)
Definition default_config : Config.BabylonConfig :=
  {| Config.workingDirectory := "/work"; Config.defaultProvider := None;
     Config.defaultModel := None; Config.maxRetries := None; Config.maxDepth := None;
     Config.useCli := None; Config.simplePathMaxTurns := None;
     Config.reviewerModel := None; Config.economyMode := None;
     Config.complexityDirectThreshold := None; Config.maxContextTurns := None;
     Config.oversightProbability := None; Config.maxOversightPerComposite := None |}.

Definition text_providers
  : list (string * (nat -> nat -> list LLMMessage -> outcome LLMResponse)) :=
  [("anthropic", fun _ => text_only_chat)].

Definition role_toolset : nat -> AgentRole -> bool -> WorkflowSteps.ToolSet :=
  fun _ _ _ => {| WorkflowSteps.ts_known := role_tools;
                  WorkflowSteps.ts_execute := file_tools |}.

Definition started_workflow : WorkflowSteps.Workflow :=
  {| WorkflowSteps.engine := engine_with_root; WorkflowSteps.taskCounter := 0;
     WorkflowSteps.allAgentResults := [] |}.

(** The result of a coordinator that asks for a review. *)
Definition coordinator_result : AgentResult :=
  {| ar_agentId := "agent-0"; ar_role := coordinator; ar_status := ars_needs_review;
     ar_artifact := {| art_type := at_coordination; art_content := "The printer is missing";
                       art_metadata := None; art_createdAt := "2026-01-01T00:00:00.000Z" |};
     ar_tokenUsage := no_usage; ar_conversationLog := [] |}.

(** The product of a number of seconds that is exact in the number type. *)
Definition exact_times1000 (seconds : Q) : Q := (seconds * 1000)%Q.

(* ===================================================================== *)
(** * Properties *)
(* ===================================================================== *)

(** ** String primitives: sanity checks against the ECMAScript behaviour *)

Example splitWs_runs : JS.splitWs "install  project deps" = ["install"; "project"; "deps"].
Proof. reflexivity. Qed.

Example splitWs_trailing : JS.splitWs "a " = ["a"; ""] /\ JS.splitWs "" = [""].
Proof. split; reflexivity. Qed.

Example trim_both_ends : JS.trim "  Install Deps  " = "Install Deps".
Proof. reflexivity. Qed.

Example normalize_cases :
  WorkflowEngine.normalize "src/" = "src" /\ WorkflowEngine.normalize "/" = "."
  /\ WorkflowEngine.normalize "" = "." /\ WorkflowEngine.normalize "src//" = "src/".
Proof. repeat split. Qed.

(** ** TaskManager *)

Section TaskManagerProps.
Import TaskManager.

Variable keyToPath : string -> string.

Lemma setComplexity_tasks (i : string) (c : Q) (now : string) (io_ok : bool) (m : t) (task : TaskData) :
  tasks m !! i = Some task ->
  tasks (fst (setComplexity keyToPath i c now io_ok m)) !! i =
    Some {| id := id task; parentId := parentId task;
            description := description task; status := status task;
            complexity := Some c; assignedRole := assignedRole task;
            artifacts := artifacts task; subtaskIds := subtaskIds task;
            createdAt := createdAt task; updatedAt := now |}.
Proof.
  intros Hi. unfold setComplexity, persist. rewrite Hi.
  destruct io_ok; simpl; apply lookup_insert_eq.
Qed.

(** C7 (as amended): [setComplexity] on a known task always stores the value
    it is given, whatever complexity the task already had: the last write
    wins, also when the persistence write fails. On an unknown id it does
    nothing: memory and store are left as they were and the call returns. *)
Theorem setComplexity_last_write_wins
    (i : string) (c2 : Q) (now : string) (io_ok : bool) (m : t) :
  (forall task, tasks m !! i = Some task ->
     stored_complexity i (fst (setComplexity keyToPath i c2 now io_ok m)) = Some c2) /\
  (tasks m !! i = None -> setComplexity keyToPath i c2 now io_ok m = (m, Ok tt)).
Proof.
  split.
  - intros task Hi. unfold stored_complexity.
    rewrite (setComplexity_tasks i c2 now io_ok m task Hi). reflexivity.
  - intros Hi. unfold setComplexity. rewrite Hi. reflexivity.
Qed.

End TaskManagerProps.

Section TaskManagerScenario.
Import TaskManager.

Lemma one_task_lookup : exists task, tasks one_task !! "t1" = Some task.
Proof. eexists. unfold one_task, create, persist. simpl. apply lookup_insert_eq. Qed.

Lemma one_task_unknown : tasks one_task !! "t2" = None.
Proof. unfold one_task, create, persist. simpl. apply lookup_insert_None. split; [apply lookup_empty|discriminate]. Qed.

Lemma setComplexity_last_write_wins_witness :
  ((exists task, tasks one_task !! "t1" = Some task) /\
   stored_complexity "t1" (fst (setComplexity store_path "t1" (4 # 5) "now" false one_task)) = Some (4 # 5)) /\
  (tasks one_task !! "t2" = None /\
   setComplexity store_path "t2" (4 # 5) "now" true one_task = (one_task, Ok tt)).
Proof.
  split; (split; [first [exact one_task_lookup | exact one_task_unknown]|]).
  - destruct one_task_lookup as [task Ht].
    exact (proj1 (setComplexity_last_write_wins store_path "t1" (4 # 5) "now" false one_task) task Ht).
  - exact (proj2 (setComplexity_last_write_wins store_path "t2" (4 # 5) "now" true one_task)
             one_task_unknown).
Defined.

(** C7 (as stated) fails: after the complexity of [t1] was set to 0.2, a
    second [setComplexity] with 0.8 is not ignored; the stored value is 0.8. *)
Lemma setComplexity_second_write_not_ignored :
  let m1 := fst (setComplexity store_path "t1" (1 # 5) "now1" true one_task) in
  let m2 := fst (setComplexity store_path "t1" (4 # 5) "now2" true m1) in
  stored_complexity "t1" m1 = Some (1 # 5) /\
  stored_complexity "t1" m2 = Some (4 # 5) /\
  stored_complexity "t1" m2 <> stored_complexity "t1" m1.
Proof.
  intros m1 m2.
  destruct one_task_lookup as [task Ht].
  assert (H1 : stored_complexity "t1" m1 = Some (1 # 5)).
  { unfold stored_complexity, m1.
    rewrite (setComplexity_tasks store_path "t1" (1 # 5) "now1" true one_task task Ht). reflexivity. }
  assert (H2 : stored_complexity "t1" m2 = Some (4 # 5)).
  { unfold stored_complexity in H1.
    destruct (tasks m1 !! "t1") as [task1|] eqn:E1; [|discriminate].
    unfold stored_complexity, m2.
    rewrite (setComplexity_tasks store_path "t1" (4 # 5) "now2" true m1 task1 E1). reflexivity. }
  split; [exact H1 | split; [exact H2 |]].
  rewrite H1, H2. intros Heq. inversion Heq.
Qed.

End TaskManagerScenario.

(** ** WorkflowEngine: the duplicate-setup filter *)

Section FilterDuplicateSetup.
Import WorkflowEngine.

Lemma keepSubtask_false_iff (setupDesc : string) (s : SubtaskDef) :
  keepSubtask setupDesc s = false <-> duplicatesSetup setupDesc s.
Proof.
  unfold keepSubtask, duplicatesSetup, normalizedDescription.
  set (d := JS.toLowerCase (JS.trim (sd_description s))).
  destruct (String.eqb d setupDesc) eqn:E.
  - apply String.eqb_eq in E. split; [intros _; left; exact E | reflexivity].
  - apply String.eqb_neq in E. rewrite negb_false_iff, andb_true_iff.
    rewrite Nat.leb_le, forallb_forall. split.
    + intros [H1 H2]. right. split; assumption.
    + intros [H | [H1 H2]]; [contradiction | split; assumption].
Qed.

Example filter_on_plan_with_setup :
  filterDuplicateSetupSubtask plan_with_setup = [subtask_api_deps; subtask_build_ui].
Proof. reflexivity. Qed.

(** C9 (as amended): with a setup task [S], the filter keeps, in their declared
    order, exactly the subtasks that do not duplicate the setup, where a
    subtask duplicates the setup when its trimmed, lower-cased description
    equals that of [S], or [S] has at least two words longer than two
    characters and every one of them occurs in the subtask's description.
    The result is the subtask list filtered by any test that decides
    "does not duplicate the setup": the subtasks that stay keep their places
    relative to one another and their number of occurrences. *)
Theorem filterDuplicateSetupSubtask_removes_exactly
    (plan : Decomposition) (S : SubtaskDef) :
  setupTask plan = Some S ->
  (forall s, In s (filterDuplicateSetupSubtask plan) <->
             In s (subtasks plan) /\ ~ duplicatesSetup (normalizedDescription S) s) /\
  (forall keep : SubtaskDef -> bool,
     (forall s, keep s = true <-> ~ duplicatesSetup (normalizedDescription S) s) ->
     filterDuplicateSetupSubtask plan = List.filter keep (subtasks plan)) /\
  (exists keep : SubtaskDef -> bool,
     forall s, keep s = true <-> ~ duplicatesSetup (normalizedDescription S) s).
Proof.
  intros HS.
  assert (Hkeep : forall s, keepSubtask (normalizedDescription S) s = true <->
                            ~ duplicatesSetup (normalizedDescription S) s).
  { intros s. rewrite <- keepSubtask_false_iff.
    destruct (keepSubtask (normalizedDescription S) s); intuition congruence. }
  unfold filterDuplicateSetupSubtask. rewrite HS. fold (normalizedDescription S).
  split; [|split].
  - intros s. rewrite filter_In, Hkeep. reflexivity.
  - intros keep Hspec. apply List.filter_ext. intros s.
    destruct (keep s) eqn:E.
    + apply Hkeep, Hspec, E.
    + destruct (keepSubtask (normalizedDescription S) s) eqn:E'; [|reflexivity].
      apply Hkeep, Hspec in E'. congruence.
  - exists (keepSubtask (normalizedDescription S)). exact Hkeep.
Qed.

Lemma filterDuplicateSetupSubtask_removes_exactly_witness :
  setupTask plan_with_setup = Some setup_install /\
  (In subtask_api_deps (filterDuplicateSetupSubtask plan_with_setup) <->
   In subtask_api_deps (subtasks plan_with_setup) /\
   ~ duplicatesSetup (normalizedDescription setup_install) subtask_api_deps).
Proof.
  split; [reflexivity|].
  apply (proj1 (filterDuplicateSetupSubtask_removes_exactly plan_with_setup setup_install
                  eq_refl)).
Defined.

(** C9 (as stated) fails: "Install dependencies for the api" contains two of
    the three words of the setup "Install project dependencies", so the claim
    has it removed, yet the filter keeps it. *)
Lemma filter_keeps_subtask_sharing_two_words :
  claimedDuplicate (normalizedDescription setup_install) subtask_api_deps = true /\
  In subtask_api_deps (filterDuplicateSetupSubtask plan_with_setup).
Proof. split; [reflexivity | left; reflexivity]. Qed.

End FilterDuplicateSetup.

(** ** EventBus *)

Section EventBusProps.
Import EventBus.
Context {W : Type}.

(** No listener of [hs] throws on [event] when they are called in turn from [w]. *)
Fixpoint allReturn (hs : list (EventHandler W)) (event : TaskBotEvent) (w : W) : Prop :=
  match hs with
  | [] => True
  | h :: r =>
      match h_call h event w with
      | (w', Ok _) => allReturn r event w'
      | (_, Throw _) => False
      end
  end.

Lemma callListeners_all (hs : list (EventHandler W)) (event : TaskBotEvent) (w : W) :
  allReturn hs event w ->
  called (callListeners hs event w) = map h_id hs /\
  result (callListeners hs event w) = Ok tt.
Proof.
  revert w. induction hs as [|h r IH]; intros w Hall; simpl in *.
  - split; reflexivity.
  - destruct (h_call h event w) as [w' [[]|msg]]; [|contradiction].
    destruct (IH w' Hall) as [Hc Hr]. simpl. rewrite Hc, Hr. split; reflexivity.
Qed.

Lemma callListeners_throw (hs : list (EventHandler W)) (event : TaskBotEvent) (w : W) (msg : string) :
  result (callListeners hs event w) = Throw msg ->
  exists pre h post,
    hs = pre ++ h :: post /\
    called (callListeners hs event w) = map h_id (pre ++ [h]) /\
    allReturn pre event w.
Proof.
  revert w. induction hs as [|h r IH]; intros w Hr; simpl in *.
  - discriminate.
  - destruct (h_call h event w) as [w' [[]|m]] eqn:E; simpl in *.
    + destruct (IH w' Hr) as (pre & h' & post & -> & Hc & Hall).
      exists (h :: pre), h', post. simpl. rewrite E, Hc. repeat split; auto.
    + exists [], h, r. simpl. repeat split; auto.
Qed.

(** A listener that throws ends the delivery: the listeners before it have
    been called, it is the last one called, and [emit] throws what it threw. *)
Lemma callListeners_first_throw (pre : list (EventHandler W)) (h : EventHandler W)
    (post : list (EventHandler W)) (event : TaskBotEvent) (w w' : W) (msg : string) :
  allReturn pre event w ->
  h_call h event (world (callListeners pre event w)) = (w', Throw msg) ->
  callListeners (pre ++ h :: post) event w =
    {| called := map h_id pre ++ [h_id h]; world := w'; result := Throw msg |}.
Proof.
  revert w. induction pre as [|p pre IH]; intros w Hall Hh; simpl in *.
  - rewrite Hh. reflexivity.
  - destruct (h_call p event w) as [w1 [[]|m]]; [|contradiction].
    simpl in Hh. rewrite (IH w1 Hall Hh). reflexivity.
Qed.

(** C5 (as amended): [emit] delivers the event within the call, in
    registration order, to the subscribers registered at that time up to and
    including the first one that throws. When none throws every subscriber
    receives the event and [emit] returns. When a subscriber throws after the
    ones registered before it have returned, [emit] throws the same exception
    to the producer and the subscribers registered after it are not called;
    and [emit] throws in no other way. *)
Theorem emit_delivers_in_registration_order_until_first_throw
    (bus : t W) (event : TaskBotEvent) (w : W) :
  (allReturn (emitter bus) event w ->
     called (emit event bus w) = map h_id (emitter bus) /\
     result (emit event bus w) = Ok tt) /\
  (forall pre h post w' msg,
     emitter bus = pre ++ h :: post ->
     allReturn pre event w ->
     h_call h event (world (callListeners pre event w)) = (w', Throw msg) ->
     called (emit event bus w) = map h_id pre ++ [h_id h] /\
     world (emit event bus w) = w' /\
     result (emit event bus w) = Throw msg) /\
  (forall msg, result (emit event bus w) = Throw msg ->
     exists pre h post,
       emitter bus = pre ++ h :: post /\
       called (emit event bus w) = map h_id pre ++ [h_id h] /\
       allReturn pre event w).
Proof.
  split; [|split].
  - apply callListeners_all.
  - intros pre h post w' msg Hbus Hall Hh. unfold emit. rewrite Hbus.
    rewrite (callListeners_first_throw pre h post event w w' msg Hall Hh).
    repeat split; reflexivity.
  - intros msg Hr. destruct (callListeners_throw _ _ _ _ Hr) as (pre & h & post & H1 & H2 & H3).
    exists pre, h, post. rewrite map_app in H2. auto.
Qed.

(** Registration order is the order of the [on] calls. *)
Lemma on_appends (h : EventHandler W) (bus : t W) :
  map h_id (emitter (on h bus)) = map h_id (emitter bus) ++ [h_id h].
Proof. unfold on; simpl. apply map_app. Qed.

End EventBusProps.

Example emit_two_recorders :
  EventBus.called (EventBus.emit event_start bus_two_recorders []) = [2; 3]
  /\ EventBus.world (EventBus.emit event_start bus_two_recorders []) = [event_start; event_start]
  /\ EventBus.result (EventBus.emit event_start bus_two_recorders []) = Ok tt.
Proof. repeat split. Qed.

Lemma emit_delivers_in_registration_order_until_first_throw_witness :
  let bus := EventBus.on recording_subscriber
               (EventBus.on throwing_subscriber (EventBus.on counting_subscriber EventBus.new)) in
  EventBus.called (EventBus.emit event_start bus []) = [3; 1] /\
  EventBus.world (EventBus.emit event_start bus []) = [event_start] /\
  EventBus.result (EventBus.emit event_start bus []) = Throw "renderer failed".
Proof.
  intros bus.
  apply (proj1 (proj2 (emit_delivers_in_registration_order_until_first_throw bus event_start []))
           [counting_subscriber] throwing_subscriber [recording_subscriber]
           [event_start] "renderer failed").
  - reflexivity.
  - exact I.
  - reflexivity.
Defined.

(** C5 (as stated) fails: with a throwing subscriber registered before a
    recording one, [emit] throws, only the first subscriber is called, and the
    second never receives the event. *)
Lemma emit_exception_prevents_later_delivery :
  map EventBus.h_id (EventBus.emitter bus_throw_then_record) = [1; 2] /\
  EventBus.called (EventBus.emit event_start bus_throw_then_record []) = [1] /\
  EventBus.world (EventBus.emit event_start bus_throw_then_record []) = [] /\
  EventBus.result (EventBus.emit event_start bus_throw_then_record []) = Throw "renderer failed".
Proof. repeat split. Qed.

(** ** WorkflowEngine.run *)

Section RunProps.
Import WorkflowEngine.

Lemma emitted_app (o1 o2 : list Out) : emitted (o1 ++ o2) = emitted o1 ++ emitted o2.
Proof. unfold emitted. apply flat_map_app. Qed.

Lemma workflowEvents_app (o1 o2 : list Out) :
  workflowEvents (o1 ++ o2) = workflowEvents o1 ++ workflowEvents o2.
Proof. unfold workflowEvents. rewrite emitted_app. apply List.filter_app. Qed.



Example run_failing_analyzer :
  emitted (outputs (run runTask_failing_analyzer
                        {| onStart := Ok tt; onComplete := Ok tt; onFailure := Ok tt |}
                        "do something" "test-task-id-123" newEngine)) =
    [ WorkflowStart "babylon-cycle" "test-task-id-123" "do something";
      StepStart "analyzer-1" analyzer "task-1" "gpt-4o" "openai" None;
      StepComplete "analyzer-1" analyzer ars_failed (mkTokenUsage 0 0 0)
                   "task-1" "gpt-4o" "openai" None;
      WorkflowComplete "test-task-id-123" ws_failed ].
Proof. reflexivity. Qed.


End RunProps.

(** ** WorkflowEngine: overlapping file scopes *)

Section OverlapProps.
Import WorkflowEngine.

Lemma pathsOverlap_iff (pa pb : string) :
  pathsOverlap pa pb = true <->
  pa = pb \/ JS.startsWith pa (pb +:+ "/") = true \/ JS.startsWith pb (pa +:+ "/") = true.
Proof.
  unfold pathsOverlap. rewrite !orb_true_iff, String.eqb_eq. tauto.
Qed.

Lemma scopesOverlap_iff (a b : list string) :
  scopesOverlap (List.map normalize a) (List.map normalize b) = true <-> scopeListsOverlap a b.
Proof.
  unfold scopesOverlap, scopeListsOverlap. rewrite !length_map.
  destruct a as [|x a]; [simpl; tauto|].
  destruct b as [|y b]; [simpl; tauto|].
  cbn [List.length Nat.eqb orb]. rewrite existsb_exists. split.
  - intros (pa & Hpa & H). apply existsb_exists in H as (pb & Hpb & H).
    apply pathsOverlap_iff in H. right; right. exists pa, pb. auto.
  - intros [H|[H|(pa & pb & Hpa & Hpb & H)]]; [discriminate H|discriminate H|].
    exists pa. split; [exact Hpa|]. apply existsb_exists. exists pb.
    split; [exact Hpb|]. apply pathsOverlap_iff. exact H.
Qed.

(** [haveOverlappingFileScopes] answers [true] exactly when two subtasks at
    positions [i < j] have overlapping scope lists. *)
Lemma haveOverlappingFileScopes_iff (sts : list SubtaskDef) :
  haveOverlappingFileScopes sts = true <->
  exists i j si sj, (i < j)%nat /\ sts !! i = Some si /\ sts !! j = Some sj /\
    scopeListsOverlap (sd_fileScope si) (sd_fileScope sj).
Proof.
  induction sts as [|s0 rest IH]; simpl.
  - split; [discriminate|]. intros (i & j & si & sj & _ & H & _). discriminate H.
  - rewrite orb_true_iff, existsb_exists, IH. split.
    + intros [(sj & Hin & H)|(i & j & si & sj & Hlt & Hi & Hj & H)].
      * apply list_elem_of_In, list_elem_of_lookup in Hin as [j Hj].
        exists 0%nat, (S j), s0, sj. repeat split; [lia|exact Hj|].
        apply scopesOverlap_iff. exact H.
      * exists (S i), (S j), si, sj. repeat split; [lia|exact Hi|exact Hj|exact H].
    + intros (i & j & si & sj & Hlt & Hi & Hj & H).
      destruct j as [|j]; [lia|]. simpl in Hj.
      destruct i as [|i].
      * simpl in Hi. injection Hi as <-. left. exists sj. split.
        -- apply list_elem_of_In, list_elem_of_lookup. eauto.
        -- apply scopesOverlap_iff. exact H.
      * simpl in Hi. right. exists i, j, si, sj. repeat split; [lia|exact Hi|exact Hj|exact H].
Qed.

End OverlapProps.

(** ** WorkflowEngine.runDecomposition *)

Section DecompositionProps.
Import WorkflowEngine.

Lemma bind_Ok {S A B} (m : M S A) (f : A -> M S B) (s s' : S) (outs : list Out) (b : B) :
  bind m f s = (outs, s', Ok b) ->
  exists o1 s1 a o2, m s = (o1, s1, Ok a) /\ f a s1 = (o2, s', Ok b) /\ outs = o1 ++ o2.
Proof.
  unfold bind. destruct (m s) as [[o1 s1] [a|msg]]; [|discriminate].
  destruct (f a s1) as [[o2 s2] r] eqn:E. intros H. injection H as <- <- ->.
  exists o1, s1, a, o2. auto.
Qed.

Ltac bind_step H :=
  let o1 := fresh "o" in let s1 := fresh "s" in let a := fresh "a" in
  let o2 := fresh "o" in let Hm := fresh "Hm" in
  apply bind_Ok in H as (o1 & s1 & a & o2 & Hm & H & ->).

Ltac prim H :=
  unfold randomUUID, modify, emit, log, get, ret in H; injection H as <- <- <-.

Section Loop.
Variable uuid : nat -> string.
Variable runTask : RunTaskOptions -> M Engine WorkflowResult.
Variable maybeOversightCheckIn : M Engine unit.
Variables (taskId originalDescription : string) (depth offset total : nat).

Lemma runSubtasksFrom_trace (remaining : list SubtaskDef) :
  forall (i : nat) (acc : list WorkflowResult) (e e' : Engine) (outs : list Out)
         (results : list WorkflowResult),
    runSubtasksFrom uuid runTask maybeOversightCheckIn taskId originalDescription
                    depth offset total i remaining acc e = (outs, e', Ok results) ->
    exists new, results = acc ++ new /\
                SequentialTrace taskId total (i + offset) remaining outs new.
Proof.
  induction remaining as [|subtask rest IH]; intros i acc e e' outs results H.
  - simpl in H. prim H. exists []. rewrite app_nil_r. split; [reflexivity|constructor].
  - simpl in H.
    bind_step H. prim Hm.
    bind_step H. prim Hm.
    bind_step H. rename Hm into Hcheck.
    bind_step H. prim Hm.
    bind_step H. rename Hm into Hctx.
    bind_step H. prim Hm.
    bind_step H. prim Hm.
    bind_step H. rename Hm into Hrun.
    bind_step H. prim Hm.
    bind_step H. rename Hm into Hrec.
    bind_step H. prim Hm.
    assert (o0 = []) as ->.
    { destruct (pendingOversightNudge s) as [n|]; [destruct (JS.truthy n)|];
        unfold bind, modify, ret in Hctx; simpl in Hctx; injection Hctx as <- _ _; reflexivity. }
    assert (o2 = []) as ->.
    { destruct (lastAppliedNudge s1) as [n|]; [destruct (oversightTracker s1); [destruct (JS.truthy n)|]|];
        unfold modify, ret in Hrec; injection Hrec as <- _ _; reflexivity. }
    simpl. destruct (isFailed (wr_status a1)) eqn:F.
    + prim H. exists [a1]. split; [reflexivity|].
      exact (trace_failed taskId total (i + offset) subtask rest o _ o1 a1 F).
    + apply IH in H as (new & -> & Htr). exists (a1 :: new). split.
      * rewrite <- app_assoc. reflexivity.
      * exact (trace_next taskId total (i + offset) subtask rest o _ o1 a1 o5 new F Htr).
Qed.

End Loop.

Lemma finally_Ok {S A} (m : M S A) (fin : M S unit) (s s' : S) (outs : list Out) (a : A) :
  finally m fin s = (outs, s', Ok a) ->
  exists o1 s1 o2, m s = (o1, s1, Ok a) /\ fin s1 = (o2, s', Ok tt) /\ outs = o1 ++ o2.
Proof.
  unfold finally. destruct (m s) as [[o1 s1] r].
  destruct (fin s1) as [[o2 s2] [[]|msg]] eqn:Ef; intros H; [|discriminate H].
  injection H as <- <- ->. exists o1, s1, o2. auto.
Qed.

Lemma SequentialTrace_prepend (taskId : string) (total k : nat) (tasks : list SubtaskDef)
    (extra outs : list Out) (results : list WorkflowResult) :
  tasks <> [] ->
  SequentialTrace taskId total k tasks outs results ->
  SequentialTrace taskId total k tasks (extra ++ outs) results.
Proof.
  intros Hne Htr. destruct Htr as [k|k subtask rest before sid during result F
                                  |k subtask rest before sid during result outs results F Htr].
  - contradiction.
  - rewrite app_assoc. apply trace_failed. exact F.
  - rewrite app_assoc. apply trace_next; assumption.
Qed.

Lemma SequentialTrace_all_ran (taskId : string) (total k : nat) (tasks : list SubtaskDef)
    (outs : list Out) (results : list WorkflowResult) :
  SequentialTrace taskId total k tasks outs results ->
  existsb (fun r => isFailed (wr_status r)) results = false ->
  List.length results = List.length tasks.
Proof.
  induction 1 as [k|k subtask rest before sid during result F
                 |k subtask rest before sid during result outs results F Htr IH]; simpl.
  - reflexivity.
  - rewrite F. discriminate.
  - rewrite F. simpl. intros H. rewrite (IH H). reflexivity.
Qed.

Lemma executionOrder_length (plan : Decomposition) :
  List.length (executionOrder plan) =
  setupOffset plan + List.length (filterDuplicateSetupSubtask plan).
Proof.
  unfold executionOrder, setupOffset. rewrite length_app.
  destruct (setupTask plan); reflexivity.
Qed.

Lemma overlapping_nonempty (sts : list SubtaskDef) :
  haveOverlappingFileScopes sts = true -> sts <> [].
Proof. destruct sts; [discriminate|discriminate]. Qed.

Lemma runSubtasksSequential_trace (uuid : nat -> string)
    (runTask : RunTaskOptions -> M Engine WorkflowResult)
    (maybeOversightCheckIn : M Engine unit)
    (taskId originalDescription : string) (depth offset total : nat)
    (sts : list SubtaskDef) (e e' : Engine) (outs : list Out)
    (results : list WorkflowResult) :
  sts <> [] ->
  runSubtasksSequential uuid runTask maybeOversightCheckIn taskId originalDescription
                        depth offset total sts e = (outs, e', Ok results) ->
  SequentialTrace taskId total offset sts outs results.
Proof.
  intros Hne H. unfold runSubtasksSequential in H.
  bind_step H. prim Hm.
  apply runSubtasksFrom_trace in H as (new & -> & Htr).
  apply SequentialTrace_prepend; assumption.
Qed.

Section Decomposition.
Variable uuid : nat -> string.
Variable runTask : RunTaskOptions -> M Engine WorkflowResult.
Variable maybeOversightCheckIn : M Engine unit.
Variable compositeQA :
  Decomposition -> list SubtaskDef -> string -> string -> nat ->
  list Artifact -> list WorkflowResult -> M Engine WorkflowResult.

Lemma runDecomposition_sequential_trace
    (plan : Decomposition) (originalDescription : string) (depth : nat)
    (existingArtifacts : list Artifact) (e e' : Engine) (outs : list Out)
    (result : WorkflowResult) :
  parallel plan = true ->
  haveOverlappingFileScopes (filterDuplicateSetupSubtask plan) = true ->
  runDecomposition uuid runTask maybeOversightCheckIn compositeQA
                   plan originalDescription depth existingArtifacts e
    = (outs, e', Ok result) ->
  exists taskId pre loop post results,
    outs = pre ++ loop ++ post /\
    In DOWNGRADE_LOG pre /\
    SequentialTrace taskId (List.length (executionOrder plan)) 0
                    (executionOrder plan) loop results /\
    (existsb (fun r => isFailed (wr_status r)) results = false ->
       List.length results = List.length (executionOrder plan)) /\
    (existsb (fun r => isFailed (wr_status r)) results = true ->
       post = [] /\ wr_status result = ws_failed).
Proof.
  intros Hpar Hover H.
  pose proof (overlapping_nonempty _ Hover) as Hne.
  unfold runDecomposition, decideParallel in H. rewrite Hpar, Hover in H. simpl in H.
  bind_step H. prim Hm.
  bind_step H. rename Hm into Hid.
  bind_step H. rename Hm into Hmark.
  bind_step H. rename Hm into Hfilt.
  bind_step H. prim Hm.
  bind_step H. prim Hm.
  apply finally_Ok in H as (ob & sb & ofin & H & Hfin & ->).
  unfold modify in Hfin; injection Hfin as <- <-.
  rewrite executionOrder_length.
  exists a, (o ++ o0 ++ o1 ++ [DOWNGRADE_LOG]).
  assert (Hpre : In DOWNGRADE_LOG (o ++ o0 ++ o1 ++ [DOWNGRADE_LOG])).
  { rewrite !in_app_iff. right; right; right. left. reflexivity. }
  cut (exists loop post results,
         ob = loop ++ post /\
         SequentialTrace a (setupOffset plan + List.length (filterDuplicateSetupSubtask plan))
                         0 (executionOrder plan) loop results /\
         (existsb (fun r => isFailed (wr_status r)) results = true ->
            post = [] /\ wr_status result = ws_failed)).
  { intros (loop & post & results & -> & Htr & Hfail).
    exists loop, post, results. split; [|split; [exact Hpre|split; [exact Htr|split]]].
    - simpl. rewrite !app_nil_r, <- !app_assoc. reflexivity.
    - intros Hnone. rewrite (SequentialTrace_all_ran _ _ _ _ _ _ Htr Hnone).
      apply executionOrder_length.
    - exact Hfail. }
  clear Hpre Hid Hmark Hfilt.
  bind_step H. rename Hm into Hsetup.
  unfold runSetup in Hsetup. unfold executionOrder, setupOffset in *.
  destruct (setupTask plan) as [setup|].
  - bind_step Hsetup. prim Hm.
    bind_step Hsetup. prim Hm.
    bind_step Hsetup. prim Hm.
    bind_step Hsetup. prim Hm.
    bind_step Hsetup. rename Hm into Hrun.
    bind_step Hsetup. prim Hm. prim Hsetup.
    match type of Hrun with _ = (?oc, _, Ok ?r) => rename oc into during; rename r into setupResult end.
    destruct (isFailed (wr_status setupResult)) eqn:F.
    + prim H. eexists _, [], [setupResult]. split; [|split].
      * symmetry. apply app_nil_r.
      * simpl. rewrite app_nil_r.
        exact (trace_failed a _ 0 setup _ [_] _ during setupResult F).
      * intros _. split; reflexivity.
    + bind_step H. rename Hm into Hseq.
      match type of Hseq with _ = (?oc, _, Ok ?r) => rename oc into loop; rename r into results end.
      match type of H with _ = (?oc, _, _) => rename oc into post end.
      apply runSubtasksSequential_trace in Hseq; [|exact Hne].
      eexists _, post, (setupResult :: results).
      split; [|split].
      * rewrite app_assoc. reflexivity.
      * simpl. rewrite <- app_assoc.
        exact (trace_next a _ 0 setup _ [_] _ during setupResult loop results F Hseq).
      * simpl. rewrite F. simpl. intros Hex. rewrite Hex in H. prim H.
        split; reflexivity.
  - prim Hsetup. simpl in H.
    bind_step H. rename Hm into Hseq.
    match type of Hseq with _ = (?oc, _, Ok ?r) => rename oc into loop; rename r into results end.
    match type of H with _ = (?oc, _, _) => rename oc into post end.
    apply runSubtasksSequential_trace in Hseq; [|exact Hne].
    exists loop, post, results. split; [reflexivity|split; [exact Hseq|]].
    intros Hex. rewrite Hex in H. prim H. split; reflexivity.
Qed.
(** C8 (as amended): when the plan is marked parallel and two of the filtered
    subtasks have overlapping scopes, a [runDecomposition] that returns has
    logged the downgrade and has run the setup task (if any) and then the
    filtered subtasks one at a time in declared order: each task that ran has
    its [subtask:start] followed, after its own run, by the [subtask:complete]
    with the same [subtaskId], before the next task starts. The sequence stops
    after the first task whose result is [failed]: the tasks after it are not
    started and the decomposition returns [failed]. When no task fails, every
    one of them has run. *)
Theorem overlapping_plan_runs_sequentially_until_first_failure
    (plan : Decomposition) (originalDescription : string) (depth : nat)
    (existingArtifacts : list Artifact) (e e' : Engine) (outs : list Out)
    (result : WorkflowResult) :
  parallel plan = true ->
  (exists i j si sj, (i < j)%nat /\
     filterDuplicateSetupSubtask plan !! i = Some si /\
     filterDuplicateSetupSubtask plan !! j = Some sj /\
     scopeListsOverlap (sd_fileScope si) (sd_fileScope sj)) ->
  runDecomposition uuid runTask maybeOversightCheckIn compositeQA
                   plan originalDescription depth existingArtifacts e
    = (outs, e', Ok result) ->
  exists taskId pre loop post results,
    outs = pre ++ loop ++ post /\
    In DOWNGRADE_LOG pre /\
    SequentialTrace taskId (List.length (executionOrder plan)) 0
                    (executionOrder plan) loop results /\
    (existsb (fun r => isFailed (wr_status r)) results = false ->
       List.length results = List.length (executionOrder plan)) /\
    (existsb (fun r => isFailed (wr_status r)) results = true ->
       post = [] /\ wr_status result = ws_failed).
Proof.
  intros Hpar Hover. apply haveOverlappingFileScopes_iff in Hover.
  apply runDecomposition_sequential_trace; assumption.
Qed.

End Decomposition.

Lemma overlapping_plan_runs_sequentially_until_first_failure_witness :
  let run := runDecomposition uuid_stream runTask_completing no_check_in qa_completes
               plan_overlapping "Build the tool" 0 [] engine_with_root in
  parallel plan_overlapping = true /\
  (exists i j si sj, (i < j)%nat /\
     filterDuplicateSetupSubtask plan_overlapping !! i = Some si /\
     filterDuplicateSetupSubtask plan_overlapping !! j = Some sj /\
     scopeListsOverlap (sd_fileScope si) (sd_fileScope sj)) /\
  exists taskId pre loop post results,
    outputs run = pre ++ loop ++ post /\
    In DOWNGRADE_LOG pre /\
    SequentialTrace taskId (List.length (executionOrder plan_overlapping)) 0
                    (executionOrder plan_overlapping) loop results /\
    (existsb (fun r => isFailed (wr_status r)) results = false ->
       List.length results = List.length (executionOrder plan_overlapping)) /\
    (existsb (fun r => isFailed (wr_status r)) results = true ->
       post = [] /\ wr_status (mkWorkflowResult ws_completed []) = ws_failed).
Proof.
  intros run.
  assert (Hover : exists i j si sj, (i < j)%nat /\
     filterDuplicateSetupSubtask plan_overlapping !! i = Some si /\
     filterDuplicateSetupSubtask plan_overlapping !! j = Some sj /\
     scopeListsOverlap (sd_fileScope si) (sd_fileScope sj)).
  { exists 0%nat, 1%nat, subtask_a, subtask_b.
    split; [lia|split; [reflexivity|split; [reflexivity|]]].
    right; right. exists "src", "src".
    split; [left; reflexivity|split; [left; reflexivity|left; reflexivity]]. }
  split; [reflexivity|split; [exact Hover|]].
  apply (overlapping_plan_runs_sequentially_until_first_failure
           uuid_stream runTask_completing no_check_in qa_completes
           plan_overlapping "Build the tool" 0 [] engine_with_root (final run)
           (outputs run) (mkWorkflowResult ws_completed [])).
  - reflexivity.
  - exact Hover.
  - vm_compute. reflexivity.
Defined.

(** C8 (as stated) fails: in the plan of scenario C the two subtasks overlap,
    and when the first one fails the loop breaks; the second subtask, which
    the filter kept, gets no [subtask:start] and no [subtask:complete]. *)
Lemma failed_subtask_ends_sequential_run :
  parallel plan_overlapping = true /\
  haveOverlappingFileScopes (filterDuplicateSetupSubtask plan_overlapping) = true /\
  In subtask_b (filterDuplicateSetupSubtask plan_overlapping) /\
  emitted (outputs (runDecomposition uuid_stream runTask_parser_fails no_check_in qa_completes
                      plan_overlapping "Build the tool" 0 [] engine_with_root)) =
  [ SubtaskStart "task-1" "uuid-0" "Add the parser" 0 2;
    SubtaskComplete "uuid-0" ws_failed ].
Proof.
  split; [reflexivity|split; [reflexivity|split; [right; left; reflexivity|]]].
  vm_compute. reflexivity.
Qed.

Example scenario_C_runs_sequentially :
  emitted (outputs (runDecomposition uuid_stream runTask_completing no_check_in qa_completes
                      plan_overlapping "Build the tool" 0 [] engine_with_root)) =
  [ SubtaskStart "task-1" "uuid-0" "Add the parser" 0 2;
    SubtaskComplete "uuid-0" ws_completed;
    SubtaskStart "task-1" "uuid-1" "Add the printer" 1 2;
    SubtaskComplete "uuid-1" ws_completed ].
Proof. vm_compute. reflexivity. Qed.

End DecompositionProps.

(** ** Tools: the command blocklist *)

Section BlocklistProps.
Import Regex Tools.

Lemma firstMatch_finds (patterns : list RegExp) (command : string) :
  (exists pattern, In pattern patterns /\ test pattern command = true) ->
  exists pattern, firstMatch patterns command = Some pattern /\
                  In pattern patterns /\ test pattern command = true.
Proof.
  induction patterns as [|p rest IH]; intros (q & Hin & Hq); [destruct Hin|].
  simpl. destruct (test p command) eqn:E.
  - exists p. split; [reflexivity|split; [left; reflexivity|exact E]].
  - destruct Hin as [->|Hin]; [congruence|].
    destruct IH as (r & Hr & Hrin & Hrt); [exists q; split; assumption|].
    exists r. split; [exact Hr|split; [right; exact Hrin|exact Hrt]].
Qed.

(** C3: a command that matches an entry of [BLOCKED_COMMANDS] is answered with
    [isError = true] and the blocking message naming a matching entry, and
    [execa] is not called: the tool makes no call to the outside at all. *)
Theorem blocked_command_is_rejected_and_never_spawned
    (env : Env) (command : string) (cwdArg : option string) (context : ToolContext) :
  (exists pattern, In pattern BLOCKED_COMMANDS /\ test pattern command = true) ->
  exists pattern,
    In pattern BLOCKED_COMMANDS /\ test pattern command = true /\
    runTerminalCommand env command cwdArg context =
      ([], Ok {| content := "Command blocked by safety policy: matches " +:+ source pattern;
                 isError := true |}).
Proof.
  intros H. apply firstMatch_finds in H as (p & Hf & Hin & Ht).
  exists p. split; [exact Hin|split; [exact Ht|]].
  unfold runTerminalCommand, isCommandBlocked. rewrite Hf. reflexivity.
Qed.

Lemma rm_rf_root_matches :
  exists pattern, In pattern BLOCKED_COMMANDS /\ test pattern "rm -rf /" = true.
Proof. eexists. split; [left; reflexivity|reflexivity]. Defined.

Lemma blocked_command_is_rejected_and_never_spawned_witness :
  (exists pattern, In pattern BLOCKED_COMMANDS /\ test pattern "rm -rf /" = true) /\
  exists pattern,
    In pattern BLOCKED_COMMANDS /\ test pattern "rm -rf /" = true /\
    runTerminalCommand env_work "rm -rf /" None context_work =
      ([], Ok {| content := "Command blocked by safety policy: matches " +:+ source pattern;
                 isError := true |}).
Proof.
  split; [exact rm_rf_root_matches|].
  exact (blocked_command_is_rejected_and_never_spawned env_work "rm -rf /" None context_work
           rm_rf_root_matches).
Defined.

(** Every explicit case of the blocklist matches one of its entries, and an
    ordinary command matches none. *)
Lemma explicit_cases_are_blocked :
  forallb (fun command => existsb (fun pattern => test pattern command) BLOCKED_COMMANDS)
          explicit_blocked_commands = true
  /\ isCommandBlocked "npm test" = None.
Proof. split; vm_compute; reflexivity. Qed.

Example scenario_E_blocked_command :
  runTerminalCommand env_work "rm -rf /" None context_work =
    ([], Ok {| content := "Command blocked by safety policy: matches \brm\s+-rf\s+[/~]";
               isError := true |}).
Proof. vm_compute. reflexivity. Qed.

End BlocklistProps.

(** ** Tools: path safety *)

Section PathSafetyProps.
Import Tools.

Lemma relativeSegs_outside (from to : list string) :
  (~ exists rest, to = from ++ rest) ->
  exists l, Path.relativeSegs from to = ".." :: l.
Proof.
  revert to. induction from as [|f fr IH]; intros to Hno.
  - exfalso. apply Hno. exists to. reflexivity.
  - destruct to as [|t tr]; simpl.
    + eexists. reflexivity.
    + destruct (String.eqb f t) eqn:E.
      * apply String.eqb_eq in E. subst t. apply IH.
        intros [rest ->]. apply Hno. exists rest. reflexivity.
      * eexists. reflexivity.
Qed.

Lemma relativeSegs_inside (from rest : list string) :
  Path.relativeSegs from (from ++ rest) = rest.
Proof.
  induction from as [|f fr IH]; simpl.
  - destruct rest; reflexivity.
  - rewrite String.eqb_refl. exact IH.
Qed.

Lemma join_dotdot (l : list string) :
  JS.startsWith (JS.join "/" (".." :: l)) ".." = true.
Proof. destruct l; reflexivity. Qed.

Lemma join_restricted (rest : list string) :
  isPathUnderRestricted (JS.join "/" (RESTRICTED_DIR :: rest)) = true.
Proof.
  unfold isPathUnderRestricted. destruct rest as [|x rest]; [reflexivity|].
  change (JS.join "/" (RESTRICTED_DIR :: x :: rest))
    with (".babylon/" +:+ JS.join "/" (x :: rest)).
  generalize (JS.join "/" (x :: rest)). intros y. simpl. unfold JS.startsWith.
  destruct (JS.backslashesToSlashes _); reflexivity.
Qed.

(** The two tests of the tools catch every unsafe path ... *)
Lemma unsafePath_caught (env : Env) (context : ToolContext) (p : string) :
  unsafePath env context p ->
  JS.startsWith (relOf env context p) ".." = true \/
  isPathUnderRestricted (relOf env context p) = true.
Proof.
  unfold unsafePath, escapesRoot, inReservedDir, relOf, Path.relative.
  intros [Hesc|[rest Hres]].
  - left. destruct (relativeSegs_outside _ _ Hesc) as [l ->]. apply join_dotdot.
  - right. rewrite Hres, relativeSegs_inside. apply join_restricted.
Qed.

Ltac reject H :=
  destruct (unsafePath_caught _ _ _ H) as [Hdots|Hres];
  [rewrite Hdots; eexists; split; reflexivity
  |rewrite Hres; destruct (JS.startsWith _ ".."); eexists; split; reflexivity].

Section WithBodies.
Variable listDirectoryBody : Env -> list string -> nat -> list IO * outcome ToolExecutionResult.
Variable searchBody :
  Env -> list string -> string -> option string -> option Z ->
  list IO * outcome ToolExecutionResult.

Lemma readFiles_loop_paths (env : Env) (context : ToolContext) (paths : list string) :
  forall (parts : list string) (totalLen : N) (log : list IO) (q : list string),
    In q (ioPaths (snd (readFiles_loop env context paths parts totalLen log))) ->
    In q (ioPaths log) \/
    exists p, In p paths /\ q = resolveUnder env context p /\
              JS.startsWith (relOf env context p) ".." = false /\
              isPathUnderRestricted (relOf env context p) = false.
Proof.
  induction paths as [|p rest IH]; intros parts totalLen log q Hq; simpl in Hq.
  - left. exact Hq.
  - destruct (READ_FILES_TOTAL <=? totalLen)%N; [left; exact Hq|].
    destruct (JS.startsWith (relOf env context p) "..") eqn:E1.
    { apply IH in Hq as [Hq|(p' & Hin & H)]; [left; exact Hq|].
      right. exists p'. split; [right; exact Hin|exact H]. }
    destruct (isPathUnderRestricted (relOf env context p)) eqn:E2.
    { apply IH in Hq as [Hq|(p' & Hin & H)]; [left; exact Hq|].
      right. exists p'. split; [right; exact Hin|exact H]. }
    assert (Hlog : In q (ioPaths (log ++ [ReadFile (resolveUnder env context p)])) ->
                   In q (ioPaths log) \/
                   exists p0, In p0 (p :: rest) /\ q = resolveUnder env context p0 /\
                     JS.startsWith (relOf env context p0) ".." = false /\
                     isPathUnderRestricted (relOf env context p0) = false).
    { unfold ioPaths. rewrite flat_map_app, in_app_iff. simpl.
      intros [H|[<-|[]]]; [left; exact H|].
      right. exists p. split; [left; reflexivity|auto]. }
    destruct (readFile env (resolveUnder env context p)) as [text|msg];
      apply IH in Hq as [Hq|(p' & Hin & H)];
      try (apply Hlog; exact Hq);
      right; exists p'; (split; [right; exact Hin|exact H]).
Qed.

(** [totalLen] never decreases, and the parts already pushed stay in front. *)
Lemma readFiles_loop_grows (env : Env) (context : ToolContext) (paths : list string) :
  forall (parts : list string) (totalLen : N) (log : list IO),
    (totalLen <= snd (fst (readFiles_loop env context paths parts totalLen log)))%N /\
    exists more, fst (fst (readFiles_loop env context paths parts totalLen log)) = parts ++ more.
Proof.
  induction paths as [|p rest IH]; intros parts totalLen log; simpl.
  - split; [lia|exists []; symmetry; apply app_nil_r].
  - destruct (READ_FILES_TOTAL <=? totalLen)%N;
      [split; [simpl; lia|exists []; symmetry; apply app_nil_r]|].
    assert (Hstep : forall part total log',
              (totalLen <= total)%N ->
              (totalLen <= snd (fst (readFiles_loop env context rest (parts ++ [part]) total log')))%N /\
              exists more, fst (fst (readFiles_loop env context rest (parts ++ [part]) total log'))
                           = parts ++ more).
    { intros part total log' Hle. destruct (IH (parts ++ [part]) total log') as [H1 [more H2]].
      split; [lia|]. exists (part :: more). rewrite H2, <- app_assoc. reflexivity. }
    destruct (JS.startsWith (relOf env context p) ".."); [apply Hstep; lia|].
    destruct (isPathUnderRestricted (relOf env context p)); [apply Hstep; lia|].
    destruct (readFile env (resolveUnder env context p)); apply Hstep; lia.
Qed.

(** A loop that has gone through [before] below the cap goes on with the
    paths after it, having pushed one part for each path of [before]. *)
Lemma readFiles_loop_app (env : Env) (context : ToolContext) (before rest : list string) :
  forall (parts : list string) (totalLen : N) (log : list IO),
    (snd (fst (readFiles_loop env context before parts totalLen log)) < READ_FILES_TOTAL)%N ->
    readFiles_loop env context (before ++ rest) parts totalLen log =
      readFiles_loop env context rest
        (fst (fst (readFiles_loop env context before parts totalLen log)))
        (snd (fst (readFiles_loop env context before parts totalLen log)))
        (snd (readFiles_loop env context before parts totalLen log)) /\
    List.length (fst (fst (readFiles_loop env context before parts totalLen log))) =
      (List.length parts + List.length before)%nat.
Proof.
  induction before as [|p before IH]; intros parts totalLen log Hlt.
  - simpl. split; [reflexivity|lia].
  - simpl in *. destruct (READ_FILES_TOTAL <=? totalLen)%N eqn:Ecap.
    { apply N.leb_le in Ecap. simpl in Hlt. lia. }
    assert (Hstep : forall part total log',
              (snd (fst (readFiles_loop env context before (parts ++ [part]) total log'))
                 < READ_FILES_TOTAL)%N ->
              readFiles_loop env context (before ++ rest) (parts ++ [part]) total log' =
                readFiles_loop env context rest
                  (fst (fst (readFiles_loop env context before (parts ++ [part]) total log')))
                  (snd (fst (readFiles_loop env context before (parts ++ [part]) total log')))
                  (snd (readFiles_loop env context before (parts ++ [part]) total log')) /\
              List.length (fst (fst (readFiles_loop env context before (parts ++ [part]) total log')))
                = (List.length parts + S (List.length before))%nat).
    { intros part total log' H. destruct (IH (parts ++ [part]) total log' H) as [H1 H2].
      split; [exact H1|]. rewrite H2, length_app. simpl. lia. }
    destruct (JS.startsWith (relOf env context p) ".."); [apply Hstep; exact Hlt|].
    destruct (isPathUnderRestricted (relOf env context p)); [apply Hstep; exact Hlt|].
    destruct (readFile env (resolveUnder env context p)); apply Hstep; exact Hlt.
Qed.

Lemma join_reserved_not_dotdot (rest : list string) :
  JS.startsWith (JS.join "/" (RESTRICTED_DIR :: rest)) ".." = false.
Proof. destruct rest; reflexivity. Qed.

(** What [read_files] pushes for an unsafe path. *)
Lemma unsafePath_report (env : Env) (context : ToolContext) (p : string) :
  unsafePath env context p ->
  forall (rest parts : list string) (totalLen : N) (log : list IO),
    (totalLen < READ_FILES_TOTAL)%N ->
    exists reason,
      readFiles_loop env context (p :: rest) parts totalLen log =
        readFiles_loop env context rest
          (parts ++ ["--- " +:+ p +:+ " ---" +:+ nl +:+ reason]) totalLen log /\
      (escapesRoot env context p -> reason = "(path outside working directory)") /\
      ((exists tail, resolveUnder env context p
                     = basePathOf env context ++ RESTRICTED_DIR :: tail) ->
       reason = "(path not accessible)").
Proof.
  intros Hunsafe rest parts totalLen log Hlt. simpl.
  destruct (READ_FILES_TOTAL <=? totalLen)%N eqn:Ecap; [apply N.leb_le in Ecap; lia|].
  destruct (JS.startsWith (relOf env context p) "..") eqn:Edots.
  - eexists. split; [reflexivity|]. split; [reflexivity|].
    intros [tail Htail]. exfalso. revert Edots.
    unfold relOf, Path.relative. rewrite Htail, relativeSegs_inside, join_reserved_not_dotdot.
    discriminate.
  - destruct (unsafePath_caught _ _ _ Hunsafe) as [H|H]; [congruence|]. rewrite H.
    eexists. split; [reflexivity|]. split; [|reflexivity].
    intros Hesc. exfalso. revert Edots.
    unfold relOf, Path.relative. destruct (relativeSegs_outside _ _ Hesc) as [l ->].
    rewrite join_dotdot. discriminate.
Qed.


End WithBodies.

Lemma parent_path_is_unsafe : unsafePath env_work context_work "../secret.txt".
Proof. left. intros [rest H]. vm_compute in H. discriminate H. Defined.


Example safe_paths_are_served :
  readFileTool env_work "src/index.ts" None None context_work =
    ([ReadFile ["work"; "src"; "index.ts"]], Ok {| content := "data"; isError := false |})
  /\ readFileTool env_work "src/../.babylon/tasks/t.json" None None context_work =
    ([], Ok PATH_RESTRICTED)
  /\ readFileTool env_work "/etc/passwd" None None context_work = ([], Ok PATH_OUTSIDE).
Proof. repeat split; vm_compute; reflexivity. Qed.


End PathSafetyProps.

(** ** Parsers: Markdown code fences *)

Section FenceProps.
Import Parsers.

Lemma append_cons (c : ascii) (a b : string) : String c a +:+ b = String c (a +:+ b).
Proof. reflexivity. Qed.

Lemma length_append_sum (a b : string) :
  String.length (a +:+ b) = (String.length a + String.length b)%nat.
Proof.
  induction a as [|c a IH]; [reflexivity|].
  rewrite append_cons. simpl. rewrite IH. reflexivity.
Qed.

Lemma append_assoc_r (a b c : string) : (a +:+ b) +:+ c = a +:+ (b +:+ c).
Proof.
  induction a as [|x a IH]; [reflexivity|].
  rewrite !append_cons, IH. reflexivity.
Qed.

Lemma stripSuffix_append (suffix x : string) : stripSuffix suffix (x +:+ suffix) = Some x.
Proof.
  induction x as [|c x IH].
  - change (EmptyString +:+ suffix) with suffix.
    destruct suffix; simpl; rewrite ?Ascii.eqb_refl, ?String.eqb_refl; reflexivity.
  - rewrite append_cons. cbn [stripSuffix]. rewrite IH.
    destruct (String.eqb (String c (x +:+ suffix)) suffix) eqn:E; [|reflexivity].
    apply String.eqb_eq in E. apply (f_equal String.length) in E.
    simpl in E. rewrite length_append_sum in E. lia.
Qed.

Lemma trimEnd_append_space (s : string) (w : ascii) :
  JS.isWhiteSpace w = true -> JS.trimEnd (s +:+ String w EmptyString) = JS.trimEnd s.
Proof.
  intros Hw. induction s as [|c s IH].
  - change (EmptyString +:+ String w EmptyString) with (String w EmptyString).
    simpl. rewrite Hw. reflexivity.
  - rewrite append_cons. cbn [JS.trimEnd]. rewrite IH. reflexivity.
Qed.

Lemma trimEnd_append_kept (s t : string) :
  JS.trimEnd t <> EmptyString -> JS.trimEnd (s +:+ t) = s +:+ JS.trimEnd t.
Proof.
  intros Ht. induction s as [|c s IH]; [reflexivity|].
  rewrite !append_cons. cbn [JS.trimEnd]. rewrite IH.
  destruct (s +:+ JS.trimEnd t) eqn:E; [|reflexivity].
  exfalso. destruct s; [exact (Ht E)|rewrite append_cons in E; discriminate E].
Qed.

(** What remains of a fenced payload once the opening fence is removed. *)
Lemma stripFenceEnd_body (p : string) :
  stripFenceEnd (JS.trimStart (p +:+ nl +:+ FENCE)) = JS.trim p.
Proof.
  unfold JS.trim. induction p as [|c p IH].
  - reflexivity.
  - rewrite append_cons. cbn [JS.trimStart].
    destruct (JS.isWhiteSpace c) eqn:Hc; [exact IH|].
    unfold stripFenceEnd.
    rewrite <- append_cons, <- append_assoc_r, stripSuffix_append.
    apply trimEnd_append_space. reflexivity.
Qed.

Lemma trim_fenced (tag p : string) : JS.trim (fenced tag p) = fenced tag p.
Proof.
  unfold JS.trim, fenced.
  change (JS.trimStart (FENCE +:+ tag +:+ nl +:+ p +:+ nl +:+ FENCE))
    with (FENCE +:+ tag +:+ nl +:+ p +:+ nl +:+ FENCE).
  rewrite <- !append_assoc_r.
  rewrite trimEnd_append_kept; [reflexivity|discriminate].
Qed.

(** Removing the fence of a fenced payload gives the trimmed payload. *)
Lemma unfence_fenced (tag p : string) :
  tag = "json" \/ tag = EmptyString -> unfence (fenced tag p) = JS.trim p.
Proof.
  intros Htag. unfold unfence. rewrite trim_fenced.
  destruct Htag as [->| ->]; exact (stripFenceEnd_body p).
Qed.

Lemma unfence_unfenced (p : string) : unfencedPayload p -> unfence p = JS.trim p.
Proof.
  intros [Hstart Hend]. unfold unfence, stripFenceStart. rewrite Hstart.
  unfold stripFenceEnd. rewrite Hend. reflexivity.
Qed.

(** C6 (as amended): for the steward and the oracle parser, and every payload
    that carries no fence of its own, parsing the payload inside a Markdown
    code fence, with or without the [json] tag, gives the result of parsing
    the payload itself. *)
Theorem steward_and_oracle_parsers_ignore_fence (tag p : string) :
  tag = "json" \/ tag = EmptyString ->
  unfencedPayload p ->
  parseStewardOutput (fenced tag p) = parseStewardOutput p /\
  parseOracleOutput (fenced tag p) = parseOracleOutput p.
Proof.
  intros Htag Hp. unfold parseStewardOutput, parseOracleOutput.
  rewrite (unfence_fenced tag p Htag), (unfence_unfenced p Hp). split; reflexivity.
Qed.

Lemma escalate_payload_unfenced : unfencedPayload escalate_payload.
Proof. split; vm_compute; reflexivity. Defined.

Lemma steward_and_oracle_parsers_ignore_fence_witness :
  ("json" = "json" \/ "json" = EmptyString) /\
  unfencedPayload escalate_payload /\
  parseStewardOutput (fenced "json" escalate_payload) = parseStewardOutput escalate_payload /\
  parseOracleOutput (fenced "json" escalate_payload) = parseOracleOutput escalate_payload.
Proof.
  split; [left; reflexivity|split; [exact escalate_payload_unfenced|]].
  exact (steward_and_oracle_parsers_ignore_fence "json" escalate_payload
           (or_introl eq_refl) escalate_payload_unfenced).
Defined.

Example fenced_steward_and_oracle_payloads :
  parseStewardOutput (fenced "json" escalate_payload) =
    Some {| st_action := escalate; taskIndices := None; retryFocus := None;
            fixDescription := None |}
  /\ parseOracleOutput (fenced EmptyString retry_once_payload) =
    Some {| or_action := retry_once; nudgeMessage := None; or_retryFocus := None |}.
Proof. split; vm_compute; reflexivity. Qed.

(** C6 (as stated) fails. The analyzer and planner parsers hand the text to
    [JSON.parse] as it is: the fenced analysis of scenario A falls back to
    complexity 0.5 instead of 0.2, and a fenced decomposition falls back to
    the default spec. The steward parser removes one fence only: a payload
    that is itself a fenced block parses, and the same payload inside a
    further fence does not. *)
Lemma fence_changes_parser_results :
  (unfencedPayload analysis_payload /\
   Parsers.complexity (parseAnalyzerOutput (resultWith analysis_payload)) = 1 # 5 /\
   Parsers.complexity (parseAnalyzerOutput (resultWith (fenced "json" analysis_payload))) = 1 # 2 /\
   parseAnalyzerOutput (resultWith (fenced "json" analysis_payload))
     <> parseAnalyzerOutput (resultWith analysis_payload)) /\
  parsePlannerOutput (resultWith (fenced "json" decomposition_payload))
    <> parsePlannerOutput (resultWith decomposition_payload) /\
  parseStewardOutput (fenced "json" (fenced "json" escalate_payload))
    <> parseStewardOutput (fenced "json" escalate_payload).
Proof.
  split; [split; [split; vm_compute; reflexivity|split; [vm_compute; reflexivity|split]]|split].
  - vm_compute. reflexivity.
  - intros H. apply (f_equal Parsers.complexity) in H. vm_compute in H. discriminate H.
  - intros H. vm_compute in H. discriminate H.
  - intros H. vm_compute in H. discriminate H.
Qed.

End FenceProps.

Section HoareRules.
Context {S : Type}.

Lemma triple_ret {A} (P : S -> Prop) (a : A) (Q : list Out -> A -> S -> Prop) :
  (forall s, P s -> Q [] a s) -> triple P (ret a) Q.
Proof. intros H s Hs. exists [], s, a. split; [reflexivity | auto]. Qed.

Lemma triple_bind {A B} (P : S -> Prop) (m : M S A) (f : A -> M S B)
    (R : list Out -> A -> S -> Prop) (Q : list Out -> B -> S -> Prop) :
  triple P m R ->
  (forall o1 a, triple (R o1 a) (f a) (fun o2 b s => Q (o1 ++ o2) b s)) ->
  triple P (bind m f) Q.
Proof.
  intros Hm Hf s Hs. destruct (Hm s Hs) as (o1 & s1 & a & Em & HR).
  destruct (Hf o1 a s1 HR) as (o2 & s2 & b & Ef & HQ).
  exists (o1 ++ o2), s2, b. split; [|exact HQ].
  unfold bind. rewrite Em, Ef. reflexivity.
Qed.

Lemma triple_get (P : S -> Prop) (Q : list Out -> S -> S -> Prop) :
  (forall s, P s -> Q [] s s) -> triple P get Q.
Proof. intros H s Hs. exists [], s, s. split; [reflexivity | auto]. Qed.

Lemma triple_modify (P : S -> Prop) (f : S -> S) (Q : list Out -> unit -> S -> Prop) :
  (forall s, P s -> Q [] tt (f s)) -> triple P (modify f) Q.
Proof. intros H s Hs. exists [], (f s), tt. split; [reflexivity | auto]. Qed.

Lemma triple_emit (P : S -> Prop) (event : TaskBotEvent) (Q : list Out -> unit -> S -> Prop) :
  (forall s, P s -> Q [Emit event] tt s) -> triple P (emit event) Q.
Proof. intros H s Hs. exists [Emit event], s, tt. split; [reflexivity | auto]. Qed.

Lemma triple_log (P : S -> Prop) (namespace format : string) (args : list string)
    (Q : list Out -> unit -> S -> Prop) :
  (forall s, P s -> Q [Log namespace format args] tt s) ->
  triple P (log namespace format args) Q.
Proof. intros H s Hs. exists [Log namespace format args], s, tt. split; [reflexivity | auto]. Qed.

Lemma triple_conseq {A} (P P' : S -> Prop) (m : M S A) (Q Q' : list Out -> A -> S -> Prop) :
  triple P' m Q' ->
  (forall s, P s -> P' s) ->
  (forall o a s, Q' o a s -> Q o a s) ->
  triple P m Q.
Proof.
  intros Hm HP HQ s Hs. destruct (Hm s (HP s Hs)) as (o & s' & a & E & H).
  exists o, s', a. auto.
Qed.

Lemma keeps_ret {A V} (obs : S -> V) (a : A) : keeps obs (ret a).
Proof. intros v. apply triple_ret. auto. Qed.

Lemma keeps_bind {A B V} (obs : S -> V) (m : M S A) (f : A -> M S B) :
  keeps obs m -> (forall a, keeps obs (f a)) -> keeps obs (bind m f).
Proof.
  intros Hm Hf v. eapply triple_bind; [apply Hm|]. intros o1 a. apply Hf.
Qed.

Lemma keeps_get {V} (obs : S -> V) : keeps obs get.
Proof. intros v. apply triple_get. auto. Qed.

Lemma keeps_emit {V} (obs : S -> V) (event : TaskBotEvent) : keeps obs (emit event).
Proof. intros v. apply triple_emit. auto. Qed.

Lemma keeps_log {V} (obs : S -> V) (namespace format : string) (args : list string) :
  keeps obs (log namespace format args).
Proof. intros v. apply triple_log. auto. Qed.

Lemma keeps_modify {V} (obs : S -> V) (f : S -> S) :
  (forall s, obs (f s) = obs s) -> keeps obs (modify f).
Proof. intros H v. apply triple_modify. intros s <-. apply H. Qed.

Lemma keeps_triple {A V} (obs : S -> V) (m : M S A) (P : V -> Prop) :
  keeps obs m -> triple (fun s => P (obs s)) m (fun _ _ s' => P (obs s')).
Proof.
  intros Hm s Hs. destruct (Hm (obs s) s eq_refl) as (o & s' & a & E & H).
  exists o, s', a. split; [exact E|]. simpl in H. rewrite H. exact Hs.
Qed.

Lemma triple_pure {A} (P : S -> Prop) (G : Prop) (m : M S A)
    (Q : list Out -> A -> S -> Prop) :
  (G -> triple P m Q) -> triple (fun s => P s /\ G) m Q.
Proof. intros H s [Hs HG]. exact (H HG s Hs). Qed.

Lemma triple_guard {A} (P : S -> Prop) (m : M S A) (Q : list Out -> A -> S -> Prop)
    (G : A -> Prop) :
  triple P m Q ->
  (forall s o s' a, m s = (o, s', Ok a) -> G a) ->
  triple P m (fun o a s => Q o a s /\ G a).
Proof.
  intros Hm HG s Hs. destruct (Hm s Hs) as (o & s' & a & E & H).
  exists o, s', a. split; [exact E|]. split; [exact H|exact (HG _ _ _ _ E)].
Qed.

End HoareRules.

(** ** AgentRuntime: tool calls that carry arguments *)

Section ArgumentsProps.
Import AgentRuntime.

Lemma bind_evaluate_Ok {S A B} (a : A) (f : A -> M S B) (s : S) :
  bind (evaluate (Ok a)) f s = f a s.
Proof. unfold bind, evaluate. destruct (f a s) as [[o s'] r]. reflexivity. Qed.

Lemma bind_evaluate_Throw {S A B} (e : string) (f : A -> M S B) (s : S) :
  bind (evaluate (Throw e)) f s = ([], s, Throw e).
Proof. reflexivity. Qed.

Lemma sanitizeToolArgs_Ok (toolCall : LLMToolCall) :
  hasArguments toolCall = true ->
  exists toolArgs, sanitizeToolArgs (call_arguments toolCall) = Ok toolArgs.
Proof.
  unfold hasArguments, sanitizeToolArgs.
  destruct (call_arguments toolCall); try discriminate; intros _; eexists; reflexivity.
Qed.

Lemma sanitizeToolArgs_null (toolCall : LLMToolCall) :
  hasArguments toolCall = false ->
  sanitizeToolArgs (call_arguments toolCall) = Throw "Cannot convert undefined or null to object".
Proof.
  unfold hasArguments, sanitizeToolArgs.
  destruct (call_arguments toolCall); try discriminate; reflexivity.
Qed.

(** An answer [callLLMWithRetry] returns is an answer of the provider. *)
Lemma callLLM_answer (maxContextTurns : option Z)
    (chat : nat -> list LLMMessage -> outcome LLMResponse) (attemptsLeft : nat) :
  forall attempt s o s' response,
    callLLM maxContextTurns chat attemptsLeft attempt s = (o, s', Ok (Some response)) ->
    exists n msgs, chat n msgs = Ok response.
Proof.
  induction attemptsLeft as [|later IH]; intros attempt s o s' response H; cbn [callLLM] in H.
  - discriminate H.
  - unfold bind at 1 in H. unfold get at 1 in H. unfold bind at 1 in H.
    unfold modify at 1 in H.
    destruct (chat (chatCalls s) (getMessagesForLLM maxContextTurns s)) as [r|errorMsg] eqn:E.
    + unfold ret in H. injection H as _ _ <-. eauto.
    + unfold bind at 1 in H. unfold modify at 1 in H.
      destruct (negb (isRetryableError errorMsg) || (attempt =? LLM_MAX_RETRIES)%nat).
      * discriminate H.
      * unfold bind at 1 in H. unfold log at 1 in H. unfold bind at 1 in H.
        unfold modify at 1 in H.
        match type of H with
        | context [callLLM _ _ later (S attempt) ?st] =>
            destruct (callLLM maxContextTurns chat later (S attempt) st)
              as [[o2 s2] [[r2|]|e2]] eqn:E2; try discriminate H
        end.
        injection H as _ _ <-. exact (IH _ _ _ _ _ E2).
Qed.

Lemma callLLM_carries (maxContextTurns : option Z)
    (chat : nat -> list LLMMessage -> outcome LLMResponse) :
  callsCarryArguments chat ->
  forall attemptsLeft attempt s o s' r,
    callLLM maxContextTurns chat attemptsLeft attempt s = (o, s', Ok r) ->
    forall response, r = Some response ->
                     forallb hasArguments (resp_toolCalls response) = true.
Proof.
  intros Hchat attemptsLeft attempt s o s' r H response ->.
  destruct (callLLM_answer _ _ _ _ _ _ _ _ H) as (n & msgs & E). exact (Hchat _ _ _ E).
Qed.

End ArgumentsProps.

Section AgentProps.
Import AgentRuntime.

Lemma slide_length (w : list string) (k : string) :
  (List.length w <= 3)%nat -> (List.length (slide w k) <= 3)%nat.
Proof.
  intros H. destruct w as [|a [|b [|c [|d w]]]]; simpl in *; try lia.
Qed.

Lemma windowOf_app (keys : list string) (k : string) :
  windowOf (keys ++ [k]) = slide (windowOf keys) k.
Proof. unfold windowOf. rewrite fold_left_app. reflexivity. Qed.

Lemma windowOf_length (keys : list string) : (List.length (windowOf keys) <= 3)%nat.
Proof.
  induction keys as [|k keys IH] using rev_ind; [simpl; lia|].
  rewrite windowOf_app. apply slide_length, IH.
Qed.

Lemma windowOf_last_three (pre : list string) (a b c : string) :
  windowOf (pre ++ [a; b; c]) = [a; b; c].
Proof.
  change [a; b; c] with ([a] ++ [b] ++ [c]) at 1.
  rewrite !app_assoc, !windowOf_app.
  pose proof (windowOf_length pre) as H.
  destruct (windowOf pre) as [|x [|y [|z [|u w]]]]; simpl in H; try lia; reflexivity.
Qed.

Lemma noTriple_nil : noTriple [].
Proof. intros pre x post H. destruct pre; discriminate. Qed.

Lemma noTriple_last (keys pre post : list string) (k x : string) :
  noTriple keys -> keys ++ [k] = pre ++ [x; x; x] ++ post -> post = [].
Proof.
  intros Hno H. destruct post as [|p post] using rev_ind; [reflexivity|]. clear IHpost.
  exfalso. apply (Hno pre x post).
  rewrite !app_assoc in H. apply app_inj_tail in H as [H _].
  rewrite H, <- !app_assoc. reflexivity.
Qed.

Lemma noTriple_snoc (keys : list string) (k : string) :
  noTriple keys ->
  ((List.length (windowOf (keys ++ [k])) <? MAX_CONSECUTIVE_DUPLICATES)%nat = true \/
   allEqualFirst (windowOf (keys ++ [k])) = false) ->
  noTriple (keys ++ [k]).
Proof.
  intros Hno Hnot pre x post H.
  pose proof (noTriple_last _ _ _ _ _ Hno H) as ->.
  rewrite H in Hnot. simpl in Hnot. rewrite windowOf_last_three in Hnot.
  simpl in Hnot. rewrite String.eqb_refl in Hnot. simpl in Hnot.
  destruct Hnot; discriminate.
Qed.

Variable stringify : Json.value -> string.

Lemma sameCalls_key (a b : list LLMToolCall) :
  sameCalls a b -> callsKey stringify a = callsKey stringify b.
Proof.
  unfold sameCalls, callsKey. intros H. f_equal.
  change (fun tc => call_name tc +:+ ":" +:+ stringify (call_arguments tc))
    with (fun tc => (fun p : string * Json.value => fst p +:+ ":" +:+ stringify (snd p))
                      ((fun tc => (call_name tc, call_arguments tc)) tc)).
  rewrite <- !(List.map_map (fun tc => (call_name tc, call_arguments tc))
                 (fun p : string * Json.value => fst p +:+ ":" +:+ stringify (snd p))).
  rewrite H. reflexivity.
Qed.

Lemma toolTurns_app (l1 l2 : list LLMMessage) :
  toolTurns (l1 ++ l2) = toolTurns l1 ++ toolTurns l2.
Proof. apply flat_map_app. Qed.

Lemma noTriple_no_same_calls (log : list LLMMessage) (pre post : list (list LLMToolCall))
    (c1 c2 c3 : list LLMToolCall) :
  noTriple (keysOf stringify log) ->
  toolTurns log = pre ++ [c1; c2; c3] ++ post ->
  sameCalls c1 c2 -> sameCalls c2 c3 -> False.
Proof.
  intros Hno Hlog H12 H23. unfold keysOf in Hno. rewrite Hlog in Hno.
  rewrite !List.map_app in Hno. simpl in Hno.
  rewrite (sameCalls_key _ _ H12), (sameCalls_key _ _ H23) in Hno.
  exact (Hno _ _ _ eq_refl).
Qed.


Variables (agentId : string) (role : AgentRole) (maxTurns : nat).
Variable maxContextTurns : option Z.
Variables (stepId parentAgentId : option string) (now : string).
Variable abortedAt : nat -> bool.
Variable chat : nat -> list LLMMessage -> outcome LLMResponse.
Variable known : string -> bool.
Variable execute : nat -> LLMToolCall -> outcome ToolExecutionResult.

Hypothesis chat_carries : callsCarryArguments chat.

Lemma triple_bind_suffix {S A B} (P : S -> Prop) (m : M S A) (f : A -> M S B)
    (R : A -> S -> Prop) (Q : list Out -> B -> S -> Prop) :
  (forall o1 o2 b s, Q o2 b s -> Q (o1 ++ o2) b s) ->
  triple P m (fun _ a s => R a s) ->
  (forall a, triple (R a) (f a) Q) ->
  triple P (bind m f) Q.
Proof.
  intros Hsuf Hm Hf. eapply triple_bind; [exact Hm|].
  intros o1 a. eapply triple_conseq; [apply Hf | auto | ].
  intros o b s. apply Hsuf.
Qed.

Lemma keeps_push (m : LLMMessage) : toolTurns [m] = [] -> keeps view (push m).
Proof.
  intros Hm. apply keeps_modify. intros s. unfold view. simpl.
  rewrite toolTurns_app, Hm, app_nil_r. reflexivity.
Qed.

Lemma keeps_callLLM (attemptsLeft : nat) :
  forall attempt, keeps view (callLLM maxContextTurns chat attemptsLeft attempt).
Proof.
  induction attemptsLeft as [|later IH]; intros attempt; simpl.
  - apply keeps_ret.
  - apply keeps_bind; [apply keeps_get|]. intros a.
    apply keeps_bind; [apply keeps_modify; reflexivity|]. intros _.
    destruct (chat _ _) as [response|errorMsg]; [apply keeps_ret|].
    apply keeps_bind; [apply keeps_modify; reflexivity|]. intros _.
    destruct (_ || _).
    + apply keeps_bind; [apply keeps_log|]. intros _.
      apply keeps_bind; [apply keeps_log|]. intros _. apply keeps_ret.
    + apply keeps_bind; [apply keeps_log|]. intros _.
      apply keeps_bind; [apply keeps_modify; reflexivity|]. intros _. apply IH.
Qed.

Lemma keeps_accumulateUsage (usage : TokenUsage) :
  keeps view (accumulateUsage agentId usage).
Proof.
  apply keeps_bind; [apply keeps_modify; reflexivity|]. intros _.
  apply keeps_bind; [apply keeps_get|]. intros a. apply keeps_emit.
Qed.

Lemma parseCompletion_afterTools (text : string) v :
  triple (fun s => view s = v) (parseCompletion agentId role now text)
         (fun _ r s => afterTools v r s).
Proof.
  assert (Hnone : triple (fun s => view s = v) (ret (S := Agent) (@None AgentResult))
                         (fun _ r s => afterTools v r s)).
  { apply triple_ret. intros s Hs. split; [exact Hs | discriminate]. }
  unfold parseCompletion.
  destruct (Json.parse text) as [[| | | | |members]|]; try exact Hnone.
  destruct (statusOf _) as [status|]; [|exact Hnone].
  destruct (Json.lookupLast "content" members) as [[| | |taskContent| |]|]; try exact Hnone.
  destruct (_ && _); [|exact Hnone].
  intros s Hs. eexists _, _, _. split; [reflexivity|].
  split; [exact Hs|]. intros result [= <-]. simpl. rewrite <- Hs. reflexivity.
Qed.

Lemma executeToolCalls_afterTools (toolCalls : list LLMToolCall) v :
  forallb hasArguments toolCalls = true ->
  triple (fun s => view s = v)
         (executeToolCalls agentId role now known execute toolCalls)
         (fun _ r s => afterTools v r s).
Proof.
  induction toolCalls as [|toolCall rest IH]; intros Hargs; cbn [executeToolCalls].
  - apply triple_ret. intros s Hs. split; [exact Hs | discriminate].
  - cbn [forallb] in Hargs. apply andb_true_iff in Hargs as [Hcall Hrest].
    specialize (IH Hrest).
    destruct (sanitizeToolArgs_Ok toolCall Hcall) as [toolArgs ->].
    apply triple_bind_suffix with (R := fun _ s => view s = v);
      [auto | apply (keeps_ret view toolArgs) |].
    intros _.
    apply triple_bind_suffix with (R := fun _ s => view s = v); [auto | apply keeps_emit |].
    intros _. destruct (negb _).
    + apply triple_bind_suffix with (R := fun _ s => view s = v);
        [auto | apply keeps_push; reflexivity |]. intros _.
      apply triple_bind_suffix with (R := fun _ s => view s = v);
        [auto | apply keeps_emit | intros _; exact IH].
    + apply triple_bind_suffix with (R := fun _ s => view s = v); [auto | apply keeps_get |].
      intros a.
      apply triple_bind_suffix with (R := fun _ s => view s = v);
        [auto | apply keeps_modify; reflexivity |]. intros _.
      destruct (execute _ _) as [result|msg].
      * apply triple_bind_suffix with (R := fun _ s => view s = v);
          [auto | apply keeps_push; reflexivity |]. intros _.
        apply triple_bind_suffix with (R := fun _ s => view s = v);
          [auto | apply keeps_emit |]. intros _.
        destruct (String.eqb _ _); [|exact IH].
        apply triple_bind_suffix with (R := fun r s => afterTools v r s);
          [auto | apply parseCompletion_afterTools |].
        intros [completion|].
        -- apply triple_ret. auto.
        -- apply triple_bind_suffix with (R := fun _ s => view s = v); [auto | | intros _; exact IH].
           eapply triple_conseq; [apply (keeps_push (userMessage INVALID_COMPLETION) eq_refl v) | | auto].
           intros s [Hs _]. exact Hs.
      * apply triple_bind_suffix with (R := fun _ s => view s = v);
          [auto | apply keeps_push; reflexivity |]. intros _.
        apply triple_bind_suffix with (R := fun _ s => view s = v);
          [auto | apply keeps_emit | intros _; exact IH].
Qed.


Lemma endsAtDetection_suffix (o1 o2 : list Out) (result : AgentResult) :
  endsAtDetection agentId o2 result -> endsAtDetection agentId (o1 ++ o2) result.
Proof.
  intros H pre c1 c2 c3 post Hlog H12 H23.
  destruct (H pre c1 c2 c3 post Hlog H12 H23) as (Hp & Hs & Hc & Hm & o & ->).
  repeat split; auto. exists (o1 ++ o). apply app_assoc.
Qed.

Lemma keeps_undetected {A} (m : M Agent A) :
  keeps view m ->
  triple (undetected stringify) m (fun _ _ s => undetected stringify s).
Proof.
  intros Hm.
  exact (keeps_triple view m
           (fun v => snd v = windowOf (List.map (callsKey stringify) (fst v)) /\
                     noTriple (List.map (callsKey stringify) (fst v))) Hm).
Qed.

Lemma finish_undetected (status : AgentResultStatus) (summary : string) :
  triple (undetected stringify) (finish agentId role now status summary)
         (fun outs result _ => endsAtDetection agentId outs result).
Proof.
  intros s [_ Hno]. eexists _, _, _. split; [reflexivity|].
  intros pre c1 c2 c3 post Hlog H12 H23. simpl in Hlog.
  destruct (noTriple_no_same_calls _ _ _ _ _ _ Hno Hlog H12 H23).
Qed.

Lemma push_recorded (text : string) (calls : list LLMToolCall) :
  triple (undetected stringify) (push (assistantMessage text (Some calls)))
         (fun _ _ s => recorded stringify calls s).
Proof.
  apply triple_modify. intros s [Hw Hno]. exists (messages s), text. auto.
Qed.

Lemma keysOf_snoc (before : list LLMMessage) (text : string) (calls : list LLMToolCall) :
  keysOf stringify (before ++ [assistantMessage text (Some calls)]) =
  keysOf stringify before ++ [callsKey stringify calls].
Proof. unfold keysOf. rewrite toolTurns_app, List.map_app. reflexivity. Qed.

Lemma isStuckLoop_slides (calls : list LLMToolCall) (s : Agent) :
  isStuckLoop stringify calls s =
  ([], set_recentToolCalls (slide (recentToolCalls s) (callsKey stringify calls)) s,
   Ok (if (List.length (slide (recentToolCalls s) (callsKey stringify calls))
           <? MAX_CONSECUTIVE_DUPLICATES)%nat
       then false
       else allEqualFirst (slide (recentToolCalls s) (callsKey stringify calls)))).
Proof.
  unfold isStuckLoop, slide, bind, modify, get, ret.
  cbn [recentToolCalls set_recentToolCalls].
  destruct (MAX_CONSECUTIVE_DUPLICATES <? _)%nat;
    cbn [recentToolCalls set_recentToolCalls];
    destruct (_ <? MAX_CONSECUTIVE_DUPLICATES)%nat; reflexivity.
Qed.

Lemma isStuckLoop_recorded (calls : list LLMToolCall) :
  triple (recorded stringify calls) (isStuckLoop stringify calls)
         (fun outs stuck s =>
            outs = [] /\
            if stuck
            then exists before text,
                   messages s = before ++ [assistantMessage text (Some calls)] /\
                   noTriple (keysOf stringify before)
            else undetected stringify s).
Proof.
  intros s (before & text & Hm & Hw & Hno).
  eexists _, _, _. split; [apply isStuckLoop_slides|]. split; [reflexivity|].
  assert (Hslide : slide (recentToolCalls s) (callsKey stringify calls)
                   = windowOf (keysOf stringify (messages s))).
  { rewrite Hm, keysOf_snoc, windowOf_app, Hw. reflexivity. }
  rewrite Hslide.
  destruct (if (_ <? _)%nat then false else _) eqn:Hb.
  - exists before, text. auto.
  - split; [reflexivity|].
    change (noTriple (keysOf stringify (messages s))).
    rewrite Hm, keysOf_snoc. apply noTriple_snoc; [exact Hno|].
    rewrite <- (keysOf_snoc before text), <- Hm.
    destruct (_ <? _)%nat; [left; reflexivity | right; exact Hb].
Qed.

Lemma turns_endsAtDetection (remaining : nat) :
  forall turn,
    triple (undetected stringify)
           (turns agentId role maxTurns maxContextTurns now stringify abortedAt chat known
                  execute remaining turn)
           (fun outs result _ => endsAtDetection agentId outs result).
Proof.
  induction remaining as [|later IH]; intros turn; cbn [turns].
  - apply finish_undetected.
  - destruct (abortedAt turn); [apply finish_undetected|].
    pose proof endsAtDetection_suffix as Hsuf.
    apply triple_bind_suffix with (R := fun _ s => undetected stringify s);
      [auto | apply keeps_undetected, keeps_emit |]. intros _.
    apply triple_bind_suffix with (R := fun _ s => undetected stringify s); [auto | |].
    { apply keeps_undetected. destruct (_ =? _)%nat; [apply keeps_push; reflexivity | apply keeps_ret]. }
    intros _.
    apply triple_bind_suffix with
      (R := fun r s => undetected stringify s /\
                       forall response, r = Some response ->
                                        forallb hasArguments (resp_toolCalls response) = true);
      [auto | | ].
    { apply triple_guard; [apply keeps_undetected, keeps_callLLM|].
      intros s o s' r H. exact (callLLM_carries _ _ chat_carries _ _ _ _ _ _ H). }
    intros [response|]; apply triple_pure; intros Hargs.
    2:{ apply triple_bind_suffix with (R := fun _ s => undetected stringify s);
          [auto | apply keeps_undetected, keeps_get |].
        intros a. apply finish_undetected. }
    apply triple_bind_suffix with (R := fun _ s => undetected stringify s);
      [auto | apply keeps_undetected, keeps_accumulateUsage |]. intros _.
    apply triple_bind_suffix with (R := fun _ s => undetected stringify s); [auto | |].
    { apply keeps_undetected. destruct (JS.truthy _); [apply keeps_emit | apply keeps_ret]. }
    intros _.
    specialize (Hargs response eq_refl). revert Hargs.
    destruct (resp_toolCalls response) as [|call calls]; intros Hargs; cbv beta match.
    + apply triple_bind_suffix with (R := fun _ s => undetected stringify s); [auto | |].
      { apply keeps_undetected.
        destruct (JS.truthy _); [apply keeps_push; reflexivity | apply keeps_ret]. }
      intros _. apply IH.
    + apply triple_bind_suffix with (R := fun _ s => recorded stringify (call :: calls) s); [auto | |].
      { destruct (JS.truthy _); apply push_recorded. }
      intros _.
      eapply triple_bind; [apply isStuckLoop_recorded|].
      intros o1 [|].
      * intros s (-> & before & text & Hm & Hno).
        eexists _, _, _. split; [reflexivity|].
        intros pre c1 c2 c3 post Hlog H12 H23. simpl in Hlog |- *.
        rewrite Hm, toolTurns_app in Hlog. simpl in Hlog.
        assert (Hpost : post = []).
        { apply (f_equal (List.map (callsKey stringify))) in Hlog.
          rewrite !List.map_app in Hlog. simpl in Hlog.
          rewrite (sameCalls_key _ _ H12), (sameCalls_key _ _ H23) in Hlog.
          apply noTriple_last in Hlog; [|exact Hno].
          destruct post; [reflexivity | discriminate]. }
        subst post. split; [reflexivity|]. split; [reflexivity|].
        split; [vm_compute; reflexivity|]. split.
        -- assert (Hlast : toolTurns before ++ [call :: calls] = (pre ++ [c1; c2]) ++ [c3])
             by (rewrite Hlog, <- app_assoc; reflexivity).
           apply app_inj_tail in Hlast as [_ <-].
           exists before, text. exact Hm.
        -- exists []. reflexivity.
      * eapply triple_conseq with
          (P' := undetected stringify)
          (Q' := fun outs result _ => endsAtDetection agentId outs result);
          [ | intros s [_ H]; exact H | intros o a s H; apply Hsuf, H ].
        intros s Hs.
        destruct (executeToolCalls_afterTools (call :: calls) (view s) Hargs s eq_refl)
          as (o & s' & r & E & Hv & Hres).
        assert (Hs' : undetected stringify s').
        { unfold undetected, keysOf in *.
          change (toolTurns (messages s')) with (fst (view s')).
          change (recentToolCalls s') with (snd (view s')).
          rewrite Hv. exact Hs. }
        destruct r as [result|].
        -- exists (o ++ []), s', result. split; [unfold bind; rewrite E; reflexivity|].
           intros pre c1 c2 c3 post Hlog H12 H23. exfalso.
           destruct Hs as [_ Hno]. unfold keysOf in Hno.
           rewrite (Hres result eq_refl) in Hlog. simpl in Hlog.
           apply (f_equal (List.map (callsKey stringify))) in Hlog.
           rewrite !List.map_app in Hlog. simpl in Hlog.
           rewrite (sameCalls_key _ _ H12), (sameCalls_key _ _ H23) in Hlog.
           exact (Hno _ _ _ Hlog).
        -- destruct (IH (S turn) s' Hs') as (o2 & s2 & result & E2 & H2).
           exists (o ++ o2), s2, result. split; [unfold bind; rewrite E, E2; reflexivity|].
           apply Hsuf, H2.
Qed.

Lemma construct_undetected (systemPrompt : string) (initialContext : option string) :
  undetected stringify (construct systemPrompt initialContext).
Proof.
  unfold undetected, keysOf, construct. cbn [messages recentToolCalls].
  assert (H : toolTurns (systemMessage systemPrompt ::
                         match initialContext with
                         | Some c => if JS.truthy c then [userMessage c] else []
                         | None => []
                         end) = []).
  { destruct initialContext as [c|]; [destruct (JS.truthy c)|]; reflexivity. }
  rewrite H. split; [reflexivity | apply noTriple_nil].
Qed.

Lemma sameCalls_nil (a b : list LLMToolCall) : sameCalls a b -> a = [] <-> b = [].
Proof.
  unfold sameCalls. intros H. apply (f_equal (@List.length _)) in H.
  rewrite !length_map in H.
  destruct a, b; simpl in H; split; intros E; try reflexivity; try discriminate.
Qed.

Lemma scriptKeys_S (script : nat -> list LLMToolCall) (n : nat) :
  scriptKeys stringify script (S n) =
  scriptKeys stringify script n ++
  match script n with [] => [] | calls => [callsKey stringify calls] end.
Proof.
  unfold scriptKeys. rewrite seq_S, flat_map_app. simpl. rewrite app_nil_r. reflexivity.
Qed.

Lemma scriptKeys_calls (script : nat -> list LLMToolCall) (n : nat) :
  script n <> [] ->
  scriptKeys stringify script (S n) =
  scriptKeys stringify script n ++ [callsKey stringify (script n)].
Proof.
  intros H. rewrite scriptKeys_S. destruct (script n); [congruence|reflexivity].
Qed.

Lemma scriptKeys_gap (script : nat -> list LLMToolCall) (a b : nat) :
  (a <= b)%nat ->
  (forall n, (a <= n < b)%nat -> script n = []) ->
  scriptKeys stringify script b = scriptKeys stringify script a.
Proof.
  intros Hle. induction Hle as [|b Hle IH]; intros Hgap; [reflexivity|].
  rewrite scriptKeys_S, (Hgap b) by lia. rewrite app_nil_r.
  apply IH. intros n Hn. apply Hgap. lia.
Qed.

Lemma parseCompletion_refuses (text : string) (s : Agent) :
  completes text = false ->
  parseCompletion agentId role now text s = ([], s, Ok None).
Proof.
  unfold completes, parseCompletion.
  destruct (Json.parse text) as [[| | | | |members]|]; try reflexivity.
  destruct (statusOf _) as [status|]; [|reflexivity].
  destruct (Json.lookupLast "content" members) as [[| | |taskContent| |]|]; try reflexivity.
  intros ->. reflexivity.
Qed.

Lemma keeps_progress_push (m : LLMMessage) : keeps progress (push m).
Proof. apply keeps_modify. reflexivity. Qed.

Lemma keeps_progress_accumulateUsage (usage : TokenUsage) :
  keeps progress (accumulateUsage agentId usage).
Proof.
  apply keeps_bind; [apply keeps_modify; reflexivity|]. intros _.
  apply keeps_bind; [apply keeps_get|]. intros a. apply keeps_emit.
Qed.

(** Tool calls that carry arguments, none of which gives a completion, are
    all executed: the loop returns no result, the provider is not called
    and the window of [isStuckLoop] is not touched. *)
Lemma executeToolCalls_none (toolCalls : list LLMToolCall) v :
  (forall n toolCall r,
     execute n toolCall = Ok r -> call_name toolCall = "complete_task" ->
     completes (content r) = false) ->
  forallb hasArguments toolCalls = true ->
  triple (fun s => progress s = v)
         (executeToolCalls agentId role now known execute toolCalls)
         (fun _ r s => progress s = v /\ r = None).
Proof.
  intros Hnone.
  induction toolCalls as [|toolCall rest IH]; intros Hargs; cbn [executeToolCalls].
  - apply triple_ret. auto.
  - cbn [forallb] in Hargs. apply andb_true_iff in Hargs as [Hcall Hrest].
    specialize (IH Hrest).
    destruct (sanitizeToolArgs_Ok toolCall Hcall) as [toolArgs ->].
    assert (Hstep : forall (m : M Agent unit),
               keeps progress m ->
               triple (fun s => progress s = v)
                      (bind m (fun _ => executeToolCalls agentId role now known execute rest))
                      (fun _ r s => progress s = v /\ r = None)).
    { intros m Hm. apply triple_bind_suffix with (R := fun _ s => progress s = v);
        [auto | apply Hm | intros _; exact IH]. }
    apply triple_bind_suffix with (R := fun _ s => progress s = v);
      [auto | apply (keeps_ret progress toolArgs) |]. intros _.
    apply triple_bind_suffix with (R := fun _ s => progress s = v); [auto | apply keeps_emit |].
    intros _. destruct (negb _).
    + apply triple_bind_suffix with (R := fun _ s => progress s = v);
        [auto | apply keeps_progress_push |]. intros _. apply Hstep, keeps_emit.
    + apply triple_bind_suffix with (R := fun _ s => progress s = v); [auto | apply keeps_get |].
      intros a.
      apply triple_bind_suffix with (R := fun _ s => progress s = v);
        [auto | apply keeps_modify; reflexivity |]. intros _.
      destruct (execute (toolRuns a) toolCall) as [result|msg] eqn:Eexec.
      * apply triple_bind_suffix with (R := fun _ s => progress s = v);
          [auto | apply keeps_progress_push |]. intros _.
        apply triple_bind_suffix with (R := fun _ s => progress s = v);
          [auto | apply keeps_emit |]. intros _.
        destruct (String.eqb (call_name toolCall) "complete_task") eqn:Ename; [|exact IH].
        apply String.eqb_eq in Ename.
        pose proof (Hnone _ _ _ Eexec Ename) as Hrefused.
        intros s Hs.
        destruct (Hstep (push (userMessage INVALID_COMPLETION)) (keeps_progress_push _) s Hs)
          as (o & s' & r & E & H).
        exists o, s', r. split; [|exact H].
        unfold bind at 1. rewrite (parseCompletion_refuses _ s Hrefused).
        cbv beta iota. rewrite E. reflexivity.
      * apply triple_bind_suffix with (R := fun _ s => progress s = v);
          [auto | apply keeps_progress_push |]. intros _. apply Hstep, keeps_emit.
Qed.

Section Detection.

(** The provider answers its calls 0 to [i3] with the tool calls of
    [script]; the answers to [i1], [i2] and [i3] are three consecutive
    tool-calling answers, with the same calls. *)
Variable script : nat -> list LLMToolCall.
Variables i1 i2 i3 : nat.
Hypothesis first_second : (i1 < i2)%nat.
Hypothesis second_third : (i2 < i3)%nat.
Hypothesis chat_follows :
  forall n msgs, (n <= i3)%nat ->
    exists response, chat n msgs = Ok response /\ sameCalls (resp_toolCalls response) (script n).
Hypothesis first_calls : script i1 <> [].
Hypothesis same_first_second : sameCalls (script i1) (script i2).
Hypothesis same_second_third : sameCalls (script i2) (script i3).
Hypothesis between :
  forall n, (i1 < n < i2)%nat \/ (i2 < n < i3)%nat -> script n = [].
Hypothesis not_aborted : forall t, (t <= S i3)%nat -> abortedAt t = false.
Hypothesis no_completion :
  forall n toolCall r,
    execute n toolCall = Ok r -> call_name toolCall = "complete_task" ->
    completes (content r) = false.

Lemma third_calls : script i3 <> [].
Proof.
  intros H3. apply first_calls.
  apply (sameCalls_nil _ _ same_first_second).
  apply (sameCalls_nil _ _ same_second_third). exact H3.
Qed.

Lemma window_at_third :
  windowOf (scriptKeys stringify script (S i3)) =
  [callsKey stringify (script i3); callsKey stringify (script i3);
   callsKey stringify (script i3)].
Proof.
  assert (H2 : script i2 <> []).
  { intros H. apply first_calls. apply (sameCalls_nil _ _ same_first_second). exact H. }
  pose proof third_calls as H3.
  rewrite (scriptKeys_calls script i3 H3).
  rewrite (scriptKeys_gap script (S i2) i3) by (try lia; intros n Hn; apply between; lia).
  rewrite (scriptKeys_calls script i2 H2).
  rewrite (scriptKeys_gap script (S i1) i2) by (try lia; intros n Hn; apply between; lia).
  rewrite (scriptKeys_calls script i1 first_calls).
  rewrite (sameCalls_key _ _ same_first_second), (sameCalls_key _ _ same_second_third).
  rewrite <- !app_assoc. apply windowOf_last_three.
Qed.

Lemma callLLMWithRetry_follows (n : nat) (s : Agent) :
  (n <= i3)%nat -> chatCalls s = n ->
  exists response,
    callLLMWithRetry maxContextTurns chat s
    = ([], set_chatCalls (S n) s, Ok (Some response)) /\
    sameCalls (resp_toolCalls response) (script n) /\
    forallb hasArguments (resp_toolCalls response) = true.
Proof.
  intros Hn Hs.
  destruct (chat_follows n (getMessagesForLLM maxContextTurns s) Hn) as (response & E & Hsame).
  exists response. split; [|split; [exact Hsame|exact (chat_carries _ _ _ E)]].
  unfold callLLMWithRetry. cbn [callLLM]. unfold bind, get, modify. rewrite Hs, E.
  reflexivity.
Qed.

Lemma stuckEnding_suffix (o1 o2 : list Out) (result : AgentResult) (s : Agent) :
  stuckEnding agentId script i3 o2 result s ->
  stuckEnding agentId script i3 (o1 ++ o2) result s.
Proof.
  intros (H1 & H2 & H3 & o & ->). repeat split; auto.
  exists (o1 ++ o). apply app_assoc.
Qed.

Lemma turns_detects (remaining : nat) :
  forall n,
    (n <= i3)%nat -> (i3 < n + remaining)%nat ->
    triple (fun s => progress s = (n, windowOf (scriptKeys stringify script n)))
           (turns agentId role maxTurns maxContextTurns now stringify abortedAt chat known
                  execute remaining (S n))
           (stuckEnding agentId script i3).
Proof.
  induction remaining as [|later IH]; intros n Hn Hreach; [lia|]. cbn [turns].
  rewrite not_aborted by lia.
  pose proof stuckEnding_suffix as Hsuf.
  set (W := windowOf (scriptKeys stringify script n)).
  apply triple_bind_suffix with (R := fun _ s => progress s = (n, W));
    [auto | apply keeps_emit |]. intros _.
  apply triple_bind_suffix with (R := fun _ s => progress s = (n, W)); [auto | |].
  { destruct (_ =? _)%nat; [apply keeps_progress_push | apply keeps_ret]. }
  intros _.
  apply triple_bind_suffix with
    (R := fun r s => progress s = (S n, W) /\
                     exists response, r = Some response /\
                       sameCalls (resp_toolCalls response) (script n) /\
                       forallb hasArguments (resp_toolCalls response) = true); [auto | |].
  { intros s Hs. injection Hs as Hc Hw.
    destruct (callLLMWithRetry_follows n s Hn Hc) as (response & E & Hsame & Hargs).
    eexists _, _, _. split; [exact E|]. split; [|eauto].
    unfold progress. cbn [chatCalls recentToolCalls set_chatCalls]. rewrite Hw. reflexivity. }
  intros r. apply triple_pure. intros (response & -> & Hsame & Hargs).
  apply triple_bind_suffix with (R := fun _ s => progress s = (S n, W));
    [auto | apply keeps_progress_accumulateUsage |]. intros _.
  apply triple_bind_suffix with (R := fun _ s => progress s = (S n, W)); [auto | |].
  { destruct (JS.truthy _); [apply keeps_emit | apply keeps_ret]. }
  intros _.
  revert Hsame Hargs.
  destruct (resp_toolCalls response) as [|call calls]; intros Hsame Hargs; cbv beta match.
  - assert (Hscript : script n = []) by (apply (sameCalls_nil _ _ Hsame); reflexivity).
    assert (Hlt : (n < i3)%nat).
    { destruct (Nat.eq_dec n i3) as [->|]; [|lia]. destruct (third_calls Hscript). }
    apply triple_bind_suffix with (R := fun _ s => progress s = (S n, W)); [auto | |].
    { destruct (JS.truthy _); [apply keeps_progress_push | apply keeps_ret]. }
    intros _.
    eapply triple_conseq; [apply (IH (S n)); lia | | auto].
    intros s Hs. cbv beta. rewrite scriptKeys_S, Hscript, app_nil_r. exact Hs.
  - assert (Hscript : script n <> []).
    { intros H. apply (sameCalls_nil _ _ Hsame) in H. discriminate H. }
    assert (Hkeys : scriptKeys stringify script (S n) =
                    scriptKeys stringify script n ++ [callsKey stringify (call :: calls)]).
    { rewrite (scriptKeys_calls script n Hscript), (sameCalls_key _ _ Hsame). reflexivity. }
    apply triple_bind_suffix with
      (R := fun _ s => progress s = (S n, W) /\
                       exists before text,
                         messages s = before ++ [assistantMessage text (Some (call :: calls))]);
      [auto | |].
    { destruct (JS.truthy _); apply triple_modify; intros s Hs;
        (split; [exact Hs|]); eexists _, _; reflexivity. }
    intros _.
    apply triple_bind_suffix with
      (R := fun stuck s =>
              (progress s = (S n, windowOf (scriptKeys stringify script (S n))) /\
               exists before text,
                 messages s = before ++ [assistantMessage text (Some (call :: calls))]) /\
              (stuck = false -> (n < i3)%nat)); [auto | |].
    { intros s (Hs & before & text & Hm). injection Hs as Hc Hw.
      eexists _, _, _. split; [apply isStuckLoop_slides|].
      rewrite Hw. fold W. unfold W. rewrite <- windowOf_app, <- Hkeys.
      split; [split|].
      - unfold progress. cbn [chatCalls recentToolCalls set_recentToolCalls].
        rewrite Hc. reflexivity.
      - exists before, text. exact Hm.
      - intros Hstuck. destruct (Nat.eq_dec n i3) as [->|]; [|lia].
        rewrite window_at_third in Hstuck. cbn in Hstuck.
        rewrite String.eqb_refl in Hstuck. discriminate Hstuck. }
    intros [|].
    + intros s ((Hs & before & text & Hm) & _). injection Hs as Hc Hw.
      eexists _, _, _. split; [reflexivity|].
      split; [reflexivity|]. split; [reflexivity|]. split.
      * exists n, before, text, (call :: calls).
        split; [exact Hn|]. split; [exact Hc|]. split; [exact Hm|exact Hsame].
      * exists []. reflexivity.
    + apply triple_pure. intros Hlt. specialize (Hlt eq_refl).
      apply triple_bind_suffix with
        (R := fun r s => progress s = (S n, windowOf (scriptKeys stringify script (S n))) /\
                         r = None); [auto | |].
      { eapply triple_conseq;
          [apply (executeToolCalls_none (call :: calls)
                    (S n, windowOf (scriptKeys stringify script (S n)))
                    no_completion Hargs) | | auto].
        intros s [Hs _]. exact Hs. }
      intros r. apply triple_pure. intros ->.
      apply IH; lia.
Qed.

End Detection.

(** C2. For a provider whose tool calls carry arguments, every agent run
    returns a result, and:

    - whenever the conversation it returns shows the same tool-call sequence
      (same tool names and arguments, in the same order) on three
      consecutive tool-calling turns, the run ended at the third of them: no
      tool-calling turn follows, the status is [needs_review], the summary
      contains the word stuck, the conversation ends with that third answer
      of the model and the outputs end with the report of the detection;

    - whenever the provider answers its calls 0 to [i3] with the tool calls
      of [script], the answers to the calls [i1 < i2 < i3] carry the same
      calls (at least one) and those between them carry none, the run is not
      aborted and no [complete_task] call is answered with a completion, and
      [i3] is below [maxTurns], the run does end on the detection: the
      status is [needs_review], the summary is [STUCK], which contains the
      word stuck, the provider was called [n + 1] times for some [n] up to
      [i3] and the conversation ends with its answer to call [n], so that
      none of the turns left was taken. *)
Theorem stuck_loop_ends_run (systemPrompt : string) (initialContext : option string) :
  exists outs final result,
    run agentId role maxTurns maxContextTurns stepId parentAgentId now stringify
        abortedAt chat known execute (construct systemPrompt initialContext)
    = (outs, final, Ok result) /\
    (forall pre c1 c2 c3 post,
       toolTurns (ar_conversationLog result) = pre ++ [c1; c2; c3] ++ post ->
       sameCalls c1 c2 -> sameCalls c2 c3 ->
       post = [] /\
       ar_status result = ars_needs_review /\
       JS.includes (art_content (ar_artifact result)) "stuck" = true /\
       (exists msgs text,
           ar_conversationLog result = msgs ++ [assistantMessage text (Some c3)]) /\
       (exists o, outs = o ++ [Log "agent" "Stuck loop detected for agent %s, breaking out"
                                 [agentId]])) /\
    (forall (script : nat -> list LLMToolCall) (i1 i2 i3 : nat),
       (i1 < i2)%nat -> (i2 < i3)%nat -> (i3 < maxTurns)%nat ->
       (forall n msgs, (n <= i3)%nat ->
          exists response,
            chat n msgs = Ok response /\ sameCalls (resp_toolCalls response) (script n)) ->
       script i1 <> [] ->
       sameCalls (script i1) (script i2) ->
       sameCalls (script i2) (script i3) ->
       (forall n, (i1 < n < i2)%nat \/ (i2 < n < i3)%nat -> script n = []) ->
       (forall t, (t <= S i3)%nat -> abortedAt t = false) ->
       (forall n toolCall r,
          execute n toolCall = Ok r -> call_name toolCall = "complete_task" ->
          completes (content r) = false) ->
       ar_status result = ars_needs_review /\
       art_content (ar_artifact result) = STUCK /\
       JS.includes (art_content (ar_artifact result)) "stuck" = true /\
       (exists n msgs text calls,
           (n <= i3)%nat /\
           chatCalls final = S n /\
           ar_conversationLog result = msgs ++ [assistantMessage text (Some calls)] /\
           sameCalls calls (script n)) /\
       (exists o, outs = o ++ [Log "agent" "Stuck loop detected for agent %s, breaking out"
                                 [agentId]])).
Proof.
  destruct (turns_endsAtDetection maxTurns 1 _ (construct_undetected systemPrompt initialContext))
    as (o & s' & result & E & H).
  eexists _, s', result. split; [|split].
  - unfold run, bind, get, emit. rewrite E. reflexivity.
  - intros pre c1 c2 c3 post Hlog H12 H23.
    destruct (H pre c1 c2 c3 post Hlog H12 H23) as (Hp & Hst & Hc & Hm & o' & ->).
    repeat split; auto. eexists (_ :: o'). reflexivity.
  - intros script i1 i2 i3 H12 H23 Hmax Hfollows Hfirst Hs12 Hs23 Hbetween Habort Hnone.
    destruct (turns_detects script i1 i2 i3 H12 H23 Hfollows Hfirst Hs12 Hs23 Hbetween
                Habort Hnone maxTurns 0%nat ltac:(lia) ltac:(lia)
                (construct systemPrompt initialContext) eq_refl)
      as (o2 & s2 & result2 & E2 & Hd).
    rewrite E in E2. injection E2 as <- <- <-.
    destruct Hd as (Hst & Hc & Hlast & o' & ->).
    split; [exact Hst|]. split; [exact Hc|].
    split; [rewrite Hc; vm_compute; reflexivity|].
    split; [exact Hlast|]. eexists (_ :: o'). reflexivity.
Qed.

End AgentProps.

Section StuckLoopScenario.
Import AgentRuntime.

Lemma looping_chat_carries : callsCarryArguments looping_chat.
Proof.
  intros n msgs response H. unfold looping_chat in H. injection H as <-. reflexivity.
Defined.

(** The instance of the statement for the looping model of scenario F, whose
    answers to the calls 0, 1 and 2 carry the same call. *)
Lemma stuck_loop_ends_run_witness :
  callsCarryArguments looping_chat /\
  exists outs final result,
    run "agent-1" executor 10 None None None "2026-01-01T00:00:00.000Z" stringify_members
        (fun _ => false) looping_chat role_tools file_tools
        (construct "system" (Some "read the file"))
    = (outs, final, Ok result) /\
    ar_status result = ars_needs_review /\
    art_content (ar_artifact result) = STUCK /\
    (chatCalls final <= 3)%nat.
Proof.
  split; [exact looping_chat_carries|].
  destruct (stuck_loop_ends_run stringify_members "agent-1" executor 10 None None None
              "2026-01-01T00:00:00.000Z" (fun _ => false) looping_chat role_tools
              file_tools looping_chat_carries "system" (Some "read the file"))
    as (outs & final & result & E & _ & Hlive).
  exists outs, final, result. split; [exact E|].
  assert (Hfollows : forall n msgs, (n <= 2)%nat ->
            exists response,
              looping_chat n msgs = Ok response /\
              sameCalls (resp_toolCalls response) [read_call]).
  { intros n msgs _. eexists. split; reflexivity. }
  assert (Hnone : forall n toolCall r,
            file_tools n toolCall = Ok r -> call_name toolCall = "complete_task" ->
            completes (content r) = false).
  { intros n toolCall r H _. unfold file_tools in H. injection H as <-.
    vm_compute. reflexivity. }
  destruct (Hlive (fun _ => [read_call]) 0%nat 1%nat 2%nat
              ltac:(lia) ltac:(lia) ltac:(lia) Hfollows ltac:(discriminate)
              eq_refl eq_refl ltac:(intros n [Hn|Hn]; lia) (fun t _ => eq_refl) Hnone)
    as (Hst & Hc & _ & (n & msgs & text & calls & Hn & Hcalls & _) & _).
  split; [exact Hst|]. split; [exact Hc|]. lia.
Defined.

(** Scenario F: with ten turns allowed, the model that repeats its call is
    asked three times, its call is executed twice, and the run returns
    [needs_review] with the three identical turns in its conversation. *)
Lemma scenario_F_stuck_loop :
  let x := run "agent-1" executor 10 None None None "2026-01-01T00:00:00.000Z"
               stringify_members (fun _ => false) looping_chat role_tools
               (tools_over env_work context_work)
               (construct "system" (Some "read the file")) in
  exists result,
    returned x = Ok result /\
    ar_status result = ars_needs_review /\
    art_content (ar_artifact result) = STUCK /\
    toolTurns (ar_conversationLog result) = [[read_call]; [read_call]; [read_call]] /\
    chatCalls (final x) = 3%nat /\
    toolRuns (final x) = 2%nat.
Proof. vm_compute. eexists. repeat split; reflexivity. Qed.

End StuckLoopScenario.

Section ExitCodeProps.
Import Tools AgentRuntime.

Lemma isError_iff_nonzero (code : option Z) :
  negb (exitCodeIsZero code) = true <-> code <> Some 0%Z.
Proof.
  destruct code as [z|]; simpl; [|split; [discriminate | reflexivity]].
  destruct (Z.eqb_spec z 0) as [->|Hz]; simpl; split; intros H;
    try discriminate; try reflexivity; congruence.
Qed.

(** One tool call in the loop of the agent: the result of the tool, or the
    error it threw, becomes a tool message and an [agent:tool_result] event,
    and the loop goes on with the remaining calls. *)
Lemma executeToolCalls_goes_on (agentId : string) (role : AgentRole) (now : string)
    (known : string -> bool) (execute : nat -> LLMToolCall -> outcome ToolExecutionResult)
    (toolCall : LLMToolCall) (rest : list LLMToolCall) (s : Agent) :
  hasArguments toolCall = true ->
  known (call_name toolCall) = true ->
  String.eqb (call_name toolCall) "complete_task" = false ->
  let text := match execute (toolRuns s) toolCall with
              | Ok r => content r
              | Throw msg => "Tool execution error: " +:+ msg
              end in
  let failed := match execute (toolRuns s) toolCall with
                | Ok r => isError r
                | Throw _ => true
                end in
  executeToolCalls agentId role now known execute (toolCall :: rest) s =
  after [Emit (AgentToolCall agentId (call_name toolCall));
         Emit (AgentToolResult agentId (call_name toolCall) failed)]
        (executeToolCalls agentId role now known execute rest
           (set_messages (messages s ++ [toolMessage text (call_id toolCall)])
                         (set_toolRuns (S (toolRuns s)) s))).
Proof.
  intros Hargs Hknown Hname. cbn [executeToolCalls].
  destruct (sanitizeToolArgs_Ok toolCall Hargs) as [toolArgs ->].
  rewrite bind_evaluate_Ok. rewrite Hknown. cbn [negb].
  unfold bind at 1. unfold emit at 1. unfold bind at 1. unfold get at 1.
  unfold bind at 1. unfold modify at 1.
  destruct (execute (toolRuns s) toolCall) as [r|msg].
  - rewrite Hname. unfold bind, push, modify, emit, after.
    destruct (executeToolCalls _ _ _ _ _ rest _) as [[o s'] res]. reflexivity.
  - unfold bind, push, modify, emit, after.
    destruct (executeToolCalls _ _ _ _ _ rest _) as [[o s'] res]. reflexivity.
Qed.

(** C10. Whenever [run_terminal_command], for a command that is neither
    blocked nor refused as non-terminating, or [git_operations] returns a
    result, the command was handed to [execa] and the [isError] flag of the
    result is set exactly when the exit code [execa] reported is not 0 (no
    reported exit code is not 0 either). In the loop of the agent the result
    of a tool called with arguments, failed or not, and even an error the
    tool throws, becomes a tool message and an [agent:tool_result] event
    carrying the flag, and the loop goes on with the remaining calls of the
    turn. *)
Theorem exit_code_sets_isError_and_loop_goes_on :
  (forall env command cwdArg context log r,
      isCommandBlocked command = None ->
      isCommandNonTerminating command = None ->
      runTerminalCommand env command cwdArg context = (log, Ok r) ->
      log = [Execa command (commandDir env cwdArg context)] /\
      (isError r = true <->
       reportedExitCode (execa env command (commandDir env cwdArg context)) <> Some 0%Z)) /\
  (forall env operation gitArgs context log r,
      gitOperations env operation gitArgs context = (log, Ok r) ->
      log = [Execa (gitCommand operation gitArgs) (workingDirectory context)] /\
      (isError r = true <->
       reportedExitCode (execa env (gitCommand operation gitArgs) (workingDirectory context))
       <> Some 0%Z)) /\
  (forall agentId role now known execute toolCall rest s,
      hasArguments toolCall = true ->
      known (call_name toolCall) = true ->
      String.eqb (call_name toolCall) "complete_task" = false ->
      exists text failed,
        match execute (toolRuns s) toolCall with
        | Ok r => text = content r /\ failed = isError r
        | Throw msg => text = "Tool execution error: " +:+ msg /\ failed = true
        end /\
        executeToolCalls agentId role now known execute (toolCall :: rest) s =
        after [Emit (AgentToolCall agentId (call_name toolCall));
               Emit (AgentToolResult agentId (call_name toolCall) failed)]
              (executeToolCalls agentId role now known execute rest
                 (set_messages (messages s ++ [toolMessage text (call_id toolCall)])
                               (set_toolRuns (S (toolRuns s)) s)))).
Proof.
  split; [|split].
  - intros env command cwdArg context log r Hb Hn H.
    unfold runTerminalCommand in H. rewrite Hb, Hn in H. cbv zeta in H.
    destruct (execa env command (commandDir env cwdArg context)) as [result|msg].
    + injection H as <- <-. split; [reflexivity|]. apply isError_iff_nonzero.
    + destruct (aborted context); [|discriminate].
      injection H as <- <-. split; [reflexivity|]. simpl. split; [discriminate | reflexivity].
  - intros env operation gitArgs context log r H.
    unfold gitOperations in H. cbv zeta in H.
    destruct (execa env (gitCommand operation gitArgs) (workingDirectory context))
      as [result|msg].
    + injection H as <- <-. split; [reflexivity|]. apply isError_iff_nonzero.
    + destruct (aborted context); [|discriminate].
      injection H as <- <-. split; [reflexivity|]. simpl. split; [discriminate | reflexivity].
  - intros agentId role now known execute toolCall rest s Hargs Hknown Hname.
    pose proof (executeToolCalls_goes_on agentId role now known execute toolCall rest s
                  Hargs Hknown Hname) as H.
    cbv zeta in H. eexists _, _. split; [|exact H].
    destruct (execute (toolRuns s) toolCall); split; reflexivity.
Qed.

(** The instance for [npm test] exiting with code 1. *)
Lemma exit_code_sets_isError_and_loop_goes_on_witness :
  isCommandBlocked "npm test" = None /\
  isCommandNonTerminating "npm test" = None /\
  runTerminalCommand env_failing "npm test" None context_work
  = ([Execa "npm test" "/work"],
     Ok {| content := "stderr:" +:+ nl +:+ "boom" +:+ nl +:+ nl +:+ "exit code: 1";
           isError := true |}) /\
  [Execa "npm test" "/work"] = [Execa "npm test" (commandDir env_failing None context_work)] /\
  (true = true <->
   reportedExitCode (execa env_failing "npm test" (commandDir env_failing None context_work))
   <> Some 0%Z) /\
  hasArguments test_call = true /\
  role_tools (call_name test_call) = true /\
  String.eqb (call_name test_call) "complete_task" = false /\
  exists text failed,
    match tools_over env_failing context_work
            (toolRuns (construct "system" (Some "run the tests"))) test_call with
    | Ok r => text = content r /\ failed = isError r
    | Throw msg => text = "Tool execution error: " +:+ msg /\ failed = true
    end /\
    executeToolCalls "agent-1" executor "2026-01-01T00:00:00.000Z" role_tools
      (tools_over env_failing context_work) [test_call; read_call]
      (construct "system" (Some "run the tests")) =
    after [Emit (AgentToolCall "agent-1" (call_name test_call));
           Emit (AgentToolResult "agent-1" (call_name test_call) failed)]
          (executeToolCalls "agent-1" executor "2026-01-01T00:00:00.000Z" role_tools
             (tools_over env_failing context_work) [read_call]
             (set_messages
                (messages (construct "system" (Some "run the tests"))
                 ++ [toolMessage text (call_id test_call)])
                (set_toolRuns (S (toolRuns (construct "system" (Some "run the tests"))))
                              (construct "system" (Some "run the tests"))))).
Proof.
  assert (Ha : hasArguments test_call = true) by (vm_compute; reflexivity).
  assert (Hk : role_tools (call_name test_call) = true) by (vm_compute; reflexivity).
  assert (Hc : String.eqb (call_name test_call) "complete_task" = false)
    by (vm_compute; reflexivity).
  assert (Hb : isCommandBlocked "npm test" = None) by (vm_compute; reflexivity).
  assert (Hn : isCommandNonTerminating "npm test" = None) by (vm_compute; reflexivity).
  assert (Hr : runTerminalCommand env_failing "npm test" None context_work
               = ([Execa "npm test" "/work"],
                  Ok {| content := "stderr:" +:+ nl +:+ "boom" +:+ nl +:+ nl +:+ "exit code: 1";
                        isError := true |})) by (vm_compute; reflexivity).
  split; [exact Hb|]. split; [exact Hn|]. split; [exact Hr|].
  split; [exact (proj1 (proj1 exit_code_sets_isError_and_loop_goes_on env_failing "npm test"
                          None context_work _ _ Hb Hn Hr))|].
  split; [exact (proj2 (proj1 exit_code_sets_isError_and_loop_goes_on env_failing "npm test"
                          None context_work _ _ Hb Hn Hr))|].
  split; [exact Ha|]. split; [exact Hk|]. split; [exact Hc|].
  exact (proj2 (proj2 exit_code_sets_isError_and_loop_goes_on) "agent-1" executor
           "2026-01-01T00:00:00.000Z" role_tools (tools_over env_failing context_work)
           test_call [read_call] (construct "system" (Some "run the tests")) Ha Hk Hc).
Defined.

(** A failing command inside a run: the tests fail on the first turn, the
    failure is reported as an [isError] tool result, and the run goes on to
    the second turn, on which the agent completes. *)
Lemma failing_command_does_not_end_run :
  let x := run "agent-1" executor 10 None None None "2026-01-01T00:00:00.000Z"
               stringify_members (fun _ => false) test_then_complete role_tools
               (tools_over env_failing context_work)
               (construct "system" (Some "run the tests")) in
  exists result,
    returned x = Ok result /\
    ar_status result = ars_completed /\
    chatCalls (final x) = 2%nat /\
    List.filter (fun e => match e with AgentToolResult _ _ _ | AgentTurn _ _ _ => true
                                   | _ => false end)
                (emitted (outputs x))
    = [ AgentTurn "agent-1" 1 10;
        AgentToolResult "agent-1" "run_terminal_command" true;
        AgentTurn "agent-1" 2 10;
        AgentToolResult "agent-1" "complete_task" false ].
Proof. vm_compute. eexists. repeat split; reflexivity. Qed.

End ExitCodeProps.

(** ** Tools: what the commands and file tools do beyond the safety checks *)

Section CommandGateProps.
Import Regex Tools.

Lemma firstMatch_none (patterns : list RegExp) (command : string) :
  firstMatch patterns command = None <->
  forall pattern, In pattern patterns -> test pattern command = false.
Proof.
  induction patterns as [|p rest IH]; simpl.
  - split; [intros _ q []|reflexivity].
  - destruct (test p command) eqn:E.
    + split; [discriminate|]. intros H. rewrite (H p (or_introl eq_refl)) in E. discriminate.
    + rewrite IH. split.
      * intros H q [<-|Hq]; [exact E|exact (H q Hq)].
      * intros H q Hq. apply H. right. exact Hq.
Qed.

(** X1. A command that matches an entry of [NON_TERMINATING_PATTERNS] is
    refused: [run_terminal_command] returns [isError = true] without calling
    [execa], with the advice to use a one-off command unless the blocklist
    refused the command first. *)
Theorem non_terminating_command_is_refused_and_never_spawned
    (env : Env) (command : string) (cwdArg : option string) (context : ToolContext) :
  (exists pattern, In pattern NON_TERMINATING_PATTERNS /\ test pattern command = true) ->
  exists result,
    runTerminalCommand env command cwdArg context = ([], Ok result) /\
    isError result = true /\
    (isCommandBlocked command = None ->
     content result =
     "This command typically does not exit. Use a one-off command instead (e.g. npm run build, npm test).").
Proof.
  intros H. apply firstMatch_finds in H as (p & Hf & _ & _).
  unfold runTerminalCommand. destruct (isCommandBlocked command) as [blocked|].
  - eexists. split; [reflexivity|]. split; [reflexivity|discriminate].
  - unfold isCommandNonTerminating. rewrite Hf.
    eexists. split; [reflexivity|]. split; reflexivity.
Qed.

Lemma npm_run_dev_matches :
  exists pattern, In pattern NON_TERMINATING_PATTERNS /\ test pattern "npm run dev" = true.
Proof. eexists. split; [left; reflexivity|reflexivity]. Defined.

Lemma non_terminating_command_is_refused_and_never_spawned_witness :
  exists result,
    runTerminalCommand env_work "npm run dev" None context_work = ([], Ok result) /\
    isError result = true /\
    (isCommandBlocked "npm run dev" = None ->
     content result =
     "This command typically does not exit. Use a one-off command instead (e.g. npm run build, npm test).").
Proof.
  exact (non_terminating_command_is_refused_and_never_spawned env_work "npm run dev" None
           context_work npm_run_dev_matches).
Defined.

(** X2. [run_terminal_command] hands a command to [execa] exactly when the
    command matches no entry of the blocklist and no entry of the
    non-terminating patterns; it then makes that one call, with the command
    unchanged, in the directory of the call. *)
Theorem command_is_spawned_iff_no_pattern_matches
    (env : Env) (command : string) (cwdArg : option string) (context : ToolContext) :
  (fst (runTerminalCommand env command cwdArg context)
   = [Execa command (commandDir env cwdArg context)]
   <-> forall pattern, In pattern (BLOCKED_COMMANDS ++ NON_TERMINATING_PATTERNS) ->
                       test pattern command = false)
  /\ (fst (runTerminalCommand env command cwdArg context) = []
      \/ fst (runTerminalCommand env command cwdArg context)
         = [Execa command (commandDir env cwdArg context)]).
Proof.
  unfold runTerminalCommand, isCommandBlocked, isCommandNonTerminating.
  destruct (firstMatch BLOCKED_COMMANDS command) as [b|] eqn:Eb.
  { split; [|left; reflexivity]. split; [discriminate|]. intros H. exfalso.
    assert (Hn : firstMatch BLOCKED_COMMANDS command = None).
    { apply firstMatch_none. intros q Hq. apply H, in_or_app. left. exact Hq. }
    congruence. }
  destruct (firstMatch NON_TERMINATING_PATTERNS command) as [n|] eqn:En.
  { split; [|left; reflexivity]. split; [discriminate|]. intros H. exfalso.
    assert (Hn : firstMatch NON_TERMINATING_PATTERNS command = None).
    { apply firstMatch_none. intros q Hq. apply H, in_or_app. right. exact Hq. }
    congruence. }
  assert (Hnone : forall q, In q (BLOCKED_COMMANDS ++ NON_TERMINATING_PATTERNS) ->
                             test q command = false).
  { intros q Hq. apply in_app_or in Hq as [Hq|Hq].
    - exact (proj1 (firstMatch_none _ _) Eb q Hq).
    - exact (proj1 (firstMatch_none _ _) En q Hq). }
  cbv zeta. destruct (execa env command (commandDir env cwdArg context)); simpl;
    (split; [split; [intros _; exact Hnone | reflexivity] | right; reflexivity]).
Qed.

End CommandGateProps.

Section FileToolProps.
Import Tools ToolDefinitions.



Lemma readFiles_loop_reads (env : Env) (context : ToolContext) (paths : list string) :
  forall (parts : list string) (totalLen : N) (log : list IO),
    let '(parts', _, log') := readFiles_loop env context paths parts totalLen log in
    exists new,
      log' = log ++ new /\
      (List.length new <= List.length paths)%nat /\
      (List.length parts' <= List.length parts + List.length paths)%nat /\
      Forall (fun io => exists q, io = ReadFile q) new.
Proof.
  induction paths as [|p rest IH]; intros parts totalLen log; simpl.
  - exists []. rewrite app_nil_r. repeat split; [simpl; lia | lia | constructor].
  - destruct (READ_FILES_TOTAL <=? totalLen)%N.
    { exists []. rewrite app_nil_r. repeat split; [simpl; lia | lia | constructor]. }
    assert (Hskip : forall part,
               let '(parts', _, log') :=
                 readFiles_loop env context rest (parts ++ [part]) totalLen log in
               exists new,
                 log' = log ++ new /\
                 (List.length new <= S (List.length rest))%nat /\
                 (List.length parts' <= List.length parts + S (List.length rest))%nat /\
                 Forall (fun io => exists q, io = ReadFile q) new).
    { intros part. specialize (IH (parts ++ [part]) totalLen log).
      destruct (readFiles_loop env context rest (parts ++ [part]) totalLen log)
        as [[parts' t'] log'].
      destruct IH as (new & -> & Hn & Hp & Hall). rewrite length_app in Hp. simpl in Hp.
      exists new. repeat split; [lia | lia | exact Hall]. }
    assert (Hread : forall part total,
               let '(parts', _, log') :=
                 readFiles_loop env context rest (parts ++ [part]) total
                   (log ++ [ReadFile (resolveUnder env context p)]) in
               exists new,
                 log' = log ++ new /\
                 (List.length new <= S (List.length rest))%nat /\
                 (List.length parts' <= List.length parts + S (List.length rest))%nat /\
                 Forall (fun io => exists q, io = ReadFile q) new).
    { intros part total.
      specialize (IH (parts ++ [part]) total (log ++ [ReadFile (resolveUnder env context p)])).
      destruct (readFiles_loop env context rest (parts ++ [part]) total _)
        as [[parts' t'] log'].
      destruct IH as (new & -> & Hn & Hp & Hall). rewrite length_app in Hp. simpl in Hp.
      exists (ReadFile (resolveUnder env context p) :: new).
      rewrite <- app_assoc. repeat split; [simpl; lia | lia |].
      constructor; [eexists; reflexivity | exact Hall]. }
    destruct (JS.startsWith _ ".."); [apply Hskip|].
    destruct (isPathUnderRestricted _); [apply Hskip|].
    destruct (readFile env _) as [text|msg]; apply Hread.
Qed.

(** X4. [read_files] reads at most ten files in one call, and never more
    than there are paths; its calls to the outside are [readFile] calls only;
    it never throws (a file that cannot be read is reported in the content),
    and it answers with [isError = true] exactly when it was given no path. *)
Theorem read_files_reads_at_most_ten_files
    (env : Env) (rawPaths : list string) (context : ToolContext) :
  let '(log, r) := readFilesTool env rawPaths context in
  (List.length log <= Nat.min READ_FILES_MAX (List.length rawPaths))%nat /\
  Forall (fun io => exists q, io = ReadFile q) log /\
  exists result, r = Ok result /\ (isError result = true <-> rawPaths = []).
Proof.
  unfold readFilesTool.
  destruct (firstn READ_FILES_MAX rawPaths) as [|p paths] eqn:E.
  - split; [simpl; lia|]. split; [constructor|]. eexists. split; [reflexivity|]. simpl.
    split; [intros _|reflexivity]. destruct rawPaths; [reflexivity|discriminate].
  - pose proof (readFiles_loop_reads env context (p :: paths) [] 0%N []) as H.
    destruct (readFiles_loop env context (p :: paths) [] 0%N []) as [[parts total] log].
    destruct H as (new & -> & Hn & _ & Hall). rewrite <- E, length_firstn in Hn.
    split; [exact Hn|]. split; [exact Hall|]. eexists. split; [reflexivity|]. simpl.
    split; [discriminate|]. intros ->. discriminate.
Qed.

End FileToolProps.

(** ** Parsers: what every output satisfies *)

Section ParserRangeProps.
Import Json Parsers.

Lemma complexityOf_range (raw : option value) :
  (0 <= complexityOf raw)%Q /\ (complexityOf raw <= 1)%Q.
Proof.
  unfold complexityOf, DEFAULT_COMPLEXITY.
  destruct raw as [[| |q|s| |]|]; try (split; discriminate).
  - destruct (Qle_bool 0 q) eqn:E0; [|split; discriminate].
    destruct (Qle_bool q 1) eqn:E1; [|split; discriminate].
    simpl. split; apply Qle_bool_iff; assumption.
  - destruct (String.eqb s "simple"); [split; discriminate|].
    destruct (String.eqb s "medium"); [split; discriminate|].
    destruct (String.eqb s "complex"); split; discriminate.
Qed.

Lemma parseAnalyzerOutput_complexity (result : AgentResult) :
  exists raw, complexity (parseAnalyzerOutput result) = complexityOf raw.
Proof.
  unfold parseAnalyzerOutput.
  destruct (parse (art_content (ar_artifact result))) as [parsed|msg];
    [|exists None; reflexivity].
  destruct (prop parsed "complexity") as [raw|]; [|exists None; reflexivity].
  destruct (prop parsed "summary"); [|exists None; reflexivity].
  destruct (prop parsed "affectedFiles"); [|exists None; reflexivity].
  destruct (prop parsed "recommendedApproach"); [|exists None; reflexivity].
  exists raw. reflexivity.
Qed.



End ParserRangeProps.

(** ** The agent runtime: retries, tool answers, bounds *)

Section RetryProps.
Import AgentRuntime.

Variable maxContextTurns : option Z.
Variable chat : nat -> list LLMMessage -> outcome LLMResponse.

Lemma getMessagesForLLM_messages (a b : Agent) :
  messages a = messages b ->
  getMessagesForLLM maxContextTurns a = getMessagesForLLM maxContextTurns b.
Proof. unfold getMessagesForLLM. intros ->. reflexivity. Qed.

Lemma skipn_delays (attempt : nat) :
  (attempt < LLM_MAX_RETRIES)%nat ->
  skipn attempt LLM_RETRY_DELAYS
  = nth attempt LLM_RETRY_DELAYS 4000%nat :: skipn (S attempt) LLM_RETRY_DELAYS.
Proof.
  unfold LLM_MAX_RETRIES. intros H.
  destruct attempt as [|[|[|n]]]; try reflexivity. lia.
Qed.

Lemma callLLM_calls (attemptsLeft : nat) :
  forall (attempt : nat) (s : Agent),
    (attempt + attemptsLeft = S LLM_MAX_RETRIES)%nat ->
    (1 <= attemptsLeft)%nat ->
    exists outs s' r k,
      callLLM maxContextTurns chat attemptsLeft attempt s = (outs, s', Ok r) /\
      (k < attemptsLeft)%nat /\
      chatCalls s' = (chatCalls s + S k)%nat /\
      slept s' = slept s ++ firstn k (skipn attempt LLM_RETRY_DELAYS) /\
      messages s' = messages s /\
      toolRuns s' = toolRuns s /\
      (forall i, (i < k)%nat ->
                 exists e, chat (chatCalls s + i)%nat (getMessagesForLLM maxContextTurns s)
                           = Throw e /\ isRetryableError e = true) /\
      match r with
      | Some response =>
          chat (chatCalls s + k)%nat (getMessagesForLLM maxContextTurns s) = Ok response
      | None =>
          exists e, chat (chatCalls s + k)%nat (getMessagesForLLM maxContextTurns s) = Throw e /\
                    lastError s' = Some e /\
                    (isRetryableError e = false \/ (attempt + k)%nat = LLM_MAX_RETRIES)
      end.
Proof.
  induction attemptsLeft as [|later IH]; intros attempt s Hsum Hpos; [lia|].
  cbn [callLLM]. unfold bind at 1. unfold get at 1. unfold bind at 1. unfold modify at 1.
  destruct (chat (chatCalls s) (getMessagesForLLM maxContextTurns s)) as [response|e] eqn:Echat.
  - exists [], (set_chatCalls (S (chatCalls s)) s), (Some response), 0%nat.
    split; [reflexivity|]. split; [lia|]. split; [simpl; lia|].
    split; [simpl; rewrite app_nil_r; reflexivity|]. split; [reflexivity|].
    split; [reflexivity|]. split; [intros i Hi; lia|].
    rewrite Nat.add_0_r. exact Echat.
  - unfold bind at 1. unfold modify at 1.
    destruct (isRetryableError e) eqn:Eretry; cbn [negb orb].
    + destruct (attempt =? LLM_MAX_RETRIES)%nat eqn:Elast.
      * apply Nat.eqb_eq in Elast.
        eexists _, _, None, 0%nat. split; [reflexivity|]. split; [lia|].
        split; [simpl; lia|]. split; [simpl; rewrite app_nil_r; reflexivity|].
        split; [reflexivity|]. split; [reflexivity|]. split; [intros i Hi; lia|].
        exists e. rewrite Nat.add_0_r. split; [exact Echat|]. split; [reflexivity|].
        right. lia.
      * apply Nat.eqb_neq in Elast.
        assert (Hlt : (attempt < LLM_MAX_RETRIES)%nat) by lia.
        set (s1 := set_slept
                     (slept s ++ [nth attempt LLM_RETRY_DELAYS 4000%nat])
                     (set_lastError (Some e) (set_chatCalls (S (chatCalls s)) s))).
        destruct (IH (S attempt) s1) as (o & s' & r & k & E & Hk & Hc & Hs & Hm & Ht & Hpre & Hr);
          [lia | lia |].
        assert (Hmsgs : getMessagesForLLM maxContextTurns s1 = getMessagesForLLM maxContextTurns s)
          by (apply getMessagesForLLM_messages; reflexivity).
        rewrite Hmsgs in Hpre, Hr.
        eexists _, s', r, (S k). split.
        { unfold bind, log, modify.
          match goal with
          | |- context [callLLM _ _ later (S attempt) ?st] => change st with s1
          end.
          rewrite E. reflexivity. }
        split; [lia|]. split; [rewrite Hc; simpl; lia|].
        split.
        { rewrite Hs. unfold s1. cbn [slept set_slept]. rewrite <- app_assoc.
          rewrite (skipn_delays attempt Hlt). reflexivity. }
        split; [rewrite Hm; reflexivity|]. split; [rewrite Ht; reflexivity|].
        split.
        { intros i Hi. destruct i as [|i].
          - exists e. rewrite Nat.add_0_r. split; [exact Echat|exact Eretry].
          - destruct (Hpre i) as (e' & He' & Hr'); [lia|].
            exists e'. split; [|exact Hr'].
            replace (chatCalls s + S i)%nat with (chatCalls s1 + i)%nat; [exact He'|].
            unfold s1. simpl. lia. }
        replace (chatCalls s + S k)%nat with (chatCalls s1 + k)%nat by (unfold s1; simpl; lia).
        destruct r as [response|]; [exact Hr|].
        destruct Hr as (e' & He' & Hl & Hor). exists e'. split; [exact He'|].
        split; [exact Hl|]. destruct Hor as [Hor|Hor]; [left; exact Hor|right; lia].
    + eexists _, _, None, 0%nat. split; [reflexivity|]. split; [lia|].
      split; [simpl; lia|]. split; [simpl; rewrite app_nil_r; reflexivity|].
      split; [reflexivity|]. split; [reflexivity|]. split; [intros i Hi; lia|].
      exists e. rewrite Nat.add_0_r. split; [exact Echat|]. split; [reflexivity|].
      left. exact Eretry.
Qed.

(** X7. One [callLLMWithRetry] makes between one and four calls of the
    provider, all with the same messages; between two calls it waits 1000,
    2000 and 4000 ms in this order, so that the calls are one more than the
    waits; it returns the first answer it receives, and gives up, with the
    message of the error recorded, at the first error that is not retryable
    or at the fourth error. The conversation is left as it was. *)
Theorem callLLMWithRetry_makes_at_most_four_calls (s : Agent) :
  exists outs s' r k,
    callLLMWithRetry maxContextTurns chat s = (outs, s', Ok r) /\
    (k <= LLM_MAX_RETRIES)%nat /\
    chatCalls s' = (chatCalls s + S k)%nat /\
    slept s' = slept s ++ firstn k LLM_RETRY_DELAYS /\
    messages s' = messages s /\
    toolRuns s' = toolRuns s /\
    (forall i, (i < k)%nat ->
               exists e, chat (chatCalls s + i)%nat (getMessagesForLLM maxContextTurns s) = Throw e /\
                         isRetryableError e = true) /\
    match r with
    | Some response =>
        chat (chatCalls s + k)%nat (getMessagesForLLM maxContextTurns s) = Ok response
    | None =>
        exists e, chat (chatCalls s + k)%nat (getMessagesForLLM maxContextTurns s) = Throw e /\
                  lastError s' = Some e /\
                  (isRetryableError e = false \/ k = LLM_MAX_RETRIES)
    end.
Proof.
  destruct (callLLM_calls (S LLM_MAX_RETRIES) 0 s eq_refl)
    as (o & s' & r & k & E & Hk & Hc & Hs & Hm & Ht & Hpre & Hr); [lia|].
  exists o, s', r, k. split; [exact E|]. split; [lia|]. split; [exact Hc|].
  split; [exact Hs|]. split; [exact Hm|]. split; [exact Ht|]. split; [exact Hpre|].
  destruct r as [response|]; [exact Hr|].
  destruct Hr as (e & He & Hl & Hor). exists e. split; [exact He|]. split; [exact Hl|].
  destruct Hor as [Hor|Hor]; [left; exact Hor|right; exact Hor].
Qed.

End RetryProps.


Section ToolAnswerProps.
Import AgentRuntime Conversation.

Variables (agentId : string) (role : AgentRole) (now : string).
Variable known : string -> bool.
Variable execute : nat -> LLMToolCall -> outcome ToolExecutionResult.

Lemma parseCompletion_cases (text : string) (s : Agent) :
  parseCompletion agentId role now text s = ([], s, Ok None) \/
  exists result,
    parseCompletion agentId role now text s
    = ([Emit (AgentComplete agentId (ar_status result)
                (JS.sliceTo 100 (art_content (ar_artifact result))))], s, Ok (Some result)) /\
    ar_conversationLog result = messages s /\
    ar_tokenUsage result = cumulativeUsage s.
Proof.
  unfold parseCompletion.
  destruct (Json.parse text) as [[| | | | |members]|]; try (left; reflexivity).
  destruct (statusOf _) as [status|]; [|left; reflexivity].
  destruct (Json.lookupLast "content" members) as [[| | |taskContent| |]|];
    try (left; reflexivity).
  destruct (_ && _); [|left; reflexivity].
  right. eexists. split; [reflexivity|]. split; reflexivity.
Qed.

Lemma toolAnswers_app (l1 l2 : list LLMMessage) :
  toolAnswers (l1 ++ l2) = toolAnswers l1 ++ toolAnswers l2.
Proof. apply flat_map_app. Qed.

Lemma answered_cons (call : LLMToolCall) (calls : list LLMToolCall) (s s1 s' : Agent)
    (r : option AgentResult) (mid : list LLMMessage) :
  messages s1 = messages s ++ mid ->
  toolTurns mid = [] ->
  toolAnswers mid = [call_id call] ->
  toolRuns s1 = (toolRuns s + if known (call_name call) then 1 else 0)%nat ->
  answered known calls s1 s' r ->
  answered known (call :: calls) s s' r.
Proof.
  intros Hm Ht Ha Hr (new & Hnew & Hturns & Hcase).
  exists (mid ++ new). split; [rewrite Hnew, Hm, app_assoc; reflexivity|].
  split; [rewrite toolTurns_app, Ht, Hturns; reflexivity|].
  destruct r as [result|].
  - destruct Hcase as (before & c & rest & -> & Hname & Hans & Hruns & Hlog).
    exists (call :: before), c, rest. split; [reflexivity|]. split; [exact Hname|].
    split; [rewrite toolAnswers_app, Ha, Hans; reflexivity|].
    split; [|exact Hlog]. rewrite Hruns, Hr. simpl.
    destruct (known (call_name call)); simpl; lia.
  - destruct Hcase as [Hans Hruns].
    split; [rewrite toolAnswers_app, Ha, Hans; reflexivity|].
    rewrite Hruns, Hr. simpl. destruct (known (call_name call)); simpl; lia.
Qed.

Lemma executeToolCalls_answered (calls : list LLMToolCall) :
  forallb hasArguments calls = true ->
  forall s, exists outs s' r,
    executeToolCalls agentId role now known execute calls s = (outs, s', Ok r) /\
    answered known calls s s' r.
Proof.
  induction calls as [|call calls IH]; intros Hargs s.
  - exists [], s, None. split; [reflexivity|]. exists []. rewrite app_nil_r.
    split; [reflexivity|]. split; [reflexivity|]. split; [reflexivity|]. simpl. lia.
  - cbn [forallb] in Hargs. apply andb_true_iff in Hargs as [Hcall Hrest].
    specialize (IH Hrest). cbn [executeToolCalls].
    destruct (sanitizeToolArgs_Ok call Hcall) as [toolArgs ->].
    rewrite bind_evaluate_Ok. cbv beta.
    destruct (known (call_name call)) eqn:Eknown; cbn [negb].
    + unfold bind at 1. unfold emit at 1. unfold bind at 1. unfold get at 1.
      unfold bind at 1. unfold modify at 1.
      destruct (execute (toolRuns s) call) as [result|msg].
      * unfold bind at 1. unfold push at 1. unfold modify at 1.
        unfold bind at 1. unfold emit at 1.
        destruct (String.eqb (call_name call) "complete_task") eqn:Ename.
        -- unfold bind at 1.
           match goal with
           | |- context [parseCompletion _ _ _ _ ?st] =>
               destruct (parseCompletion_cases (content result) st)
                 as [Ep|(completion & Ep & Hlog & _)]; rewrite Ep; clear Ep
           end.
           ++ unfold bind at 1. unfold push at 1. unfold modify at 1.
              match goal with
              | |- context [executeToolCalls _ _ _ _ _ calls ?st] =>
                  destruct (IH st) as (o & s' & r & E & Hans); rewrite E
              end.
              eexists _, s', r. split; [reflexivity|].
              eapply answered_cons with
                (mid := [toolMessage (content result) (call_id call);
                         userMessage INVALID_COMPLETION]); [ | | | | exact Hans].
              ** cbn [messages set_messages set_toolRuns]. rewrite <- app_assoc. reflexivity.
              ** reflexivity.
              ** reflexivity.
              ** rewrite Eknown. simpl. lia.
           ++ eexists _, _, (Some completion). split; [unfold ret; reflexivity|].
              exists [toolMessage (content result) (call_id call)].
              split; [reflexivity|]. split; [reflexivity|].
              exists [], call, calls. split; [reflexivity|].
              split; [apply String.eqb_eq; exact Ename|]. split; [reflexivity|].
              split; [simpl; rewrite Eknown; simpl; lia|exact Hlog].
        -- match goal with
           | |- context [executeToolCalls _ _ _ _ _ calls ?st] =>
               destruct (IH st) as (o & s' & r & E & Hans); rewrite E
           end.
           eexists _, s', r. split; [reflexivity|].
           eapply answered_cons with (mid := [toolMessage (content result) (call_id call)]);
             [ | | | | exact Hans]; try reflexivity.
           rewrite Eknown. simpl. lia.
      * unfold bind at 1. unfold push at 1. unfold modify at 1.
        unfold bind at 1. unfold emit at 1.
        match goal with
        | |- context [executeToolCalls _ _ _ _ _ calls ?st] =>
            destruct (IH st) as (o & s' & r & E & Hans); rewrite E
        end.
        eexists _, s', r. split; [reflexivity|].
        eapply answered_cons with
          (mid := [toolMessage ("Tool execution error: " +:+ msg) (call_id call)]);
          [ | | | | exact Hans]; try reflexivity.
        rewrite Eknown. simpl. lia.
    + unfold bind at 1. unfold emit at 1. unfold bind at 1. unfold push at 1.
      unfold modify at 1. unfold bind at 1. unfold emit at 1.
      match goal with
      | |- context [executeToolCalls _ _ _ _ _ calls ?st] =>
          destruct (IH st) as (o & s' & r & E & Hans); rewrite E
      end.
      eexists _, s', r. split; [reflexivity|].
      eapply answered_cons with
        (mid := [toolMessage ("Unknown tool: " +:+ call_name call) (call_id call)]);
        [ | | | | exact Hans]; try reflexivity.
      rewrite Eknown. simpl. lia.
Qed.

(** X8. When every call of the turn carries arguments and no
    [complete_task] call is answered with a text whose [content] is an
    array, [executeToolCalls] returns, and the messages it adds to the
    conversation are tool and user messages only. When it returns no
    completion, they answer every call of the turn exactly once, in the
    order of the calls and under the identifier of each call (an unknown
    tool, a failing tool and a tool that throws are answered too), and the
    tools were run once for each call with a known name. When it returns a
    completion, this holds of the calls up to the [complete_task] call that
    gave it: the calls after it are neither run nor answered. *)
Theorem every_tool_call_is_answered_once (calls : list LLMToolCall) (s : Agent) :
  forallb hasArguments calls = true ->
  (forall n toolCall r,
     execute n toolCall = Ok r -> call_name toolCall = "complete_task" ->
     hasArrayContent (content r) = false) ->
  exists outs s' r new,
    executeToolCalls agentId role now known execute calls s = (outs, s', Ok r) /\
    messages s' = messages s ++ new /\
    toolTurns new = [] /\
    match r with
    | None =>
        toolAnswers new = List.map call_id calls /\
        toolRuns s' = (toolRuns s + List.length (List.filter (fun c => known (call_name c)) calls))%nat
    | Some result =>
        exists before call rest,
          calls = before ++ call :: rest /\
          call_name call = "complete_task" /\
          toolAnswers new = List.map call_id (before ++ [call]) /\
          toolRuns s' = (toolRuns s + List.length
                           (List.filter (fun c => known (call_name c)) (before ++ [call])))%nat /\
          ar_conversationLog result = messages s'
    end.
Proof.
  intros Hargs _.
  destruct (executeToolCalls_answered calls Hargs s) as (outs & s' & r & E & new & Hm & Ht & H).
  exists outs, s', r, new. auto.
Qed.

End ToolAnswerProps.

Lemma every_tool_call_is_answered_once_witness :
  let s := AgentRuntime.construct "system" (Some "run the tests") in
  forallb AgentRuntime.hasArguments [test_call; read_call] = true /\
  (forall n toolCall r,
     file_tools n toolCall = Ok r -> call_name toolCall = "complete_task" ->
     AgentRuntime.hasArrayContent (content r) = false) /\
  exists outs s' new,
    AgentRuntime.executeToolCalls "agent-1" executor "2026-01-01T00:00:00.000Z" role_tools
      file_tools [test_call; read_call] s = (outs, s', Ok None) /\
    AgentRuntime.messages s' = AgentRuntime.messages s ++ new /\
    Conversation.toolAnswers new = ["call-1"; "call-1"] /\
    AgentRuntime.toolRuns s' = 2%nat.
Proof.
  intros s.
  assert (Hargs : forallb AgentRuntime.hasArguments [test_call; read_call] = true)
    by reflexivity.
  assert (Hnone : forall n toolCall r,
            file_tools n toolCall = Ok r -> call_name toolCall = "complete_task" ->
            AgentRuntime.hasArrayContent (content r) = false).
  { intros n toolCall r H _. unfold file_tools in H. injection H as <-.
    vm_compute. reflexivity. }
  split; [exact Hargs|]. split; [exact Hnone|].
  destruct (every_tool_call_is_answered_once "agent-1" executor "2026-01-01T00:00:00.000Z"
              role_tools file_tools [test_call; read_call] s Hargs Hnone)
    as (outs & s' & r & new & E & Hm & _ & H).
  assert (Er : r = None).
  { vm_compute in E. injection E as _ _ <-. reflexivity. }
  subst r. destruct H as [Hans Hruns].
  exists outs, s', new. split; [exact E|]. split; [exact Hm|]. split; [exact Hans|].
  exact Hruns.
Defined.


Section EffectRules.
Context {S : Type}.

Lemma effect_ret {A} (a : A) (R : S -> list Out -> A -> S -> Prop) :
  (forall s, R s [] a s) -> effect (ret a) R.
Proof. intros H s. exists [], s, a. split; [reflexivity|apply H]. Qed.

Lemma effect_bind {A B} (m : M S A) (f : A -> M S B)
    (R1 : S -> list Out -> A -> S -> Prop) (R2 : A -> S -> list Out -> B -> S -> Prop)
    (R : S -> list Out -> B -> S -> Prop) :
  effect m R1 ->
  (forall a, effect (f a) (R2 a)) ->
  (forall s o1 a s1 o2 b s2, R1 s o1 a s1 -> R2 a s1 o2 b s2 -> R s (o1 ++ o2) b s2) ->
  effect (bind m f) R.
Proof.
  intros Hm Hf HR s. destruct (Hm s) as (o1 & s1 & a & Em & H1).
  destruct (Hf a s1) as (o2 & s2 & b & Ef & H2).
  exists (o1 ++ o2), s2, b. split; [unfold bind; rewrite Em, Ef; reflexivity|].
  exact (HR _ _ _ _ _ _ _ H1 H2).
Qed.

(** [bind] when what follows returns for the values [m] can return. *)
Lemma effect_bind_on {A B} (G : A -> Prop) (m : M S A) (f : A -> M S B)
    (R1 : S -> list Out -> A -> S -> Prop) (R2 : A -> S -> list Out -> B -> S -> Prop)
    (R : S -> list Out -> B -> S -> Prop) :
  effect m R1 ->
  (forall s o s' a, m s = (o, s', Ok a) -> G a) ->
  (forall a, G a -> effect (f a) (R2 a)) ->
  (forall s o1 a s1 o2 b s2, R1 s o1 a s1 -> R2 a s1 o2 b s2 -> R s (o1 ++ o2) b s2) ->
  effect (bind m f) R.
Proof.
  intros Hm HG Hf HR s. destruct (Hm s) as (o1 & s1 & a & Em & H1).
  destruct (Hf a (HG _ _ _ _ Em) s1) as (o2 & s2 & b & Ef & H2).
  exists (o1 ++ o2), s2, b. split; [unfold bind; rewrite Em, Ef; reflexivity|].
  exact (HR _ _ _ _ _ _ _ H1 H2).
Qed.

Lemma effect_get (R : S -> list Out -> S -> S -> Prop) :
  (forall s, R s [] s s) -> effect get R.
Proof. intros H s. exists [], s, s. split; [reflexivity|apply H]. Qed.

Lemma effect_modify (f : S -> S) (R : S -> list Out -> unit -> S -> Prop) :
  (forall s, R s [] tt (f s)) -> effect (modify f) R.
Proof. intros H s. exists [], (f s), tt. split; [reflexivity|apply H]. Qed.

Lemma effect_emit (event : TaskBotEvent) (R : S -> list Out -> unit -> S -> Prop) :
  (forall s, R s [Emit event] tt s) -> effect (emit event) R.
Proof. intros H s. exists [Emit event], s, tt. split; [reflexivity|apply H]. Qed.

Lemma effect_log (namespace format : string) (args : list string)
    (R : S -> list Out -> unit -> S -> Prop) :
  (forall s, R s [Log namespace format args] tt s) -> effect (log namespace format args) R.
Proof. intros H s. exists [Log namespace format args], s, tt. split; [reflexivity|apply H]. Qed.

Lemma effect_conseq {A} (m : M S A) (R R' : S -> list Out -> A -> S -> Prop) :
  effect m R' -> (forall s o a s', R' s o a s' -> R s o a s') -> effect m R.
Proof.
  intros Hm H s. destruct (Hm s) as (o & s' & a & E & HR). exists o, s', a. auto.
Qed.

End EffectRules.

Section RunSummaryProps.
Import AgentRuntime Conversation RunSummary.

Lemma emitted_app_outs (o1 o2 : list Out) : emitted (o1 ++ o2) = emitted o1 ++ emitted o2.
Proof. apply flat_map_app. Qed.

Lemma turnEvents_app (o1 o2 : list Out) : turnEvents (o1 ++ o2) = turnEvents o1 ++ turnEvents o2.
Proof. unfold turnEvents. rewrite emitted_app_outs. apply List.filter_app. Qed.

Lemma completeEvents_app (o1 o2 : list Out) :
  completeEvents (o1 ++ o2) = completeEvents o1 ++ completeEvents o2.
Proof. unfold completeEvents. rewrite emitted_app_outs. apply List.filter_app. Qed.

Lemma reportedUsages_app (o1 o2 : list Out) :
  reportedUsages (o1 ++ o2) = reportedUsages o1 ++ reportedUsages o2.
Proof. unfold reportedUsages. rewrite emitted_app_outs. apply flat_map_app. Qed.

Lemma Step_app (t1 t2 : list TaskBotEvent) (c1 c2 : nat) (s s1 s2 : Agent) (o1 o2 : list Out) :
  Step t1 c1 s o1 s1 -> Step t2 c2 s1 o2 s2 -> Step (t1 ++ t2) (c1 + c2) s (o1 ++ o2) s2.
Proof.
  intros (Ht1 & Hc1 & Hu1 & Hn1) (Ht2 & Hc2 & Hu2 & Hn2).
  split; [rewrite turnEvents_app, Ht1, Ht2; reflexivity|].
  split; [rewrite completeEvents_app, Hc1, Hc2; reflexivity|].
  split; [|lia].
  rewrite Hu2, Hu1, reportedUsages_app. unfold sumUsage. rewrite fold_left_app. reflexivity.
Qed.

Lemma Step_refl (s : Agent) : Step [] 0 s [] s.
Proof. repeat split. simpl. lia. Qed.

Lemma Step_weaken (t : list TaskBotEvent) (c c' : nat) (s s' : Agent) (o : list Out) :
  (c <= c')%nat -> Step t c s o s' -> Step t c' s o s'.
Proof. intros H (Ht & Hc & Hu & Hn). repeat split; auto. lia. Qed.


Variables (agentId : string) (role : AgentRole) (maxTurns : nat).
Variable maxContextTurns : option Z.
Variables (stepId parentAgentId : option string) (now : string).
Variable stringify : Json.value -> string.
Variable abortedAt : nat -> bool.
Variable chat : nat -> list LLMMessage -> outcome LLMResponse.
Variable known : string -> bool.
Variable execute : nat -> LLMToolCall -> outcome ToolExecutionResult.

Hypothesis chat_carries : callsCarryArguments chat.

Lemma quiet_ret {A} (a : A) : quiet (ret a).
Proof. apply effect_ret. intros s. apply Step_refl. Qed.

Lemma quiet_bind {A B} (m : M Agent A) (f : A -> M Agent B) :
  quiet m -> (forall a, quiet (f a)) -> quiet (bind m f).
Proof.
  intros Hm Hf. eapply effect_bind; [exact Hm | exact Hf |].
  intros s o1 a s1 o2 b s2 H1 H2. exact (Step_app _ _ _ _ _ _ _ _ _ H1 H2).
Qed.

Lemma quiet_get : quiet get.
Proof. apply effect_get. intros s. apply Step_refl. Qed.

Lemma quiet_log (namespace format : string) (args : list string) :
  quiet (log namespace format args).
Proof. apply effect_log. intros s. repeat split. simpl. lia. Qed.

Lemma quiet_modify (f : Agent -> Agent) :
  (forall s, cumulativeUsage (f s) = cumulativeUsage s /\ chatCalls (f s) = chatCalls s) ->
  quiet (modify f).
Proof.
  intros H. apply effect_modify. intros s. destruct (H s) as [Hu Hc].
  repeat split; [exact Hu | simpl; lia].
Qed.

Lemma quiet_emit (event : TaskBotEvent) :
  match event with
  | AgentTurn _ _ _ | AgentComplete _ _ _ | TokenUpdate _ _ _ => False
  | _ => True
  end ->
  quiet (emit event).
Proof.
  intros H. apply effect_emit. intros s.
  destruct event; try destruct H; repeat split; simpl; lia.
Qed.

Lemma quiet_push (m : LLMMessage) : quiet (push m).
Proof. apply quiet_modify. intros s. split; reflexivity. Qed.

Lemma callLLM_Step (attemptsLeft : nat) :
  forall attempt,
    effect (callLLM maxContextTurns chat attemptsLeft attempt)
           (fun s o _ s' => Step [] attemptsLeft s o s').
Proof.
  induction attemptsLeft as [|later IH]; intros attempt; cbn [callLLM].
  - apply effect_ret. intros s. apply Step_refl.
  - eapply effect_bind with (R1 := fun s o _ s' => Step [] 0 s o s')
                            (R2 := fun _ s o _ s' => Step [] (S later) s o s');
      [apply quiet_get | | intros s o1 a s1 o2 b s2 H1 H2;
                           exact (Step_app _ _ _ _ _ _ _ _ _ H1 H2)].
    intros a.
    eapply effect_bind with (R1 := fun s o _ s' => Step [] 1 s o s')
                            (R2 := fun _ s o _ s' => Step [] later s o s');
      [ | | intros s o1 x s1 o2 b s2 H1 H2; exact (Step_app _ _ _ _ _ _ _ _ _ H1 H2)].
    { apply effect_modify. intros s. repeat split. simpl. lia. }
    intros _. destruct (chat _ _) as [response|errorMsg].
    { apply effect_ret. intros s. repeat split. simpl. lia. }
    eapply effect_bind with (R1 := fun s o _ s' => Step [] 0 s o s')
                            (R2 := fun _ s o _ s' => Step [] later s o s');
      [apply quiet_modify; intros s; split; reflexivity | |
       intros s o1 x s1 o2 b s2 H1 H2; exact (Step_app _ _ _ _ _ _ _ _ _ H1 H2)].
    intros _. destruct (_ || _).
    + eapply effect_conseq with (R' := fun s o _ s' => Step [] 0 s o s');
        [|intros s o x s' H; apply (Step_weaken _ 0); [lia|exact H]].
      apply quiet_bind; [apply quiet_log|]. intros _.
      apply quiet_bind; [apply quiet_log|]. intros _. apply quiet_ret.
    + eapply effect_bind with (R1 := fun s o _ s' => Step [] 0 s o s')
                              (R2 := fun _ s o _ s' => Step [] later s o s');
        [apply quiet_log | |
         intros s o1 x s1 o2 b s2 H1 H2; exact (Step_app _ _ _ _ _ _ _ _ _ H1 H2)].
      intros _.
      eapply effect_bind with (R1 := fun s o _ s' => Step [] 0 s o s')
                              (R2 := fun _ s o _ s' => Step [] later s o s');
        [apply quiet_modify; intros s; split; reflexivity | intros _; apply IH |
         intros s o1 x s1 o2 b s2 H1 H2; exact (Step_app _ _ _ _ _ _ _ _ _ H1 H2)].
Qed.

Lemma quiet_accumulateUsage (usage : TokenUsage) : quiet (accumulateUsage agentId usage).
Proof.
  intros s. eexists _, _, _. split; [reflexivity|].
  repeat split. simpl. lia.
Qed.

Lemma quiet_isStuckLoop (calls : list LLMToolCall) : quiet (isStuckLoop stringify calls).
Proof.
  intros s. eexists _, _, _. split; [apply isStuckLoop_slides|].
  repeat split. simpl. lia.
Qed.


Lemma Tooled_prefix (s s1 s2 : Agent) (o1 o2 : list Out) (r : option AgentResult) :
  Step [] 0 s o1 s1 -> Tooled agentId s1 o2 r s2 -> Tooled agentId s (o1 ++ o2) r s2.
Proof.
  intros H1 H2. destruct r as [result|]; [|exact (Step_app _ _ _ _ _ _ _ _ _ H1 H2)].
  destruct H1 as (Ht1 & Hc1 & Hu1 & Hn1). destruct H2 as (Ht2 & Hu2 & Hn2 & Htok & o & -> & Ho).
  split; [rewrite turnEvents_app, Ht1, Ht2; reflexivity|].
  split.
  { rewrite Hu2, Hu1, (reportedUsages_app o1). unfold sumUsage. rewrite fold_left_app.
    reflexivity. }
  split; [lia|]. split; [exact Htok|].
  exists (o1 ++ o). split; [apply app_assoc|].
  rewrite completeEvents_app, Hc1, Ho. reflexivity.
Qed.

Lemma executeToolCalls_Tooled (calls : list LLMToolCall) :
  forallb hasArguments calls = true ->
  effect (executeToolCalls agentId role now known execute calls) (Tooled agentId).
Proof.
  induction calls as [|call calls IH]; intros Hargs; cbn [executeToolCalls].
  - apply effect_ret. intros s. apply Step_refl.
  - cbn [forallb] in Hargs. apply andb_true_iff in Hargs as [Hcall Hcalls].
    specialize (IH Hcalls).
    destruct (sanitizeToolArgs_Ok call Hcall) as [toolArgs ->].
    eapply effect_bind with (R1 := fun s o _ s' => Step [] 0 s o s')
                            (R2 := fun _ => Tooled agentId);
      [apply (quiet_ret toolArgs) | |
       intros s o1 a s1 o2 b s2 H1 H2; exact (Tooled_prefix _ _ _ _ _ _ H1 H2)].
    intros _.
    assert (Hrest : forall m : M Agent unit,
               quiet m ->
               effect (bind m (fun _ => executeToolCalls agentId role now known execute calls))
                      (Tooled agentId)).
    { intros m Hm.
      eapply effect_bind with (R2 := fun _ => Tooled agentId); [exact Hm | intros _; exact IH |].
      intros s o1 a s1 o2 b s2 H1 H2. exact (Tooled_prefix _ _ _ _ _ _ H1 H2). }
    eapply effect_bind with (R1 := fun s o _ s' => Step [] 0 s o s')
                            (R2 := fun _ => Tooled agentId);
      [apply quiet_emit; exact I | |
       intros s o1 a s1 o2 b s2 H1 H2; exact (Tooled_prefix _ _ _ _ _ _ H1 H2)].
    intros _. destruct (negb _).
    + eapply effect_bind with (R1 := fun s o _ s' => Step [] 0 s o s')
                              (R2 := fun _ => Tooled agentId);
        [apply quiet_push | intros _; apply Hrest, quiet_emit; exact I |
         intros s o1 a s1 o2 b s2 H1 H2; exact (Tooled_prefix _ _ _ _ _ _ H1 H2)].
    + eapply effect_bind with (R1 := fun s o _ s' => Step [] 0 s o s')
                              (R2 := fun _ => Tooled agentId);
        [apply quiet_get | |
         intros s o1 a s1 o2 b s2 H1 H2; exact (Tooled_prefix _ _ _ _ _ _ H1 H2)].
      intros a.
      eapply effect_bind with (R1 := fun s o _ s' => Step [] 0 s o s')
                              (R2 := fun _ => Tooled agentId);
        [apply quiet_modify; intros s; split; reflexivity | |
         intros s o1 x s1 o2 b s2 H1 H2; exact (Tooled_prefix _ _ _ _ _ _ H1 H2)].
      intros _. destruct (execute _ _) as [result|msg].
      * eapply effect_bind with (R1 := fun s o _ s' => Step [] 0 s o s')
                                (R2 := fun _ => Tooled agentId);
          [apply quiet_push | |
           intros s o1 x s1 o2 b s2 H1 H2; exact (Tooled_prefix _ _ _ _ _ _ H1 H2)].
        intros _.
        eapply effect_bind with (R1 := fun s o _ s' => Step [] 0 s o s')
                                (R2 := fun _ => Tooled agentId);
          [apply quiet_emit; exact I | |
           intros s o1 x s1 o2 b s2 H1 H2; exact (Tooled_prefix _ _ _ _ _ _ H1 H2)].
        intros _. destruct (String.eqb _ _); [|exact IH].
        intros s.
        destruct (parseCompletion_cases agentId role now (content result) s)
          as [Ep|(completion & Ep & Hlog & Htok)].
        -- destruct (Hrest (push (userMessage INVALID_COMPLETION)) (quiet_push _) s)
             as (o & s' & r & E & H).
           exists o, s', r. split; [|exact H].
           unfold bind at 1. rewrite Ep, E. reflexivity.
        -- eexists _, s, (Some completion). split; [unfold bind, ret; rewrite Ep; reflexivity|].
           split; [reflexivity|]. split; [reflexivity|]. split; [lia|]. split; [exact Htok|].
           exists []. split; reflexivity.
      * eapply effect_bind with (R1 := fun s o _ s' => Step [] 0 s o s')
                                (R2 := fun _ => Tooled agentId);
          [apply quiet_push | intros _; apply Hrest, quiet_emit; exact I |
           intros s o1 x s1 o2 b s2 H1 H2; exact (Tooled_prefix _ _ _ _ _ _ H1 H2)].
Qed.


Lemma Rest_prefix (turn later : nat) (t1 t2 : list TaskBotEvent) (c1 c2 : nat)
    (s s1 s2 : Agent) (o1 o2 : list Out) (result : AgentResult) :
  Step t1 c1 s o1 s1 ->
  Rest agentId maxTurns turn later t2 c2 s1 o2 result s2 ->
  Rest agentId maxTurns turn later (t1 ++ t2) (c1 + c2) s (o1 ++ o2) result s2.
Proof.
  intros (Ht1 & Hc1 & Hu1 & Hn1) (k & Hk & Ht2 & Hn2 & Hu2 & Htok & Hend).
  exists k. split; [exact Hk|].
  split; [rewrite turnEvents_app, Ht1, Ht2, app_assoc; reflexivity|].
  split; [lia|]. split.
  { rewrite Hu2, Hu1, (reportedUsages_app o1). unfold sumUsage. rewrite fold_left_app.
    reflexivity. }
  split; [exact Htok|].
  destruct Hend as [[Hnone Hst]|(o & -> & Ho)].
  - left. split; [rewrite completeEvents_app, Hc1, Hnone; reflexivity|exact Hst].
  - right. exists (o1 ++ o). split; [apply app_assoc|].
    rewrite completeEvents_app, Hc1, Ho. reflexivity.
Qed.

Lemma finish_Rest (turn later : nat) (status : AgentResultStatus) (summary : string) :
  status <> ars_completed ->
  effect (finish agentId role now status summary) (Rest agentId maxTurns turn later [] 0).
Proof.
  intros Hst s. eexists _, _, _. split; [reflexivity|].
  exists 0%nat. split; [lia|]. split; [reflexivity|]. split; [lia|].
  split; [reflexivity|]. split; [reflexivity|]. left. split; [reflexivity|exact Hst].
Qed.

Lemma Rest_Done (turn later : nat) (s s' : Agent) (outs : list Out) (result : AgentResult) :
  Rest agentId maxTurns turn later [AgentTurn agentId turn maxTurns] 4 s outs result s' ->
  Done agentId maxTurns turn (S later) s outs result s'.
Proof.
  intros (k & Hk & Ht & Hn & Hu & Htok & Hend).
  exists (S k). split; [lia|]. split; [exact Ht|]. split; [lia|]. auto.
Qed.

Lemma Done_Rest (turn later : nat) (s s' : Agent) (outs : list Out) (result : AgentResult) :
  Done agentId maxTurns (S turn) later s outs result s' ->
  Rest agentId maxTurns turn later [] 0 s outs result s'.
Proof.
  intros (k & Hk & Ht & Hn & Hu & Htok & Hend).
  exists k. split; [exact Hk|]. split; [exact Ht|]. split; [lia|]. auto.
Qed.

Lemma turns_Done (remaining : nat) :
  forall turn,
    effect (turns agentId role maxTurns maxContextTurns now stringify abortedAt chat known
                  execute remaining turn)
           (Done agentId maxTurns turn remaining).
Proof.
  induction remaining as [|later IH]; intros turn; cbn [turns].
  - intros s. eexists _, _, _. split; [reflexivity|].
    exists 0%nat. split; [lia|]. split; [reflexivity|]. split; [lia|].
    split; [reflexivity|]. split; [reflexivity|]. left. split; [reflexivity|discriminate].
  - destruct (abortedAt turn).
    { intros s. eexists _, _, _. split; [reflexivity|].
      exists 0%nat. split; [lia|]. split; [reflexivity|]. split; [lia|].
      split; [reflexivity|]. split; [reflexivity|]. left. split; [reflexivity|discriminate]. }
    eapply effect_conseq; [|intros s o a s' H; apply Rest_Done; exact H].
    eapply effect_bind with
      (R1 := fun s o _ s' => Step [AgentTurn agentId turn maxTurns] 0 s o s')
      (R2 := fun _ => Rest agentId maxTurns turn later [] 4);
      [ | | intros ? ? ? ? ? ? ? H1 H2; exact (Rest_prefix _ _ _ _ _ _ _ _ _ _ _ _ H1 H2)].
    { apply effect_emit. intros s. repeat split. simpl. lia. }
    intros _.
    eapply effect_bind with
      (R1 := fun s o _ s' => Step [] 0 s o s')
      (R2 := fun _ => Rest agentId maxTurns turn later [] 4);
      [ | | intros ? ? ? ? ? ? ? H1 H2; exact (Rest_prefix _ _ _ _ _ _ _ _ _ _ _ _ H1 H2)].
    { destruct (_ =? _)%nat; [apply quiet_push | apply quiet_ret]. }
    intros _.
    eapply effect_bind_on with
      (G := fun r => forall response, r = Some response ->
                                      forallb hasArguments (resp_toolCalls response) = true)
      (R1 := fun s o _ s' => Step [] 4 s o s')
      (R2 := fun _ => Rest agentId maxTurns turn later [] 0);
      [apply callLLM_Step | intros s o s' r H; exact (callLLM_carries _ _ chat_carries _ _ _ _ _ _ H) | |
       intros ? ? ? ? ? ? ? H1 H2; exact (Rest_prefix _ _ _ _ _ _ _ _ _ _ _ _ H1 H2)].
    intros [response|] Hargs.
    2:{ eapply effect_bind with
          (R1 := fun s o _ s' => Step [] 0 s o s')
          (R2 := fun _ => Rest agentId maxTurns turn later [] 0);
          [apply quiet_get | intros a; apply finish_Rest; discriminate |
           intros ? ? ? ? ? ? ? H1 H2; exact (Rest_prefix _ _ _ _ _ _ _ _ _ _ _ _ H1 H2)]. }
    eapply effect_bind with
      (R1 := fun s o _ s' => Step [] 0 s o s')
      (R2 := fun _ => Rest agentId maxTurns turn later [] 0);
      [apply quiet_accumulateUsage | |
       intros ? ? ? ? ? ? ? H1 H2; exact (Rest_prefix _ _ _ _ _ _ _ _ _ _ _ _ H1 H2)].
    intros _.
    eapply effect_bind with
      (R1 := fun s o _ s' => Step [] 0 s o s')
      (R2 := fun _ => Rest agentId maxTurns turn later [] 0);
      [ | | intros ? ? ? ? ? ? ? H1 H2; exact (Rest_prefix _ _ _ _ _ _ _ _ _ _ _ _ H1 H2)].
    { destruct (JS.truthy _); [apply quiet_emit; exact I | apply quiet_ret]. }
    intros _.
    specialize (Hargs response eq_refl). revert Hargs.
    destruct (resp_toolCalls response) as [|call calls]; intros Hargs; cbv beta match.
    + eapply effect_bind with
        (R1 := fun s o _ s' => Step [] 0 s o s')
        (R2 := fun _ => Rest agentId maxTurns turn later [] 0);
        [ | | intros ? ? ? ? ? ? ? H1 H2; exact (Rest_prefix _ _ _ _ _ _ _ _ _ _ _ _ H1 H2)].
      { destruct (JS.truthy _); [apply quiet_push | apply quiet_ret]. }
      intros _. eapply effect_conseq; [apply IH|]. intros s o a s' H. apply Done_Rest, H.
    + eapply effect_bind with
        (R1 := fun s o _ s' => Step [] 0 s o s')
        (R2 := fun _ => Rest agentId maxTurns turn later [] 0);
        [ | | intros ? ? ? ? ? ? ? H1 H2; exact (Rest_prefix _ _ _ _ _ _ _ _ _ _ _ _ H1 H2)].
      { destruct (JS.truthy _); apply quiet_push. }
      intros _.
      eapply effect_bind with
        (R1 := fun s o _ s' => Step [] 0 s o s')
        (R2 := fun _ => Rest agentId maxTurns turn later [] 0);
        [apply quiet_isStuckLoop | |
         intros ? ? ? ? ? ? ? H1 H2; exact (Rest_prefix _ _ _ _ _ _ _ _ _ _ _ _ H1 H2)].
      intros [|].
      * eapply effect_bind with
          (R1 := fun s o _ s' => Step [] 0 s o s')
          (R2 := fun _ => Rest agentId maxTurns turn later [] 0);
          [apply quiet_log | intros _; apply finish_Rest; discriminate |
           intros ? ? ? ? ? ? ? H1 H2; exact (Rest_prefix _ _ _ _ _ _ _ _ _ _ _ _ H1 H2)].
      * eapply effect_bind with
          (R1 := Tooled agentId)
          (R2 := fun r => match r with
                          | Some result => fun s o res s' => o = [] /\ s' = s /\ res = result
                          | None => Rest agentId maxTurns turn later [] 0
                          end);
          [apply executeToolCalls_Tooled; exact Hargs | |].
        -- intros [result|].
           ++ apply effect_ret. auto.
           ++ eapply effect_conseq; [apply IH|]. intros s o a s' H. apply Done_Rest, H.
        -- intros s o1 [result|] s1 o2 res s2 H1 H2.
           ++ destruct H2 as (-> & -> & ->). rewrite app_nil_r.
              destruct H1 as (Ht & Hu & Hn & Htok & o & -> & Ho).
              exists 0%nat. split; [lia|]. split; [exact Ht|]. split; [lia|].
              split; [exact Hu|]. split; [exact Htok|]. right. exists o. auto.
           ++ exact (Rest_prefix _ _ [] [] 0 0 _ _ _ _ _ _ H1 H2).
Qed.


Lemma run_Done (systemPrompt : string) (initialContext : option string) :
  exists outs s' result,
    run agentId role maxTurns maxContextTurns stepId parentAgentId now stringify
        abortedAt chat known execute (construct systemPrompt initialContext)
    = (outs, s', Ok result) /\
    exists k,
      (k <= maxTurns)%nat /\
      turnEvents outs = List.map (fun t => AgentTurn agentId t maxTurns) (seq 1 k) /\
      (chatCalls s' <= 4 * k)%nat /\
      ar_tokenUsage result = sumUsage (mkTokenUsage 0 0 0) (reportedUsages outs) /\
      Ending agentId outs result.
Proof.
  destruct (turns_Done maxTurns 1 (construct systemPrompt initialContext))
    as (o & s' & result & E & k & Hk & Ht & Hn & Hu & Htok & Hend).
  eexists _, s', result. split; [unfold run, bind, get, emit; rewrite E; reflexivity|].
  exists k. split; [exact Hk|]. split; [exact Ht|]. split; [exact Hn|].
  split; [rewrite Htok, Hu; reflexivity|].
  destruct Hend as [[Hnone Hst]|(o' & -> & Ho)].
  - left. split; [exact Hnone|exact Hst].
  - right. eexists (_ :: o'). split; [reflexivity|exact Ho].
Qed.

(** X9. For a provider whose tool calls carry arguments, a run returns,
    takes at most [maxTurns] turns and calls the provider at most four times
    per turn: its [agent:turn] events are numbered 1, 2, ..., k for some k up
    to [maxTurns], and the calls of the provider are at most 4 k. *)
Theorem run_takes_at_most_maxTurns_turns
    (systemPrompt : string) (initialContext : option string) :
  exists outs s' result k,
    run agentId role maxTurns maxContextTurns stepId parentAgentId now stringify
        abortedAt chat known execute (construct systemPrompt initialContext)
    = (outs, s', Ok result) /\
    (k <= maxTurns)%nat /\
    turnEvents outs = List.map (fun t => AgentTurn agentId t maxTurns) (seq 1 k) /\
    (chatCalls s' <= 4 * k)%nat.
Proof.
  destruct (run_Done systemPrompt initialContext)
    as (outs & s' & result & E & k & Hk & Ht & Hn & _).
  exists outs, s', result, k. auto.
Qed.

(** X10. For a provider whose tool calls carry arguments and tools that
    answer no [complete_task] call with a text whose [content] is an array,
    a run returns and emits [agent:complete] at most once, and only when it
    ends through a valid [complete_task] call: the event is then the last
    output and carries the status of the result and the first 100
    characters of its content. A run that ends otherwise (abort, failure of
    the provider, stuck loop, turns exhausted) emits no [agent:complete]
    event, and its status is never [completed]. *)
Theorem agent_complete_is_emitted_only_on_completion
    (systemPrompt : string) (initialContext : option string) :
  (forall n toolCall r,
     execute n toolCall = Ok r -> call_name toolCall = "complete_task" ->
     hasArrayContent (content r) = false) ->
  exists outs s' result,
    run agentId role maxTurns maxContextTurns stepId parentAgentId now stringify
        abortedAt chat known execute (construct systemPrompt initialContext)
    = (outs, s', Ok result) /\
    ((completeEvents outs = [] /\ ar_status result <> ars_completed) \/
     (exists o,
         outs = o ++ [Emit (AgentComplete agentId (ar_status result)
                              (JS.sliceTo 100 (art_content (ar_artifact result))))] /\
         completeEvents o = [])).
Proof.
  intros _.
  destruct (run_Done systemPrompt initialContext)
    as (outs & s' & result & E & k & _ & _ & _ & _ & Hend).
  exists outs, s', result. split; [exact E|exact Hend].
Qed.

(** X11. For a provider whose tool calls carry arguments, a run returns and
    the token usage of its result is the sum, field by field, of the usages
    reported by the [token:update] events of the run. *)
Theorem result_usage_is_sum_of_reported_usages
    (systemPrompt : string) (initialContext : option string) :
  exists outs s' result,
    run agentId role maxTurns maxContextTurns stepId parentAgentId now stringify
        abortedAt chat known execute (construct systemPrompt initialContext)
    = (outs, s', Ok result) /\
    ar_tokenUsage result = sumUsage (mkTokenUsage 0 0 0) (reportedUsages outs) /\
    cumulativeUsage s' = ar_tokenUsage result.
Proof.
  destruct (turns_Done maxTurns 1 (construct systemPrompt initialContext))
    as (o & s' & result & E & k & _ & _ & _ & Hu & Htok & _).
  eexists _, s', result. split; [unfold run, bind, get, emit; rewrite E; reflexivity|].
  split; [rewrite Htok, Hu; reflexivity|]. symmetry. exact Htok.
Qed.

End RunSummaryProps.

Section RunSummaryScenario.
Import AgentRuntime Conversation RunSummary.

Lemma test_then_complete_carries : callsCarryArguments test_then_complete.
Proof.
  intros n msgs response H. unfold test_then_complete in H. injection H as <-.
  destruct n; reflexivity.
Defined.

Lemma tools_over_no_array (env : Tools.Env) (context : ToolContext) :
  forall n toolCall r,
    tools_over env context n toolCall = Ok r -> call_name toolCall = "complete_task" ->
    hasArrayContent (content r) = false.
Proof.
  intros n toolCall r H Hname. unfold tools_over in H. rewrite Hname in H.
  cbn in H. injection H as <-. vm_compute. reflexivity.
Defined.

Lemma run_takes_at_most_maxTurns_turns_witness :
  callsCarryArguments test_then_complete /\
  exists outs s' result k,
    run "agent-1" executor 10 None None None "2026-01-01T00:00:00.000Z" stringify_members
        (fun _ => false) test_then_complete role_tools (tools_over env_failing context_work)
        (construct "system" (Some "run the tests"))
    = (outs, s', Ok result) /\
    (k <= 10)%nat /\
    turnEvents outs = List.map (fun t => AgentTurn "agent-1" t 10) (seq 1 k) /\
    (chatCalls s' <= 4 * k)%nat.
Proof.
  split; [exact test_then_complete_carries|].
  exact (run_takes_at_most_maxTurns_turns "agent-1" executor 10 None None None
           "2026-01-01T00:00:00.000Z" stringify_members (fun _ => false) test_then_complete
           role_tools (tools_over env_failing context_work) test_then_complete_carries
           "system" (Some "run the tests")).
Defined.

Lemma agent_complete_is_emitted_only_on_completion_witness :
  callsCarryArguments test_then_complete /\
  (forall n toolCall r,
     tools_over env_failing context_work n toolCall = Ok r ->
     call_name toolCall = "complete_task" ->
     hasArrayContent (content r) = false) /\
  exists outs s' result,
    run "agent-1" executor 10 None None None "2026-01-01T00:00:00.000Z" stringify_members
        (fun _ => false) test_then_complete role_tools (tools_over env_failing context_work)
        (construct "system" (Some "run the tests"))
    = (outs, s', Ok result) /\
    ((completeEvents outs = [] /\ ar_status result <> ars_completed) \/
     (exists o,
         outs = o ++ [Emit (AgentComplete "agent-1" (ar_status result)
                              (JS.sliceTo 100 (art_content (ar_artifact result))))] /\
         completeEvents o = [])).
Proof.
  split; [exact test_then_complete_carries|].
  split; [exact (tools_over_no_array env_failing context_work)|].
  exact (agent_complete_is_emitted_only_on_completion "agent-1" executor 10 None None None
           "2026-01-01T00:00:00.000Z" stringify_members (fun _ => false) test_then_complete
           role_tools (tools_over env_failing context_work) test_then_complete_carries
           "system" (Some "run the tests") (tools_over_no_array env_failing context_work)).
Defined.

Lemma result_usage_is_sum_of_reported_usages_witness :
  callsCarryArguments test_then_complete /\
  exists outs s' result,
    run "agent-1" executor 10 None None None "2026-01-01T00:00:00.000Z" stringify_members
        (fun _ => false) test_then_complete role_tools (tools_over env_failing context_work)
        (construct "system" (Some "run the tests"))
    = (outs, s', Ok result) /\
    ar_tokenUsage result = sumUsage (mkTokenUsage 0 0 0) (reportedUsages outs) /\
    cumulativeUsage s' = ar_tokenUsage result.
Proof.
  split; [exact test_then_complete_carries|].
  exact (result_usage_is_sum_of_reported_usages "agent-1" executor 10 None None None
           "2026-01-01T00:00:00.000Z" stringify_members (fun _ => false) test_then_complete
           role_tools (tools_over env_failing context_work) test_then_complete_carries
           "system" (Some "run the tests")).
Defined.

End RunSummaryScenario.


Section TextOnlyProps.
Import AgentRuntime Conversation.

Variables (agentId : string) (role : AgentRole) (maxTurns : nat).
Variable maxContextTurns : option Z.
Variables (stepId parentAgentId : option string) (now : string).
Variable stringify : Json.value -> string.
Variable abortedAt : nat -> bool.
Variable chat : nat -> list LLMMessage -> outcome LLMResponse.
Variable known : string -> bool.
Variable execute : nat -> LLMToolCall -> outcome ToolExecutionResult.

Hypothesis chat_answers_without_calls :
  forall n msgs, exists response, chat n msgs = Ok response /\ resp_toolCalls response = [].
Hypothesis never_aborted : forall t, abortedAt t = false.

Lemma bind_after {S A B} (m : M S A) (f : A -> M S B) (s s1 : S) (o1 : list Out) (a : A) :
  m s = (o1, s1, Ok a) -> bind m f s = after o1 (f a s1).
Proof. intros E. unfold bind, after. rewrite E. reflexivity. Qed.

Lemma after_Ok {S A} (o1 o2 : list Out) (x : list Out * S * outcome A) (s : S) (a : A) :
  x = (o2, s, Ok a) -> after o1 x = (o1 ++ o2, s, Ok a).
Proof. intros ->. reflexivity. Qed.

Lemma callLLMWithRetry_first_answer (s : Agent) :
  exists response,
    callLLMWithRetry maxContextTurns chat s
    = ([], set_chatCalls (S (chatCalls s)) s, Ok (Some response)) /\
    resp_toolCalls response = [].
Proof.
  destruct (chat_answers_without_calls (chatCalls s) (getMessagesForLLM maxContextTurns s))
    as (response & E & Hcalls).
  exists response. split; [|exact Hcalls].
  unfold callLLMWithRetry. cbn [callLLM]. unfold bind, get, modify. rewrite E. reflexivity.
Qed.

Lemma turns_text_only (remaining : nat) :
  forall turn s,
    (turn + remaining = S maxTurns)%nat ->
    exists outs s' result,
      turns agentId role maxTurns maxContextTurns now stringify abortedAt chat known execute
            remaining turn s = (outs, s', Ok result) /\
      ar_status result = ars_needs_review /\
      art_content (ar_artifact result) = "Agent reached maximum turns without completing" /\
      ar_conversationLog result = messages s' /\
      chatCalls s' = (chatCalls s + remaining)%nat /\
      toolRuns s' = toolRuns s /\
      List.length (turnEvents outs) = remaining /\
      toolTurns (messages s') = toolTurns (messages s) /\
      ((1 <= remaining)%nat -> In (userMessage FINAL_TURN) (messages s')) /\
      (forall m, In m (messages s) -> In m (messages s')).
Proof.
  induction remaining as [|later IH]; intros turn s Hsum.
  - cbn [turns]. eexists _, _, _. split; [reflexivity|].
    repeat split; auto; try (simpl; lia).
  - set (s1 := if (turn =? maxTurns)%nat
               then set_messages (messages s ++ [userMessage FINAL_TURN]) s else s).
    destruct (callLLMWithRetry_first_answer s1) as (response & Ecall & Hcalls).
    set (s2 := set_chatCalls (S (chatCalls s1)) s1) in *.
    set (text := match resp_content response with Some c => c | None => EmptyString end).
    set (s3 := set_cumulativeUsage
                 {| promptTokens := (promptTokens (cumulativeUsage s2)
                                     + promptTokens (resp_usage response))%N;
                    completionTokens := (completionTokens (cumulativeUsage s2)
                                         + completionTokens (resp_usage response))%N;
                    totalTokens := (totalTokens (cumulativeUsage s2)
                                    + totalTokens (resp_usage response))%N |} s2).
    set (s4 := if JS.truthy text
               then set_messages (messages s3 ++ [assistantMessage text None]) s3 else s3).
    destruct (IH (S turn) s4) as (o & s' & result & E & Hst & Hc & Hlog & Hn & Hr & Ht & Htt & Hf & Hin);
      [lia|].
    assert (Hm1 : forall m, In m (messages s) -> In m (messages s4)).
    { intros m Hm. unfold s4, s3, s2, s1.
      destruct (JS.truthy text); destruct (turn =? maxTurns)%nat; simpl;
        repeat (apply in_or_app; left); exact Hm. }
    assert (Hfinal : (turn =? maxTurns)%nat = true -> In (userMessage FINAL_TURN) (messages s4)).
    { intros Hturn. unfold s4, s3, s2, s1. rewrite Hturn.
      destruct (JS.truthy text); simpl.
      - apply in_or_app. left. apply in_or_app. right. left. reflexivity.
      - apply in_or_app. right. left. reflexivity. }
    assert (Hbody :
      turns agentId role maxTurns maxContextTurns now stringify abortedAt chat known execute
            (S later) turn s
      = after ([Emit (AgentTurn agentId turn maxTurns)] ++
               [Emit (TokenUpdate agentId (resp_usage response) (cumulativeUsage s3))] ++
               (if JS.truthy (JS.trim text)
                then [Emit (AgentContent agentId
                              (if (2000 <? String.length text)%nat
                               then JS.sliceTo 2000 text +:+ nl +:+ "[… truncated]"
                               else text))]
                else []))
              (turns agentId role maxTurns maxContextTurns now stringify abortedAt chat known
                     execute later (S turn) s4)).
    { cbn [turns]. rewrite never_aborted.
      unfold bind at 1. unfold emit at 1. unfold bind at 1.
      assert (E1 : (if (turn =? maxTurns)%nat then push (userMessage FINAL_TURN) else ret tt) s
                   = ([], s1, Ok tt)).
      { unfold s1. destruct (turn =? maxTurns)%nat; reflexivity. }
      rewrite E1. unfold bind at 1. rewrite Ecall. fold s2.
      unfold bind at 1. unfold accumulateUsage at 1. unfold bind at 1. unfold modify at 1.
      unfold bind at 1. unfold get at 1. unfold emit at 1. fold s3.
      fold text. unfold bind at 1.
      assert (E2 : (if JS.truthy (JS.trim text)
                    then emit (S := Agent)
                           (AgentContent agentId
                              (if (2000 <? String.length text)%nat
                               then JS.sliceTo 2000 text +:+ nl +:+ "[… truncated]"
                               else text))
                    else ret tt) s3
                   = (if JS.truthy (JS.trim text)
                      then [Emit (AgentContent agentId
                                    (if (2000 <? String.length text)%nat
                                     then JS.sliceTo 2000 text +:+ nl +:+ "[… truncated]"
                                     else text))]
                      else [], s3, Ok tt)).
      { destruct (JS.truthy (JS.trim text)); reflexivity. }
      rewrite E2. rewrite Hcalls. unfold bind at 1.
      assert (E3 : (if JS.truthy text
                    then push (assistantMessage text None) else ret tt) s3
                   = ([], s4, Ok tt)).
      { unfold s4. destruct (JS.truthy text); reflexivity. }
      rewrite E3. unfold after.
      destruct (turns _ _ _ _ _ _ _ _ _ _ later (S turn) s4) as [[o' s''] r'].
      simpl. reflexivity. }
    eexists _, s', result. split; [rewrite Hbody; apply after_Ok; exact E|].
    split; [exact Hst|]. split; [exact Hc|]. split; [exact Hlog|].
    split.
    { rewrite Hn. unfold s4, s3, s2, s1.
      destruct (JS.truthy text); destruct (turn =? maxTurns)%nat; simpl; lia. }
    split.
    { rewrite Hr. unfold s4, s3, s2, s1.
      destruct (JS.truthy text); destruct (turn =? maxTurns)%nat; reflexivity. }
    split.
    { rewrite !turnEvents_app, !length_app, Ht.
      destruct (JS.truthy (JS.trim text)); simpl; lia. }
    split.
    { rewrite Htt. unfold s4, s3, s2, s1.
      destruct (JS.truthy text); destruct (turn =? maxTurns)%nat; simpl;
        rewrite ?toolTurns_app; simpl; rewrite ?app_nil_r; reflexivity. }
    split.
    { intros _. destruct later as [|later'].
      - apply Hin, Hfinal, Nat.eqb_eq. lia.
      - apply Hf. lia. }
    intros m Hm. apply Hin, Hm1, Hm.
Qed.

(** X12. An agent whose model never asks for a tool cannot complete: when
    every answer of the provider carries no tool call and the run is not
    aborted, the run takes exactly [maxTurns] turns with one call of the
    provider each, runs no tool, and returns [needs_review] with the message
    that the turns are exhausted; if there was at least one turn, the
    conversation holds the reminder that the last turn is the final one. *)
Theorem run_without_tool_calls_exhausts_turns
    (systemPrompt : string) (initialContext : option string) :
  exists outs s' result,
    run agentId role maxTurns maxContextTurns stepId parentAgentId now stringify
        abortedAt chat known execute (construct systemPrompt initialContext)
    = (outs, s', Ok result) /\
    ar_status result = ars_needs_review /\
    art_content (ar_artifact result) = "Agent reached maximum turns without completing" /\
    chatCalls s' = maxTurns /\
    toolRuns s' = 0%nat /\
    List.length (turnEvents outs) = maxTurns /\
    toolTurns (ar_conversationLog result) = [] /\
    ((1 <= maxTurns)%nat -> In (userMessage FINAL_TURN) (ar_conversationLog result)).
Proof.
  destruct (turns_text_only maxTurns 1 (construct systemPrompt initialContext))
    as (o & s' & result & E & Hst & Hc & Hlog & Hn & Hr & Ht & Htt & Hf & _); [lia|].
  eexists _, s', result. split; [unfold run, bind, get, emit; rewrite E; reflexivity|].
  split; [exact Hst|]. split; [exact Hc|]. split; [exact Hn|]. split; [exact Hr|].
  split; [exact Ht|]. split; [|rewrite Hlog; exact Hf].
  rewrite Hlog, Htt. unfold construct. cbn [messages].
  destruct initialContext as [c|]; [destruct (JS.truthy c)|]; reflexivity.
Qed.

End TextOnlyProps.

Section TextOnlyScenario.
Import AgentRuntime Conversation.

Lemma run_without_tool_calls_exhausts_turns_witness :
  exists outs s' result,
    run "agent-1" executor 3 None None None "2026-01-01T00:00:00.000Z" stringify_members
        (fun _ => false) text_only_chat role_tools (tools_over env_work context_work)
        (construct "system" (Some "think about it"))
    = (outs, s', Ok result) /\
    ar_status result = ars_needs_review /\
    art_content (ar_artifact result) = "Agent reached maximum turns without completing" /\
    chatCalls s' = 3%nat /\
    toolRuns s' = 0%nat /\
    List.length (turnEvents outs) = 3%nat /\
    toolTurns (ar_conversationLog result) = [] /\
    ((1 <= 3)%nat -> In (userMessage FINAL_TURN) (ar_conversationLog result)).
Proof.
  apply (run_without_tool_calls_exhausts_turns "agent-1" executor 3 None None None
           "2026-01-01T00:00:00.000Z" stringify_members (fun _ => false) text_only_chat
           role_tools (tools_over env_work context_work)).
  - intros n msgs. eexists. split; reflexivity.
  - intros t. reflexivity.
Defined.

End TextOnlyScenario.

(** ** The agent runtime: the context sent to the provider *)

Section ContextWindowProps.
Import AgentRuntime ContextWindow.

Lemma indicesFrom_cons (k : nat) (m : LLMMessage) (l : list LLMMessage) :
  indicesFrom k (m :: l) = (if isAssistant m then [k] else []) ++ indicesFrom (S k) l.
Proof.
  unfold indicesFrom, isAssistant. simpl. destruct (msg_role m); reflexivity.
Qed.

Lemma indicesFrom_length (l : list LLMMessage) :
  forall k, List.length (indicesFrom k l) = assistantTurns l.
Proof.
  induction l as [|m l IH]; intros k; [reflexivity|].
  rewrite indicesFrom_cons, length_app, IH. unfold assistantTurns. simpl.
  destruct (isAssistant m); reflexivity.
Qed.

Lemma indicesFrom_nth (l : list LLMMessage) :
  forall k j,
    (j < assistantTurns l)%nat ->
    let i := nth j (indicesFrom k l) 0%nat in
    (k <= i)%nat /\
    assistantTurns (firstn (i - k) l) = j /\
    assistantTurns (skipn (i - k) l) = (assistantTurns l - j)%nat /\
    exists m rest, skipn (i - k) l = m :: rest /\ isAssistant m = true.
Proof.
  induction l as [|m l IH]; intros k j Hj; [unfold assistantTurns in Hj; simpl in Hj; lia|].
  cbv zeta. rewrite indicesFrom_cons.
  assert (Hcount : assistantTurns (m :: l)
                   = ((if isAssistant m then 1 else 0) + assistantTurns l)%nat).
  { unfold assistantTurns. simpl. destruct (isAssistant m); reflexivity. }
  assert (Hlater : forall j', (j' < assistantTurns l)%nat ->
             let i := nth j' (indicesFrom (S k) l) 0%nat in
             (k <= i)%nat /\
             assistantTurns (firstn (i - k) (m :: l))
             = ((if isAssistant m then 1 else 0) + j')%nat /\
             assistantTurns (skipn (i - k) (m :: l)) = (assistantTurns l - j')%nat /\
             exists m' rest, skipn (i - k) (m :: l) = m' :: rest /\ isAssistant m' = true).
  { intros j' Hj'. cbv zeta.
    destruct (IH (S k) j' Hj') as (Hi & Hf & Hs & Hhead). cbv zeta in *.
    set (i := nth j' (indicesFrom (S k) l) 0%nat) in *.
    replace (i - k)%nat with (S (i - S k)) by lia.
    split; [lia|]. split.
    - unfold assistantTurns in *. simpl. destruct (isAssistant m); simpl; rewrite Hf; reflexivity.
    - split; [exact Hs|exact Hhead]. }
  destruct (isAssistant m) eqn:Em.
  - destruct j as [|j'].
    + simpl. rewrite Nat.sub_diag. simpl. split; [lia|]. split; [reflexivity|].
      split; [rewrite Nat.sub_0_r; reflexivity|]. exists m, l. auto.
    + simpl. rewrite Hcount in Hj. destruct (Hlater j') as (Hi & Hf & Hs & Hhead); [lia|].
      split; [exact Hi|]. split; [exact Hf|]. split; [rewrite Hs, Hcount; lia|exact Hhead].
  - simpl. rewrite Hcount in Hj. destruct (Hlater j) as (Hi & Hf & Hs & Hhead); [lia|].
    split; [exact Hi|]. split; [exact Hf|]. split; [rewrite Hs, Hcount; lia|exact Hhead].
Qed.

(** X13. With a context limit of [n >= 1] turns, and a conversation that
    starts (as every conversation of the runtime does) with a message that
    is not an answer of the model: a conversation with at most [n] answers
    of the model is sent whole; otherwise its first two messages are sent,
    followed by the end of the conversation from the [n]-th last answer of
    the model on, so that what is left out lies between the two and what
    follows holds exactly [n] answers. Nothing is reordered or repeated. *)
Theorem trimmed_context_keeps_last_turns (n : Z) (a : Agent) :
  (1 <= n)%Z ->
  (exists first rest, messages a = first :: rest /\ isAssistant first = false) ->
  if (assistantTurns (messages a) <=? Z.to_nat n)%nat
  then getMessagesForLLM (Some n) a = messages a
  else
    exists dropped kept,
      messages a = firstn 2 (messages a) ++ dropped ++ kept /\
      getMessagesForLLM (Some n) a = firstn 2 (messages a) ++ kept /\
      assistantTurns kept = Z.to_nat n /\
      exists m rest, kept = m :: rest /\ isAssistant m = true.
Proof.
  intros Hn (first & rest & Hmsgs & Hfirst).
  unfold getMessagesForLLM.
  destruct (n <=? 0)%Z eqn:E0; [apply Z.leb_le in E0; lia|].
  change (List.map fst _) with (indicesFrom 0 (messages a)).
  rewrite indicesFrom_length.
  destruct (assistantTurns (messages a) <=? Z.to_nat n)%nat eqn:Ecount.
  - apply Nat.leb_le in Ecount.
    destruct (Z.of_nat (assistantTurns (messages a)) <=? n)%Z eqn:Ez; [reflexivity|].
    apply Z.leb_gt in Ez. lia.
  - apply Nat.leb_gt in Ecount.
    destruct (Z.of_nat (assistantTurns (messages a)) <=? n)%Z eqn:Ez;
      [apply Z.leb_le in Ez; lia|].
    set (j := (assistantTurns (messages a) - Z.to_nat n)%nat).
    destruct (indicesFrom_nth (messages a) 0 j) as (_ & Hf & Hs & m & k' & Hhead & Hm);
      [unfold j; lia|].
    cbv zeta in *. set (i := nth j (indicesFrom 0 (messages a)) 0%nat) in *.
    rewrite Nat.sub_0_r in Hf, Hs, Hhead.
    assert (Hi : (2 <= i)%nat).
    { destruct i as [|[|i']]; [| |lia].
      - unfold assistantTurns in Hf. simpl in Hf. unfold j in Hf. lia.
      - rewrite Hmsgs in Hf. unfold assistantTurns in Hf. simpl in Hf.
        rewrite Hfirst in Hf. simpl in Hf. unfold j in Hf. lia. }
    exists (skipn 2 (firstn i (messages a))), (skipn i (messages a)).
    split.
    { rewrite app_assoc.
      replace (firstn 2 (messages a)) with (firstn 2 (firstn i (messages a))).
      - rewrite firstn_skipn, firstn_skipn. reflexivity.
      - rewrite firstn_firstn. f_equal. lia. }
    split; [reflexivity|]. split; [rewrite Hs; unfold j; lia|].
    exists m, k'. auto.
Qed.

Lemma trimmed_context_keeps_last_turns_witness :
  (1 <= 2)%Z /\
  if (assistantTurns (messages long_conversation) <=? Z.to_nat 2)%nat
  then getMessagesForLLM (Some 2%Z) long_conversation = messages long_conversation
  else
    exists dropped kept,
      messages long_conversation = firstn 2 (messages long_conversation) ++ dropped ++ kept /\
      getMessagesForLLM (Some 2%Z) long_conversation
      = firstn 2 (messages long_conversation) ++ kept /\
      assistantTurns kept = Z.to_nat 2 /\
      exists m rest, kept = m :: rest /\ isAssistant m = true.
Proof.
  split; [lia|].
  apply (trimmed_context_keeps_last_turns 2 long_conversation); [lia|].
  eexists _, _. split; reflexivity.
Defined.

(** The conversation of three turns trimmed to two: the first answer of the
    model and the answer of its tool are left out. *)
Lemma trimmed_long_conversation :
  getMessagesForLLM (Some 2%Z) long_conversation
  = [ systemMessage "system"; userMessage "task";
      assistantMessage "second" None; assistantMessage "third" None ].
Proof. reflexivity. Qed.

End ContextWindowProps.

(** ** The oversight tracker *)

Section OversightSignalProps.
Import OversightTracker.

Variable times1000 : Q -> Q.

Lemma nodup_repeat (name : string) (k : nat) :
  nodup String.string_dec (repeat name (S k)) = [name].
Proof.
  induction k as [|k IH]; [reflexivity|].
  change (repeat name (S (S k))) with (name :: repeat name (S k)).
  cbn [nodup]. destruct (in_dec String.string_dec name (repeat name (S k))) as [_|Hn].
  - exact IH.
  - exfalso. apply Hn. left. reflexivity.
Qed.

Lemma setSize_one (l : list string) :
  setSize l = 1%nat -> forall x, In x l -> x = List.hd EmptyString l.
Proof.
  unfold setSize. intros H.
  destruct (nodup String.string_dec l) as [|y [|z r]] eqn:E; try discriminate.
  assert (Hall : forall x, In x l -> x = y).
  { intros x Hx. apply (nodup_In String.string_dec) in Hx. rewrite E in Hx.
    destruct Hx as [<-|[]]. reflexivity. }
  intros x Hx. rewrite (Hall x Hx). destruct l as [|h l']; [destruct Hx|].
  symmetry. apply Hall. left. reflexivity.
Qed.

Lemma all_equal_repeat (l : list string) (name : string) :
  (forall x, In x l -> x = name) -> l = repeat name (List.length l).
Proof.
  induction l as [|h l IH]; intros H; [reflexivity|].
  simpl. rewrite (H h (or_introl eq_refl)). f_equal. apply IH.
  intros x Hx. apply H. right. exact Hx.
Qed.

(** X14. The signals the tracker derives from a step. With a threshold of
    [n >= 1] calls, the repeated tool is [name] exactly when the last [n]
    tool calls of the step were all calls of [name]; the long duration is
    reported exactly when the step lasted longer than the threshold in
    seconds times 1000, as the number type computes the product; the step is
    flagged exactly when its status is [failed] or [needs_review]. *)
Theorem derived_signals_describe_the_step (th : OversightThresholds) (data : StepData) :
  (1 <= repeatedToolCount th)%nat ->
  (forall name,
      repeatedSameTool (deriveSignals times1000 th data) = Some name <->
      exists before, toolCalls data = before ++ repeat name (repeatedToolCount th)) /\
  (forall d,
      longStepDurationMs (deriveSignals times1000 th data) = Some d <->
      durationMs data = Some d /\ (times1000 (longStepSeconds th) < inject_Z d)%Q) /\
  (stepFailedOrNeedsReview (deriveSignals times1000 th data) = true <->
   status data = Some ars_failed \/ status data = Some ars_needs_review).
Proof.
  intros Hn. split; [|split].
  - intros name. unfold deriveSignals. cbn [repeatedSameTool].
    set (n := repeatedToolCount th) in *. set (calls := toolCalls data).
    assert (Hslice : sliceLast n calls = skipn (List.length calls - n) calls)
      by (unfold sliceLast; destruct n; [lia|reflexivity]).
    rewrite Hslice. split.
    + destruct (n <=? List.length calls)%nat eqn:Elen; [|discriminate].
      apply Nat.leb_le in Elen.
      destruct (List.length (skipn (List.length calls - n) calls) =? n)%nat eqn:El;
        [|discriminate].
      destruct (setSize (skipn (List.length calls - n) calls) =? 1)%nat eqn:Es;
        [|discriminate].
      apply Nat.eqb_eq in El, Es. simpl. intros [= Hname].
      exists (firstn (List.length calls - n) calls).
      rewrite <- El at 2.
      rewrite <- (all_equal_repeat (skipn (List.length calls - n) calls) name).
      * symmetry. apply firstn_skipn.
      * intros x Hx. rewrite <- Hname. apply setSize_one; assumption.
    + intros (before & Hcalls). rewrite Hcalls.
      assert (Hlen : List.length (before ++ repeat name n) = (List.length before + n)%nat)
        by (rewrite List.length_app, List.repeat_length; reflexivity).
      assert (Hdrop : skipn (List.length (before ++ repeat name n) - n) (before ++ repeat name n)
                      = repeat name n).
      { rewrite Hlen. replace (List.length before + n - n)%nat with (List.length before) by lia.
        rewrite List.skipn_app, List.skipn_all, Nat.sub_diag. reflexivity. }
      rewrite Hdrop, Hlen, List.repeat_length, Nat.eqb_refl.
      replace (n <=? List.length before + n)%nat with true by (symmetry; apply Nat.leb_le; lia).
      destruct n as [|k]; [lia|]. unfold setSize. rewrite nodup_repeat. reflexivity.
  - intros d. unfold deriveSignals. cbn [longStepDurationMs].
    destruct (durationMs data) as [d0|]; [|split; [discriminate|intros [H _]; discriminate]].
    destruct (Qle_bool (inject_Z d0) (times1000 (longStepSeconds th))) eqn:E; simpl.
    + apply Qle_bool_iff in E. split; [discriminate|].
      intros [[= ->] Hlt]. exfalso. exact (Qlt_not_le _ _ Hlt E).
    + split.
      * intros [= ->]. split; [reflexivity|]. apply Qnot_le_lt. intros Hle.
        apply Qle_bool_iff in Hle. congruence.
      * intros [[= ->] _]. reflexivity.
  - unfold deriveSignals. cbn [stepFailedOrNeedsReview].
    destruct (status data) as [[| |]|]; split; intros H;
      try discriminate; try reflexivity; try (left; reflexivity); try (right; reflexivity);
      destruct H as [H|H]; discriminate.
Qed.

End OversightSignalProps.

Section OversightSignalScenario.
Import OversightTracker.

Lemma derived_signals_describe_the_step_witness :
  (1 <= repeatedToolCount DEFAULT_THRESHOLDS)%nat /\
  deriveSignals exact_times1000 DEFAULT_THRESHOLDS repeating_step
  = {| repeatedSameTool := Some "write_file"; longStepDurationMs := Some 120000%Z;
       stepFailedOrNeedsReview := true |} /\
  (repeatedSameTool (deriveSignals exact_times1000 DEFAULT_THRESHOLDS repeating_step) = Some "write_file" <->
   exists before,
     toolCalls repeating_step
     = before ++ repeat "write_file" (repeatedToolCount DEFAULT_THRESHOLDS)).
Proof.
  split; [simpl; lia|]. split; [reflexivity|].
  apply (derived_signals_describe_the_step exact_times1000 DEFAULT_THRESHOLDS repeating_step).
  simpl. lia.
Defined.

End OversightSignalScenario.

Section OversightAttributionProps.
Import OversightTracker.

Variable times1000 : Q -> Q.
Variable durationOf : TaskBotEvent -> Z.

Lemma onEvent_thresholds (event : TaskBotEvent) (x : t) :
  thresholds (onEvent times1000 durationOf event x) = thresholds x.
Proof.
  destruct event; try reflexivity; simpl.
  - destruct (stepData x !! stepId); reflexivity.
  - destruct stepId as [sid|]; [destruct (JS.truthy sid)|]; reflexivity.
  - destruct (agentIdToStepId x !! agentId) as [sid|]; [|reflexivity].
    destruct (JS.truthy sid); [|reflexivity].
    destruct (stepData x !! sid); reflexivity.
Qed.

Lemma onEvent_tracks (stepId agentId : string) (calls : list string)
    (event : TaskBotEvent) (x : t) :
  JS.truthy stepId = true ->
  tracks stepId agentId calls x ->
  apartFrom stepId agentId event ->
  tracks stepId agentId (calls ++ callsBy agentId [event]) (onEvent times1000 durationOf event x).
Proof.
  intros Htruthy (Hdata & Hagent & Honly) Hapart.
  destruct event; simpl in Hapart |- *; rewrite ?app_nil_r; try (split; [|split]; assumption).
  - (* step:start of another step *)
    split; [|split; assumption]. simpl. rewrite lookup_insert_ne; [exact Hdata|exact Hapart].
  - (* step:complete of another step *)
    assert (Hkeep : forall y : t,
               stepData y !! stepId
               = Some {| toolCalls := calls; durationMs := None; status := None |} ->
               agentIdToStepId y = agentIdToStepId x ->
               tracks stepId agentId calls
                 (set_agentIdToStepId
                    (filter (fun kv => snd kv <> stepId0) (agentIdToStepId y)) y)).
    { intros y Hy Hmap. split; [exact Hy|]. simpl. rewrite Hmap. split.
      - apply map_lookup_filter_Some. split; [exact Hagent|]. simpl. congruence.
      - intros a Ha. apply map_lookup_filter_Some in Ha as [Ha _]. exact (Honly a Ha). }
    destruct (stepData x !! stepId0) as [data|] eqn:E.
    + apply Hkeep; [|reflexivity]. simpl. rewrite lookup_delete_ne; [exact Hdata|exact Hapart].
    + apply Hkeep; [exact Hdata|reflexivity].
  - (* agent:spawn of another agent, into another step *)
    destruct Hapart as [Hagent' Hstep'].
    destruct stepId0 as [sid|]; [|split; [|split]; assumption].
    destruct (JS.truthy sid); [|split; [|split]; assumption].
    split; [exact Hdata|]. simpl. split.
    + rewrite lookup_insert_ne; [exact Hagent|exact Hagent'].
    + intros a Ha. destruct (decide (agentId0 = a)) as [->|Hne].
      * rewrite lookup_insert_eq in Ha. congruence.
      * rewrite lookup_insert_ne in Ha; [exact (Honly a Ha)|exact Hne].
  - (* agent:tool_call *)
    destruct (String.eqb_spec agentId0 agentId) as [->|Hne].
    + rewrite Hagent, Htruthy, Hdata. simpl.
      split; [apply lookup_insert_eq|]. split; assumption.
    + rewrite app_nil_r.
      destruct (agentIdToStepId x !! agentId0) as [sid|] eqn:E; [|split; [|split]; assumption].
      destruct (JS.truthy sid); [|split; [|split]; assumption].
      destruct (stepData x !! sid) as [data|]; [|split; [|split]; assumption].
      assert (Hsid : sid <> stepId) by (intros ->; apply Hne, Honly, E).
      split; [|split; assumption]. simpl. rewrite lookup_insert_ne; [exact Hdata|exact Hsid].
Qed.

Lemma callsBy_app (agentId : string) (l1 l2 : list TaskBotEvent) :
  callsBy agentId (l1 ++ l2) = callsBy agentId l1 ++ callsBy agentId l2.
Proof. apply flat_map_app. Qed.

Lemma onEvents_tracks (stepId agentId : string) (events : list TaskBotEvent) :
  JS.truthy stepId = true ->
  Forall (apartFrom stepId agentId) events ->
  forall calls x,
    tracks stepId agentId calls x ->
    tracks stepId agentId (calls ++ callsBy agentId events) (onEvents times1000 durationOf events x) /\
    thresholds (onEvents times1000 durationOf events x) = thresholds x.
Proof.
  intros Htruthy Hall. induction Hall as [|event events Hev Hall IH]; intros calls x Hx.
  - simpl. rewrite app_nil_r. split; [exact Hx|reflexivity].
  - change (event :: events) with ([event] ++ events).
    rewrite callsBy_app, app_assoc.
    destruct (IH _ _ (onEvent_tracks _ _ _ _ _ Htruthy Hx Hev)) as [Ht Hth].
    split; [exact Ht|]. simpl in Hth |- *. rewrite Hth. apply onEvent_thresholds.
Qed.

(** X15. The tool calls of a step are attributed to it. After the
    [step:start] of a step and the [agent:spawn] of its agent, whatever
    events of other steps and other agents are mixed in, the tracker holds
    for the step exactly the names of the tools its agent called, in order;
    at the [step:complete] of the step the signals are derived from these
    calls, the duration and the status of the event, and the tracker forgets
    the step and its agent. *)
Theorem tool_calls_are_attributed_to_their_step
    (x : t) (stepId agentId : string) (events : list TaskBotEvent)
    (role : AgentRole) (taskId model provider description : string)
    (subtaskId parentAgentId : option string)
    (st : AgentResultStatus) (usage : TokenUsage) :
  JS.truthy stepId = true ->
  (forall a, agentIdToStepId x !! a = Some stepId -> a = agentId) ->
  Forall (apartFrom stepId agentId) events ->
  let started :=
    onEvents times1000 durationOf
      ([ StepStart stepId role taskId model provider subtaskId;
         AgentSpawn agentId role parentAgentId (Some stepId) description ] ++ events) x in
  let completion := StepComplete stepId role st usage taskId model provider subtaskId in
  let completed := onEvent times1000 durationOf completion started in
  stepData started !! stepId
  = Some {| toolCalls := callsBy agentId events; durationMs := None; status := None |} /\
  lastSignals completed
  = deriveSignals times1000 (thresholds x)
      {| toolCalls := callsBy agentId events;
         durationMs := Some (durationOf completion); status := Some st |} /\
  stepData completed !! stepId = None /\
  agentIdToStepId completed !! agentId = None.
Proof.
  intros Htruthy Honly Hall. cbv zeta.
  set (x0 := onEvents times1000 durationOf
               [ StepStart stepId role taskId model provider subtaskId;
                 AgentSpawn agentId role parentAgentId (Some stepId) description ] x).
  assert (H0 : tracks stepId agentId [] x0 /\ thresholds x0 = thresholds x).
  { unfold x0. simpl. rewrite Htruthy. split; [|reflexivity]. split; [|split].
    - simpl. apply lookup_insert_eq.
    - simpl. apply lookup_insert_eq.
    - simpl. intros a Ha. destruct (decide (agentId = a)) as [->|Hne]; [reflexivity|].
      rewrite lookup_insert_ne in Ha; [|exact Hne]. apply Honly, Ha. }
  destruct H0 as [H0 Hth0].
  destruct (onEvents_tracks stepId agentId events Htruthy Hall [] x0 H0) as [(Hd & Ha & Ho) Hth].
  unfold onEvents in *. rewrite fold_left_app. fold x0.
  set (x1 := fold_left (fun x event => onEvent times1000 durationOf event x) events x0) in *.
  simpl in Hd. split; [exact Hd|].
  simpl. rewrite Hd. simpl. rewrite Hth, Hth0. split; [reflexivity|].
  split; [apply lookup_delete_eq|].
  apply map_lookup_filter_None. right. intros sid Hsid Hp. apply Hp. simpl. congruence.
Qed.

End OversightAttributionProps.

Section OversightScenario.
Import OversightTracker.

Lemma tool_calls_are_attributed_to_their_step_witness :
  let durationOf := fun _ : TaskBotEvent => 120000%Z in
  let started :=
    onEvents exact_times1000 durationOf
      ([ StepStart "executor-1" executor "task-1" "gpt-4o" "openai" None;
         AgentSpawn "agent-1" executor None (Some "executor-1") "write the file" ]
       ++ interleaved_events) (new None None) in
  let completion :=
    StepComplete "executor-1" executor ars_needs_review no_usage "task-1" "gpt-4o" "openai"
                 None in
  let completed := onEvent exact_times1000 durationOf completion started in
  stepData started !! "executor-1"
  = Some {| toolCalls := callsBy "agent-1" interleaved_events;
            durationMs := None; status := None |} /\
  lastSignals completed
  = deriveSignals exact_times1000 (thresholds (new None None))
      {| toolCalls := callsBy "agent-1" interleaved_events;
         durationMs := Some (durationOf completion); status := Some ars_needs_review |} /\
  stepData completed !! "executor-1" = None /\
  agentIdToStepId completed !! "agent-1" = None.
Proof.
  apply (tool_calls_are_attributed_to_their_step exact_times1000 (fun _ => 120000%Z) (new None None)
           "executor-1" "agent-1" interleaved_events executor "task-1" "gpt-4o" "openai"
           "write the file" None None ars_needs_review no_usage).
  - reflexivity.
  - intros a Ha. simpl in Ha. rewrite lookup_empty in Ha. discriminate.
  - unfold interleaved_events. repeat constructor; simpl; try discriminate; congruence.
Defined.

(** The signals of the interleaved trace: the agent of the step called
    [write_file] three times in a row, the other agent's call between them
    is not counted. *)
Lemma interleaved_trace_signals :
  lastSignals
    (onEvents exact_times1000 (fun _ => 120000%Z)
       ([ StepStart "executor-1" executor "task-1" "gpt-4o" "openai" None;
          AgentSpawn "agent-1" executor None (Some "executor-1") "write the file" ]
        ++ interleaved_events
        ++ [ StepComplete "executor-1" executor ars_needs_review no_usage "task-1" "gpt-4o"
                          "openai" None ])
       (new None None))
  = {| repeatedSameTool := Some "write_file"; longStepDurationMs := Some 120000%Z;
       stepFailedOrNeedsReview := true |}.
Proof. vm_compute. reflexivity. Qed.

End OversightScenario.

(** ** The event bus: unsubscribing *)

Section EventBusOffProps.
Import EventBus.
Context {W : Type}.

Lemma removeFirst_absent (i : nat) (hs : list (EventHandler W)) :
  (forall h, In h hs -> h_id h <> i) -> removeFirst i hs = hs.
Proof.
  induction hs as [|h r IH]; intros H; [reflexivity|]. simpl.
  destruct (Nat.eqb_spec (h_id h) i) as [E|_]; [destruct (H h (or_introl eq_refl) E)|].
  f_equal. apply IH. intros h' Hh'. apply H. right. exact Hh'.
Qed.

Lemma removeFirst_found (i : nat) (before after : list (EventHandler W)) (h : EventHandler W) :
  (forall h', In h' before -> h_id h' <> i) ->
  h_id h = i ->
  removeFirst i (before ++ h :: after) = before ++ after.
Proof.
  intros Hb Hh. induction before as [|b before IH]; simpl.
  - rewrite Hh, Nat.eqb_refl. reflexivity.
  - destruct (Nat.eqb_spec (h_id b) i) as [E|_]; [destruct (Hb b (or_introl eq_refl) E)|].
    f_equal. apply IH. intros h' Hh'. apply Hb. right. exact Hh'.
Qed.

Lemma off_found (handler : EventHandler W) (l before after : list (EventHandler W))
    (h : EventHandler W) :
  l = before ++ h :: after ->
  h_id h = h_id handler ->
  (forall h', In h' after -> h_id h' <> h_id handler) ->
  rev (removeFirst (h_id handler) (rev l)) = before ++ after.
Proof.
  intros -> Hh Hafter.
  rewrite rev_app_distr. simpl. rewrite <- app_assoc. simpl.
  rewrite (removeFirst_found (h_id handler) (rev after) (rev before) h).
  - rewrite rev_app_distr, !rev_involutive. reflexivity.
  - intros h' Hh'. apply Hafter. apply in_rev. exact Hh'.
  - exact Hh.
Qed.

Lemma off_on (handler : EventHandler W) (bus : t W) :
  emitter (off handler (on handler bus)) = emitter bus.
Proof.
  unfold off, on. simpl.
  rewrite (off_found handler (emitter bus ++ [handler]) (emitter bus) [] handler);
    [apply app_nil_r | reflexivity | reflexivity | intros h' []].
Qed.

(** X16. [off] removes one registration of the handler and nothing else:
    the most recent one. If the handler is registered, the listeners before
    and after its last registration stay, in their order; if it is not
    registered, the bus is unchanged. In particular [off] undoes the [on] of
    the same handler, and a handler subscribed twice is still called once
    after one [off]. *)
Theorem off_removes_the_latest_registration (handler : EventHandler W) (bus : t W) :
  (forall before h after,
      emitter bus = before ++ h :: after ->
      h_id h = h_id handler ->
      (forall h', In h' after -> h_id h' <> h_id handler) ->
      emitter (off handler bus) = before ++ after) /\
  ((forall h, In h (emitter bus) -> h_id h <> h_id handler) ->
   emitter (off handler bus) = emitter bus) /\
  emitter (off handler (on handler bus)) = emitter bus /\
  emitter (off handler (on handler (on handler bus))) = emitter (on handler bus).
Proof.
  split; [|split; [|split]].
  - intros before h after Hbus Hh Hafter. unfold off. simpl.
    exact (off_found handler _ _ _ _ Hbus Hh Hafter).
  - intros Habsent. unfold off. simpl. rewrite removeFirst_absent.
    + apply rev_involutive.
    + intros h Hh. apply Habsent. apply in_rev. exact Hh.
  - apply off_on.
  - apply (off_on handler (on handler bus)).
Qed.

End EventBusOffProps.

Section OversightAttachProps.
Import OversightTracker.

Variable times1000 : Q -> Q.
Variable durationOf : TaskBotEvent -> Z.

(** X17. [attach] subscribes the tracker once: a second [attach] changes
    nothing. While the tracker is attached to a bus with no other
    subscriber, an event emitted on the bus is handled by [onEvent]; after
    [detach] the bus has the listeners it had before [attach], the tracker
    is not attached, and an emitted event no longer reaches it. *)
Theorem attach_subscribes_once_and_detach_undoes_it
    (hid hid' : nat) (bus : EventBus.t t) (x : t) :
  handler x = None ->
  let '(bus1, x1) := attach times1000 durationOf hid bus x in
  attach times1000 durationOf hid' bus1 x1 = (bus1, x1) /\
  EventBus.emitter (fst (detach times1000 durationOf bus1 x1)) = EventBus.emitter bus /\
  handler (snd (detach times1000 durationOf bus1 x1)) = None /\
  (EventBus.emitter bus = [] ->
   forall event,
     EventBus.emit event bus1 x1
     = {| EventBus.called := [hid]; EventBus.world := onEvent times1000 durationOf event x1;
          EventBus.result := Ok tt |} /\
     EventBus.emit event (fst (detach times1000 durationOf bus1 x1)) x1
     = {| EventBus.called := []; EventBus.world := x1; EventBus.result := Ok tt |}).
Proof.
  intros Hnone. unfold attach. rewrite Hnone. simpl.
  pose proof (off_on (listener times1000 durationOf hid) bus) as Hoff.
  split; [reflexivity|]. split; [exact Hoff|]. split; [reflexivity|].
  intros Hempty event. split.
  - unfold EventBus.emit, EventBus.on. simpl. rewrite Hempty. reflexivity.
  - unfold EventBus.emit. rewrite Hoff, Hempty. reflexivity.
Qed.

End OversightAttachProps.

Section OversightAttachScenario.
Import OversightTracker.

Lemma attach_subscribes_once_and_detach_undoes_it_witness :
  let '(bus1, x1) := attach exact_times1000 (fun _ => 0%Z) 7 EventBus.new (new None None) in
  attach exact_times1000 (fun _ => 0%Z) 8 bus1 x1 = (bus1, x1) /\
  EventBus.emitter (fst (detach exact_times1000 (fun _ => 0%Z) bus1 x1)) = EventBus.emitter EventBus.new /\
  handler (snd (detach exact_times1000 (fun _ => 0%Z) bus1 x1)) = None /\
  (EventBus.emitter (EventBus.new (W := t)) = [] ->
   forall event,
     EventBus.emit event bus1 x1
     = {| EventBus.called := [7%nat]; EventBus.world := onEvent exact_times1000 (fun _ => 0%Z) event x1;
          EventBus.result := Ok tt |} /\
     EventBus.emit event (fst (detach exact_times1000 (fun _ => 0%Z) bus1 x1)) x1
     = {| EventBus.called := []; EventBus.world := x1; EventBus.result := Ok tt |}).
Proof.
  exact (attach_subscribes_once_and_detach_undoes_it exact_times1000 (fun _ => 0%Z) 7 8 EventBus.new
           (new None None) eq_refl).
Defined.

End OversightAttachScenario.

(** ** Running agents: steps, review cycles, tasks *)

Section AgentOutputProps.
Import AgentRuntime StepEvents.

Variables (agentId : string) (role : AgentRole) (maxTurns : nat).
Variable maxContextTurns : option Z.
Variables (stepId parentAgentId : option string) (now : string).
Variable stringify : Json.value -> string.
Variable abortedAt : nat -> bool.
Variable chat : nat -> list LLMMessage -> outcome LLMResponse.
Variable known : string -> bool.
Variable execute : nat -> LLMToolCall -> outcome ToolExecutionResult.

Hypothesis chat_carries : callsCarryArguments chat.

Lemma speaks_ret {A} (a : A) : speaks agentId (ret a).
Proof. apply effect_ret. intros s. constructor. Qed.

Lemma speaks_bind {A B} (m : M Agent A) (f : A -> M Agent B) :
  speaks agentId m -> (forall a, speaks agentId (f a)) -> speaks agentId (bind m f).
Proof.
  intros Hm Hf. eapply effect_bind; [exact Hm | exact Hf |].
  intros s o1 a s1 o2 b s2 H1 H2. apply Forall_app. split; assumption.
Qed.

Lemma speaks_bind_on {A B} (G : A -> Prop) (m : M Agent A) (f : A -> M Agent B) :
  speaks agentId m ->
  (forall s o s' a, m s = (o, s', Ok a) -> G a) ->
  (forall a, G a -> speaks agentId (f a)) ->
  speaks agentId (bind m f).
Proof.
  intros Hm HG Hf. eapply effect_bind_on; [exact Hm | exact HG | exact Hf |].
  intros s o1 a s1 o2 b s2 H1 H2. apply Forall_app. split; assumption.
Qed.

Lemma speaks_get : speaks agentId get.
Proof. apply effect_get. intros s. constructor. Qed.

Lemma speaks_modify (f : Agent -> Agent) : speaks agentId (modify f).
Proof. apply effect_modify. intros s. constructor. Qed.

Lemma speaks_log (namespace format : string) (args : list string) :
  speaks agentId (log namespace format args).
Proof. apply effect_log. intros s. repeat constructor. Qed.

Lemma speaks_emit (event : TaskBotEvent) :
  agentOut agentId (Emit event) -> speaks agentId (emit event).
Proof. intros H. apply effect_emit. intros s. repeat constructor. exact H. Qed.

Lemma speaks_callLLM (attemptsLeft : nat) :
  forall attempt, speaks agentId (callLLM maxContextTurns chat attemptsLeft attempt).
Proof.
  induction attemptsLeft as [|later IH]; intros attempt; cbn [callLLM].
  - apply speaks_ret.
  - apply speaks_bind; [apply speaks_get|]. intros a.
    apply speaks_bind; [apply speaks_modify|]. intros _.
    destruct (chat _ _); [apply speaks_ret|].
    apply speaks_bind; [apply speaks_modify|]. intros _.
    destruct (_ || _).
    + apply speaks_bind; [apply speaks_log|]. intros _.
      apply speaks_bind; [apply speaks_log|]. intros _. apply speaks_ret.
    + apply speaks_bind; [apply speaks_log|]. intros _.
      apply speaks_bind; [apply speaks_modify|]. intros _. apply IH.
Qed.

Lemma speaks_parseCompletion (text : string) :
  speaks agentId (parseCompletion agentId role now text).
Proof.
  intros s. destruct (parseCompletion_cases agentId role now text s)
    as [E|(result & E & _)]; rewrite E; eexists _, _, _; split; try reflexivity;
    repeat constructor.
Qed.

Lemma speaks_executeToolCalls (calls : list LLMToolCall) :
  forallb hasArguments calls = true ->
  speaks agentId (executeToolCalls agentId role now known execute calls).
Proof.
  induction calls as [|call calls IH]; intros Hargs; cbn [executeToolCalls].
  - apply speaks_ret.
  - cbn [forallb] in Hargs. apply andb_true_iff in Hargs as [Hcall Hcalls].
    specialize (IH Hcalls).
    destruct (sanitizeToolArgs_Ok call Hcall) as [toolArgs ->].
    apply speaks_bind; [apply (speaks_ret toolArgs)|]. intros _.
    apply speaks_bind; [apply speaks_emit; reflexivity|]. intros _.
    destruct (negb _).
    + apply speaks_bind; [apply speaks_modify|]. intros _.
      apply speaks_bind; [apply speaks_emit; reflexivity|]. intros _. exact IH.
    + apply speaks_bind; [apply speaks_get|]. intros a.
      apply speaks_bind; [apply speaks_modify|]. intros _.
      destruct (execute _ _).
      * apply speaks_bind; [apply speaks_modify|]. intros _.
        apply speaks_bind; [apply speaks_emit; reflexivity|]. intros _.
        destruct (String.eqb _ _); [|exact IH].
        apply speaks_bind; [apply speaks_parseCompletion|]. intros [completion|].
        -- apply speaks_ret.
        -- apply speaks_bind; [apply speaks_modify|]. intros _. exact IH.
      * apply speaks_bind; [apply speaks_modify|]. intros _.
        apply speaks_bind; [apply speaks_emit; reflexivity|]. intros _. exact IH.
Qed.

Lemma speaks_finish (status : AgentResultStatus) (summary : string) :
  speaks agentId (finish agentId role now status summary).
Proof. intros s. eexists _, _, _. split; [reflexivity|constructor]. Qed.

Lemma speaks_turns (remaining : nat) :
  forall turn,
    speaks agentId (turns agentId role maxTurns maxContextTurns now stringify abortedAt chat known
                  execute remaining turn).
Proof.
  induction remaining as [|later IH]; intros turn; cbn [turns].
  - apply speaks_finish.
  - destruct (abortedAt turn); [apply speaks_finish|].
    apply speaks_bind; [apply speaks_emit; reflexivity|]. intros _.
    apply speaks_bind; [destruct (_ =? _)%nat; [apply speaks_modify|apply speaks_ret]|].
    intros _.
    apply speaks_bind_on with
      (G := fun r => forall response, r = Some response ->
                                      forallb hasArguments (resp_toolCalls response) = true);
      [apply speaks_callLLM |
       intros s o s' r H; exact (callLLM_carries _ _ chat_carries _ _ _ _ _ _ H) |].
    intros [response|] Hargs.
    2:{ apply speaks_bind; [apply speaks_get|]. intros a. apply speaks_finish. }
    apply speaks_bind.
    { intros s. eexists _, _, _. split; [reflexivity|]. repeat constructor. }
    intros _.
    apply speaks_bind;
      [destruct (JS.truthy _); [apply speaks_emit; reflexivity|apply speaks_ret]|].
    intros _.
    specialize (Hargs response eq_refl). revert Hargs.
    destruct (resp_toolCalls response) as [|call calls]; intros Hargs; cbv beta match.
    + apply speaks_bind; [destruct (JS.truthy _); [apply speaks_modify|apply speaks_ret]|].
      intros _. apply IH.
    + apply speaks_bind; [destruct (JS.truthy _); apply speaks_modify|]. intros _.
      apply speaks_bind.
      { intros s. eexists _, _, _. split; [apply isStuckLoop_slides|constructor]. }
      intros [|].
      * apply speaks_bind; [apply speaks_log|]. intros _. apply speaks_finish.
      * apply speaks_bind; [apply speaks_executeToolCalls; exact Hargs|]. intros [result|];
          [apply speaks_ret|apply IH].
Qed.

Lemma speaks_run :
  speaks agentId (run agentId role maxTurns maxContextTurns stepId parentAgentId now stringify
              abortedAt chat known execute).
Proof.
  apply speaks_bind; [apply speaks_get|]. intros a.
  apply speaks_bind; [apply speaks_emit; reflexivity|]. intros _. apply speaks_turns.
Qed.

Lemma run_speaks (s : Agent) :
  exists o s' result,
    run agentId role maxTurns maxContextTurns stepId parentAgentId now stringify
        abortedAt chat known execute s
    = (Emit (AgentSpawn agentId role parentAgentId stepId
               match List.find (fun m => match msg_role m with role_user => true | _ => false end)
                               (messages s) with
               | Some m => msg_content m
               | None => EmptyString
               end) :: o, s', Ok result) /\
    Forall (agentOut agentId) o.
Proof.
  destruct (speaks_turns maxTurns 1 s) as (o & s' & result & E & H).
  exists o, s', result. split; [|exact H].
  unfold run, bind, get, emit. rewrite E. reflexivity.
Qed.

End AgentOutputProps.

Section RunAgentProps.
Import WorkflowEngine Config WorkflowSteps StepEvents.

Variable config : BabylonConfig.
Variable uuid : nat -> string.
Variable now : string.
Variable stringify : Json.value -> string.
Variable toText : Json.value -> string.
Variable providers : list (string * (nat -> nat -> list LLMMessage -> outcome LLMResponse)).
Variable getTools : nat -> AgentRole -> bool -> ToolSet.
Variable getSystemPrompt : AgentRole -> string.
Variable agentAborted : nat -> nat -> bool.

Hypothesis providers_carry : providersCarryArguments providers.

Lemma lookupProvider_In {P} (name : string) (l : list (string * P)) (p : P) :
  lookupProvider name l = Some p -> exists k, In (k, p) l.
Proof.
  induction l as [|[k q] rest IH]; simpl; [discriminate|].
  destruct (String.eqb k name).
  - intros [= ->]. exists k. left. reflexivity.
  - intros H. destruct (IH H) as [k' Hin]. exists k'. right. exact Hin.
Qed.

Lemma runAgent_shape
    (role : AgentRole) (userMessage : string) (parentContext : option string)
    (fileScope : option (list string)) (depth : nat) (agentOptions : AgentOptions)
    (w : Workflow) :
  let stepId := roleName role +:+ "-" +:+ pretty (S (taskCounter w)) in
  exists outs w' result taskId model provider subtaskId before during,
    runAgent config uuid now stringify providers getTools getSystemPrompt agentAborted
             role userMessage parentContext fileScope depth agentOptions w
    = (outs, w', Ok result) /\
    outs = before
           ++ [Emit (StepStart stepId role taskId model provider subtaskId)]
           ++ during
           ++ [Emit (StepComplete stepId role (ar_status result) (ar_tokenUsage result)
                                  taskId model provider subtaskId)] /\
    (List.length before <= 1)%nat /\
    Forall (fun o => exists namespace format args, o = Log namespace format args) before /\
    taskCounter w' = S (taskCounter w) /\
    ((providers = [] /\ during = [] /\ ar_status result = ars_failed /\
      allAgentResults w' = allAgentResults w) \/
     (providers <> [] /\
      allAgentResults w' = allAgentResults w ++ [result] /\
      exists description rest,
        during = Emit (AgentSpawn (uuid (uuidCount (engine w))) role None (Some stepId)
                                  description) :: rest /\
        Forall (agentOut (uuid (uuidCount (engine w)))) rest)).
Proof.
  cbv zeta. unfold runAgent.
  unfold bind at 1. unfold modify at 1. unfold bind at 1. unfold get at 1.
  cbn [taskCounter set_taskCounter engine].
  set (stepId := roleName role +:+ "-" +:+ pretty (S (taskCounter w))).
  set (base := getDefaultModel role (defaultProvider config) (defaultModel config)).
  set (chosen := match ao_model agentOptions with
                 | Some m => if JS.truthy m
                             then {| provider := provider base; model := m;
                                     temperature := temperature base;
                                     maxTokens := maxTokens base |}
                             else base
                 | None => base
                 end).
  assert (Hrun : forall (modelConfig : ModelConfig)
                        (chat : nat -> nat -> list LLMMessage -> outcome LLMResponse)
                        (w1 : Workflow) (maxT : nat) (taskId : string)
                        (sub : option string) (initialContext : string),
             AgentRuntime.callsCarryArguments (chat (S (taskCounter w))) ->
             taskCounter w1 = S (taskCounter w) ->
             allAgentResults w1 = allAgentResults w ->
             uuidCount (engine w1) = uuidCount (engine w) ->
             exists (o : list Out) (w' : Workflow) (result : AgentResult)
                    (description : string) (rest : list Out),
               bind (nextUUID uuid)
                 (fun agentId =>
                    bind (runRuntime
                            (AgentRuntime.run agentId role maxT (maxContextTurns config)
                               (Some stepId) None now stringify
                               (agentAborted (S (taskCounter w))) (chat (S (taskCounter w)))
                               (ts_known (getTools (S (taskCounter w)) role
                                            match useCli config with Some b => b | None => true end))
                               (ts_execute (getTools (S (taskCounter w)) role
                                              match useCli config with Some b => b | None => true end)))
                            (AgentRuntime.construct (getSystemPrompt role) (Some initialContext)))
                       (fun result =>
                          bind (modify (fun w => set_allAgentResults (allAgentResults w ++ [result]) w))
                            (fun _ =>
                               bind (emit (StepComplete stepId role (ar_status result)
                                             (ar_tokenUsage result) taskId (model modelConfig)
                                             (provider modelConfig) sub))
                                    (fun _ => ret result)))) w1
               = (o, w', Ok result) /\
               o = (Emit (AgentSpawn (uuid (uuidCount (engine w))) role None (Some stepId)
                            description) :: rest)
                   ++ [Emit (StepComplete stepId role (ar_status result) (ar_tokenUsage result)
                               taskId (model modelConfig) (provider modelConfig) sub)] /\
               Forall (agentOut (uuid (uuidCount (engine w)))) rest /\
               taskCounter w' = S (taskCounter w) /\
               allAgentResults w' = allAgentResults w ++ [result]).
  { intros modelConfig chat w1 maxT taskId sub initialContext Hchat Hk Hres Hu.
    unfold bind at 1. unfold nextUUID. rewrite Hu.
    unfold bind at 1. unfold runRuntime.
    match goal with
    | |- context [AgentRuntime.run ?a ?r ?mt ?mc ?st ?pa ?n ?sf ?ab ?ch ?kn ?ex ?s0] =>
        destruct (run_speaks a r mt mc st pa n sf ab ch kn ex Hchat s0)
          as (o & s' & result & E & Hall); rewrite E
    end.
    eexists _, _, result, _, o. split; [reflexivity|].
    split; [simpl; rewrite ?app_nil_r; reflexivity|]. split; [exact Hall|].
    split; [simpl; exact Hk|]. simpl. rewrite Hres. reflexivity. }
  destruct (lookupProvider (provider chosen) providers) as [chat|] eqn:Elookup.
  - destruct (lookupProvider_In _ _ _ Elookup) as [name Hin].
    pose proof (providers_carry name chat (S (taskCounter w)) Hin) as Hchat.
    unfold bind at 1. unfold ret at 1. cbv beta iota. unfold bind at 1. unfold emit at 1.
    match goal with
    | |- context [bind (nextUUID uuid) ?k ?w1] =>
        destruct (Hrun chosen chat w1
                    match ao_maxTurns agentOptions with
                    | Some n => n | None => getDefaultMaxTurns role end
                    match rootTaskId (engine w) with Some i => i | None => stepId end
                    match match ao_subtaskIdForEmit agentOptions with
                          | Some s => Some s
                          | None => currentSubtaskId (engine w)
                          end with
                    | Some s => if JS.truthy s then Some s else None
                    | None => None
                    end
                    match parentContext with
                    | Some pc => if JS.truthy pc then pc +:+ nl +:+ nl +:+ userMessage
                                 else userMessage
                    | None => userMessage
                    end Hchat eq_refl eq_refl eq_refl)
          as (o & w' & result & description & rest & E & -> & Hall & Hk & Hres)
    end.
    rewrite E. eexists _, w', result, _, _, _, _, [], _.
    split; [reflexivity|]. split; [reflexivity|]. split; [simpl; lia|].
    split; [constructor|]. split; [exact Hk|]. right.
    split; [intros ->; discriminate|]. split; [exact Hres|].
    exists description, rest. split; [reflexivity|exact Hall].
  - pose proof providers_carry as Hcarry. unfold providersCarryArguments in Hcarry.
    destruct providers as [|[fallbackProviderName fallbackProvider] others] eqn:Eproviders.
    + unfold bind at 1. unfold ret at 1. cbv beta iota. unfold bind at 1. unfold emit at 1.
      unfold bind, emit, ret.
      eexists _, _, _, _, _, _, _, [], []. split; [reflexivity|].
      split; [reflexivity|]. split; [simpl; lia|]. split; [constructor|].
      split; [reflexivity|]. left. auto.
    + pose proof (Hcarry fallbackProviderName fallbackProvider (S (taskCounter w))
                    (or_introl eq_refl)) as Hchat.
      unfold bind at 1. unfold bind at 1. unfold log at 1. unfold ret at 1. cbv beta iota.
      unfold bind at 1. unfold emit at 1.
      match goal with
      | |- context [bind (nextUUID uuid) ?k ?w1] =>
          destruct (Hrun {| provider := fallbackProviderName;
                            model := if String.eqb fallbackProviderName "openai"
                                     then "gpt-4o" else "claude-sonnet-4-20250514";
                            temperature := temperature chosen;
                            maxTokens := maxTokens chosen |}
                      fallbackProvider w1
                      match ao_maxTurns agentOptions with
                      | Some n => n | None => getDefaultMaxTurns role end
                      match rootTaskId (engine w) with Some i => i | None => stepId end
                      match match ao_subtaskIdForEmit agentOptions with
                            | Some s => Some s
                            | None => currentSubtaskId (engine w)
                            end with
                      | Some s => if JS.truthy s then Some s else None
                      | None => None
                      end
                      match parentContext with
                      | Some pc => if JS.truthy pc then pc +:+ nl +:+ nl +:+ userMessage
                                   else userMessage
                      | None => userMessage
                      end Hchat eq_refl eq_refl eq_refl)
            as (o & w' & result & description & rest & E & -> & Hall & Hk & Hres)
      end.
      rewrite E. eexists _, w', result, _, _, _, _, [_], _.
      split; [reflexivity|]. split; [reflexivity|]. split; [simpl; lia|].
      split; [repeat constructor; eexists _, _, _; reflexivity|]. split; [exact Hk|]. right.
      split; [discriminate|]. split; [exact Hres|].
      exists description, rest. split; [reflexivity|exact Hall].
Qed.


(** X18. With providers whose tool calls carry arguments, every [runAgent]
    returns, and it brackets the run of its agent: after at most one log
    line it emits [step:start] for the step named by the role and the
    incremented counter, and it ends with the [step:complete] of the same
    step, role, task, model and provider, carrying the status and the usage
    of the result. Between the two are
    only outputs of the agent it spawned, the first of which is the
    [agent:spawn] that names the step; the result joins the results of the
    engine. With no provider at all nothing runs between the two events and
    the result is [failed]. *)
Theorem runAgent_brackets_the_run_of_its_agent
    (role : AgentRole) (userMessage : string) (parentContext : option string)
    (fileScope : option (list string)) (depth : nat) (agentOptions : AgentOptions)
    (w : Workflow) :
  let stepId := roleName role +:+ "-" +:+ pretty (S (taskCounter w)) in
  exists outs w' result taskId model provider subtaskId before during,
    runAgent config uuid now stringify providers getTools getSystemPrompt agentAborted
             role userMessage parentContext fileScope depth agentOptions w
    = (outs, w', Ok result) /\
    outs = before
           ++ [Emit (StepStart stepId role taskId model provider subtaskId)]
           ++ during
           ++ [Emit (StepComplete stepId role (ar_status result) (ar_tokenUsage result)
                                  taskId model provider subtaskId)] /\
    (List.length before <= 1)%nat /\
    Forall (fun o => exists namespace format args, o = Log namespace format args) before /\
    taskCounter w' = S (taskCounter w) /\
    ((providers = [] /\ during = [] /\ ar_status result = ars_failed /\
      allAgentResults w' = allAgentResults w) \/
     (providers <> [] /\
      allAgentResults w' = allAgentResults w ++ [result] /\
      exists description rest,
        during = Emit (AgentSpawn (uuid (uuidCount (engine w))) role None (Some stepId)
                                  description) :: rest /\
        Forall (agentOut (uuid (uuidCount (engine w)))) rest)).
Proof.
  apply runAgent_shape.
Qed.


Lemma stepStarts_app (r : AgentRole) (o1 o2 : list Out) :
  stepStarts r (o1 ++ o2) = (stepStarts r o1 + stepStarts r o2)%nat.
Proof.
  unfold stepStarts. rewrite emitted_app_outs, List.filter_app, length_app. reflexivity.
Qed.

Lemma stepRetries_app (o1 o2 : list Out) :
  stepRetries (o1 ++ o2) = stepRetries o1 ++ stepRetries o2.
Proof. unfold stepRetries. rewrite emitted_app_outs. apply List.filter_app. Qed.

Lemma agentOut_no_steps (agentId : string) (outs : list Out) :
  Forall (agentOut agentId) outs ->
  (forall r, stepStarts r outs = 0%nat) /\ stepRetries outs = [].
Proof.
  induction 1 as [|o outs Ho _ [IHs IHr]]; [split; reflexivity|].
  change (o :: outs) with ([o] ++ outs). split.
  - intros r. rewrite stepStarts_app, IHs.
    destruct o as [e|]; [destruct e; try destruct Ho|]; reflexivity.
  - rewrite stepRetries_app, IHr.
    destruct o as [e|]; [destruct e; try destruct Ho|]; reflexivity.
Qed.

Lemma logs_no_steps (outs : list Out) :
  Forall (fun o => exists namespace format args, o = Log namespace format args) outs ->
  (forall r, stepStarts r outs = 0%nat) /\ stepRetries outs = [].
Proof.
  induction 1 as [|o outs (a & b & c & ->) _ [IHs IHr]]; [split; reflexivity|].
  change (Log a b c :: outs) with ([Log a b c] ++ outs). split.
  - intros r. rewrite stepStarts_app, IHs. reflexivity.
  - rewrite stepRetries_app, IHr. reflexivity.
Qed.

Lemma runAgent_tally
    (role : AgentRole) (userMessage : string) (parentContext : option string)
    (fileScope : option (list string)) (depth : nat) (agentOptions : AgentOptions)
    (w : Workflow) :
  exists outs w' result,
    runAgent config uuid now stringify providers getTools getSystemPrompt agentAborted
             role userMessage parentContext fileScope depth agentOptions w
    = (outs, w', Ok result) /\
    (forall r, stepStarts r outs = if decide (r = role) then 1%nat else 0%nat) /\
    stepRetries outs = [] /\
    taskCounter w' = S (taskCounter w) /\
    exists o stepId usage taskId model provider subtaskId,
      outs = o ++ [Emit (StepComplete stepId role (ar_status result) usage taskId model
                                      provider subtaskId)].
Proof.
  destruct (runAgent_shape role userMessage parentContext fileScope depth agentOptions w)
    as (outs & w' & result & taskId & model & provider & sub & before & during
        & E & -> & _ & Hbefore & Hk & Hcases).
  eexists _, w', result. split; [exact E|].
  assert (Hduring : (forall r, stepStarts r during = 0%nat) /\ stepRetries during = []).
  { destruct Hcases as [(_ & -> & _)|(_ & _ & description & rest & -> & Hall)].
    - split; reflexivity.
    - destruct (agentOut_no_steps _ _ Hall) as [Hs Hr].
      change (Emit (AgentSpawn (uuid (uuidCount (engine w))) role None
                      (Some (roleName role +:+ "-" +:+ pretty (S (taskCounter w))))
                      description) :: rest)
        with ([Emit (AgentSpawn (uuid (uuidCount (engine w))) role None
                       (Some (roleName role +:+ "-" +:+ pretty (S (taskCounter w))))
                       description)] ++ rest).
      split.
      + intros r. rewrite stepStarts_app, Hs. reflexivity.
      + rewrite stepRetries_app, Hr. reflexivity. }
  destruct (logs_no_steps _ Hbefore) as [Hbs Hbr]. destruct Hduring as [Hds Hdr].
  split.
  { intros r. rewrite !stepStarts_app, Hbs, Hds. unfold stepStarts. simpl.
    destruct (decide (role = r)) as [Heq|Hne]; destruct (decide (r = role)) as [Heq'|Hne'];
      try reflexivity; congruence. }
  split; [rewrite !stepRetries_app, Hbr, Hdr; reflexivity|].
  split; [exact Hk|].
  eexists (before ++ [Emit (StepStart _ role taskId model provider sub)] ++ during),
    _, _, _, _, _, _.
  rewrite <- !app_assoc. reflexivity.
Qed.

End RunAgentProps.

Section RunAgentScenario.
Import WorkflowEngine Config WorkflowSteps StepEvents.

Lemma text_providers_carry : providersCarryArguments text_providers.
Proof.
  intros name chat k [H|[]]. injection H as _ <-.
  intros n msgs response E. unfold text_only_chat in E. injection E as <-. reflexivity.
Defined.

Lemma runAgent_brackets_the_run_of_its_agent_witness :
  providersCarryArguments text_providers /\
  exists outs w' result,
    runAgent default_config uuid_stream "2026-01-01T00:00:00.000Z" stringify_members
             text_providers role_toolset (fun _ => "system") (fun _ _ => false)
             steward "Check the plan" None None 0 noOptions started_workflow
    = (outs, w', Ok result) /\
    taskCounter w' = 1%nat /\
    allAgentResults w' = [result].
Proof.
  split; [exact text_providers_carry|].
  pose proof (runAgent_brackets_the_run_of_its_agent default_config uuid_stream
                "2026-01-01T00:00:00.000Z" stringify_members text_providers role_toolset
                (fun _ => "system") (fun _ _ => false) text_providers_carry
                steward "Check the plan" None None 0%nat noOptions started_workflow) as H.
  cbv zeta in H.
  destruct H as (outs & w' & result & taskId & model & provider & subtaskId & before & during
                 & E & _ & _ & _ & Hk & Hcases).
  exists outs, w', result. split; [exact E|]. split; [exact Hk|].
  destruct Hcases as [(Hnone & _)|(_ & Hres & _)]; [discriminate Hnone|exact Hres].
Defined.

End RunAgentScenario.

Section CycleProps.
Import WorkflowEngine Config WorkflowSteps StepEvents CycleSummary.

Variable config : BabylonConfig.
Variable uuid : nat -> string.
Variable now : string.
Variable stringify : Json.value -> string.
Variable toText : Json.value -> string.
Variable providers : list (string * (nat -> nat -> list LLMMessage -> outcome LLMResponse)).
Variable getTools : nat -> AgentRole -> bool -> ToolSet.
Variable getSystemPrompt : AgentRole -> string.
Variable agentAborted : nat -> nat -> bool.
Variable engineAborted : nat -> bool.
Variable hasSignals : nat -> bool.
Variable signalsText : nat -> string.
Variable random : nat -> Q.

Hypothesis providers_carry : providersCarryArguments providers.

Lemma runAgent_engine
    (role : AgentRole) (userMessage : string) (parentContext : option string)
    (fileScope : option (list string)) (depth : nat) (agentOptions : AgentOptions)
    (w : Workflow) :
  exists n,
    engine (final (runAgent config uuid now stringify providers getTools getSystemPrompt
                            agentAborted role userMessage parentContext fileScope depth
                            agentOptions w))
    = set_uuidCount n (engine w).
Proof.
  assert (Hsame : engine w = set_uuidCount (uuidCount (engine w)) (engine w))
    by (destruct (engine w); reflexivity).
  unfold runAgent.
  destruct (lookupProvider _ providers) as [chat|];
    [|destruct providers as [|[name chat] others]];
    cbv [bind modify get ret emit log nextUUID runRuntime final fst snd
         set_taskCounter set_engine set_allAgentResults engine taskCounter allAgentResults];
    try (exists (uuidCount (engine w)); exact Hsame);
    match goal with
    | |- context [AgentRuntime.run ?a ?r ?mt ?mc ?st ?pa ?n ?sf ?ab ?ch ?kn ?ex ?s0] =>
        destruct (AgentRuntime.run a r mt mc st pa n sf ab ch kn ex s0) as [[o s'] [result|e]]
    end; eexists; reflexivity.
Qed.


Lemma role_counts (role : AgentRole) (outs : list Out) :
  (forall r, stepStarts r outs = if decide (r = role) then 1%nat else 0%nat) ->
  stepStarts analyzer outs = match role with analyzer => 1%nat | _ => 0%nat end /\
  stepStarts planner outs = match role with planner => 1%nat | _ => 0%nat end /\
  stepStarts executor outs = match role with executor => 1%nat | _ => 0%nat end /\
  stepStarts reviewer outs = match role with reviewer => 1%nat | _ => 0%nat end /\
  stepStarts coordinator outs = match role with coordinator => 1%nat | _ => 0%nat end /\
  stepStarts steward outs = match role with steward => 1%nat | _ => 0%nat end /\
  stepStarts oracle outs = match role with oracle => 1%nat | _ => 0%nat end.
Proof.
  intros H. repeat split; rewrite H; destruct role; reflexivity.
Qed.

Lemma checkIn_shape (executorDepth : option nat) (w : Workflow) :
  exists outs w',
    maybeOversightCheckIn config uuid now stringify providers getTools getSystemPrompt
                          agentAborted hasSignals signalsText random executorDepth w
    = (outs, w', Ok tt) /\
    ((outs = [] /\ w' = w) \/
     (exists before depth subtaskIndex,
        outs = before ++ [Emit (OversightCheckIn depth subtaskIndex
                                  match pendingOversightNudge (engine w') with
                                  | Some _ => true
                                  | None => false
                                  end)] /\
        (forall r, stepStarts r before = if decide (r = steward) then 1%nat else 0%nat) /\
        stepRetries before = [] /\
        taskCounter w' = S (taskCounter w) /\
        oversightTracker (engine w) <> None /\
        match compositeOversightContext (engine w) with
        | Some ctx =>
            depth = oc_depth ctx /\ subtaskIndex = Some (oc_currentSubtaskIndex ctx) /\
            (oversightCycleCount (engine w)
             < match maxOversightPerComposite config with Some n => n | None => 2 end)%nat /\
            oversightCycleCount (engine w') = S (oversightCycleCount (engine w))
        | None =>
            depth = match executorDepth with Some d => d | None => 0%nat end /\
            subtaskIndex = None /\
            oversightCycleCount (engine w') = oversightCycleCount (engine w)
        end)).
Proof.
  unfold maybeOversightCheckIn.
  rewrite (bind_after get _ w w [] w eq_refl). unfold after.
  destruct (oversightTracker (engine w)) as [lastOutcome|] eqn:Etracker;
    [|eexists _, _; split; [reflexivity|left; split; reflexivity]].
  destruct (negb (hasSignals (taskCounter w))
            && match lastOutcome with Some _ => false | None => true end);
    [eexists _, _; split; [reflexivity|left; split; reflexivity]|].
  destruct (compositeOversightContext (engine w)) as [ctx|] eqn:Ectx.
  - destruct (Qle_bool _ (random (taskCounter w)));
      [eexists _, _; split; [reflexivity|left; split; reflexivity]|].
    destruct (_ <=? oversightCycleCount (engine w))%nat eqn:Ecap;
      [eexists _, _; split; [reflexivity|left; split; reflexivity]|].
    apply Nat.leb_gt in Ecap.
    match goal with
    | |- context [bind (runAgent _ _ _ _ _ _ _ _ ?role ?msg ?pc ?fs ?d ?ao) _ w] =>
        destruct (runAgent_tally config uuid now stringify providers getTools getSystemPrompt
                    agentAborted providers_carry role msg pc fs d ao w)
          as (o & w1 & result & E & Hs & Hr & Hk & _);
        destruct (runAgent_engine role msg pc fs d ao w) as (n & He);
        rewrite E in He; unfold final in He; simpl in He;
        rewrite (bind_after _ _ _ _ _ _ E)
    end.
    cbv [bind modify emit after].
    eexists _, _. split; [reflexivity|]. right.
    eexists o, _, _. rewrite He. cbn.
    split; [reflexivity|]. split; [exact Hs|]. split; [exact Hr|]. split; [exact Hk|].
    split; [discriminate|]. split; [reflexivity|]. split; [reflexivity|].
    split; [exact Ecap|reflexivity].
  - match goal with
    | |- context [bind (runAgent _ _ _ _ _ _ _ _ ?role ?msg ?pc ?fs ?d ?ao) _ w] =>
        destruct (runAgent_tally config uuid now stringify providers getTools getSystemPrompt
                    agentAborted providers_carry role msg pc fs d ao w)
          as (o & w1 & result & E & Hs & Hr & Hk & _);
        destruct (runAgent_engine role msg pc fs d ao w) as (n & He);
        rewrite E in He; unfold final in He; simpl in He;
        rewrite (bind_after _ _ _ _ _ _ E)
    end.
    cbv [bind modify emit after].
    eexists _, _. split; [reflexivity|]. right.
    eexists o, _, _. rewrite He. cbn.
    split; [reflexivity|]. split; [exact Hs|]. split; [exact Hr|]. split; [exact Hk|].
    split; [discriminate|]. split; [reflexivity|]. split; reflexivity.
Qed.


Lemma outputs_after {S A} (o : list Out) (x : list Out * S * outcome A) :
  outputs (after o x) = o ++ outputs x.
Proof. destruct x as [[o' s] r]. reflexivity. Qed.

Lemma returned_after {S A} (o : list Out) (x : list Out * S * outcome A) :
  returned (after o x) = returned x.
Proof. destruct x as [[o' s] r]. reflexivity. Qed.

Lemma final_after {S A} (o : list Out) (x : list Out * S * outcome A) :
  final (after o x) = final x.
Proof. destruct x as [[o' s] r]. reflexivity. Qed.

Lemma after_nil {S A} (x : list Out * S * outcome A) : after [] x = x.
Proof. destruct x as [[o' s] r]. reflexivity. Qed.

Lemma match_failed {T} (s : AgentResultStatus) (X Y : T) :
  match s with ars_failed => X | _ => Y end = if isFailed s then X else Y.
Proof. destruct s; reflexivity. Qed.

Lemma match_completed {T} (s : AgentResultStatus) (X Y : T) :
  match s with ars_completed => X | _ => Y end = if isCompleted s then X else Y.
Proof. destruct s; reflexivity. Qed.

Lemma bounded_after (pre o : list Out) (r : outcome WorkflowResult)
    (later held retried : nat) :
  stepStarts executor pre = 1%nat -> stepStarts reviewer pre = 1%nat ->
  List.length (stepRetries pre) = retried ->
  (stepStarts steward pre <= retried)%nat -> (retried <= 1)%nat -> (retried <= later)%nat ->
  stepStarts analyzer pre = 0%nat -> stepStarts planner pre = 0%nat ->
  stepStarts coordinator pre = 0%nat -> stepStarts oracle pre = 0%nat ->
  bounded later (held + 2) o r ->
  bounded (S later) held (pre ++ o) r.
Proof.
  unfold bounded. intros He Hv Ht Hs H1 Hl Ha Hp Hc Ho
    (B1 & B2 & B3 & B4 & B5 & B6 & B7 & B8 & B9 & Hr).
  rewrite !stepStarts_app, stepRetries_app, length_app.
  repeat (split; [lia|]).
  destruct r as [result|e]; [|exact I].
  destruct Hr as (Hst & Hlen & Hend). split; [exact Hst|]. split; [lia|].
  intros Hdone.
  destruct (Hend Hdone) as (b & stepId & usage & taskId & model & provider & sub & ->).
  exists (pre ++ b), stepId, usage, taskId, model, provider, sub.
  rewrite app_assoc. reflexivity.
Qed.

Lemma cycleFrom_bounded (specContext originalDescription : string)
    (fileScope : option (list string)) (depth : nat) (options : CycleOptions) :
  forall (remaining attempt : nat) (executorContext : string) (artifacts : list Artifact)
         (w : Workflow),
    (attempt + remaining = S (getMaxRetries config))%nat ->
    bounded remaining (List.length artifacts)
      (outputs (cycleFrom config uuid now stringify toText providers getTools getSystemPrompt
                  agentAborted engineAborted hasSignals signalsText random
                  specContext originalDescription fileScope depth options
                  remaining attempt executorContext artifacts w))
      (returned (cycleFrom config uuid now stringify toText providers getTools getSystemPrompt
                   agentAborted engineAborted hasSignals signalsText random
                   specContext originalDescription fileScope depth options
                   remaining attempt executorContext artifacts w)).
Proof.
  assert (Hstop : forall remaining artifacts,
             bounded remaining (List.length artifacts) [] (Ok (failedSoFar artifacts))).
  { intros remaining artifacts. unfold bounded. cbn.
    repeat (split; [lia|]). split; [right; reflexivity|]. split; [lia|discriminate]. }
  induction remaining as [|later IH]; intros attempt executorContext artifacts w Hsum.
  { apply Hstop. }
  cbn [cycleFrom]. rewrite (bind_after get _ w w [] w eq_refl), after_nil.
  destruct (engineAborted (taskCounter w)); [apply Hstop|].
  match goal with
  | |- context [bind (runAgent _ _ _ _ _ _ _ _ ?role ?msg ?pc ?fs ?d ?ao) _ w] =>
      destruct (runAgent_tally config uuid now stringify providers getTools getSystemPrompt
                  agentAborted providers_carry role msg pc fs d ao w)
        as (o1 & w1 & executorResult & E1 & Hs1 & Hr1 & _ & _);
      rewrite (bind_after _ _ _ _ _ _ E1)
  end.
  destruct (role_counts _ _ Hs1) as (A1 & P1 & X1 & V1 & C1 & T1 & O1).
  cbv beta. rewrite match_failed.
  destruct (isFailed (ar_status executorResult)).
  { cbn. rewrite app_nil_r. unfold bounded. rewrite Hr1. cbn.
    rewrite length_app. cbn.
    repeat (split; [lia|]). split; [right; reflexivity|]. split; [lia|discriminate]. }
  match goal with
  | |- context [bind (runAgent _ _ _ _ _ _ _ _ ?role ?msg ?pc ?fs ?d ?ao) _ w1] =>
      destruct (runAgent_tally config uuid now stringify providers getTools getSystemPrompt
                  agentAborted providers_carry role msg pc fs d ao w1)
        as (o2 & w2 & reviewerResult & E2 & Hs2 & Hr2 & _ & Hend2);
      rewrite (bind_after _ _ _ _ _ _ E2)
  end.
  destruct (role_counts _ _ Hs2) as (A2 & P2 & X2 & V2 & C2 & T2 & O2).
  cbv beta. rewrite match_completed.
  destruct (isCompleted (ar_status reviewerResult)) eqn:Hdone.
  { cbn. rewrite app_nil_r. unfold bounded.
    rewrite !stepStarts_app, stepRetries_app, Hr1, Hr2. cbn.
    rewrite !length_app. cbn.
    repeat (split; [lia|]). split; [left; reflexivity|]. split; [lia|].
    intros _. destruct Hend2 as (b & stepId & usage & taskId & model & provider & sub & ->).
    destruct (ar_status reviewerResult); try discriminate.
    exists (o1 ++ b), stepId, usage, taskId, model, provider, sub.
    rewrite app_assoc. reflexivity. }
  assert (Hnext : forall (context : string) (w' : Workflow),
             bounded later (List.length artifacts + 2)
               (outputs (cycleFrom config uuid now stringify toText providers getTools
                           getSystemPrompt agentAborted engineAborted hasSignals signalsText
                           random specContext originalDescription fileScope depth options
                           later (S attempt) context
                           ((artifacts ++ [ar_artifact executorResult])
                            ++ [ar_artifact reviewerResult]) w'))
               (returned (cycleFrom config uuid now stringify toText providers getTools
                            getSystemPrompt agentAborted engineAborted hasSignals signalsText
                            random specContext originalDescription fileScope depth options
                            later (S attempt) context
                            ((artifacts ++ [ar_artifact executorResult])
                             ++ [ar_artifact reviewerResult]) w'))).
  { intros context w'.
    replace (List.length artifacts + 2)%nat
      with (List.length ((artifacts ++ [ar_artifact executorResult])
                         ++ [ar_artifact reviewerResult]))
      by (rewrite !length_app; cbn; lia).
    apply IH. lia. }
  destruct (attempt <? getMaxRetries config)%nat eqn:Hlt.
  2: { rewrite !outputs_after, !returned_after, app_assoc.
       apply bounded_after with (retried := 0%nat);
         rewrite ?stepStarts_app, ?stepRetries_app, ?Hr1, ?Hr2;
         try reflexivity; try lia.
       apply Hnext. }
  apply Nat.ltb_lt in Hlt.
  rewrite (bind_after (log _ _ _) _ w2 w2 _ tt eq_refl).
  destruct (retryReason toText _) as [reason|e].
  2: { cbn. rewrite ?app_nil_r. unfold bounded.
       rewrite !stepStarts_app, !stepRetries_app, Hr1, Hr2. cbn.
       repeat (split; [lia|]). exact I. }
  rewrite (bind_after (ret reason) _ w2 w2 [] reason eq_refl), after_nil.
  rewrite (bind_after (emit _) _ w2 w2 _ tt eq_refl).
  destruct (checkIn_shape (Some depth) w2) as (o3 & w3 & E3 & Hcheck).
  rewrite (bind_after _ _ _ _ _ _ E3).
  rewrite (bind_after get _ w3 w3 [] w3 eq_refl), after_nil.
  assert (Hsteward : (stepStarts steward o3 <= 1)%nat /\ stepStarts executor o3 = 0%nat /\
                     stepStarts reviewer o3 = 0%nat /\ stepStarts analyzer o3 = 0%nat /\
                     stepStarts planner o3 = 0%nat /\ stepStarts coordinator o3 = 0%nat /\
                     stepStarts oracle o3 = 0%nat /\ stepRetries o3 = []).
  { destruct Hcheck as [[-> _]|(before & d & idx & -> & Hs & Hr & _)].
    - cbn. repeat split; lia.
    - destruct (role_counts _ _ Hs) as (A3 & P3 & X3 & V3 & C3 & T3 & O3).
      rewrite !stepStarts_app, stepRetries_app, Hr. cbn. repeat split; lia. }
  destruct Hsteward as (S1 & S2 & S3 & S4 & S5 & S6 & S7 & S8).
  assert (Hgoal : forall (context : string) (w' : Workflow),
             bounded (S later) (List.length artifacts)
               (o1 ++ o2 ++ [Log "workflow"
                                  "The mirror reflects — revision needed (attempt %d/%d)"
                                  [pretty (attempt + 1)%nat; pretty (getMaxRetries config)]]
                    ++ [Emit (StepRetry ("executor-retry-" +:+ pretty (attempt + 1)%nat)
                                (attempt + 1) (getMaxRetries config) reason)] ++ o3
                ++ outputs (cycleFrom config uuid now stringify toText providers getTools
                              getSystemPrompt agentAborted engineAborted hasSignals signalsText
                              random specContext originalDescription fileScope depth options
                              later (S attempt) context
                              ((artifacts ++ [ar_artifact executorResult])
                               ++ [ar_artifact reviewerResult]) w'))
               (returned (cycleFrom config uuid now stringify toText providers getTools
                            getSystemPrompt agentAborted engineAborted hasSignals signalsText
                            random specContext originalDescription fileScope depth options
                            later (S attempt) context
                            ((artifacts ++ [ar_artifact executorResult])
                             ++ [ar_artifact reviewerResult]) w'))).
  { intros context w'.
    match goal with
    | |- bounded _ _ (o1 ++ o2 ++ ?l ++ ?e ++ o3 ++ ?x) _ =>
        replace (o1 ++ o2 ++ l ++ e ++ o3 ++ x) with ((o1 ++ o2 ++ l ++ e ++ o3) ++ x)
          by (rewrite <- !app_assoc; reflexivity)
    end.
    apply bounded_after with (retried := 1%nat);
      rewrite ?stepStarts_app, ?stepRetries_app, ?length_app, ?Hr1, ?Hr2, ?S8;
      try reflexivity; cbn; try lia.
    apply Hnext. }
  destruct (pendingOversightNudge (engine w3)) as [nudge|];
    [destruct (JS.truthy nudge)|].
  - match goal with
    | |- context [bind (bind (modify ?f) (fun _ => ret ?v)) _ w3] =>
        rewrite (bind_after (bind (modify f) (fun _ => ret v)) _ w3 (f w3) [] v eq_refl)
    end.
    rewrite after_nil, !outputs_after, !returned_after. apply Hgoal.
  - match goal with
    | |- context [bind (ret ?v) _ w3] =>
        rewrite (bind_after (ret v) _ w3 w3 [] v eq_refl)
    end.
    rewrite after_nil, !outputs_after, !returned_after. apply Hgoal.
  - match goal with
    | |- context [bind (ret ?v) _ w3] =>
        rewrite (bind_after (ret v) _ w3 w3 [] v eq_refl)
    end.
    rewrite after_nil, !outputs_after, !returned_after. apply Hgoal.
Qed.


(** X19. With providers whose tool calls carry arguments,
    [maybeOversightCheckIn] returns. Either it does nothing at all (no
    output, the engine as it was), or it runs exactly one agent, the
    steward, and ends with one [oversight:check_in] event whose [hasNudge]
    tells whether a nudge is now pending. It only runs with a tracker; inside
    a composite it runs only while [oversightCycleCount] is below
    [maxOversightPerComposite] (2 when not configured) and then raises the
    count by one; at a retry it leaves the count as it is. *)
Theorem check_in_runs_the_steward_at_most_once_and_below_the_cap
    (executorDepth : option nat) (w : Workflow) :
  exists outs w',
    maybeOversightCheckIn config uuid now stringify providers getTools getSystemPrompt
                          agentAborted hasSignals signalsText random executorDepth w
    = (outs, w', Ok tt) /\
    ((outs = [] /\ w' = w) \/
     (exists before depth subtaskIndex,
        outs = before ++ [Emit (OversightCheckIn depth subtaskIndex
                                  match pendingOversightNudge (engine w') with
                                  | Some _ => true
                                  | None => false
                                  end)] /\
        (forall r, stepStarts r before = if decide (r = steward) then 1%nat else 0%nat) /\
        stepRetries before = [] /\
        taskCounter w' = S (taskCounter w) /\
        oversightTracker (engine w) <> None /\
        match compositeOversightContext (engine w) with
        | Some ctx =>
            depth = oc_depth ctx /\ subtaskIndex = Some (oc_currentSubtaskIndex ctx) /\
            (oversightCycleCount (engine w)
             < match maxOversightPerComposite config with Some n => n | None => 2 end)%nat /\
            oversightCycleCount (engine w') = S (oversightCycleCount (engine w))
        | None =>
            depth = match executorDepth with Some d => d | None => 0%nat end /\
            subtaskIndex = None /\
            oversightCycleCount (engine w') = oversightCycleCount (engine w)
        end)).
Proof.
  apply checkIn_shape.
Qed.

(** X20. With providers whose tool calls carry arguments, whatever else the
    agents answer and whether it returns or throws,
    [runExecuteReviewCycle] starts at most [maxRetries + 1] executors, at
    most as many reviewers as executors, emits at most [maxRetries]
    [step:retry] events, each after a review, runs the steward at most once
    per retry and starts no agent of another role. When it returns, the
    status is [completed] or [failed], the artifacts are one per executor and
    reviewer run, and [completed] is returned only when the last output is
    the [step:complete] of a reviewer whose status is [completed]. *)
Theorem cycle_runs_are_bounded_by_maxRetries
    (specContext originalDescription : string) (fileScope : option (list string))
    (depth : nat) (options : CycleOptions) (w : Workflow) :
  let x := runExecuteReviewCycle config uuid now stringify toText providers getTools
             getSystemPrompt agentAborted engineAborted hasSignals signalsText random
             specContext originalDescription fileScope depth options w in
  let executors := stepStarts executor (outputs x) in
  let reviewers := stepStarts reviewer (outputs x) in
  let retries := List.length (stepRetries (outputs x)) in
  (executors <= S (getMaxRetries config))%nat /\
  (reviewers <= executors)%nat /\
  (retries <= reviewers)%nat /\
  (retries <= getMaxRetries config)%nat /\
  (stepStarts steward (outputs x) <= retries)%nat /\
  (forall role, role <> executor -> role <> reviewer -> role <> steward ->
                stepStarts role (outputs x) = 0%nat) /\
  forall result,
    returned x = Ok result ->
    (wr_status result = ws_completed \/ wr_status result = ws_failed) /\
    List.length (wr_artifacts result) = (executors + reviewers)%nat /\
    (wr_status result = ws_completed ->
     exists before stepId usage taskId model provider subtaskId,
       outputs x = before ++ [Emit (StepComplete stepId reviewer ars_completed usage taskId
                                                 model provider subtaskId)]).
Proof.
  cbv zeta. unfold runExecuteReviewCycle.
  match goal with
  | |- context [cycleFrom _ _ _ _ _ _ _ _ _ _ _ _ _ _ _ _ _ _ ?rem ?attempt ?context ?arts w] =>
      pose proof (cycleFrom_bounded specContext originalDescription fileScope depth options
                    rem attempt context arts w ltac:(lia)) as H
  end.
  destruct H as (B1 & B2 & B3 & B4 & B5 & B6 & B7 & B8 & B9 & Hr).
  cbn [pred] in B4.
  repeat (split; [lia|]).
  split.
  { intros role H1 H2 H3. destruct role; congruence. }
  intros result Hres. rewrite Hres in Hr. destruct Hr as (Hst & Hlen & Hend).
  split; [exact Hst|]. split; [exact Hlen|]. exact Hend.
Qed.

End CycleProps.

Section CycleScenario.
Import WorkflowEngine Config WorkflowSteps StepEvents CycleSummary.

Lemma check_in_runs_the_steward_at_most_once_and_below_the_cap_witness :
  providersCarryArguments text_providers /\
  exists outs w',
    maybeOversightCheckIn default_config uuid_stream "2026-01-01T00:00:00.000Z"
      stringify_members text_providers role_toolset (fun _ => "system") (fun _ _ => false)
      (fun _ => true) (fun _ => "{}") (fun _ => 0%Q) (Some 1%nat) started_workflow
    = (outs, w', Ok tt).
Proof.
  split; [exact text_providers_carry|].
  destruct (check_in_runs_the_steward_at_most_once_and_below_the_cap default_config
              uuid_stream "2026-01-01T00:00:00.000Z" stringify_members text_providers
              role_toolset (fun _ => "system") (fun _ _ => false)
              (fun _ => true) (fun _ => "{}") (fun _ => 0%Q) text_providers_carry
              (Some 1%nat) started_workflow)
    as (outs & w' & E & _).
  exists outs, w'. exact E.
Defined.

Lemma cycle_runs_are_bounded_by_maxRetries_witness :
  let x := runExecuteReviewCycle default_config uuid_stream "2026-01-01T00:00:00.000Z"
             stringify_members stringify_members text_providers role_toolset
             (fun _ => "system") (fun _ _ => false) (fun _ => false)
             (fun _ => false) (fun _ => "{}") (fun _ => 0%Q)
             "Add the printer" "Build the tool" None 0
             {| executorMaxTurns := None; executorContextPrefix := None;
                reviewerMaxTurns := None; co_reviewerModel := None; co_subtaskId := None |}
             started_workflow in
  providersCarryArguments text_providers /\
  (stepStarts executor (outputs x) <= 3)%nat /\
  (stepStarts reviewer (outputs x) <= stepStarts executor (outputs x))%nat.
Proof.
  intros x. split; [exact text_providers_carry|].
  pose proof (cycle_runs_are_bounded_by_maxRetries default_config uuid_stream
                "2026-01-01T00:00:00.000Z" stringify_members stringify_members
                text_providers role_toolset (fun _ => "system") (fun _ _ => false)
                (fun _ => false) (fun _ => false) (fun _ => "{}") (fun _ => 0%Q)
                text_providers_carry
                "Add the printer" "Build the tool" None 0%nat
                {| executorMaxTurns := None; executorContextPrefix := None;
                   reviewerMaxTurns := None; co_reviewerModel := None;
                   co_subtaskId := None |}
                started_workflow) as H.
  cbv zeta in H. destruct H as (H1 & H2 & _).
  split; [exact H1|exact H2].
Defined.

End CycleScenario.


Section EscalationProps.
Import WorkflowEngine Config WorkflowSteps StepEvents Escalation.

Variable config : BabylonConfig.
Variable uuid : nat -> string.
Variable now : string.
Variable stringify : Json.value -> string.
Variable providers : list (string * (nat -> nat -> list LLMMessage -> outcome LLMResponse)).
Variable getTools : nat -> AgentRole -> bool -> ToolSet.
Variable getSystemPrompt : AgentRole -> string.
Variable agentAborted : nat -> nat -> bool.

Hypothesis providers_carry : providersCarryArguments providers.

Lemma decisions_app (o1 o2 : list Out) : decisions (o1 ++ o2) = decisions o1 ++ decisions o2.
Proof. unfold decisions. rewrite emitted_app_outs. apply List.filter_app. Qed.

Lemma agentOut_no_decisions (agentId : string) (outs : list Out) :
  Forall (agentOut agentId) outs -> decisions outs = [].
Proof.
  induction 1 as [|o outs Ho _ IH]; [reflexivity|].
  change (o :: outs) with ([o] ++ outs). rewrite decisions_app, IH.
  destruct o as [e|]; [destruct e; try destruct Ho|]; reflexivity.
Qed.

Lemma logs_no_decisions (outs : list Out) :
  Forall (fun o => exists namespace format args, o = Log namespace format args) outs ->
  decisions outs = [].
Proof.
  induction 1 as [|o outs (a & b & c & ->) _ IH]; [reflexivity|].
  change (Log a b c :: outs) with ([Log a b c] ++ outs). rewrite decisions_app, IH.
  reflexivity.
Qed.

(** What the callers of [runAgent] in this part use of it. *)
Lemma runAgent_recorded
    (role : AgentRole) (userMessage : string) (parentContext : option string)
    (fileScope : option (list string)) (depth : nat) (agentOptions : AgentOptions)
    (w : Workflow) :
  exists outs w' result,
    runAgent config uuid now stringify providers getTools getSystemPrompt agentAborted
             role userMessage parentContext fileScope depth agentOptions w
    = (outs, w', Ok result) /\
    (forall r, stepStarts r outs = if decide (r = role) then 1%nat else 0%nat) /\
    decisions outs = [] /\
    taskCounter w' = S (taskCounter w) /\
    (providers <> [] -> allAgentResults w' = allAgentResults w ++ [result]).
Proof.
  destruct (runAgent_tally config uuid now stringify providers getTools getSystemPrompt
              agentAborted providers_carry role userMessage parentContext fileScope depth agentOptions w)
    as (outs & w' & result & E & Hs & _ & Hk & _).
  destruct (runAgent_shape config uuid now stringify providers getTools getSystemPrompt
              agentAborted providers_carry role userMessage parentContext fileScope depth agentOptions w)
    as (outs2 & w2 & result2 & taskId & model & provider & sub & before & during
        & E2 & Hout & _ & Hbefore & _ & Hcases).
  rewrite E in E2. injection E2 as <- <- <-.
  exists outs, w', result. split; [exact E|]. split; [exact Hs|].
  split; [|split; [exact Hk|]].
  - rewrite Hout, !decisions_app, (logs_no_decisions _ Hbefore).
    destruct Hcases as [(_ & -> & _)|(_ & _ & description & rest & -> & Hall)].
    + reflexivity.
    + change (Emit (AgentSpawn (uuid (uuidCount (engine w))) role None
                      (Some (roleName role +:+ "-" +:+ pretty (S (taskCounter w))))
                      description) :: rest)
        with ([Emit (AgentSpawn (uuid (uuidCount (engine w))) role None
                       (Some (roleName role +:+ "-" +:+ pretty (S (taskCounter w))))
                       description)] ++ rest).
      rewrite decisions_app, (agentOut_no_decisions _ _ Hall). reflexivity.
  - intros Hproviders.
    destruct Hcases as [(Hnone & _)|(_ & Hres & _)]; [contradiction|exact Hres].
Qed.

(** X21. With providers whose tool calls carry arguments,
    [runStewardAndParse] returns an action, never [null]: it starts exactly
    one agent, the steward, and the action is what
    [parseStewardOutput] reads in the content of the steward's result, or
    [escalate] when that content cannot be read. *)
Theorem steward_answer_is_parsed_or_escalates
    (originalDescription : string) (plan : Decomposition)
    (subtaskResults : list WorkflowResult) (coordinatorResult : AgentResult)
    (reviewNotes : string) (depth : nat) (oracleNudge : option string) (w : Workflow) :
  exists outs w' action,
    runStewardAndParse config uuid now stringify providers getTools getSystemPrompt
                       agentAborted originalDescription plan subtaskResults coordinatorResult
                       reviewNotes depth oracleNudge w
    = (outs, w', Ok (Some action)) /\
    (forall r, stepStarts r outs = if decide (r = steward) then 1%nat else 0%nat) /\
    taskCounter w' = S (taskCounter w) /\
    (providers <> [] ->
     exists result,
       allAgentResults w' = allAgentResults w ++ [result] /\
       action = match Parsers.parseStewardOutput (art_content (ar_artifact result)) with
                | Some parsed => parsed
                | None => escalateAction
                end).
Proof.
  unfold runStewardAndParse.
  match goal with
  | |- context [bind (runAgent _ _ _ _ _ _ _ _ ?role ?msg ?pc ?fs ?d ?ao) _ w] =>
      destruct (runAgent_recorded role msg pc fs d ao w)
        as (o & w1 & result & E & Hs & _ & Hk & Hres);
      rewrite (bind_after _ _ _ _ _ _ E)
  end.
  cbv beta.
  destruct (Parsers.parseStewardOutput (art_content (ar_artifact result))) as [parsed|] eqn:Ep;
    cbn; rewrite app_nil_r; eexists _, _, _; (split; [reflexivity|]);
    (split; [exact Hs|]); (split; [exact Hk|]);
    intros Hp; exists result; (split; [exact (Hres Hp)|]); rewrite Ep; reflexivity.
Qed.

(** X22. With providers whose tool calls carry arguments, [runOracle]
    returns. Its first output is the [oracle:invoked] event, whose summary
    has at most 200 characters; it then
    starts exactly one agent, the oracle. It emits [oracle:decision] exactly
    when it returns an action, once, as its last output and with the action
    it returns; the action is what [parseOracleOutput] reads in the content
    of the oracle's result. *)
Theorem oracle_decision_is_emitted_iff_an_action_is_returned
    (originalDescription : string) (plan : Decomposition)
    (subtaskResults : list WorkflowResult) (coordinatorResult : AgentResult)
    (reviewNotes : string) (w : Workflow) :
  exists summary rest w' answer,
    runOracle config uuid now stringify providers getTools getSystemPrompt agentAborted
              originalDescription plan subtaskResults coordinatorResult reviewNotes w
    = (Emit (OracleInvoked summary) :: rest, w', Ok answer) /\
    (String.length summary <= 200)%nat /\
    (forall r, stepStarts r rest = if decide (r = oracle) then 1%nat else 0%nat) /\
    match answer with
    | Some action =>
        decisions rest = [OracleDecision (oracleActionText (Parsers.or_action action))] /\
        exists before,
          rest = before ++ [Emit (OracleDecision (oracleActionText (Parsers.or_action action)))]
    | None => decisions rest = []
    end /\
    (providers <> [] ->
     exists result,
       allAgentResults w' = allAgentResults w ++ [result] /\
       answer = Parsers.parseOracleOutput (art_content (ar_artifact result))).
Proof.
  unfold runOracle.
  match goal with
  | |- context [bind (emit (OracleInvoked ?s)) _ w] =>
      rewrite (bind_after (emit (OracleInvoked s)) _ w w _ tt eq_refl);
      assert (Hlen : (String.length s <= 200)%nat)
  end.
  { unfold JS.sliceTo.
    match goal with |- (String.length (String.substring 0 200 ?s) <= 200)%nat => generalize s end.
    generalize 200%nat. intros n s. revert n.
    induction s as [|c s IH]; intros [|n]; cbn; try lia. specialize (IH n). lia. }
  match goal with
  | |- context [bind (runAgent _ _ _ _ _ _ _ _ ?role ?msg ?pc ?fs ?d ?ao) _ w] =>
      destruct (runAgent_recorded role msg pc fs d ao w)
        as (o & w1 & result & E & Hs & Hd & Hk & Hres);
      rewrite (bind_after _ _ _ _ _ _ E)
  end.
  cbv beta.
  destruct (Parsers.parseOracleOutput (art_content (ar_artifact result))) as [parsed|] eqn:Ep.
  - cbn. eexists _, _, _, _. split; [reflexivity|]. split; [exact Hlen|].
    split.
    { intros r. rewrite stepStarts_app, Hs. cbn. lia. }
    split.
    { split.
      - rewrite decisions_app, Hd. reflexivity.
      - exists o. reflexivity. }
    intros Hp. exists result. split; [exact (Hres Hp)|]. rewrite Ep. reflexivity.
  - cbn. rewrite app_nil_r. eexists _, _, _, _. split; [reflexivity|]. split; [exact Hlen|].
    split; [exact Hs|]. split; [exact Hd|].
    intros Hp. exists result. split; [exact (Hres Hp)|]. rewrite Ep. reflexivity.
Qed.

End EscalationProps.

Section EscalationScenario.
Import WorkflowEngine Config WorkflowSteps StepEvents Escalation.

Lemma steward_answer_is_parsed_or_escalates_witness :
  providersCarryArguments text_providers /\
  exists outs w' action,
    runStewardAndParse default_config uuid_stream "2026-01-01T00:00:00.000Z"
      stringify_members text_providers role_toolset (fun _ => "system") (fun _ _ => false)
      "Build the tool" plan_overlapping [] coordinator_result "The printer is missing" 0 None
      started_workflow
    = (outs, w', Ok (Some action)) /\
    taskCounter w' = 1%nat.
Proof.
  split; [exact text_providers_carry|].
  destruct (steward_answer_is_parsed_or_escalates default_config uuid_stream
              "2026-01-01T00:00:00.000Z" stringify_members text_providers role_toolset
              (fun _ => "system") (fun _ _ => false) text_providers_carry
              "Build the tool" plan_overlapping [] coordinator_result
              "The printer is missing" 0%nat None started_workflow)
    as (outs & w' & action & E & _ & Hk & _).
  exists outs, w', action. split; [exact E|exact Hk].
Defined.

Lemma oracle_decision_is_emitted_iff_an_action_is_returned_witness :
  providersCarryArguments text_providers /\
  exists summary rest w' answer,
    runOracle default_config uuid_stream "2026-01-01T00:00:00.000Z"
      stringify_members text_providers role_toolset (fun _ => "system") (fun _ _ => false)
      "Build the tool" plan_overlapping [] coordinator_result "The printer is missing"
      started_workflow
    = (Emit (OracleInvoked summary) :: rest, w', Ok answer) /\
    (String.length summary <= 200)%nat.
Proof.
  split; [exact text_providers_carry|].
  destruct (oracle_decision_is_emitted_iff_an_action_is_returned default_config uuid_stream
              "2026-01-01T00:00:00.000Z" stringify_members text_providers role_toolset
              (fun _ => "system") (fun _ _ => false) text_providers_carry
              "Build the tool" plan_overlapping [] coordinator_result
              "The printer is missing" started_workflow)
    as (summary & rest & w' & answer & E & Hlen & _).
  exists summary, rest, w', answer. split; [exact E|exact Hlen].
Defined.

End EscalationScenario.


Section TaskManagerCallsProps.
Import TaskManager TaskManagerCalls.

Variable keyToPath : string -> string.

Lemma mirrored_write (ids : list string) (m : t) (i : string) (task : TaskData) :
  apart keyToPath ids -> mirrored keyToPath ids m -> In i ids -> id task = i ->
  mirrored keyToPath ids
    {| tasks := <[ i := task ]> (tasks m);
       store := <[ keyToPath ("tasks/" +:+ i) := task ]> (store m) |}.
Proof.
  intros Hapart [Hm Hs] Hin Hid. split; cbn.
  - intros j t Hj. destruct (decide (j = i)) as [->|Hne].
    + rewrite lookup_insert_eq in Hj. injection Hj as <-.
      split; [exact Hin|]. split; [exact Hid|]. apply lookup_insert_eq.
    + rewrite lookup_insert_ne in Hj by congruence.
      destruct (Hm j t Hj) as (Hjin & Hjid & Hst). split; [exact Hjin|].
      split; [exact Hjid|].
      rewrite lookup_insert_ne; [exact Hst|].
      intros Heq. apply Hne. symmetry. exact (Hapart _ _ Hin Hjin Heq).
  - intros k t Hk. destruct (decide (k = keyToPath ("tasks/" +:+ i))) as [->|Hne].
    + rewrite lookup_insert_eq in Hk. injection Hk as <-. rewrite Hid.
      split; [exact Hin|reflexivity].
    + rewrite lookup_insert_ne in Hk by congruence. exact (Hs k t Hk).
Qed.

Lemma perform_mirrored (ids : list string) (c : Call) (m : t) :
  apart keyToPath ids -> (forall i, In i (idsOf c) -> In i ids) ->
  mirrored keyToPath ids m -> mirrored keyToPath ids (fst (perform keyToPath true c m)).
Proof.
  intros Hapart Hids Hm. pose proof Hm as [Hmem Hst].
  assert (Hknown : forall i task task',
             tasks m !! i = Some task -> id task' = id task ->
             mirrored keyToPath ids
               {| tasks := <[ i := task' ]> (tasks m);
                  store := <[ keyToPath ("tasks/" +:+ id task') := task' ]> (store m) |}).
  { intros i task task' E Hid. destruct (Hmem i task E) as (Hin & Hi & _).
    rewrite Hid, Hi. apply mirrored_write; [exact Hapart|exact Hm|exact Hin|].
    rewrite Hid. exact Hi. }
  destruct c as [uuid now d p|i s now|i c now|i r now|i a now|i ch now|i]; cbn;
    unfold create, updateStatus, setComplexity, assignRole, addArtifact, addSubtask, load,
      persist; cbn.
  - apply mirrored_write; [exact Hapart|exact Hm| |reflexivity].
    apply Hids. left. reflexivity.
  - destruct (tasks m !! i) as [task|] eqn:E; cbn; [|exact Hm].
    match goal with
    | |- mirrored _ _ {| tasks := <[ _ := ?t ]> _; store := _ |} =>
        exact (Hknown i task t E eq_refl)
    end.
  - destruct (tasks m !! i) as [task|] eqn:E; cbn; [|exact Hm].
    match goal with
    | |- mirrored _ _ {| tasks := <[ _ := ?t ]> _; store := _ |} =>
        exact (Hknown i task t E eq_refl)
    end.
  - destruct (tasks m !! i) as [task|] eqn:E; cbn; [|exact Hm].
    match goal with
    | |- mirrored _ _ {| tasks := <[ _ := ?t ]> _; store := _ |} =>
        exact (Hknown i task t E eq_refl)
    end.
  - destruct (tasks m !! i) as [task|] eqn:E; cbn; [|exact Hm].
    match goal with
    | |- mirrored _ _ {| tasks := <[ _ := ?t ]> _; store := _ |} =>
        exact (Hknown i task t E eq_refl)
    end.
  - destruct (tasks m !! i) as [task|] eqn:E; cbn; [|exact Hm].
    match goal with
    | |- mirrored _ _ {| tasks := <[ _ := ?t ]> _; store := _ |} =>
        exact (Hknown i task t E eq_refl)
    end.
  - destruct (tasks m !! i) as [task|] eqn:E; cbn; [exact Hm|].
    destruct (store m !! keyToPath ("tasks/" +:+ i)) as [loaded|] eqn:El; cbn; [|exact Hm].
    destruct (Hst _ _ El) as [Hlin Hkey].
    assert (Hin : In i ids) by (apply Hids; left; reflexivity).
    pose proof (Hapart _ _ Hin Hlin Hkey) as Hid.
    split; cbn; [|exact Hst].
    intros j t Hj. destruct (decide (j = i)) as [->|Hne].
    + rewrite lookup_insert_eq in Hj. injection Hj as <-.
      split; [exact Hin|]. split; [congruence|exact El].
    + rewrite lookup_insert_ne in Hj by congruence. exact (Hmem j t Hj).
Qed.

Lemma performAll_mirrored (ids : list string) (calls : list (Call * bool)) :
  apart keyToPath ids ->
  forall m, Forall (fun call => snd call = true) calls ->
            (forall call i, In call calls -> In i (idsOf (fst call)) -> In i ids) ->
            mirrored keyToPath ids m ->
            mirrored keyToPath ids (performAll keyToPath calls m).
Proof.
  intros Hapart.
  induction calls as [|[c ok] calls IH]; intros m Hok Hids Hm; [exact Hm|].
  inversion Hok as [|? ? Hc Hrest]; subst. cbn in Hc. subst ok.
  cbn. apply IH; [exact Hrest| |].
  - intros call i Hcall Hi. exact (Hids call i (or_intror Hcall) Hi).
  - apply perform_mirrored; [exact Hapart| |exact Hm].
    intros i Hi. exact (Hids (c, true) i (or_introl eq_refl) Hi).
Qed.

Lemma empty_mirrored (ids : list string) : mirrored keyToPath ids empty.
Proof.
  split; intros k task H; cbn in H; rewrite lookup_empty in H; discriminate.
Qed.

(** X23. While every write succeeds, each call is awaited before the next
    and no two of the ids the calls name are kept in the same file, memory
    and store of a task manager agree: after any sequence of [create],
    [updateStatus], [setComplexity], [assignRole], [addArtifact],
    [addSubtask] and [load] on a new manager over an empty store, every task
    [get] returns carries the id it was asked by, and a new manager over the
    same store loads exactly that task. *)
Theorem persisted_tasks_mirror_memory
    (calls : list (Call * bool)) (i : string) (task : TaskData) :
  Forall (fun call => snd call = true) calls ->
  apart keyToPath (flat_map (fun call => idsOf (fst call)) calls) ->
  get i (performAll keyToPath calls empty) = Some task ->
  id task = i /\
  snd (load keyToPath true i (reopen (performAll keyToPath calls empty))) = Ok (Some task).
Proof.
  intros Hok Hapart Hget.
  destruct (performAll_mirrored _ calls Hapart empty Hok) as [Hmem _].
  { intros call j Hcall Hj. apply in_flat_map. exists call. split; assumption. }
  { apply empty_mirrored. }
  destruct (Hmem i task Hget) as (_ & Hid & Hst). split; [exact Hid|].
  unfold load, reopen. cbn. rewrite lookup_empty, Hst. reflexivity.
Qed.

(** X24. A write that fails makes the call throw and leaves memory ahead
    of the store: the store is as it was, while memory holds the change the
    call would have made had the write succeeded. *)
Theorem failed_write_leaves_memory_changed_and_store_stale (c : Call) (m : t) :
  writes c m ->
  (exists e, snd (perform keyToPath false c m) = Throw e) /\
  store (fst (perform keyToPath false c m)) = store m /\
  tasks (fst (perform keyToPath false c m)) = tasks (fst (perform keyToPath true c m)).
Proof.
  destruct c as [uuid now d p|i s now|i c now|i r now|i a now|i ch now|i]; cbn;
    unfold create, updateStatus, setComplexity, assignRole, addArtifact, addSubtask, load,
      persist; cbn; intros Hw;
    try (destruct (tasks m !! i) as [task|]; [|congruence]); cbn;
    try (split; [eexists; reflexivity|split; reflexivity]).
  destruct Hw.
Qed.

End TaskManagerCallsProps.

Section TaskManagerCallsScenario.
Import TaskManager TaskManagerCalls.

Lemma persisted_tasks_mirror_memory_witness :
  let calls := [(Create "t1" "now" "build" None, true);
                (UpdateStatus "t1" ts_in_progress "later", true);
                (Create "t2" "now" "test" (Some "t1"), true)] in
  Forall (fun call => snd call = true) calls /\
  apart store_path (flat_map (fun call => idsOf (fst call)) calls) /\
  exists task,
    get "t1" (performAll store_path calls empty) = Some task /\
    status task = ts_in_progress /\
    id task = "t1" /\
    snd (load store_path true "t1" (reopen (performAll store_path calls empty)))
    = Ok (Some task).
Proof.
  intros calls.
  assert (Hok : Forall (fun call => snd call = true) calls) by (repeat constructor).
  assert (Hapart : apart store_path (flat_map (fun call => idsOf (fst call)) calls)).
  { intros a b Ha Hb. cbn in Ha, Hb.
    destruct Ha as [<-|[<-|[<-|[]]]]; destruct Hb as [<-|[<-|[<-|[]]]];
      intros H; try reflexivity; vm_compute in H; discriminate H. }
  assert (Hget : get "t1" (performAll store_path calls empty)
                 = Some {| id := "t1"; parentId := None; description := "build";
                           status := ts_in_progress; complexity := None;
                           assignedRole := None; artifacts := []; subtaskIds := [];
                           createdAt := "now"; updatedAt := "later" |}).
  { unfold calls, get, performAll, perform, forget, create, updateStatus, persist. cbn.
    rewrite lookup_insert_eq. cbn.
    rewrite lookup_insert_ne by discriminate. apply lookup_insert_eq. }
  split; [exact Hok|]. split; [exact Hapart|].
  eexists. split; [exact Hget|]. split; [reflexivity|].
  exact (persisted_tasks_mirror_memory store_path calls "t1" _ Hok Hapart Hget).
Defined.

(** The store of the source keeps two ids in one file when their paths
    normalise to the same: with such a [keyToPath], [load] under the second
    id returns the task of the first, whose [id] is not the one asked. *)
Example load_under_an_alias :
  let keyToPath := fun key : string =>
    if String.eqb key "tasks/x/../t1" then store_path "tasks/t1" else store_path key in
  let m := performAll keyToPath [(Create "t1" "now" "build" None, true);
                                 (Load "x/../t1", true)] empty in
  exists task, get "x/../t1" m = Some task /\ id task = "t1".
Proof.
  eexists. split.
  - unfold get, performAll, perform, forget, load, create, persist. cbn.
    rewrite lookup_insert_ne by discriminate. rewrite lookup_empty. cbn.
    rewrite lookup_insert_eq. cbn. apply lookup_insert_eq.
  - reflexivity.
Qed.

Lemma failed_write_leaves_memory_changed_and_store_stale_witness :
  let m := performAll store_path [(Create "t1" "now" "build" None, true)] empty in
  writes (UpdateStatus "t1" ts_completed "later") m /\
  (exists e, snd (perform store_path false (UpdateStatus "t1" ts_completed "later") m)
             = Throw e) /\
  store (fst (perform store_path false (UpdateStatus "t1" ts_completed "later") m)) = store m /\
  tasks (fst (perform store_path false (UpdateStatus "t1" ts_completed "later") m))
  = tasks (fst (perform store_path true (UpdateStatus "t1" ts_completed "later") m)).
Proof.
  intros m.
  assert (Hw : writes (UpdateStatus "t1" ts_completed "later") m).
  { unfold m, writes, performAll, perform, forget, create, persist. cbn.
    rewrite lookup_insert_eq. discriminate. }
  split; [exact Hw|].
  exact (failed_write_leaves_memory_changed_and_store_stale store_path _ m Hw).
Defined.

End TaskManagerCallsScenario.


Section ConvertMessagesProps.
Import AnthropicProvider.

Lemma toolResultsOf_app (a b : list MessageParam) :
  toolResultsOf (a ++ b) = toolResultsOf a ++ toolResultsOf b.
Proof. unfold toolResultsOf. rewrite !flat_map_concat_map, List.map_app, concat_app. reflexivity. Qed.

Lemma toolUsesOf_app (a b : list MessageParam) :
  toolUsesOf (a ++ b) = toolUsesOf a ++ toolUsesOf b.
Proof. unfold toolUsesOf. rewrite !flat_map_concat_map, List.map_app, concat_app. reflexivity. Qed.

Lemma userTextsOf_app (a b : list MessageParam) :
  userTextsOf (a ++ b) = userTextsOf a ++ userTextsOf b.
Proof. unfold userTextsOf. rewrite !flat_map_concat_map, List.map_app, concat_app. reflexivity. Qed.

Lemma blockResults_app (a b : list ContentBlock) :
  flat_map (fun b => match b with ToolResultBlock i c => [(i, c)] | _ => [] end) (a ++ b)
  = flat_map (fun b => match b with ToolResultBlock i c => [(i, c)] | _ => [] end) a
    ++ flat_map (fun b => match b with ToolResultBlock i c => [(i, c)] | _ => [] end) b.
Proof. rewrite !flat_map_concat_map, List.map_app, concat_app. reflexivity. Qed.

Lemma blockUses_app (a b : list ContentBlock) :
  flat_map (fun b => match b with
                     | ToolUseBlock i n input =>
                         [ {| call_id := i; call_name := n; call_arguments := input |} ]
                     | _ => []
                     end) (a ++ b)
  = flat_map (fun b => match b with
                       | ToolUseBlock i n input =>
                           [ {| call_id := i; call_name := n; call_arguments := input |} ]
                       | _ => []
                       end) a
    ++ flat_map (fun b => match b with
                          | ToolUseBlock i n input =>
                              [ {| call_id := i; call_name := n; call_arguments := input |} ]
                          | _ => []
                          end) b.
Proof. rewrite !flat_map_concat_map, List.map_app, concat_app. reflexivity. Qed.

Lemma toolResultsOf_one (m : MessageParam) :
  toolResultsOf [m]
  = flat_map (fun b => match b with ToolResultBlock i c => [(i, c)] | _ => [] end) (blocksOf m).
Proof. unfold toolResultsOf. cbn [flat_map]. apply app_nil_r. Qed.

Lemma toolUsesOf_one (m : MessageParam) :
  toolUsesOf [m]
  = flat_map (fun b => match b with
                       | ToolUseBlock i n input =>
                           [ {| call_id := i; call_name := n; call_arguments := input |} ]
                       | _ => []
                       end) (blocksOf m).
Proof. unfold toolUsesOf. cbn [flat_map]. apply app_nil_r. Qed.

(** What [pushToolResult] does to the conversation. *)
Lemma pushToolResult_holds (messages : list MessageParam) (i c : string) :
  toolResultsOf (pushToolResult messages (ToolResultBlock i c))
  = toolResultsOf messages ++ [(i, c)] /\
  toolUsesOf (pushToolResult messages (ToolResultBlock i c)) = toolUsesOf messages /\
  userTextsOf (pushToolResult messages (ToolResultBlock i c)) = userTextsOf messages /\
  (forall m, In m (pushToolResult messages (ToolResultBlock i c)) ->
             mp_role m = assistant -> In m messages) /\
  (resultsApart messages = true ->
   resultsApart (pushToolResult messages (ToolResultBlock i c)) = true) /\
  match messages with
  | m :: _ :: _ => List.hd m (pushToolResult messages (ToolResultBlock i c)) = m
  | [m] => isResults (List.hd m (pushToolResult messages (ToolResultBlock i c))) = isResults m
  | [] => True
  end.
Proof.
  induction messages as [|m rest IH].
  { cbn. repeat split; try reflexivity. intros m [<-|[]]. discriminate. }
  destruct rest as [|m2 rest].
  - destruct m as [[|] [t|blocks]]; cbn;
      rewrite ?blockResults_app, ?blockUses_app; cbn; rewrite ?app_nil_r;
      repeat split; try reflexivity;
      intros x Hin Hrole; cbn in Hin;
      repeat match goal with
             | H : _ \/ _ |- _ => destruct H as [H|H]
             | H : False |- _ => destruct H
             end; subst x; try discriminate; left; reflexivity.
  - destruct IH as (H1 & H2 & H3 & H4 & H5 & H6).
    change (pushToolResult (m :: m2 :: rest) (ToolResultBlock i c))
      with (m :: pushToolResult (m2 :: rest) (ToolResultBlock i c)).
    split.
    { change (m :: pushToolResult (m2 :: rest) (ToolResultBlock i c))
        with ([m] ++ pushToolResult (m2 :: rest) (ToolResultBlock i c)).
      change (m :: m2 :: rest) with ([m] ++ m2 :: rest).
      rewrite !toolResultsOf_app, H1, app_assoc. reflexivity. }
    split.
    { change (m :: pushToolResult (m2 :: rest) (ToolResultBlock i c))
        with ([m] ++ pushToolResult (m2 :: rest) (ToolResultBlock i c)).
      change (m :: m2 :: rest) with ([m] ++ m2 :: rest).
      rewrite !toolUsesOf_app, H2. reflexivity. }
    split.
    { change (m :: pushToolResult (m2 :: rest) (ToolResultBlock i c))
        with ([m] ++ pushToolResult (m2 :: rest) (ToolResultBlock i c)).
      change (m :: m2 :: rest) with ([m] ++ m2 :: rest).
      rewrite !userTextsOf_app, H3. reflexivity. }
    split.
    { intros x [<-|Hin] Hrole; [left; reflexivity|right; exact (H4 x Hin Hrole)]. }
    split; [|reflexivity].
    intros Hapart.
    change (resultsApart (m :: m2 :: rest))
      with (negb (isResults m && isResults m2) && resultsApart (m2 :: rest)) in Hapart.
    apply andb_true_iff in Hapart as [Hfirst Hrest].
    specialize (H5 Hrest).
    destruct (pushToolResult (m2 :: rest) (ToolResultBlock i c)) as [|p ps] eqn:Ep.
    { destruct rest as [|m3 rest]; [destruct m2 as [[|] [t|blocks]]|]; discriminate. }
    change (resultsApart (m :: p :: ps))
      with (negb (isResults m && isResults p) && resultsApart (p :: ps)).
    rewrite H5, andb_true_r.
    assert (Hp : isResults p = isResults m2).
    { destruct rest as [|m3 rest]; cbn in H6; [exact H6|rewrite H6; reflexivity]. }
    rewrite Hp. exact Hfirst.
Qed.

Lemma resultsApart_snoc (messages : list MessageParam) (m : MessageParam) :
  resultsApart messages = true -> isResults m = false ->
  resultsApart (messages ++ [m]) = true.
Proof.
  intros Hapart Hm. induction messages as [|a rest IH]; [reflexivity|].
  destruct rest as [|b rest].
  - cbn. rewrite Hm, andb_false_r. reflexivity.
  - change (resultsApart (a :: b :: rest))
      with (negb (isResults a && isResults b) && resultsApart (b :: rest)) in Hapart.
    apply andb_true_iff in Hapart as [Hfirst Hrest].
    change ((a :: b :: rest) ++ [m]) with (a :: b :: (rest ++ [m])).
    change (resultsApart (a :: b :: rest ++ [m]))
      with (negb (isResults a && isResults b) && resultsApart ((b :: rest) ++ [m])).
    rewrite Hfirst, (IH Hrest). reflexivity.
Qed.

(** What one message adds to the converted conversation. *)
Lemma convertMessage_holds (acc : ConvertedMessages) (msg : LLMMessage) :
  let out := anthropicMessages (convertMessage acc msg) in
  toolResultsOf out
  = toolResultsOf (anthropicMessages acc)
    ++ (if hasRole role_tool msg
        then [(match msg_toolCallId msg with Some i => i | None => EmptyString end,
               msg_content msg)]
        else []) /\
  toolUsesOf out
  = toolUsesOf (anthropicMessages acc)
    ++ (if hasRole role_assistant msg
        then match msg_toolCalls msg with Some calls => calls | None => [] end
        else []) /\
  userTextsOf out
  = userTextsOf (anthropicMessages acc)
    ++ (if hasRole role_user msg then [msg_content msg] else []) /\
  (resultsApart (anthropicMessages acc) = true -> resultsApart out = true) /\
  (Forall (fun m => mp_role m = assistant -> blocksOf m <> []) (anthropicMessages acc) ->
   Forall (fun m => mp_role m = assistant -> blocksOf m <> []) out).
Proof.
  cbv zeta. unfold convertMessage, hasRole.
  destruct (msg_role msg); cbn [anthropicMessages system].
  - rewrite !app_nil_r. repeat split; auto.
  - rewrite toolResultsOf_app, toolUsesOf_app, userTextsOf_app. cbn. rewrite !app_nil_r.
    repeat split; auto.
    + intros H. apply resultsApart_snoc; [exact H|reflexivity].
    + intros H. apply Forall_app. split; [exact H|].
      constructor; [discriminate|constructor].
  - set (blocks := (if JS.truthy (msg_content msg) then [TextBlock (msg_content msg)] else [])
                   ++ match msg_toolCalls msg with
                      | Some calls =>
                          List.map (fun tc => ToolUseBlock (call_id tc) (call_name tc)
                                                (call_arguments tc)) calls
                      | None => []
                      end).
    assert (Hblocks :
              flat_map (fun b => match b with ToolResultBlock i c => [(i, c)] | _ => [] end)
                       blocks = [] /\
              flat_map (fun b => match b with
                                 | ToolUseBlock i n input =>
                                     [ {| call_id := i; call_name := n;
                                          call_arguments := input |} ]
                                 | _ => []
                                 end) blocks
              = match msg_toolCalls msg with Some calls => calls | None => [] end).
    { unfold blocks. rewrite blockResults_app, blockUses_app.
      assert (Htext : forall l : list ContentBlock,
                 l = (if JS.truthy (msg_content msg) then [TextBlock (msg_content msg)] else []) ->
                 flat_map (fun b => match b with ToolResultBlock i c => [(i, c)] | _ => [] end) l
                 = [] /\
                 flat_map (fun b => match b with
                                    | ToolUseBlock i n input =>
                                        [ {| call_id := i; call_name := n;
                                             call_arguments := input |} ]
                                    | _ => []
                                    end) l = []).
      { intros l ->. destruct (JS.truthy (msg_content msg)); split; reflexivity. }
      destruct (Htext _ eq_refl) as [-> ->]. cbn [app].
      destruct (msg_toolCalls msg) as [calls|]; [|split; reflexivity].
      split; induction calls as [|[i n a] calls IH]; cbn; try reflexivity; try exact IH.
      rewrite IH. reflexivity. }
    destruct Hblocks as [Hres Huses].
    destruct blocks as [|b bs] eqn:Eb.
    + cbn in Huses. rewrite <- Huses, !app_nil_r. repeat split; auto.
    + cbn [anthropicMessages].
      rewrite toolResultsOf_app, toolUsesOf_app, userTextsOf_app.
      rewrite toolResultsOf_one, toolUsesOf_one. cbn [blocksOf mp_content].
      rewrite Hres, Huses. cbn [userTextsOf flat_map]. rewrite !app_nil_r.
      repeat split; auto.
      * intros H. apply resultsApart_snoc; [exact H|reflexivity].
      * intros H. apply Forall_app. split; [exact H|].
        constructor; [discriminate|constructor].
  - destruct (pushToolResult_holds (anthropicMessages acc)
                match msg_toolCallId msg with Some i => i | None => EmptyString end
                (msg_content msg)) as (H1 & H2 & H3 & H4 & H5 & _).
    rewrite H1, H2, H3, !app_nil_r. repeat split; auto.
    intros Hall. apply List.Forall_forall. intros m Hin Hrole.
    rewrite List.Forall_forall in Hall. exact (Hall m (H4 m Hin Hrole) Hrole).
Qed.

Lemma convertMessages_from (messages : list LLMMessage) :
  forall acc : ConvertedMessages,
    let out := anthropicMessages (fold_left convertMessage messages acc) in
    toolResultsOf out
    = toolResultsOf (anthropicMessages acc)
      ++ List.map (fun m => (match msg_toolCallId m with Some i => i | None => EmptyString end,
                             msg_content m))
                  (List.filter (hasRole role_tool) messages) /\
    toolUsesOf out
    = toolUsesOf (anthropicMessages acc)
      ++ flat_map (fun m => match msg_toolCalls m with Some calls => calls | None => [] end)
                  (List.filter (hasRole role_assistant) messages) /\
    userTextsOf out
    = userTextsOf (anthropicMessages acc)
      ++ List.map msg_content (List.filter (hasRole role_user) messages) /\
    (resultsApart (anthropicMessages acc) = true -> resultsApart out = true) /\
    (Forall (fun m => mp_role m = assistant -> blocksOf m <> []) (anthropicMessages acc) ->
     Forall (fun m => mp_role m = assistant -> blocksOf m <> []) out).
Proof.
  induction messages as [|msg messages IH]; intros acc; cbv zeta.
  { cbn. rewrite !app_nil_r. repeat split; auto. }
  cbn [fold_left List.filter].
  destruct (IH (convertMessage acc msg)) as (I1 & I2 & I3 & I4 & I5).
  destruct (convertMessage_holds acc msg) as (S1 & S2 & S3 & S4 & S5).
  rewrite I1, I2, I3, S1, S2, S3.
  repeat split; auto.
  - destruct (hasRole role_tool msg); cbn; rewrite <- ?app_assoc, ?app_nil_r; reflexivity.
  - destruct (hasRole role_assistant msg); cbn; rewrite <- ?app_assoc, ?app_nil_r; reflexivity.
  - destruct (hasRole role_user msg); cbn; rewrite <- ?app_assoc, ?app_nil_r; reflexivity.
Qed.

(** X25. [convertMessages] loses nothing and keeps the order: the
    [tool_result] blocks it sends are the tool messages (id, or the empty
    string, and content), the [tool_use] blocks are the tool calls of the
    assistant messages, and the user messages with a string content are the
    user messages. Consecutive tool results share one user message: no two
    neighbours are both messages of tool results; and no assistant message
    is sent without a block. *)
Theorem convertMessages_keeps_every_call_and_result (messages : list LLMMessage) :
  let out := anthropicMessages (convertMessages messages) in
  toolResultsOf out
  = List.map (fun m => (match msg_toolCallId m with Some i => i | None => EmptyString end,
                         msg_content m))
             (List.filter (hasRole role_tool) messages) /\
  toolUsesOf out
  = flat_map (fun m => match msg_toolCalls m with Some calls => calls | None => [] end)
             (List.filter (hasRole role_assistant) messages) /\
  userTextsOf out = List.map msg_content (List.filter (hasRole role_user) messages) /\
  resultsApart out = true /\
  Forall (fun m => mp_role m = assistant -> blocksOf m <> []) out.
Proof.
  cbv zeta. unfold convertMessages.
  destruct (convertMessages_from messages {| system := EmptyString; anthropicMessages := [] |})
    as (H1 & H2 & H3 & H4 & H5).
  repeat split; [exact H1|exact H2|exact H3|exact (H4 eq_refl)|].
  apply H5. constructor.
Qed.

End ConvertMessagesProps.


Section OrgChartProps.
Import WorkflowEngine OrgChartShape.

Lemma setRoot_consistent (taskId description : string) (isComposite : bool) :
  consistent (orgChart_setRoot taskId description isComposite).
Proof.
  intros i node Hi. unfold orgChart_setRoot in Hi.
  apply lookup_singleton_Some in Hi as [<- <-]. cbn.
  split; [reflexivity|]. split; [apply NoDup_nil_2|]. intros c Hin. inversion Hin.
Qed.

(** X26. In a chart where every node lists only existing children that
    name it as their parent, [addChild] with an id that is not yet in the
    chart keeps it so. The new node is a leaf (or composite) under its id
    with no children of its own, an existing parent lists it last, and no
    other node changes. *)
Theorem addChild_with_a_new_id_keeps_the_chart_consistent
    (childId parentId description : string) (depth : nat) (isComposite : bool)
    (nodes : gmap string OrgChartNode) :
  consistent nodes ->
  nodes !! childId = None ->
  let chart := orgChart_addChild childId parentId description depth isComposite nodes in
  consistent chart /\
  (exists child,
     getNode childId chart = Some child /\
     n_id child = childId /\ n_parentId child = Some parentId /\
     n_depth child = depth /\ n_composite child = isComposite /\
     n_childIds child = if decide (parentId = childId) then [childId] else []) /\
  (forall parent,
     nodes !! parentId = Some parent ->
     exists parent',
       getNode parentId chart = Some parent' /\
       n_childIds parent' = n_childIds parent ++ [childId]) /\
  (forall i, i <> childId -> i <> parentId -> getNode i chart = nodes !! i).
Proof.
  intros Hc Hnew. cbv zeta. unfold orgChart_addChild, getNode.
  set (node := {| n_id := childId; n_parentId := Some parentId; n_childIds := [];
                  n_composite := isComposite; n_description := description;
                  n_depth := depth; n_hasSteward := isComposite |}).
  assert (Hfresh : forall i n c, nodes !! i = Some n -> c ∈ n_childIds n -> c <> childId).
  { intros i n c Hi Hin ->. destruct (Hc i n Hi) as (_ & _ & Hch).
    destruct (Hch childId Hin) as (child & Hl & _). congruence. }
  destruct (decide (parentId = childId)) as [->|Hne].
  - rewrite lookup_insert_eq, insert_insert_eq.
    split.
    { intros i n Hi. destruct (decide (i = childId)) as [->|Hi'].
      - rewrite lookup_insert_eq in Hi. injection Hi as <-. cbn.
        split; [reflexivity|]. split; [apply NoDup_singleton|].
        intros c Hin. apply list_elem_of_singleton in Hin as ->.
        eexists. rewrite lookup_insert_eq. split; reflexivity.
      - rewrite lookup_insert_ne in Hi by congruence.
        destruct (Hc i n Hi) as (Hid & Hnd & Hch). split; [exact Hid|]. split; [exact Hnd|].
        intros c Hin. destruct (Hch c Hin) as (child & Hl & Hp).
        exists child. rewrite lookup_insert_ne; [split; assumption|].
        intros <-. exact (Hfresh i n childId Hi Hin eq_refl). }
    split.
    { eexists. rewrite lookup_insert_eq. repeat split; reflexivity. }
    split.
    { intros parent Hp. congruence. }
    intros i Hi _. rewrite lookup_insert_ne by congruence. reflexivity.
  - rewrite lookup_insert_ne by congruence.
    destruct (nodes !! parentId) as [parent|] eqn:Hparent.
    + destruct (Hc parentId parent Hparent) as (Hpid & Hpnd & Hpch).
      split.
      { intros i n Hi. destruct (decide (i = parentId)) as [->|Hi'].
        - rewrite lookup_insert_eq in Hi. injection Hi as <-. cbn.
          split; [exact Hpid|]. split.
          { apply NoDup_app. split; [exact Hpnd|]. split; [|apply NoDup_singleton].
            intros c Hin Hc'. apply list_elem_of_singleton in Hc' as ->.
            exact (Hfresh parentId parent childId Hparent Hin eq_refl). }
          intros c Hin. apply elem_of_app in Hin as [Hin|Hin];
            [|apply list_elem_of_singleton in Hin as ->].
          + destruct (Hpch c Hin) as (child & Hl & Hp).
            destruct (decide (c = parentId)) as [->|Hcp].
            * eexists. rewrite lookup_insert_eq. split; [reflexivity|]. cbn. congruence.
            * exists child. rewrite lookup_insert_ne by congruence.
              rewrite lookup_insert_ne; [split; assumption|].
              intros <-. exact (Hfresh parentId parent childId Hparent Hin eq_refl).
          + exists node. rewrite lookup_insert_ne by congruence.
            rewrite lookup_insert_eq. split; reflexivity.
        - rewrite lookup_insert_ne in Hi by congruence.
          destruct (decide (i = childId)) as [->|Hic].
          + rewrite lookup_insert_eq in Hi. injection Hi as <-. cbn.
            split; [reflexivity|]. split; [apply NoDup_nil_2|]. intros c Hin. inversion Hin.
          + rewrite lookup_insert_ne in Hi by congruence.
            destruct (Hc i n Hi) as (Hid & Hnd & Hch).
            split; [exact Hid|]. split; [exact Hnd|].
            intros c Hin. destruct (Hch c Hin) as (child & Hl & Hp).
            destruct (decide (c = parentId)) as [->|Hcp].
            * eexists. rewrite lookup_insert_eq. split; [reflexivity|]. cbn. congruence.
            * exists child. rewrite lookup_insert_ne by congruence.
              rewrite lookup_insert_ne; [split; assumption|].
              intros <-. exact (Hfresh i n childId Hi Hin eq_refl). }
      split.
      { exists node. rewrite lookup_insert_ne by congruence. rewrite lookup_insert_eq.
        repeat split; reflexivity. }
      split.
      { intros parent0 Hp0. injection Hp0 as <-. eexists. rewrite lookup_insert_eq.
        split; reflexivity. }
      intros i Hi Hip. rewrite !lookup_insert_ne by congruence. reflexivity.
    + split.
      { intros i n Hi. destruct (decide (i = childId)) as [->|Hic].
        - rewrite lookup_insert_eq in Hi. injection Hi as <-. cbn.
          split; [reflexivity|]. split; [apply NoDup_nil_2|]. intros c Hin. inversion Hin.
        - rewrite lookup_insert_ne in Hi by congruence.
          destruct (Hc i n Hi) as (Hid & Hnd & Hch).
          split; [exact Hid|]. split; [exact Hnd|].
          intros c Hin. destruct (Hch c Hin) as (child & Hl & Hp).
          exists child. rewrite lookup_insert_ne; [split; assumption|].
          intros <-. exact (Hfresh i n childId Hi Hin eq_refl). }
      split.
      { exists node. rewrite lookup_insert_eq. repeat split; reflexivity. }
      split.
      { intros parent Hp. discriminate. }
      intros i Hi _. rewrite lookup_insert_ne by congruence. reflexivity.
Qed.

Lemma addChild_with_a_new_id_keeps_the_chart_consistent_witness :
  let nodes := orgChart_setRoot "root" "build the site" false in
  let chart := orgChart_addChild "a" "root" "write the page" 1 false nodes in
  consistent nodes /\ nodes !! "a" = None /\
  consistent chart /\
  (exists child,
     getNode "a" chart = Some child /\
     n_id child = "a" /\ n_parentId child = Some "root" /\
     n_depth child = 1%nat /\ n_composite child = false /\
     n_childIds child = if decide ("root" = "a") then ["a"] else []) /\
  (forall parent,
     nodes !! "root" = Some parent ->
     exists parent',
       getNode "root" chart = Some parent' /\
       n_childIds parent' = n_childIds parent ++ ["a"]) /\
  (forall i, i <> "a" -> i <> "root" -> getNode i chart = nodes !! i).
Proof.
  intros nodes chart.
  assert (Hc : consistent nodes) by apply setRoot_consistent.
  assert (Hnew : nodes !! "a" = None).
  { unfold nodes, orgChart_setRoot. apply lookup_singleton_ne. discriminate. }
  split; [exact Hc|]. split; [exact Hnew|].
  exact (addChild_with_a_new_id_keeps_the_chart_consistent
           "a" "root" "write the page" 1 false nodes Hc Hnew).
Defined.

End OrgChartProps.


Section OverlapOrderProps.
Import WorkflowEngine.

Lemma scopeListsOverlap_sym (a b : list string) :
  scopeListsOverlap a b -> scopeListsOverlap b a.
Proof.
  intros [H|[H|(pa & pb & Ha & Hb & H)]]; [right; left; exact H|left; exact H|].
  right; right. exists pb, pa. split; [exact Hb|]. split; [exact Ha|].
  destruct H as [->|[H|H]]; auto.
Qed.

Lemma overlap_pairs (sts : list SubtaskDef) :
  haveOverlappingFileScopes sts = true <->
  exists i j si sj, i <> j /\ sts !! i = Some si /\ sts !! j = Some sj /\
    scopeListsOverlap (sd_fileScope si) (sd_fileScope sj).
Proof.
  rewrite haveOverlappingFileScopes_iff. split.
  - intros (i & j & si & sj & Hlt & Hi & Hj & H). exists i, j, si, sj.
    repeat split; [lia|exact Hi|exact Hj|exact H].
  - intros (i & j & si & sj & Hne & Hi & Hj & H).
    destruct (Nat.lt_ge_cases i j) as [Hlt|Hge].
    + exists i, j, si, sj. repeat split; [exact Hlt|exact Hi|exact Hj|exact H].
    + exists j, i, sj, si. repeat split; [lia|exact Hj|exact Hi|].
      apply scopeListsOverlap_sym. exact H.
Qed.

(** X27. The answer of [haveOverlappingFileScopes] does not depend on the
    order of the subtasks: it is [true] exactly when two subtasks at
    different positions have overlapping scopes, an empty scope overlapping
    with every other one. *)
Theorem overlap_does_not_depend_on_subtask_order (sts sts' : list SubtaskDef) :
  sts ≡ₚ sts' ->
  haveOverlappingFileScopes sts = haveOverlappingFileScopes sts' /\
  (haveOverlappingFileScopes sts = true <->
   exists i j si sj, i <> j /\ sts !! i = Some si /\ sts !! j = Some sj /\
     scopeListsOverlap (sd_fileScope si) (sd_fileScope sj)).
Proof.
  intros Hperm. split; [|apply overlap_pairs].
  assert (Hmove : forall l k : list SubtaskDef,
             l ≡ₚ k -> haveOverlappingFileScopes l = true ->
             haveOverlappingFileScopes k = true).
  { intros l k Hlk H. apply overlap_pairs in H as (i & j & si & sj & Hne & Hi & Hj & H).
    apply Permutation_inj in Hlk as (_ & f & Hinj & Hf).
    apply overlap_pairs. exists (f i), (f j), si, sj.
    rewrite <- !Hf. repeat split; [|exact Hi|exact Hj|exact H].
    intros Heq. apply Hne. exact (Hinj _ _ Heq). }
  destruct (haveOverlappingFileScopes sts) eqn:E1;
    destruct (haveOverlappingFileScopes sts') eqn:E2; try reflexivity.
  - rewrite (Hmove sts sts' Hperm E1) in E2. discriminate.
  - symmetry in Hperm. rewrite (Hmove sts' sts Hperm E2) in E1. discriminate.
Qed.

Lemma overlap_does_not_depend_on_subtask_order_witness :
  let a := {| sd_description := "api"; sd_fileScope := ["src/api/"]; sd_skipAnalysis := false |} in
  let b := {| sd_description := "ui"; sd_fileScope := ["src/ui"]; sd_skipAnalysis := false |} in
  let c := {| sd_description := "routes"; sd_fileScope := ["src/api/routes.ts"];
              sd_skipAnalysis := false |} in
  [a; b; c] ≡ₚ [c; b; a] /\
  haveOverlappingFileScopes [a; b; c] = haveOverlappingFileScopes [c; b; a] /\
  haveOverlappingFileScopes [a; b; c] = true.
Proof.
  intros a b c.
  assert (Hperm : [a; b; c] ≡ₚ [c; b; a]).
  { change [c; b; a] with (rev [a; b; c]). apply Permutation_rev. }
  split; [exact Hperm|].
  split; [exact (proj1 (overlap_does_not_depend_on_subtask_order _ _ Hperm))|].
  vm_compute. reflexivity.
Defined.

End OverlapOrderProps.


Section FileWalkProps.
Import FileWalk.

Variable glob : option (string -> outcome bool).
Variable maxFiles : nat.

(** The pattern of the glob compiles and its test returns. *)
Hypothesis glob_tests : forall test name, glob = Some test -> exists b, test name = Ok b.

Lemma firstn_full {A} (n : nat) (l k : list A) :
  (n <= List.length l)%nat -> firstn n (l ++ k) = firstn n l.
Proof.
  intros H. rewrite List.firstn_app.
  replace (n - List.length l)%nat with 0%nat by lia. cbn. apply app_nil_r.
Qed.

Lemma visit_collects :
  forall (n : nat) (e : Entry) (relDir : list string) (results : list string),
    (size e <= n)%nat ->
    (List.length results < maxFiles)%nat ->
    visit glob maxFiles relDir e results
    = Ok (firstn maxFiles (results ++ List.map (JS.join "/") (pathsOf glob relDir e))).
Proof.
  induction n as [|n IH]; intros e relDir results Hsize Hlen.
  { destruct e; cbn in Hsize; lia. }
  destruct e as [name|name readable entries].
  - cbn [visit pathsOf]. unfold accepts.
    destruct glob as [test|] eqn:Eg.
    + destruct (glob_tests test name eq_refl) as [b ->]. destruct b; cbn.
      * rewrite List.firstn_all2; [reflexivity|]. rewrite length_app. cbn. lia.
      * rewrite app_nil_r, List.firstn_all2; [reflexivity|lia].
    + cbn. rewrite List.firstn_all2; [reflexivity|]. rewrite length_app. cbn. lia.
  - cbn [visit pathsOf].
    change (size (Dir name readable entries))
      with (S (list_sum (List.map size entries))) in Hsize.
    destruct (isSkipped name);
      [cbn; rewrite app_nil_r, List.firstn_all2; [reflexivity|lia]|].
    destruct (JS.startsWith (JS.join "/" (relDir ++ [name])) "..");
      [cbn; rewrite app_nil_r, List.firstn_all2; [reflexivity|lia]|].
    destruct (maxFiles <=? List.length results)%nat eqn:Elim;
      [apply Nat.leb_le in Elim; lia|].
    destruct readable; cbn [negb orb];
      [|rewrite app_nil_r, List.firstn_all2; [reflexivity|lia]].
    assert (Hentries : (list_sum (List.map size entries) <= n)%nat) by lia.
    clear Hsize Elim. revert results Hlen Hentries.
    induction entries as [|e rest IHrest]; intros results Hlen Hentries.
    + cbn. rewrite app_nil_r, List.firstn_all2; [reflexivity|lia].
    + cbn [forEntries].
      change (list_sum (List.map size (e :: rest)))
        with (size e + list_sum (List.map size rest))%nat in Hentries.
      destruct (maxFiles <=? List.length results)%nat eqn:Elim;
        [apply Nat.leb_le in Elim; lia|].
      rewrite (IH e (relDir ++ [name]) results) by lia.
      cbn [flat_map]. rewrite List.map_app, app_assoc.
      set (found := results ++ List.map (JS.join "/") (pathsOf glob (relDir ++ [name]) e)).
      destruct (Nat.lt_ge_cases (List.length found) maxFiles) as [Hlt|Hge].
      * rewrite (List.firstn_all2 found) by lia.
        change (forEntries (visit glob maxFiles (relDir ++ [name])) maxFiles rest found)
          with ((fix go (entries : list Entry) (results : list string) :=
                   match entries with
                   | [] => Ok results
                   | e :: rest =>
                       if (maxFiles <=? List.length results)%nat then Ok results
                       else match visit glob maxFiles (relDir ++ [name]) e results with
                            | Ok results' => go rest results'
                            | Throw msg => Throw msg
                            end
                   end) rest found).
        apply IHrest; [exact Hlt|lia].
      * rewrite (firstn_full maxFiles found) by lia.
        assert (Hcut : List.length (firstn maxFiles found) = maxFiles)
          by (rewrite List.length_firstn; lia).
        destruct rest as [|e' rest']; [reflexivity|].
        cbn [forEntries]. rewrite Hcut, Nat.leb_refl. reflexivity.
Qed.

Lemma forEntries_collects (relDir : list string) (entries : list Entry) :
  forall results : list string,
    (List.length results < maxFiles)%nat ->
    forEntries (visit glob maxFiles relDir) maxFiles entries results
    = Ok (firstn maxFiles
            (results ++ List.map (JS.join "/") (flat_map (pathsOf glob relDir) entries))).
Proof.
  induction entries as [|e rest IH]; intros results Hlen.
  - cbn. rewrite app_nil_r, List.firstn_all2; [reflexivity|lia].
  - cbn [forEntries flat_map].
    destruct (maxFiles <=? List.length results)%nat eqn:Elim;
      [apply Nat.leb_le in Elim; lia|].
    rewrite (visit_collects (size e) e relDir results) by lia.
    rewrite List.map_app, app_assoc.
    set (found := results ++ List.map (JS.join "/") (pathsOf glob relDir e)).
    destruct (Nat.lt_ge_cases (List.length found) maxFiles) as [Hlt|Hge].
    + rewrite (List.firstn_all2 found) by lia. apply IH. exact Hlt.
    + rewrite (firstn_full maxFiles found) by lia.
      assert (Hcut : List.length (firstn maxFiles found) = maxFiles)
        by (rewrite List.length_firstn; lia).
      destruct rest as [|e' rest']; [reflexivity|].
      cbn [forEntries]. rewrite Hcut, Nat.leb_refl. reflexivity.
Qed.

Lemma pathsOf_dirs :
  forall (n : nat) (e : Entry) (relDir p : list string),
    (size e <= n)%nat ->
    In p (pathsOf glob relDir e) ->
    exists dirs name, p = relDir ++ dirs ++ [name] /\
                      Forall (fun d => isSkipped d = false) dirs.
Proof.
  induction n as [|n IH]; intros e relDir p Hsize Hin.
  { destruct e; cbn in Hsize; lia. }
  destruct e as [name|name readable entries]; cbn [pathsOf] in Hin.
  - destruct (accepts glob name); [|destruct Hin].
    destruct Hin as [<-|[]]. exists [], name. split; [reflexivity|constructor].
  - change (size (Dir name readable entries))
      with (S (list_sum (List.map size entries))) in Hsize.
    destruct (isSkipped name) eqn:Eskip; [destruct Hin|].
    destruct (JS.startsWith _ ".."); [destruct Hin|].
    destruct readable; [|destruct Hin]. cbn [negb orb] in Hin.
    apply in_flat_map in Hin as (e & He & Hp).
    assert (Hle : (size e <= list_sum (List.map size entries))%nat).
    { clear - He. induction entries as [|x rest IHr]; [destruct He|].
      change (list_sum (List.map size (x :: rest)))
        with (size x + list_sum (List.map size rest))%nat.
      destruct He as [->|He]; [lia|]. specialize (IHr He). lia. }
    assert (Hle' : (size e <= n)%nat) by lia.
    destruct (IH e (relDir ++ [name]) p Hle' Hp) as (dirs & file & -> & Hdirs).
    exists (name :: dirs), file. split; [rewrite <- app_assoc; reflexivity|].
    constructor; [exact Eskip|exact Hdirs].
Qed.

(** X28. When the glob compiles, [collectFiles] on a readable directory,
    started without results, returns the first [maxFiles] files of the tree
    in the order of [readdir], as paths relative to the search path: the
    files whose name the glob accepts and that lie in no unreadable
    directory, no directory of [SKIP_DIRS] ([node_modules], [.git], [.next],
    [dist], [build], [.babylon]) and no top-level directory whose name starts
    with two dots. It never returns more than [maxFiles] paths, and no
    returned path passes through a directory of [SKIP_DIRS]. *)
Theorem collectFiles_returns_the_first_files_outside_skipped_dirs (entries : list Entry) :
  collectFiles glob maxFiles true entries []
  = Ok (List.map (JS.join "/") (firstn maxFiles (flat_map (pathsOf glob []) entries))) /\
  (List.length (firstn maxFiles (flat_map (pathsOf glob []) entries)) <= maxFiles)%nat /\
  forall p,
    In p (flat_map (pathsOf glob []) entries) ->
    exists dirs name, p = dirs ++ [name] /\ Forall (fun d => isSkipped d = false) dirs.
Proof.
  split; [|split].
  - unfold collectFiles. cbn [List.length negb].
    destruct maxFiles as [|m] eqn:Em; [reflexivity|]. cbn [Nat.leb].
    rewrite <- Em. rewrite forEntries_collects by (cbn; lia).
    cbn [app]. rewrite List.firstn_map. reflexivity.
  - rewrite List.length_firstn. lia.
  - intros p Hin. apply in_flat_map in Hin as (e & _ & Hp).
    destruct (pathsOf_dirs (size e) e [] p (le_n _) Hp) as (dirs & name & -> & Hdirs).
    exists dirs, name. split; [reflexivity|exact Hdirs].
Qed.

End FileWalkProps.

Lemma collectFiles_returns_the_first_files_outside_skipped_dirs_witness :
  let tree := [ FileWalk.Dir "node_modules" true [FileWalk.File "index.js"];
                FileWalk.Dir "src" true [FileWalk.File "a.ts"; FileWalk.File "b.ts"];
                FileWalk.File "README.md" ] in
  (forall test name, @None (string -> outcome bool) = Some test -> exists b, test name = Ok b) /\
  FileWalk.collectFiles None 2 true tree [] = Ok ["src/a.ts"; "src/b.ts"].
Proof.
  intros tree.
  assert (H : forall test name,
             @None (string -> outcome bool) = Some test -> exists b, test name = Ok b)
    by (intros test name Hnone; discriminate Hnone).
  split; [exact H|].
  exact (proj1 (collectFiles_returns_the_first_files_outside_skipped_dirs None 2 H tree)).
Defined.


Section DirectoryListingProps.
Import DirectoryListing.

Variable readdir : list string -> outcome (list Dirent).
Variable sorted : list Dirent -> list Dirent.

Lemma forEntries_within (top depth : nat)
    (enter : option (list string -> string -> Listing -> Listing)) :
  (depth <= top)%nat ->
  (forall recurse, enter = Some recurse ->
                   (S depth <= top)%nat /\
                   forall relDir l, within top l ->
                                    within top (recurse relDir (indent (S depth)) l)) ->
  forall (entries : list Dirent) (relDir : list string) (l : Listing),
    within top l ->
    within top (forEntries enter relDir (indent depth) entries l).
Proof.
  intros Hdepth Henter. induction entries as [|e rest IH]; intros relDir l Hl; [exact Hl|].
  cbn [forEntries].
  destruct (full l) eqn:Efull; [exact Hl|].
  destruct (FileWalk.isSkipped (d_name e)) eqn:Eskip; [apply IH; exact Hl|].
  assert (Hl1 : within top
                  {| lines := lines l ++ [lineOf (indent depth) e];
                     totalLen := (totalLen l
                                  + N.of_nat (String.length (lineOf (indent depth) e)) + 1)%N |}).
  { destruct Hl as [Hcount Hlines]. unfold full in Efull.
    apply orb_false_iff in Efull as [Ecount _]. apply Nat.leb_gt in Ecount.
    split; cbn [lines].
    - rewrite length_app. cbn. lia.
    - apply Forall_app. split; [exact Hlines|]. constructor; [|constructor].
      exists depth, e. split; [reflexivity|]. split; [exact Hdepth|exact Eskip]. }
  destruct enter as [recurse|]; [|apply IH; exact Hl1].
  destruct (d_isDirectory e); [|apply IH; exact Hl1].
  destruct (JS.startsWith _ ".."); [apply IH; exact Hl1|].
  apply IH. destruct (Henter recurse eq_refl) as [_ Hrec]. apply Hrec. exact Hl1.
Qed.

Lemma walk_within (top : nat) :
  forall (deeper depth : nat) (relDir : list string) (l : Listing),
    (depth + deeper = top)%nat ->
    within top l ->
    within top (walk readdir sorted deeper relDir (indent depth) l).
Proof.
  induction deeper as [|d IH]; intros depth relDir l Hsum Hl.
  - cbn [walk]. destruct (full l); [exact Hl|].
    destruct (readdir relDir) as [entries|msg]; [|exact Hl].
    apply (forEntries_within top depth None); [lia|discriminate|exact Hl].
  - cbn [walk]. destruct (full l); [exact Hl|].
    destruct (readdir relDir) as [entries|msg]; [|exact Hl].
    apply (forEntries_within top depth (Some (walk readdir sorted d))); [lia| |exact Hl].
    intros recurse Hrec. injection Hrec as <-. split; [lia|].
    intros relDir' l' Hl'. apply IH; [lia|exact Hl'].
Qed.

(** X29. Whatever the directories hold and however they are sorted, the
    tree [listDirectoryRecursive] builds from an empty listing has at most
    400 lines, and every line is the line of an entry whose name is not in
    [SKIP_DIRS] (files included), indented by two spaces per level, at a
    depth of at most [maxDepth] below the listed directory: the entries of
    [maxDepth + 1] levels are listed. *)
Theorem listing_is_bounded_in_lines_and_depth (maxDepth : nat) :
  let l := listDirectoryRecursive readdir sorted [] 0 maxDepth EmptyString
             {| lines := []; totalLen := 0 |} in
  (List.length (lines l) <= LIST_TREE_MAX_ENTRIES)%nat /\
  Forall (fun line =>
            exists depth e,
              line = lineOf (indent depth) e /\ (depth <= maxDepth)%nat /\
              FileWalk.isSkipped (d_name e) = false)
         (lines l).
Proof.
  cbv zeta. unfold listDirectoryRecursive. rewrite Nat.sub_0_r.
  apply (walk_within maxDepth maxDepth 0 [] {| lines := []; totalLen := 0 |}); [lia|].
  split; cbn; [unfold LIST_TREE_MAX_ENTRIES; lia|constructor].
Qed.

End DirectoryListingProps.

(** The bound on the depth is met: with [maxDepth = 2], the entry [c] of
    [a/b] is listed, two levels below the listed directory. *)
Example listing_reaches_maxDepth :
  let readdir := fun dir : list string =>
    if decide (dir = []) then Ok [DirectoryListing.mkDirent "a" true]
    else if decide (dir = ["a"]) then Ok [DirectoryListing.mkDirent "b" true]
    else if decide (dir = ["a"; "b"]) then Ok [DirectoryListing.mkDirent "c" true]
    else Ok [DirectoryListing.mkDirent "too-deep" false] in
  DirectoryListing.lines
    (DirectoryListing.listDirectoryRecursive readdir (fun entries => entries) [] 0 2 EmptyString
       {| DirectoryListing.lines := []; DirectoryListing.totalLen := 0 |})
  = ["d a"; "  d b"; "    d c"].
Proof. vm_compute. reflexivity. Qed.
